(* ===== verification/_CoqProject ===== *)
-Q . S2P
Prelude.v
Mem.v
Frame.v
CString.v
Protocol.v
Sunrpc.v
Wire.v
ClientXdr.v
ServerXdr.v
Handle.v
RoundTrip.v
VfsApi.v
ServerState.v
ServerProc.v
ServerTable.v
ServerSpec.v
ServerRoot.v
ServerFile.v
ServerInv.v
ServerSvc.v
DispatchInv.v
ServiceSpec.v
Dispatch.v
Status.v
Listing.v
ReaddirSpec.v
RpcApi.v
ClientProc.v
ClientState.v
ClientDir.v
ClientDirSpec.v
ClientInode.v
ClientInodeSpec.v
ClientMount.v
ClientMountSpec.v
ClientSuper.v
ClientSuperSpec.v
ClientOps.v
ClientRun.v
System.v
Agreement.v
