(* ===== verification/Prelude.v ===== *)
(** * VSNFS: a verified model of the Very Simple Network File System

    ** The program

    VSNFS is a pair of Linux kernel modules (2.6.31): a client, which makes a
    directory of another machine appear as a file system, and a server, which
    answers the client's remote procedure calls from its own file system.  A
    file is named by a handle, its inode number in decimal, which the server
    maps back to a path by a table it fills as the client looks names up.

    The client (src/): [module.c] registers the file system; [vsnfsMount.c]
    parses what is mounted from where; [vsnfsClient.c] mounts and unmounts it and
    makes inodes from handles; [vsnfsDir.c] and [vsnfsFile.c] are the operations
    the kernel calls; [vsnfsProc.c] makes the remote calls; [vsnfsXdr.c] encodes
    their arguments and decodes their results.
    The server (src/server/): [vsnfssvc.c] starts and stops the service, takes
    requests and dispatches them; [vsnfsxdr.c] decodes and encodes;
    [vsnfsproc.c] has the procedures NULL, GETROOT, LOOKUP, READDIR and READ and
    the table of paths; [vfs.c] opens, reads and lists files.
    Both share [vsnfs.h], [vsnfsXdr.h], [server/xdr.h] and [server/vsnfsd.h].

    ** How it is modelled

    Functions are programs of the monad [M S T] of this file: they take a state
    [S] and end in a result and a new state, or in a fault ([Oops]: a NULL
    pointer, an access outside its object, a use after free, a double free, a
    reference given back that is not held, a failed [BUG_ON], or fuel that ran
    out).  Kernel memory is a map from block
    numbers to bytes ([Mem]); pointers are a block and an offset; [kmalloc]
    gives a new block with arbitrary content or, where [Kmem] says so, none.
    The machine ([Arch]) has a byte order, a size of [long] and a page size, and
    no theorem fixes it; client and server may differ.  Integers are [Z], cut to
    their width where the code does ([u32], [s32], [ulong], [slong]).  Structures
    are records; those the code hands over as raw bytes (handles, paths, reply
    pages) are bytes in memory.

    What is not the program's own is an interface, a class of operations with a
    class of laws that state their documented behaviour and an instance that
    satisfies the laws, with which the witnesses compute: [Sunrpc] (the XDR
    helpers), [RpcApi] (a synchronous call), [VfsApi] (the server's file system),
    [ClientInode] (the inode cache), [ClientMount] (option matching, addresses),
    [ClientSuper] (super blocks, registration), [ClientOps] (generic directory
    reads), [ServerSvc] (sockets, threads, lockd).

    ** The files

    Foundations: this file (outcomes, the state monad and the tactics [mstep] and
    [mrun] that run it, lists and integers), [Mem], [Frame] (which blocks an
    operation may change: [scratch], [agree], [touches]), [CString], [Protocol]
    (constants, status codes, handles, argument structures), [Sunrpc], [Wire]
    (messages as byte strings, the specification of both XDR layers), [Handle].

    Encoding: [ClientXdr] ([vsnfsXdr.c]), [ServerXdr] ([server/vsnfsxdr.c]),
    [RoundTrip] (one side's encoder with the other's decoder).

    The server: [VfsApi], [ServerState] ([server/vfs.c] and the state: memory,
    table, references and files held, address limit), [ServerProc]
    ([server/vsnfsproc.c]), [ServerSvc] ([server/vsnfssvc.c]).  Its abstract
    state is a finite map from inode numbers to paths; [ServerTable] relates the
    linked list to it ([server_rel]), [ServerSpec] (LOOKUP), [ServerRoot]
    (GETROOT) and [ServerFile] (READ) prove that the procedures act on the map as
    specified.  [ServerInv] and [DispatchInv] carry the invariant through every
    branch, failed allocations included, with rules for [triple]; [ServiceSpec]
    concludes for all sequences of requests and for start and shutdown.
    [Dispatch] and [ReaddirSpec] go from the bytes of a call to the bytes of its
    reply; [Listing] specifies the page READDIR sends; [Status] follows an error
    number from the server to the client.

    The client: [RpcApi], [ClientProc] ([vsnfsProc.c] and the procedure table),
    [ClientState] (memory, mapped pages, inode cache, RPC clients), [ClientDir] and
    [ClientDirSpec] (readdir), [ClientInode] and [ClientInodeSpec] (lookup and
    [vsnfs_fhget]), [ClientMount] and [ClientMountSpec] (mount data),
    [ClientSuper] and [ClientSuperSpec] (mounting, [module.c]), [ClientOps] (the
    operation tables), [ClientRun] (sequences of calls).

    Both: [System] (a call, the request it sends and the answer), [Agreement]
    (sequences of calls over a network that loses messages and a file system
    that changes).

    ** What the theorems show

    - End to end ([System]): a mount, a lookup and a listing on the client, with
      the server dispatching what the client sent, have the results the server's
      file system gives, on any two machines, and keep the invariant across the
      two: for every inode the client knows the server has a path, one that
      resolves to that inode.  The procedure tables of the two agree.
    - Agreement ([Agreement]): the invariant holds after any sequence of calls of
      the client, whether the request, or its answer, is lost or arrives,
      whatever the answer is, and of changes to the file system other than to
      the paths the server keeps; and every call returns.  Assumed are a file
      system of regular files and directories with numbers a handle can hold,
      memory when it is asked for, and one client: a second GETROOT starts the
      table anew.  A request on which the server faults (a name that does not
      exist is one) is answered by nobody and counts as lost.
    - Refinement ([Dispatch], [ReaddirSpec], [ServerFile]): what the server
      answers to well-formed calls, and how its table changes, is what the
      abstract server does; nothing else is left allocated, open or referenced.
    - Invariants: every reachable state of the server is well formed, whatever
      was sent ([ServiceSpec]); every sequence of calls of the client returns and
      keeps [client_ok] ([ClientRun]).
    - Functional behaviour of mounting and unmounting, lookups, listings, start
      and shutdown, the daemon's loop, on success and on each kind of failure.
    - Round trips: arguments, handles, results, error numbers and mount options.
    - Termination: the client's loop over a reply page ends whatever the page
      holds ([ClientDirSpec]).
    - Bounds, errors and faults: which inode numbers a handle can hold, which
      hosts overflow the address buffer, what is too large for the argument
      store; and the inputs on which the code faults or loses what it was given,
      stated as what the code does.

    ** Fuel

    Two loops have no bound in the source: the one over a reply page
    ([fill_loop]) and the one over the mount options ([parse_options]).  Each
    turn of the first consumes at least 28 bytes of the page, each of the second
    a character of the string, so a page's worth of turns and the length of the
    string are enough; the theorems show that neither runs out.  Printing a
    number ([fmt_ld], [fmt_x]) takes one step per digit and is given as many as a
    number of its width can have.  All other recursion is structural.

    ** Not modelled

    Messages to the kernel log ([printk], [vsnfs_trace]).  The daemon's signal
    masks and thread flags, and the interleaving of its threads: requests are
    served one after the other, as with the one thread the module starts.  What
    the kernel does itself where a table of operations has no entry (setting
    attributes, for one) is not a call of the module and is left out.  The spin
    lock around the list of root aliases.  [src/server/test/], the output of
    [rpcgen] and a test program, which are not part of the file system. *)
From Stdlib Require Export ZArith Lia.
From Stdlib Require Import Strings.Byte.
From stdpp Require Export base tactics option list numbers gmap.

#[export] Set Default Goal Selector "!".

(** ** Faults and outcomes

    What the C code does to itself when it leaves defined behaviour. *)
Inductive fault : Type :=
  | NullDeref       (* load or store through a NULL pointer *)
  | OutOfBounds     (* access outside the block a pointer points into *)
  | UseAfterFree    (* access to, or second release of, a released block *)
  | NotHeld         (* a reference or an open file given back that is not held *)
  | BugOn           (* BUG_ON, or an invariant of the kernel API broken *)
  | OutOfFuel.      (* the bound given to a modelled loop was too small *)

#[export] Instance fault_eq_dec : EqDecision fault.
Proof. solve_decision. Defined.

Inductive outcome (A : Type) : Type :=
  | Done (a : A)
  | Oops (f : fault).
Arguments Done {A} a.
Arguments Oops {A} f.

#[export] Instance outcome_eq_dec `{EqDecision A} : EqDecision (outcome A).
Proof. solve_decision. Defined.

#[export] Instance outcome_ret : MRet outcome := @Done.
#[export] Instance outcome_bind : MBind outcome := λ A B f m,
  match m with Done a => f a | Oops e => Oops e end.

(** The state monad with faults in which the C functions are written. *)
Definition M (S A : Type) : Type := S → outcome (A * S).

#[export] Instance M_ret S : MRet (M S) := λ A a s, Done (a, s).
#[export] Instance M_bind S : MBind (M S) := λ A B f m s,
  match m s with Done (a, s') => f a s' | Oops e => Oops e end.

Definition get {S} : M S S := λ s, Done (s, s).
Definition gets {S A} (f : S → A) : M S A := λ s, Done (f s, s).
Definition put {S} (s : S) : M S unit := λ _, Done (tt, s).
Definition modify {S} (f : S → S) : M S unit := λ s, Done (tt, f s).
Definition oops {S A} (e : fault) : M S A := λ _, Oops e.
Definition lift_outcome {S A} (o : outcome A) : M S A := λ s,
  match o with Done a => Done (a, s) | Oops e => Oops e end.
Definition deref {S A} (o : option A) : M S A :=
  match o with Some a => mret a | None => oops NullDeref end.
(** Runs a computation on a component of a larger state. *)
Definition zoom {S T A} (g : S → T) (p : T → S → S) (m : M T A) : M S A := λ s,
  match m (g s) with Done (a, t) => Done (a, p t s) | Oops e => Oops e end.

(** ** Running monadic code in proofs *)
Create Rewrite HintDb mrun.
Create Rewrite HintDb width.
Create Rewrite HintDb zlen.
Create Rewrite HintDb ptr.
Create HintDb vsnfs discriminated.

Section monad.
Context {S A B C : Type}.
Implicit Types (m : M S A) (s : S).

Lemma bind_Done m (f : A → M S B) s a s' :
  m s = Done (a, s') → (m ≫= f) s = f a s'.
Proof. intros H. unfold mbind, M_bind. by rewrite H. Qed.

Lemma bind_Oops m (f : A → M S B) s e :
  m s = Oops e → (m ≫= f) s = Oops e.
Proof. intros H. unfold mbind, M_bind. by rewrite H. Qed.

Lemma bind_inv m (f : A → M S B) s r s'' :
  (m ≫= f) s = Done (r, s'') →
  ∃ a s', m s = Done (a, s') ∧ f a s' = Done (r, s'').
Proof.
  unfold mbind, M_bind. destruct (m s) as [[a s']|e] eqn:E; [|done]. eauto.
Qed.

Lemma bind_ret (a : A) (f : A → M S B) s : (mret a ≫= f) s = f a s.
Proof. done. Qed.
Lemma bind_gets (g : S → A) (f : A → M S B) s : (gets g ≫= f) s = f (g s) s.
Proof. done. Qed.
Lemma bind_deref (a : A) (f : A → M S B) s : (deref (Some a) ≫= f) s = f a s.
Proof. done. Qed.
Lemma bind_modify (g : S → S) (f : () → M S B) s : (modify g ≫= f) s = f tt (g s).
Proof. done. Qed.
Lemma bind_get (f : S → M S B) s : (get ≫= f) s = f s s.
Proof. done. Qed.
Lemma bind_put (t : S) (f : () → M S B) s : (put t ≫= f) s = f tt t.
Proof. done. Qed.
Lemma bind_lift (a : A) (f : A → M S B) s : (lift_outcome (Done a) ≫= f) s = f a s.
Proof. done. Qed.
Lemma bind_assoc m (f : A → M S B) (g : B → M S C) s :
  ((m ≫= f) ≫= g) s = (m ≫= λ a, f a ≫= g) s.
Proof. unfold mbind, M_bind. by destruct (m s) as [[]|]. Qed.
Lemma ret_run (a : A) s : (mret a : M S A) s = Done (a, s).
Proof. done. Qed.
End monad.
#[export] Hint Rewrite @bind_ret @bind_gets @bind_deref @bind_modify @bind_get @bind_lift
  @bind_put @bind_assoc @ret_run : mrun.

Lemma zoom_Done {S T A} (g : S → T) p (m : M T A) s a t :
  m (g s) = Done (a, t) → zoom g p m s = Done (a, p t s).
Proof. intros H. unfold zoom. by rewrite H. Qed.
Lemma zoom_Oops {S T A} (g : S → T) p (m : M T A) s e :
  m (g s) = Oops e → zoom g p m s = Oops e.
Proof. intros H. unfold zoom. by rewrite H. Qed.
Lemma zoom_inv {S T A} (g : S → T) p (m : M T A) s a s' :
  zoom g p m s = Done (a, s') → ∃ t, m (g s) = Done (a, t) ∧ s' = p t s.
Proof. unfold zoom. destruct (m (g s)) as [[]|]; naive_solver. Qed.

(** [mrun] performs the administrative steps of a monadic program;
    [mstep H] runs its first action, whose result [H] gives: the
    side conditions of [H] come first, the rest of the program last. *)
Ltac mrun := repeat (progress (autorewrite with mrun; cbv beta iota)).
Tactic Notation "mstep" uconstr(H) :=
  mrun; (first
    [ etransitivity; [eapply bind_Done; eapply H|mrun]
    | etransitivity; [eapply bind_Oops; eapply H|mrun] ]).

(** [minv H] splits a hypothesis that a program ended into one hypothesis per
    action. *)
Ltac minv H :=
  repeat match type of H with
  | (_ ≫= _) _ = Done _ =>
      let a := fresh "a" in let s := fresh "s" in let E := fresh "E" in
      apply bind_inv in H; destruct H as (a & s & E & H)
  end.

(** ** Partial correctness

    [triple P f Q]: when [f], started where [P] holds, ends without a fault,
    [Q] holds of the result.  Used for what is true on every path. *)
Definition triple {S A} (P : S → Prop) (f : M S A) (Q : A → S → Prop) : Prop :=
  ∀ s a s', P s → f s = Done (a, s') → Q a s'.

Section triple.
Context {S A B : Type}.
Implicit Types (P : S → Prop).

Lemma triple_bind P (f : M S A) (k : A → M S B) R Q :
  triple P f R → (∀ a, triple (R a) (k a) Q) → triple P (f ≫= k) Q.
Proof. intros Hf Hk s b s'' HP (a & s' & E1 & E2)%bind_inv. eapply Hk; [|done]. by eapply Hf. Qed.
Lemma triple_ret P (a : A) (Q : A → S → Prop) : (∀ s, P s → Q a s) → triple P (mret a) Q.
Proof. intros H s a' s' HP [= <- <-]. auto. Qed.
Lemma triple_pre P P' (f : M S A) Q : (∀ s, P' s → P s) → triple P f Q → triple P' f Q.
Proof. intros H Hf s a s' HP E. eapply Hf; [|done]. auto. Qed.
Lemma triple_post P (f : M S A) (Q Q' : A → S → Prop) :
  (∀ a s, Q a s → Q' a s) → triple P f Q → triple P f Q'.
Proof. intros H Hf s a s' HP E. apply H. by eapply Hf. Qed.
Lemma triple_fact P (φ : Prop) (f : M S A) Q :
  (φ → triple P f Q) → triple (λ s, φ ∧ P s) f Q.
Proof. intros H s a s' [Hφ HP] E. by eapply H. Qed.
Lemma triple_exists {X} (P : X → S → Prop) (f : M S A) Q :
  (∀ x, triple (P x) f Q) → triple (λ s, ∃ x, P x s) f Q.
Proof. intros H s a s' [x HP] E. by eapply H. Qed.
Lemma triple_case {X} (o : option X) (f : X → M S A) (g : M S A) P Q :
  (∀ x, o = Some x → triple P (f x) Q) → (o = None → triple P g Q) →
  triple P (match o with Some x => f x | None => g end) Q.
Proof. destruct o; auto. Qed.
Lemma triple_if (φ : Prop) `{!Decision φ} (f g : M S A) P Q :
  (φ → triple P f Q) → (¬ φ → triple P g Q) → triple P (if decide φ then f else g) Q.
Proof. intros. case_decide; auto. Qed.
Lemma triple_oops P e (Q : A → S → Prop) : triple P (oops e) Q.
Proof. by intros s a s' _ [=]. Qed.
Lemma triple_deref P (o : option A) (Q : A → S → Prop) :
  (∀ a s, o = Some a → P s → Q a s) → triple P (deref o) Q.
Proof. intros H s a s' HP. destruct o as [x|]; simpl; [|done]. intros [= <- <-]. auto. Qed.
Lemma triple_lift P (o : outcome A) (Q : A → S → Prop) :
  (∀ a s, o = Done a → P s → Q a s) → triple P (lift_outcome o) Q.
Proof. intros H s a s' HP. unfold lift_outcome. destruct o; [|done]. intros [= <- <-]. auto. Qed.
Lemma triple_get P (Q : S → S → Prop) : (∀ s, P s → Q s s) → triple P get Q.
Proof. intros H s a s' HP [= <- <-]. auto. Qed.
Lemma triple_gets P (g : S → A) (Q : A → S → Prop) : (∀ s, P s → Q (g s) s) → triple P (gets g) Q.
Proof. intros H s a s' HP [= <- <-]. auto. Qed.
Lemma triple_modify P g (Q : unit → S → Prop) : (∀ s, P s → Q tt (g s)) → triple P (modify g) Q.
Proof. intros H s a s' HP [= <- <-]. auto. Qed.
End triple.

(** Decides the test of the first [decide] in the goal by [lia] or [done]. *)
Ltac case_lia :=
  match goal with
  | |- context [decide ?P] =>
      first [ rewrite (decide_True (P := P)) by (first [done | lia])
            | rewrite (decide_False (P := P)) by (first [done | lia]) ]
  end.

(** Decides a closed proposition by evaluation. *)
Ltac by_eval := apply (bool_decide_unpack _); vm_compute; reflexivity.

(** ** Integers at their width *)
Declare Scope vsnfs_scope.
Delimit Scope vsnfs_scope with vsnfs.
#[global] Open Scope Z_scope.

Definition u8 (z : Z) : Z := z mod 2 ^ 8.
Definition u16 (z : Z) : Z := z mod 2 ^ 16.
Definition u32 (z : Z) : Z := z mod 2 ^ 32.
Definition s32 (z : Z) : Z := (z + 2 ^ 31) mod 2 ^ 32 - 2 ^ 31.
Definition u64 (z : Z) : Z := z mod 2 ^ 64.
Definition s64 (z : Z) : Z := (z + 2 ^ 63) mod 2 ^ 64 - 2 ^ 63.

Definition is_u32 (z : Z) : Prop := 0 ≤ z < 2 ^ 32.
Definition is_s32 (z : Z) : Prop := - 2 ^ 31 ≤ z < 2 ^ 31.
#[export] Instance is_u32_dec z : Decision (is_u32 z).
Proof. unfold is_u32. apply _. Defined.
#[export] Instance is_s32_dec z : Decision (is_s32 z).
Proof. unfold is_s32. apply _. Defined.

Ltac unfold_width :=
  unfold is_u32, is_s32, u8, u16, u32, s32, u64, s64 in *;
  change (2 ^ 8) with 256 in *; change (2 ^ 16) with 65536 in *;
  change (2 ^ 31) with 2147483648 in *; change (2 ^ 32) with 4294967296 in *;
  change (2 ^ 63) with 9223372036854775808 in *;
  change (2 ^ 64) with 18446744073709551616 in *.
Ltac solve_width := unfold_width; Z.div_mod_to_equations; lia.

Lemma u32_id z : is_u32 z → u32 z = z.
Proof. intros. solve_width. Qed.
Lemma s32_id z : is_s32 z → s32 z = z.
Proof. intros. solve_width. Qed.
Lemma u32_range z : is_u32 (u32 z).
Proof. solve_width. Qed.
Lemma s32_range z : is_s32 (s32 z).
Proof. solve_width. Qed.
Lemma s32_u32 z : s32 (u32 z) = s32 z.
Proof. solve_width. Qed.
Lemma u32_s32 z : u32 (s32 z) = u32 z.
Proof. solve_width. Qed.
Lemma u32_0_iff z : is_s32 z → u32 z = 0 ↔ z = 0.
Proof. intros. solve_width. Qed.
#[export] Hint Resolve u32_range s32_range : vsnfs.
#[export] Hint Rewrite s32_u32 u32_s32 : width.

(** ** Slices of lists, at integer offsets *)
Section slices.
Context {A : Type}.
Implicit Types (b x y : list A) (o n : Z).

Definition zlen b : Z := Z.of_nat (length b).

Definition slice b o n : option (list A) :=
  if decide (0 ≤ o ∧ 0 ≤ n ∧ o + n ≤ zlen b)
  then Some (take (Z.to_nat n) (drop (Z.to_nat o) b)) else None.

Definition splice b o x : list A :=
  take (Z.to_nat o) b ++ x ++ drop (Z.to_nat o + length x) b.

Lemma zlen_nonneg b : 0 ≤ zlen b.
Proof. unfold zlen. lia. Qed.
Lemma zlen_app x y : zlen (x ++ y) = zlen x + zlen y.
Proof. unfold zlen. rewrite length_app. lia. Qed.
Lemma zlen_cons a x : zlen (a :: x) = 1 + zlen x.
Proof. unfold zlen. simpl. lia. Qed.
Lemma zlen_nil : zlen (@nil A) = 0.
Proof. done. Qed.
Lemma zlen_replicate (n : nat) (a : A) : zlen (replicate n a) = Z.of_nat n.
Proof. unfold zlen. by rewrite length_replicate. Qed.
Lemma zlen_take (n : nat) x : zlen (take n x) = Z.min (Z.of_nat n) (zlen x).
Proof. unfold zlen. rewrite length_take. lia. Qed.
Lemma zlen_drop (n : nat) x : zlen (drop n x) = Z.max 0 (zlen x - Z.of_nat n).
Proof. unfold zlen. rewrite length_drop. lia. Qed.

Lemma zlen_splice b o x :
  0 ≤ o → o + zlen x ≤ zlen b → zlen (splice b o x) = zlen b.
Proof. unfold splice, zlen. rewrite !length_app, length_take, length_drop. lia. Qed.

(** A slice is [x] exactly when the list is [x] framed by what precedes and
    follows it. *)
Lemma slice_Some b o x :
  slice b o (zlen x) = Some x ↔
  ∃ l r, b = l ++ x ++ r ∧ zlen l = o.
Proof.
  unfold slice, zlen. split.
  - case_decide as Hd; [|done]. intros [= Hx].
    exists (take (Z.to_nat o) b), (drop (Z.to_nat o + length x) b). split.
    + rewrite Nat2Z.id in Hx. rewrite <-Hx at 1.
      by rewrite <-drop_drop, take_drop, take_drop.
    + rewrite length_take. lia.
  - intros (l & r & -> & <-). rewrite !length_app.
    rewrite decide_True by lia. rewrite !Nat2Z.id.
    by rewrite drop_app_length, take_app_length.
Qed.

Lemma slice_length b o n x : slice b o n = Some x → zlen x = n.
Proof.
  unfold slice, zlen. case_decide as Hd; [|done]. intros [= <-].
  rewrite length_take, length_drop. unfold zlen in Hd. lia.
Qed.

Lemma slice_app b o x y :
  slice b o (zlen (x ++ y)) = Some (x ++ y) ↔
  slice b o (zlen x) = Some x ∧ slice b (o + zlen x) (zlen y) = Some y.
Proof.
  rewrite !slice_Some. split.
  - intros (l & r & -> & <-). split.
    + exists l, (y ++ r). by rewrite <-!app_assoc.
    + exists (l ++ x), r. by rewrite <-!app_assoc, zlen_app.
  - intros [(l & r & -> & <-) (l' & r' & Heq & Hl)].
    rewrite app_assoc in Heq. rewrite <-zlen_app in Hl. unfold zlen in Hl.
    apply app_inj_1 in Heq as [<- ->]; [|lia].
    exists l, r'. by rewrite <-!app_assoc.
Qed.

Lemma slice_splice b o x :
  0 ≤ o → o + zlen x ≤ zlen b → slice (splice b o x) o (zlen x) = Some x.
Proof.
  intros. apply slice_Some. eexists _, _. split; [done|].
  unfold zlen in *. rewrite length_take. lia.
Qed.

Lemma slice_splice_disj b o x o' y :
  0 ≤ o → o + zlen x ≤ zlen b →
  o' + zlen y ≤ o ∨ o + zlen x ≤ o' →
  slice b o' (zlen y) = Some y → slice (splice b o x) o' (zlen y) = Some y.
Proof.
  intros Ho Hb Hd (l & r & -> & <-)%slice_Some. apply slice_Some.
  unfold splice, zlen in *. rewrite !length_app in Hb.
  destruct Hd as [Hd|Hd].
  - eexists l, (take (Z.to_nat o - (length l + length y)) r ++ x ++
      drop (Z.to_nat o + length x) (l ++ y ++ r)). split; [|done].
    rewrite (app_assoc l y r), take_app_ge by (rewrite length_app; lia).
    rewrite length_app. by rewrite <-!app_assoc.
  - eexists (take (Z.to_nat o) (l ++ y ++ r) ++ x ++
      take (length l - (Z.to_nat o + length x)) (drop (Z.to_nat o + length x) l)), r.
    split.
    + rewrite drop_app_le by lia.
      rewrite (take_ge (drop _ l)) by (rewrite length_drop; lia).
      by rewrite <-!app_assoc.
    + rewrite !length_app, length_take, length_take, length_drop, !length_app. lia.
Qed.

Lemma splice_splice_adj b o x y :
  0 ≤ o → o + zlen x + zlen y ≤ zlen b →
  splice (splice b o x) (o + zlen x) y = splice b o (x ++ y).
Proof.
  intros Ho Hb. unfold splice, zlen in *.
  replace (Z.to_nat (o + Z.of_nat (length x))) with (length (take (Z.to_nat o) b ++ x))
    by (rewrite length_app, length_take; lia).
  rewrite (app_assoc (take _ b) x (drop _ b)), take_app_length.
  rewrite <-drop_drop, drop_app_length, drop_drop, length_app, <-!app_assoc.
  by rewrite Nat.add_assoc.
Qed.

Lemma splice_nil b o : 0 ≤ o ≤ zlen b → splice b o [] = b.
Proof. intros. unfold splice. simpl. by rewrite Nat.add_0_r, take_drop. Qed.
End slices.
#[export] Hint Rewrite @zlen_app @zlen_cons @zlen_nil @zlen_replicate : zlen.

(** Linear arithmetic that knows lengths are not negative. *)
Ltac zlen_facts :=
  repeat match goal with
  | |- context [zlen ?x] =>
      lazymatch goal with
      | _ : 0 ≤ zlen x |- _ => fail
      | _ => pose proof (zlen_nonneg x)
      end
  | _ : context [zlen ?x] |- _ =>
      lazymatch goal with
      | _ : 0 ≤ zlen x |- _ => fail
      | _ => pose proof (zlen_nonneg x)
      end
  end.
Ltac zlen_lia :=
  autorewrite with zlen in *; zlen_facts; first [lia | Z.div_mod_to_equations; lia].
