(* ===== verification/Mem.v ===== *)
(** * Mem: bytes, machine words and the blocks of kernel memory

    The C code moves data between structures and raw buffers through casts,
    [memcpy], [htonl]/[ntohl] and stores through [__be32 *] cursors.  This file
    fixes what those mean: bytes, 32-bit words in big-endian and native order,
    pointers as a block and an offset, loads and stores that fault outside
    their block, and [kmalloc]/[kfree], whose failures and initial contents are
    parameters. *)
From Stdlib Require Import Strings.Byte.
From S2P Require Import Prelude.

(** ** Bytes *)
Definition byte_val (b : byte) : Z := Z.of_N (Byte.to_N b).
Definition byte_of (z : Z) : byte := default x00 (Byte.of_N (Z.to_N (u8 z))).

#[export] Instance byte_eq_dec : EqDecision byte := Byte.byte_eq_dec.
#[export] Instance byte_inhabited : Inhabited byte := populate x00.

Lemma byte_val_range b : 0 ≤ byte_val b < 256.
Proof. unfold byte_val. pose proof (Byte.to_N_bounded b). lia. Qed.

Lemma byte_val_of z : byte_val (byte_of z) = u8 z.
Proof.
  unfold byte_val, byte_of.
  assert (0 ≤ u8 z < 256) as Hz by solve_width.
  destruct (Byte.of_N (Z.to_N (u8 z))) as [b|] eqn:E; simpl.
  - apply Byte.to_of_N in E. rewrite E. lia.
  - apply Byte.of_N_None_iff in E. lia.
Qed.

Lemma byte_of_val b : byte_of (byte_val b) = b.
Proof. by destruct b. Qed.

Lemma byte_val_inj b c : byte_val b = byte_val c → b = c.
Proof. intros H. by rewrite <-(byte_of_val b), H, byte_of_val. Qed.

Lemma byte_of_mod z : byte_of (u8 z) = byte_of z.
Proof. apply byte_val_inj. rewrite !byte_val_of. solve_width. Qed.

(** ** 32-bit words in memory *)
Definition be32 (z : Z) : list byte :=
  [byte_of (Z.shiftr z 24); byte_of (Z.shiftr z 16); byte_of (Z.shiftr z 8); byte_of z].
Definition val32 (bs : list byte) : Z :=
  fold_left (λ acc b, Z.lor (Z.shiftl acc 8) (byte_val b)) bs 0.

(** The byte order, word size and page size of the machine the module runs
    on. *)
Class Arch : Type := {
  little_endian : bool;
  long_bits : Z;
  long_bits_ok : long_bits = 32 ∨ long_bits = 64;
  PAGE_SHIFT : Z;
  PAGE_SHIFT_ok : 12 ≤ PAGE_SHIFT ≤ 16;
}.
Definition PAGE_SIZE `{Arch} : Z := 2 ^ PAGE_SHIFT.

Lemma PAGE_SIZE_range `{Arch} : 4096 ≤ PAGE_SIZE ≤ 65536.
Proof.
  unfold PAGE_SIZE. pose proof PAGE_SHIFT_ok.
  change 4096 with (2 ^ 12). change 65536 with (2 ^ 16).
  split; apply Z.pow_le_mono_r; lia.
Qed.

(** The machines the examples run on. *)
Definition x86_64 : Arch.
Proof. refine {| little_endian := true; long_bits := 64; PAGE_SHIFT := 12 |}; lia. Defined.
Definition x86_32 : Arch.
Proof. refine {| little_endian := true; long_bits := 32; PAGE_SHIFT := 12 |}; lia. Defined.
Definition ppc_32 : Arch.
Proof. refine {| little_endian := false; long_bits := 32; PAGE_SHIFT := 12 |}; lia. Defined.

Definition native32 `{Arch} (z : Z) : list byte :=
  if little_endian then rev (be32 z) else be32 z.
Definition native_val32 `{Arch} (bs : list byte) : Z :=
  if little_endian then val32 (rev bs) else val32 bs.
Definition swab32 (z : Z) : Z := val32 (rev (be32 z)).
Definition htonl `{Arch} (z : Z) : Z := if little_endian then swab32 z else u32 z.
Definition ntohl `{Arch} (z : Z) : Z := htonl z.
Definition cpu_to_be32 `{Arch} (z : Z) : Z := htonl z.

(** A C [unsigned long]. *)
Definition ulong `{Arch} (z : Z) : Z := z mod 2 ^ long_bits.
(** A C [long]. *)
Definition slong `{Arch} (z : Z) : Z :=
  (z + 2 ^ (long_bits - 1)) mod 2 ^ long_bits - 2 ^ (long_bits - 1).

Lemma length_be32 z : length (be32 z) = 4%nat.
Proof. done. Qed.
Lemma zlen_be32 z : zlen (be32 z) = 4.
Proof. done. Qed.
Lemma zlen_native32 `{Arch} z : zlen (native32 z) = 4.
Proof. unfold native32. by destruct little_endian. Qed.
#[export] Hint Rewrite zlen_be32 @zlen_native32 : zlen.

Lemma land_shiftl8 a b : 0 ≤ b < 256 → Z.land (Z.shiftl a 8) b = 0.
Proof.
  intros Hb. apply Z.bits_inj'. intros n Hn. rewrite Z.land_spec, Z.bits_0.
  destruct (decide (n < 8)); [by rewrite Z.shiftl_spec_low by lia|].
  rewrite <-(Z.mod_small b (2 ^ 8)) by done.
  by rewrite Z.mod_pow2_bits_high, andb_false_r by lia.
Qed.

Lemma lor_shiftl8 a b : 0 ≤ b < 256 → Z.lor (Z.shiftl a 8) b = a * 256 + b.
Proof.
  intros Hb. pose proof (Z.add_lor_land (Z.shiftl a 8) b) as E.
  rewrite land_shiftl8, Z.shiftl_mul_pow2 in E by lia.
  rewrite Z.shiftl_mul_pow2 by lia. lia.
Qed.

Lemma val32_4 a b c d :
  val32 [a; b; c; d] =
  ((byte_val a * 256 + byte_val b) * 256 + byte_val c) * 256 + byte_val d.
Proof.
  unfold val32. simpl fold_left.
  by rewrite !lor_shiftl8 by apply byte_val_range.
Qed.

Lemma val32_be32 z : val32 (be32 z) = u32 z.
Proof.
  unfold be32. rewrite val32_4, !byte_val_of, !Z.shiftr_div_pow2 by lia.
  change (2 ^ 24) with 16777216. solve_width.
Qed.

Lemma be32_val32 bs : length bs = 4%nat → be32 (val32 bs) = bs.
Proof.
  intros H. destruct bs as [|a [|b [|c [|d []]]]]; try done. clear H.
  pose proof (byte_val_range a). pose proof (byte_val_range b).
  pose proof (byte_val_range c). pose proof (byte_val_range d).
  rewrite val32_4. unfold be32. rewrite !Z.shiftr_div_pow2 by lia.
  change (2 ^ 24) with 16777216.
  repeat f_equal; apply byte_val_inj; rewrite byte_val_of; solve_width.
Qed.

Lemma be32_u32 z : be32 (u32 z) = be32 z.
Proof. by rewrite <-val32_be32, be32_val32. Qed.

Lemma be32_inj a b : be32 a = be32 b ↔ u32 a = u32 b.
Proof.
  split; intros H.
  - by rewrite <-!val32_be32, H.
  - by rewrite <-(be32_u32 a), H, be32_u32.
Qed.

Lemma val32_range bs : length bs = 4%nat → is_u32 (val32 bs).
Proof. intros H. rewrite <-(be32_val32 bs H), val32_be32. apply u32_range. Qed.

Section words.
Context `{Arch}.

(** Storing a network-order word puts its big-endian bytes in memory, on either
    kind of machine, and loading it back undoes that. *)
Lemma native32_htonl z : native32 (htonl z) = be32 z.
Proof.
  unfold native32, htonl, swab32. destruct little_endian.
  - by rewrite be32_val32, rev_involutive.
  - apply be32_u32.
Qed.

Lemma native32_0 `{Arch} : native32 0 = be32 0.
Proof. unfold native32. by destruct little_endian. Qed.

Lemma ntohl_native z : ntohl (native_val32 (be32 z)) = u32 z.
Proof.
  unfold ntohl, native_val32, htonl, swab32. destruct little_endian.
  - by rewrite be32_val32, rev_involutive, val32_be32.
  - rewrite val32_be32. solve_width.
Qed.

Lemma ntohl_native_val bs : length bs = 4%nat → ntohl (native_val32 bs) = val32 bs.
Proof. intros. rewrite <-(be32_val32 bs) by done. by rewrite ntohl_native, val32_be32. Qed.

Lemma native_val32_native z : native_val32 (native32 z) = u32 z.
Proof.
  unfold native_val32, native32. destruct little_endian.
  - by rewrite rev_involutive, val32_be32.
  - apply val32_be32.
Qed.

Lemma native32_val bs : length bs = 4%nat → native32 (s32 (native_val32 bs)) = bs.
Proof.
  intros Hl. unfold native_val32, native32.
  destruct little_endian; rewrite <-be32_u32, u32_s32, be32_u32, be32_val32;
    rewrite ?length_rev; [by rewrite rev_involutive|done..].
Qed.

Lemma native_val32_0 bs : length bs = 4%nat → native_val32 bs = 0 ↔ val32 bs = 0.
Proof.
  intros Hl. unfold native_val32. destruct little_endian; [|done].
  destruct bs as [|a [|b [|c [|d []]]]]; try done. simpl rev.
  pose proof (byte_val_range a). pose proof (byte_val_range b).
  pose proof (byte_val_range c). pose proof (byte_val_range d).
  rewrite !val32_4. lia.
Qed.

Lemma htonl_0_iff z : htonl z = 0 ↔ u32 z = 0.
Proof.
  unfold htonl, swab32. destruct little_endian; [|done].
  rewrite <-(val32_be32 z). unfold be32. simpl rev. rewrite !val32_4.
  pose proof (byte_val_range (byte_of (Z.shiftr z 24))).
  pose proof (byte_val_range (byte_of (Z.shiftr z 16))).
  pose proof (byte_val_range (byte_of (Z.shiftr z 8))).
  pose proof (byte_val_range (byte_of z)). lia.
Qed.

Lemma ntohl_htonl z : ntohl (htonl z) = u32 z.
Proof.
  rewrite <-(ntohl_native z), <-native32_htonl, native_val32_native.
  unfold ntohl, htonl, swab32.
  destruct little_endian; [|solve_width].
  by rewrite be32_u32.
Qed.

Lemma htonl_inj a b : htonl a = htonl b ↔ u32 a = u32 b.
Proof.
  split; intros E.
  - by rewrite <-!ntohl_htonl, E.
  - rewrite <-be32_inj, <-!native32_htonl in E.
    assert (native_val32 (native32 (htonl a)) = native_val32 (native32 (htonl b)))
      as E' by by rewrite E.
    rewrite !native_val32_native in E'. revert E'.
    unfold htonl, swab32. destruct little_endian.
    + rewrite !(u32_id (val32 _)); [done|by apply val32_range..].
    + by rewrite !(u32_id (u32 _)) by apply u32_range.
Qed.
End words.

(** ** Pointers and blocks *)
Record ptr : Type := Ptr { p_blk : positive; p_off : Z }.
#[export] Instance ptr_eq_dec : EqDecision ptr.
Proof. solve_decision. Defined.

(** Pointer arithmetic on [char *] and on [__be32 *]. *)
Definition padd (p : ptr) (n : Z) : ptr := Ptr (p_blk p) (p_off p + n).
Definition wadd (p : ptr) (n : Z) : ptr := padd p (4 * n).
Notation "p +p n" := (padd p n) (at level 50, left associativity) : vsnfs_scope.
Notation "p +w n" := (wadd p n) (at level 50, left associativity) : vsnfs_scope.
Open Scope vsnfs_scope.

Record mem : Type := Mem {
  m_blocks : gmap positive (list byte);
  m_next : positive;   (* the block the next allocation gets *)
}.

Definition mem_block (m : mem) (p : ptr) : option (list byte) := m_blocks m !! p_blk p.
Definition mem_set (m : mem) (b : positive) (x : list byte) : mem :=
  Mem (<[b := x]> (m_blocks m)) (m_next m).

Definition load_bytes (p : ptr) (n : Z) : M mem (list byte) := λ m,
  match mem_block m p with
  | None => Oops UseAfterFree
  | Some b =>
      match slice b (p_off p) n with
      | Some x => Done (x, m)
      | None => Oops OutOfBounds
      end
  end.

(** The memory with [x] at [p], for a [p] with room for it. *)
Definition upd (m : mem) (p : ptr) (x : list byte) : mem :=
  match mem_block m p with
  | Some b => mem_set m (p_blk p) (splice b (p_off p) x)
  | None => m
  end.

Definition store_bytes (p : ptr) (x : list byte) : M mem unit := λ m,
  match mem_block m p with
  | None => Oops UseAfterFree
  | Some b =>
      if decide (0 ≤ p_off p ∧ p_off p + zlen x ≤ zlen b)
      then Done (tt, upd m p x) else Oops OutOfBounds
  end.

Definition store32 `{Arch} (p : ptr) (z : Z) : M mem unit := store_bytes p (native32 z).
Definition load32 `{Arch} (p : ptr) : M mem Z := bs ← load_bytes p 4; mret (native_val32 bs).

(** [in_bounds m p n]: the [n] bytes at [p] belong to a live block. *)
Definition in_bounds (m : mem) (p : ptr) (n : Z) : Prop :=
  match mem_block m p with
  | Some b => 0 ≤ p_off p ∧ 0 ≤ n ∧ p_off p + n ≤ zlen b
  | None => False
  end.
(** [has_bytes m p x]: memory holds [x] at [p]. *)
Definition has_bytes (m : mem) (p : ptr) (x : list byte) : Prop :=
  match mem_block m p with
  | Some b => slice b (p_off p) (zlen x) = Some x
  | None => False
  end.
(** The two ranges have no byte in common. *)
Definition disjoint_at (p : ptr) (n : Z) (q : ptr) (k : Z) : Prop :=
  p_blk p ≠ p_blk q ∨ p_off p + n ≤ p_off q ∨ p_off q + k ≤ p_off p.

#[export] Instance in_bounds_dec m p n : Decision (in_bounds m p n).
Proof. unfold in_bounds. destruct (mem_block m p); apply _. Defined.
#[export] Instance has_bytes_dec m p x : Decision (has_bytes m p x).
Proof. unfold has_bytes. destruct (mem_block m p); apply _. Defined.

Section pointers.
Implicit Types (m : mem) (p q : ptr) (x y : list byte).

Lemma padd_blk p n : p_blk (p +p n) = p_blk p.
Proof. done. Qed.
Lemma padd_off p n : p_off (p +p n) = p_off p + n.
Proof. done. Qed.
Lemma padd_padd p n k : p +p n +p k = p +p (n + k).
Proof. unfold padd. simpl. f_equal. lia. Qed.
Lemma padd_0 p : p +p 0 = p.
Proof. destruct p. unfold padd. simpl. f_equal. lia. Qed.

Lemma mem_block_padd m p n : mem_block m (p +p n) = mem_block m p.
Proof. done. Qed.

Lemma in_bounds_split m p n k :
  0 ≤ n → 0 ≤ k → in_bounds m p (n + k) → in_bounds m p n ∧ in_bounds m (p +p n) k.
Proof.
  unfold in_bounds. rewrite mem_block_padd, padd_off. destruct (mem_block m p); [lia|done].
Qed.

Lemma in_bounds_mono m p n k : 0 ≤ k ≤ n → in_bounds m p n → in_bounds m p k.
Proof. unfold in_bounds. destruct (mem_block m p); [lia|done]. Qed.

Lemma in_bounds_sub m p n o k :
  0 ≤ o → 0 ≤ k → o + k ≤ n → in_bounds m p n → in_bounds m (p +p o) k.
Proof.
  unfold in_bounds. rewrite mem_block_padd, padd_off. destruct (mem_block m p); [lia|done].
Qed.

Lemma in_bounds_le m p n q k :
  in_bounds m p n → p_blk q = p_blk p → 0 ≤ k →
  p_off p ≤ p_off q → p_off q + k ≤ p_off p + n → in_bounds m q k.
Proof.
  unfold in_bounds, mem_block. intros H -> ???. destruct (m_blocks m !! p_blk p); [lia|done].
Qed.

Lemma load_bytes_spec m p x :
  has_bytes m p x → load_bytes p (zlen x) m = Done (x, m).
Proof.
  unfold has_bytes, load_bytes. destruct (mem_block m p); [|done]. by intros ->.
Qed.

Lemma load_bytes_inv m p n x m' :
  load_bytes p n m = Done (x, m') → m' = m ∧ has_bytes m p x ∧ zlen x = n.
Proof.
  unfold has_bytes, load_bytes. destruct (mem_block m p); [|done].
  destruct (slice _ _ _) eqn:E; [|done]. intros [= <- <-].
  pose proof (slice_length _ _ _ _ E). by subst.
Qed.

Lemma load_bytes_in_bounds m p n :
  in_bounds m p n → ∃ x, load_bytes p n m = Done (x, m) ∧ zlen x = n ∧ has_bytes m p x.
Proof.
  unfold in_bounds, load_bytes, has_bytes. destruct (mem_block m p) as [b|]; [|done].
  intros ?. destruct (slice b (p_off p) n) as [x|] eqn:E.
  - exists x. pose proof (slice_length _ _ _ _ E). by subst.
  - exfalso. revert E. unfold slice. case_decide; [done|lia].
Qed.

Lemma load_bytes_oob m p n :
  is_Some (mem_block m p) → ¬ in_bounds m p n → load_bytes p n m = Oops OutOfBounds.
Proof.
  unfold in_bounds, load_bytes. intros [b ->] ?.
  unfold slice. by rewrite decide_False.
Qed.

Lemma store_bytes_spec m p x :
  in_bounds m p (zlen x) → store_bytes p x m = Done (tt, upd m p x).
Proof.
  unfold in_bounds, store_bytes. destruct (mem_block m p); [|done].
  intros. by rewrite decide_True by lia.
Qed.

Lemma store_bytes_oob m p x :
  is_Some (mem_block m p) → ¬ in_bounds m p (zlen x) → store_bytes p x m = Oops OutOfBounds.
Proof.
  unfold in_bounds, store_bytes. intros [b ->] ?. pose proof (zlen_nonneg x).
  rewrite decide_False; [done|lia].
Qed.

Lemma store_bytes_inv m p x m' :
  store_bytes p x m = Done (tt, m') → in_bounds m p (zlen x) ∧ m' = upd m p x.
Proof.
  unfold in_bounds, store_bytes. destruct (mem_block m p); [|done].
  case_decide; [|done]. intros [= <-]. pose proof (zlen_nonneg x). lia || (split; [lia|done]).
Qed.

Lemma has_bytes_in_bounds m p x : has_bytes m p x → in_bounds m p (zlen x).
Proof.
  unfold has_bytes, in_bounds. destruct (mem_block m p); [|done].
  unfold slice. by case_decide.
Qed.

Lemma has_bytes_app m p x y :
  has_bytes m p (x ++ y) ↔ has_bytes m p x ∧ has_bytes m (p +p zlen x) y.
Proof.
  unfold has_bytes. rewrite mem_block_padd, padd_off.
  destruct (mem_block m p); [apply slice_app|naive_solver].
Qed.

Lemma has_bytes_inj m p x y :
  zlen x = zlen y → has_bytes m p x → has_bytes m p y → x = y.
Proof.
  unfold has_bytes. destruct (mem_block m p); [|done]. intros ->. congruence.
Qed.

Lemma mem_block_upd m p x q :
  mem_block (upd m p x) q =
  if decide (p_blk p = p_blk q) then (λ b, splice b (p_off p) x) <$> mem_block m p
  else mem_block m q.
Proof.
  unfold upd. destruct (mem_block m p) as [b|] eqn:E.
  - unfold mem_block, mem_set. simpl. rewrite lookup_insert.
    case_decide; [|done]. simpl. done.
  - case_decide as Hd; [|done]. unfold mem_block in *. by rewrite <-Hd, E.
Qed.

Lemma in_bounds_upd m p x q n :
  in_bounds m p (zlen x) → in_bounds (upd m p x) q n ↔ in_bounds m q n.
Proof.
  unfold in_bounds. rewrite mem_block_upd. intros Hb. case_decide as Hd; [|done].
  unfold mem_block in *. rewrite <-Hd. destruct (m_blocks m !! p_blk p); [|done].
  simpl. rewrite zlen_splice by lia. done.
Qed.

Lemma has_bytes_upd m p x : in_bounds m p (zlen x) → has_bytes (upd m p x) p x.
Proof.
  unfold in_bounds, has_bytes. rewrite mem_block_upd, decide_True by done.
  destruct (mem_block m p); [|done]. simpl. intros. apply slice_splice; lia.
Qed.

Lemma has_bytes_upd_disj m p x q y :
  in_bounds m p (zlen x) → disjoint_at p (zlen x) q (zlen y) →
  has_bytes m q y → has_bytes (upd m p x) q y.
Proof.
  unfold in_bounds, has_bytes, disjoint_at. rewrite mem_block_upd. intros Hb Hd.
  case_decide as He; [|done]. destruct Hd as [?|Hd]; [done|].
  unfold mem_block in *. rewrite <-He. destruct (m_blocks m !! p_blk p); [|done].
  simpl. intros. apply slice_splice_disj; [lia..|naive_solver|done].
Qed.

Lemma upd_upd m p x y :
  in_bounds m p (zlen x + zlen y) →
  upd (upd m p x) (p +p zlen x) y = upd m p (x ++ y).
Proof.
  intros Hb. unfold upd at 1. rewrite mem_block_padd, mem_block_upd, decide_True by done.
  unfold in_bounds in Hb. unfold upd.
  destruct (mem_block m p) as [b|]; simpl in *; [|done].
  unfold mem_set. simpl. rewrite insert_insert_eq, splice_splice_adj by lia. done.
Qed.

Lemma upd_upd_at m p x q y :
  q = p +p zlen x → in_bounds m p (zlen x + zlen y) →
  upd (upd m p x) q y = upd m p (x ++ y).
Proof. intros ->. apply upd_upd. Qed.

Lemma upd_nil m p : in_bounds m p 0 → upd m p [] = m.
Proof.
  unfold in_bounds, upd, mem_block. destruct (m_blocks m !! p_blk p) eqn:E; [|done].
  intros. rewrite splice_nil by lia. unfold mem_set. destruct m. simpl in *.
  by rewrite insert_id.
Qed.

Lemma m_next_upd m p x : m_next (upd m p x) = m_next m.
Proof. unfold upd. by destruct (mem_block m p). Qed.

Lemma dom_upd m p x : dom (m_blocks (upd m p x)) = dom (m_blocks m).
Proof.
  unfold upd, mem_block. destruct (m_blocks m !! p_blk p) eqn:E; [|done]. simpl.
  rewrite dom_insert_L. assert (p_blk p ∈ dom (m_blocks m)) by by apply elem_of_dom.
  set_solver.
Qed.

Lemma load32_spec `{Arch} m p z :
  has_bytes m p (be32 z) →
  load32 p m = Done (native_val32 (be32 z), m).
Proof.
  intros. unfold load32. rewrite (bind_Done _ _ _ (be32 z) m); [done|].
  by apply (load_bytes_spec m p (be32 z)).
Qed.

Lemma load32_in_bounds `{Arch} m p :
  in_bounds m p 4 →
  ∃ z, is_u32 z ∧ has_bytes m p (be32 z) ∧ load32 p m = Done (native_val32 (be32 z), m).
Proof.
  intros (x & Hl & Hx & Hh)%load_bytes_in_bounds. exists (val32 x).
  assert (length x = 4%nat) by (unfold zlen in Hx; lia).
  rewrite be32_val32 by done. split_and!; [by apply val32_range|done|].
  unfold load32. by rewrite (bind_Done _ _ _ _ _ Hl).
Qed.

Lemma store32_htonl `{Arch} m p z :
  in_bounds m p 4 → store32 p (htonl z) m = Done (tt, upd m p (be32 z)).
Proof. intros. unfold store32. rewrite native32_htonl. by apply store_bytes_spec. Qed.
End pointers.

Lemma wadd_padd p n : p +w n = p +p (4 * n).
Proof. done. Qed.
#[export] Hint Rewrite wadd_padd padd_padd : ptr.

(** ** Allocation

    Which allocations fail and what a fresh block contains are not the
    program's to choose: both are parameters, indexed by the block. *)
Class Kmem : Type := {
  kmalloc_ok : positive → bool;
  kmalloc_junk : positive → Z → list byte;
  kmalloc_junk_len b n : 0 ≤ n → zlen (kmalloc_junk b n) = n;
}.

Definition kmalloc `{Kmem} (n : Z) : M mem (option ptr) := λ m,
  let b := m_next m in
  if kmalloc_ok b
  then Done (Some (Ptr b 0), Mem (<[b := kmalloc_junk b n]> (m_blocks m)) (Pos.succ b))
  else Done (None, Mem (m_blocks m) (Pos.succ b)).

(** [kfree(NULL)] does nothing; releasing anything but the start of a live
    block is a fault. *)
Definition kfree (op : option ptr) : M mem unit := λ m,
  match op with
  | None => Done (tt, m)
  | Some p =>
      match m_blocks m !! p_blk p with
      | Some _ =>
          if decide (p_off p = 0) then Done (tt, Mem (delete (p_blk p) (m_blocks m)) (m_next m))
          else Oops UseAfterFree
      | None => Oops UseAfterFree
      end
  end.

(** Blocks not yet handed out do not exist. *)
Definition mem_wf (m : mem) : Prop :=
  ∀ b, is_Some (m_blocks m !! b) → (b < m_next m)%positive.

(** The memory after a successful [kmalloc(n)]. *)
Definition alloc `{Kmem} (m : mem) (n : Z) : mem :=
  Mem (<[m_next m := kmalloc_junk (m_next m) n]> (m_blocks m)) (Pos.succ (m_next m)).
(** The memory after a failed one. *)
Definition alloc_failed (m : mem) : mem := Mem (m_blocks m) (Pos.succ (m_next m)).
(** The memory without the block of [p]. *)
Definition release (m : mem) (p : ptr) : mem :=
  Mem (delete (p_blk p) (m_blocks m)) (m_next m).

Section allocation.
Context `{Kmem}.
Implicit Types (m : mem) (p q : ptr).

Lemma kmalloc_Some m n :
  kmalloc_ok (m_next m) = true → kmalloc n m = Done (Some (Ptr (m_next m) 0), alloc m n).
Proof. unfold kmalloc. by intros ->. Qed.
Lemma kmalloc_None m n :
  kmalloc_ok (m_next m) = false → kmalloc n m = Done (None, alloc_failed m).
Proof. unfold kmalloc. by intros ->. Qed.

Lemma mem_wf_fresh m p : mem_wf m → is_Some (mem_block m p) → p_blk p ≠ m_next m.
Proof. intros Hwf Hp. apply Hwf in Hp. lia. Qed.

Lemma mem_wf_upd m p x : mem_wf m → mem_wf (upd m p x).
Proof.
  unfold mem_wf. intros Hwf b Hb. rewrite m_next_upd. apply Hwf.
  apply elem_of_dom. apply elem_of_dom in Hb. by rewrite dom_upd in Hb.
Qed.
Lemma mem_wf_alloc m n : mem_wf m → mem_wf (alloc m n).
Proof.
  unfold mem_wf, alloc. simpl. intros Hwf b. rewrite lookup_insert.
  case_decide as Hd; [subst; lia|]. intros Hb. apply Hwf in Hb. lia.
Qed.
Lemma mem_wf_alloc_failed m : mem_wf m → mem_wf (alloc_failed m).
Proof. unfold mem_wf, alloc_failed. simpl. intros Hwf b Hb. apply Hwf in Hb. lia. Qed.
Lemma mem_wf_release m p : mem_wf m → mem_wf (release m p).
Proof.
  unfold mem_wf, release. simpl. intros Hwf b. rewrite lookup_delete.
  case_decide; [by intros []|apply Hwf].
Qed.

Lemma mem_block_alloc_new m n p :
  p_blk p = m_next m → mem_block (alloc m n) p = Some (kmalloc_junk (m_next m) n).
Proof. unfold mem_block, alloc. simpl. intros ->. by rewrite lookup_insert_eq. Qed.
Lemma mem_block_alloc_ne m n p :
  p_blk p ≠ m_next m → mem_block (alloc m n) p = mem_block m p.
Proof. unfold mem_block, alloc. simpl. intros ?. by rewrite lookup_insert_ne. Qed.
Lemma mem_block_release_ne m p q :
  p_blk p ≠ p_blk q → mem_block (release m p) q = mem_block m q.
Proof. unfold mem_block, release. simpl. intros ?. by rewrite lookup_delete_ne. Qed.

Lemma in_bounds_alloc_new m n o k :
  0 ≤ o → 0 ≤ k → o + k ≤ n → in_bounds (alloc m n) (Ptr (m_next m) o) k.
Proof.
  intros. unfold in_bounds. rewrite mem_block_alloc_new by done. simpl.
  rewrite kmalloc_junk_len by lia. lia.
Qed.

Lemma kfree_spec m p :
  is_Some (mem_block m p) → p_off p = 0 → kfree (Some p) m = Done (tt, release m p).
Proof.
  unfold mem_block. intros [b Hb] Ho. unfold kfree. rewrite Hb.
  by rewrite decide_True by done.
Qed.

Lemma kfree_NULL m : kfree None m = Done (tt, m).
Proof. done. Qed.
End allocation.
#[export] Hint Resolve mem_wf_upd mem_wf_alloc mem_wf_alloc_failed mem_wf_release : vsnfs.

(** [solve_bounds] proves [in_bounds] goals after updates, and for parts of a
    range that is known to be in bounds. *)
Ltac solve_bounds :=
  lazymatch goal with
  | |- in_bounds (upd _ _ _) _ _ => apply in_bounds_upd; solve_bounds
  | |- in_bounds ?m _ _ =>
      match goal with
      | H : in_bounds m _ _ |- _ =>
          refine (in_bounds_le _ _ _ _ _ H _ _ _ _);
          [ reflexivity | simpl p_off in *; zlen_lia .. ]
      end
  end.

(** [ptr_lia] proves equalities of pointers into one block; [use_bytes] proves
    that memory holds [x] somewhere from a hypothesis that says so, at a pointer
    written differently, perhaps before an update elsewhere. *)
Ltac ptr_lia := unfold wadd, padd; cbn [p_blk p_off]; f_equal; zlen_lia.
Ltac use_bytes :=
  match goal with
  | H : has_bytes ?m ?q ?x |- has_bytes ?m ?p ?y =>
      unify x y; first [ exact H | replace p with q by ptr_lia; exact H ]
  | |- has_bytes (upd ?m ?p ?x) ?q ?x =>
      first [ apply has_bytes_upd; solve_bounds
            | replace q with p by ptr_lia; apply has_bytes_upd; solve_bounds ]
  end.

(** Merges an update with the one just before it in memory. *)
Ltac merge_upd := rewrite upd_upd_at by (first [ptr_lia | solve_bounds]).

(** ** Framing

    [touches m b m']: [m'] differs from [m] at most in the contents of block
    [b], whose size is the same. *)
Definition touches (m : mem) (b : positive) (m' : mem) : Prop :=
  ∃ c c', m_blocks m !! b = Some c ∧ zlen c' = zlen c ∧ m' = mem_set m b c'.

Section framing.
Implicit Types (m : mem) (p q : ptr) (x y : list byte).

Lemma touches_upd m p x : in_bounds m p (zlen x) → touches m (p_blk p) (upd m p x).
Proof.
  unfold in_bounds, upd, touches. destruct (mem_block m p) as [c|] eqn:E; [|done].
  intros Hb. exists c, (splice c (p_off p) x). split_and!; [done| |done].
  apply zlen_splice; lia.
Qed.

Lemma touches_trans m1 m2 m3 b : touches m1 b m2 → touches m2 b m3 → touches m1 b m3.
Proof.
  intros (c & c' & H1 & H2 & ->) (d & d' & H3 & H4 & ->). simpl in H3.
  rewrite lookup_insert_eq in H3. simplify_eq. exists c, d'. split_and!; [done|lia|].
  unfold mem_set. simpl. by rewrite insert_insert_eq.
Qed.

Lemma touches_refl m b c : m_blocks m !! b = Some c → touches m b m.
Proof.
  intros H. exists c, c. split_and!; [done|done|]. destruct m. unfold mem_set. simpl in *.
  by rewrite insert_id.
Qed.

Lemma touches_block m b m' p :
  touches m b m' → p_blk p ≠ b → mem_block m' p = mem_block m p.
Proof.
  intros (c & c' & H1 & H2 & ->) Hp. unfold mem_block, mem_set. simpl.
  by rewrite lookup_insert_ne.
Qed.
Lemma touches_next m b m' : touches m b m' → m_next m' = m_next m.
Proof. by intros (c & c' & H1 & H2 & ->). Qed.

Lemma touches_has_bytes m b m' p x :
  touches m b m' → p_blk p ≠ b → has_bytes m p x → has_bytes m' p x.
Proof. intros Ht Hp. unfold has_bytes. by rewrite (touches_block _ _ _ _ Ht Hp). Qed.

Lemma touches_in_bounds_iff m b m' p n :
  touches m b m' → in_bounds m' p n ↔ in_bounds m p n.
Proof.
  intros Ht. unfold in_bounds. destruct (decide (p_blk p = b)) as [<-|Hp].
  - destruct Ht as (c & c' & H1 & H2 & ->). unfold mem_block, mem_set. simpl.
    rewrite H1, lookup_insert_eq. lia.
  - by rewrite (touches_block _ _ _ _ Ht Hp).
Qed.
Lemma touches_in_bounds m b m' p n :
  touches m b m' → in_bounds m p n → in_bounds m' p n.
Proof. intros Ht. by rewrite (touches_in_bounds_iff m b m' p n Ht). Qed.

Lemma touches_wf m b m' : touches m b m' → mem_wf m → mem_wf m'.
Proof.
  intros (c & c' & H1 & H2 & ->) Hwf b'. unfold mem_set. simpl.
  rewrite lookup_insert. case_decide; subst; intros; apply Hwf; [by rewrite H1|done].
Qed.

(** Blocks only added: what memory held it still holds. *)
Lemma has_bytes_sub m m' p x :
  m_blocks m ⊆ m_blocks m' → has_bytes m p x → has_bytes m' p x.
Proof.
  intros Hs. unfold has_bytes, mem_block. destruct (m_blocks m !! p_blk p) as [c|] eqn:E; [|done].
  by rewrite (lookup_weaken _ _ _ _ E Hs).
Qed.

Lemma has_bytes_alloc `{Kmem} m n p x :
  mem_wf m → has_bytes m p x → has_bytes (alloc m n) p x.
Proof.
  intros Hwf Hh. unfold has_bytes in *. rewrite mem_block_alloc_ne; [done|].
  apply mem_wf_fresh; [done|]. destruct (mem_block m p); [eauto|done].
Qed.
Lemma in_bounds_alloc `{Kmem} m n p k :
  mem_wf m → in_bounds m p k → in_bounds (alloc m n) p k.
Proof.
  intros Hwf Hh. unfold in_bounds in *. rewrite mem_block_alloc_ne; [done|].
  apply mem_wf_fresh; [done|]. destruct (mem_block m p); [eauto|done].
Qed.
Lemma has_bytes_live m p x : has_bytes m p x → is_Some (m_blocks m !! p_blk p).
Proof. unfold has_bytes, mem_block. destruct (m_blocks m !! p_blk p); [eauto|done]. Qed.
Lemma has_bytes_fresh m p x : mem_wf m → has_bytes m p x → p_blk p ≠ m_next m.
Proof. intros Hwf Hh. apply has_bytes_live in Hh. apply Hwf in Hh. lia. Qed.
End framing.

(** ** Concrete memories, for the examples *)
Definition mem_of (l : list (positive * list byte)) : mem := Mem (list_to_map l) 100.
Definition zeros (n : nat) : list byte := replicate n x00.

Lemma mem_of_wf l : Forall (λ x, x.1 < 100)%positive l → mem_wf (mem_of l).
Proof.
  intros Hl b [x Hb]. simpl in *. apply elem_of_list_to_map_2 in Hb.
  rewrite Forall_forall in Hl. by apply (Hl (b, x)).
Qed.

(** An allocator that fails for the blocks in [bad]. *)
Lemma ref_junk_len (n : Z) : 0 ≤ n → zlen (replicate (Z.to_nat n) xa5) = n.
Proof. intros Hn. unfold zlen. rewrite length_replicate. lia. Qed.
Definition kmem_ref (bad : list positive) : Kmem := {|
  kmalloc_ok b := bool_decide (b ∉ bad);
  kmalloc_junk _ n := replicate (Z.to_nat n) xa5;
  kmalloc_junk_len _ := ref_junk_len;
|}.
