(* ===== verification/Frame.v ===== *)
(** * Frame: which blocks an operation changes

    [agree], [live] and [scratch] relate the memory before and after a piece of
    the server: blocks left alone, blocks that exist, and temporary blocks that
    must be gone when a procedure returns. *)
From Stdlib Require Import Strings.Byte.
From S2P Require Import Prelude Mem.

(** [agree D m m']: the same blocks, apart from those in [D]. *)
Definition agree (D : list positive) (m m' : mem) : Prop :=
  ∀ b, b ∉ D → m_blocks m' !! b = m_blocks m !! b.

Lemma agree_refl D m : agree D m m.
Proof. by intros b _. Qed.
Lemma agree_trans D m1 m2 m3 : agree D m1 m2 → agree D m2 m3 → agree D m1 m3.
Proof. intros H1 H2 b Hb. by rewrite H2, H1. Qed.
Lemma agree_weaken D D' m m' : D ⊆ D' → agree D m m' → agree D' m m'.
Proof. intros Hs H b Hb. apply H. set_solver. Qed.
Lemma agree_touches D m b m' : b ∈ D → touches m b m' → agree D m m'.
Proof.
  intros Hb (c & c' & H1 & H2 & ->) b' Hb'. simpl. rewrite lookup_insert_ne; [done|].
  set_solver.
Qed.
Lemma agree_alloc `{Kmem} D m n : m_next m ∈ D → agree D m (alloc m n).
Proof. intros Hb b' Hb'. simpl. rewrite lookup_insert_ne; [done|]. set_solver. Qed.
Lemma agree_release D m p : p_blk p ∈ D → agree D m (release m p).
Proof. intros Hb b' Hb'. simpl. rewrite lookup_delete_ne; [done|]. set_solver. Qed.
Lemma agree_has_bytes D m m' p x :
  agree D m m' → p_blk p ∉ D → has_bytes m p x → has_bytes m' p x.
Proof. intros Ha Hp. unfold has_bytes, mem_block. by rewrite Ha. Qed.

Section frame.
Context `{Km : Kmem}.
Implicit Types (m : mem) (b : positive).

(** Whether a block exists. *)
Definition live (m : mem) (b : positive) : Prop := is_Some (m_blocks m !! b).

Lemma live_touches m b m' b' : touches m b m' → live m' b' ↔ live m b'.
Proof.
  intros (c & c' & H1 & H2 & ->). unfold live. simpl. rewrite lookup_insert.
  case_decide; [|done]. subst. rewrite H1. split; eauto.
Qed.
Lemma live_alloc m n b' : live (alloc m n) b' ↔ live m b' ∨ b' = m_next m.
Proof.
  unfold live, alloc. simpl. rewrite lookup_insert. case_decide; subst; split; eauto.
  by intros [?| ->].
Qed.
Lemma live_release m p b' : live (release m p) b' ↔ live m b' ∧ b' ≠ p_blk p.
Proof.
  unfold live, release. simpl. rewrite lookup_delete. case_decide; subst; split.
  - by intros [].
  - by intros [].
  - by intros; split.
  - by intros [].
Qed.

Lemma in_bounds_live m p n : in_bounds m p n → live m (p_blk p).
Proof. unfold in_bounds, mem_block, live. destruct (m_blocks m !! p_blk p); [eauto|done]. Qed.

(** [scratch B m m']: [m'] is [m] with the new blocks [B] besides. *)
Record scratch (B : list positive) (m m' : mem) : Prop := Scratch {
  sc_old : mem_wf m;
  sc_fresh b : b ∈ B → (m_next m ≤ b)%positive;
  sc_live b : b ∈ B → live m' b;
  sc_agree : agree B m m';
  sc_wf : mem_wf m';
  sc_next : (m_next m ≤ m_next m')%positive;
}.

Lemma scratch_refl m : mem_wf m → scratch [] m m.
Proof. intros. split; [done|set_solver|set_solver|apply agree_refl|done|lia]. Qed.
Lemma scratch_alloc B m m' n : scratch B m m' → scratch (m_next m' :: B) m (alloc m' n).
Proof.
  intros []. split; simpl; [done| | | |by apply mem_wf_alloc|lia].
  - intros b [->|?]%elem_of_cons; auto.
  - intros b Hb%elem_of_cons. rewrite live_alloc. naive_solver.
  - eapply agree_trans; [by eapply agree_weaken; [|done]; set_solver|].
    apply agree_alloc. set_solver.
Qed.
Lemma scratch_alloc_failed B m m' : scratch B m m' → scratch B m (alloc_failed m').
Proof. intros []. split; simpl; [done..|by apply mem_wf_alloc_failed|lia]. Qed.
Lemma scratch_touches B m m1 b m2 : b ∈ B → touches m1 b m2 → scratch B m m1 → scratch B m m2.
Proof.
  intros Hb Ht []. split; [done|done| | |by eapply touches_wf|by rewrite (touches_next _ _ _ Ht)].
  - intros b' ?. rewrite (live_touches _ _ _ _ Ht). auto.
  - eapply agree_trans; [done|]. by eapply agree_touches.
Qed.
Lemma scratch_release B m m' b :
  b ∉ B → scratch (b :: B) m m' → scratch B m (release m' (Ptr b 0)).
Proof.
  intros Hb []. assert (¬ live m b) as Hnew.
  { intros Hl%sc_old0. specialize (sc_fresh0 b (list_elem_of_here _ _)). lia. }
  split; simpl; [done|set_solver| | |by apply mem_wf_release|done].
  - intros b' Hb'. apply live_release. split; [set_solver|]. simpl. by intros ->.
  - intros b' Hb'. simpl. rewrite lookup_delete. case_decide as Hd.
    + subst b'. unfold live in Hnew. destruct (m_blocks m !! b); [exfalso; eauto|done].
    + apply sc_agree0. set_solver.
Qed.

Lemma scratch_equiv B B' m m' : (∀ b, b ∈ B ↔ b ∈ B') → scratch B m m' → scratch B' m m'.
Proof.
  intros HB []. split; [done| | | |done|done].
  - intros b Hb%HB. auto.
  - intros b Hb%HB. auto.
  - intros b Hb. apply sc_agree0. by rewrite HB.
Qed.

Lemma scratch_upd B m m' p x :
  scratch B m m' → in_bounds m p (zlen x) → scratch B (upd m p x) (upd m' p x).
Proof.
  intros Hs Hb. assert (p_blk p ∉ B) as Hp.
  { intros Hin%(sc_fresh _ _ _ Hs). apply in_bounds_live, (sc_old _ _ _ Hs) in Hb. lia. }
  destruct Hs as [H1 H2 H3 H4 H5 H6]. split; rewrite ?m_next_upd; auto using mem_wf_upd.
  - intros b Hin. apply H3 in Hin. unfold live in *. by rewrite <-elem_of_dom, dom_upd, elem_of_dom.
  - intros b Hin. pose proof (mem_block_upd m' p x (Ptr b 0)) as E1.
    pose proof (mem_block_upd m p x (Ptr b 0)) as E2. unfold mem_block in *. simpl in *.
    by rewrite E1, E2, (H4 b Hin), (H4 (p_blk p) Hp).
Qed.

Lemma scratch_trans B m m1 m2 : scratch B m m1 → scratch [] m1 m2 → scratch B m m2.
Proof.
  intros [] []. split; try done.
  - intros b Hb. unfold live. rewrite sc_agree1 by set_solver. by apply sc_live0.
  - eapply agree_trans; [done|]. eapply agree_weaken; [|done]. set_solver.
  - lia.
Qed.

Lemma scratch_app B B' m m1 m2 : scratch B m m1 → scratch B' m1 m2 → scratch (B' ++ B) m m2.
Proof.
  intros [] []. split; try done.
  - intros b [Hb|Hb]%elem_of_app; [|by apply sc_fresh0]. apply sc_fresh1 in Hb. lia.
  - intros b Hb. destruct (decide (b ∈ B')) as [|Hn]; [by apply sc_live1|].
    unfold live. rewrite sc_agree1 by done. apply sc_live0. set_solver.
  - eapply agree_trans; (eapply agree_weaken; [|eassumption]); set_solver.
  - lia.
Qed.

(** A change to an old block could have come first. *)
Lemma scratch_touch_old B m m1 b m2 :
  scratch B m m1 → live m b → touches m1 b m2 → ∃ mr, touches m b mr ∧ scratch B mr m2.
Proof.
  intros Hs Hl (x & x' & Hx & Hlen & ->). assert (b ∉ B) as Hb.
  { intros Hin%(sc_fresh _ _ _ Hs). apply (sc_old _ _ _ Hs) in Hl. lia. }
  destruct Hs as [H1 H2 H3 H4 H5 H6]. exists (mem_set m b x'). split.
  { exists x, x'. split_and!; [|done|done]. by rewrite <-(H4 b Hb). }
  assert (∀ m0, live m0 b → mem_wf m0 → mem_wf (mem_set m0 b x')) as Hset.
  { intros m0 Hl0 Hwf b' Hb'. simpl in *. apply Hwf. rewrite lookup_insert in Hb'.
    by case_decide; subst. }
  split; simpl; auto.
  - intros b' Hb'. unfold live. simpl. rewrite lookup_insert_ne by (intros ->; done). by apply H3.
  - intros b' Hb'. simpl. rewrite !lookup_insert. case_decide; [done|by apply H4].
  - apply Hset; [|done]. unfold live. eauto.
Qed.

(** What the old memory held, and which of its blocks are new. *)
Lemma scratch_old B m m' b : scratch B m m' → live m b → b ∉ B.
Proof. intros [] Hl Hb%sc_fresh0. apply sc_old0 in Hl. lia. Qed.
Lemma scratch_has_bytes B m m' p x : scratch B m m' → has_bytes m p x → has_bytes m' p x.
Proof.
  intros Hs Hh. eapply agree_has_bytes; [apply Hs| |done].
  eapply scratch_old; [done|]. by eapply has_bytes_live.
Qed.
Lemma scratch_in_bounds B m m' p n : scratch B m m' → in_bounds m p n → in_bounds m' p n.
Proof.
  intros Hs Hh. assert (p_blk p ∉ B) as Hp.
  { eapply scratch_old; [done|]. unfold in_bounds, mem_block in Hh. unfold live.
    destruct (m_blocks m !! p_blk p); [eauto|done]. }
  unfold in_bounds, mem_block in *. by rewrite (sc_agree _ _ _ Hs) by done.
Qed.
Lemma scratch_live B m m' b : scratch B m m' → live m' b ↔ live m b ∨ b ∈ B.
Proof.
  intros Hs. destruct (decide (b ∈ B)) as [Hb|Hb].
  - split; [auto|]. intros _. by apply Hs.
  - unfold live. rewrite (sc_agree _ _ _ Hs) by done. naive_solver.
Qed.
Lemma scratch_frame B m m' b : scratch B m m' → live m b → m_blocks m' !! b = m_blocks m !! b.
Proof. intros Hs Hl. apply (sc_agree _ _ _ Hs). by eapply scratch_old. Qed.
End frame.
