(* ===== verification/CString.v ===== *)
(** * CString: the string routines the code calls

    NUL-terminated strings, [snprintf "%ld"], and [simple_strtoul] and
    [simple_strtol] with base 0, each on the bytes from the pointer to the end
    of the object it points into: a scan that runs off that object is a fault. *)
From Stdlib Require Import Strings.Byte.
From S2P Require Import Prelude Mem.

Abbreviation NUL := x00.
Abbreviation SLASH := x2f.

(** The string at the head of [bs]: what precedes its first NUL. *)
Fixpoint c_string (bs : list byte) : option (list byte) :=
  match bs with
  | [] => None
  | b :: r => if decide (b = NUL) then Some [] else cons b <$> c_string r
  end.

Lemma c_string_Some bs s :
  c_string bs = Some s ↔ ∃ r, bs = s ++ NUL :: r ∧ NUL ∉ s.
Proof.
  revert s. induction bs as [|b bs IH]; intros s; simpl.
  - split; [done|]. intros (r & ? & _). by destruct s.
  - case_decide as Hb; subst.
    + split; [intros [= <-]; exists bs; set_solver|].
      intros (r & Heq & Hn). destruct s; [done|]. simplify_eq/=. set_solver.
    + rewrite fmap_Some. setoid_rewrite IH. split.
      * intros (s' & (r & -> & ?) & ->). exists r. set_solver.
      * intros (r & Heq & Hn). destruct s as [|c s]; simplify_eq/=.
        exists s. split; [|done]. exists r. set_solver.
Qed.

Lemma c_string_app s r : NUL ∉ s → c_string (s ++ NUL :: r) = Some s.
Proof. intros. apply c_string_Some. eauto. Qed.

(** [strlen]-style access: the string a pointer points to. *)
Definition load_cstr (p : ptr) : M mem (list byte) := λ m,
  match mem_block m p with
  | None => Oops UseAfterFree
  | Some b =>
      if decide (0 ≤ p_off p) then
        match c_string (drop (Z.to_nat (p_off p)) b) with
        | Some s => Done (s, m)
        | None => Oops OutOfBounds
        end
      else Oops OutOfBounds
  end.

Lemma load_cstr_spec m p s :
  NUL ∉ s → has_bytes m p (s ++ [NUL]) →
  load_cstr p m = Done (s, m).
Proof.
  unfold has_bytes, load_cstr. intros Hs Hh. destruct (mem_block m p) as [b|]; [|done].
  apply slice_Some in Hh as (l & r & -> & Hl).
  pose proof (zlen_nonneg l). rewrite decide_True by lia.
  rewrite <-Hl. unfold zlen. rewrite Nat2Z.id, drop_app_length, <-app_assoc.
  simpl. by rewrite c_string_app.
Qed.

Lemma load_cstr_inv m p s m' :
  load_cstr p m = Done (s, m') → m' = m ∧ (NUL ∉ s) ∧ has_bytes m p (s ++ [NUL]).
Proof.
  unfold has_bytes, load_cstr. destruct (mem_block m p) as [b|]; [|done].
  case_decide; [|done]. destruct (c_string _) eqn:E; [|done]. intros [= <- <-].
  apply c_string_Some in E as (r & E & ?). split_and!; [done..|].
  apply slice_Some. exists (take (Z.to_nat (p_off p)) b), r. split.
  - rewrite <-app_assoc. simpl. by rewrite <-E, take_drop.
  - assert (length (drop (Z.to_nat (p_off p)) b) ≠ 0%nat) as Hd.
    { rewrite E, length_app. simpl. lia. }
    rewrite length_drop in Hd. unfold zlen. rewrite length_take. lia.
Qed.

Lemma c_string_none bs : NUL ∉ bs → c_string bs = None.
Proof.
  induction bs as [|b bs IH]; [done|]. intros Hn. simpl. rewrite decide_False by set_solver.
  by rewrite IH by set_solver.
Qed.
(** A block without a terminator. *)
Lemma load_cstr_unterminated m p x :
  mem_block m p = Some x → p_off p = 0 → NUL ∉ x → load_cstr p m = Oops OutOfBounds.
Proof.
  intros Hb Ho Hx. unfold load_cstr. rewrite Hb, Ho, decide_True by done.
  by rewrite drop_0, c_string_none.
Qed.

(** ** Decimal output *)
Definition digit (d : Z) : byte := byte_of (48 + d).

Fixpoint digits (fuel : nat) (n : Z) : list byte :=
  match fuel with
  | O => []
  | S f => if decide (n < 10) then [digit n] else digits f (n / 10) ++ [digit (n mod 10)]
  end.

(** The characters of ["%ld"]. *)
Definition fmt_ld (v : Z) : list byte :=
  if decide (v < 0) then x2d :: digits (S (Z.to_nat (Z.log2 (- v)))) (- v)
  else digits (S (Z.to_nat (Z.log2 v))) v.

(** [snprintf(dst, size, "%ld", v)]. *)
Definition snprintf_ld (dst : list byte) (size v : Z) : list byte :=
  splice dst 0 (take (Z.to_nat (size - 1)) (fmt_ld v) ++ [NUL]).

(** ** Number input *)
Definition xdigit (b : byte) : option Z :=
  let v := byte_val b in
  if decide (48 ≤ v ≤ 57) then Some (v - 48)
  else if decide (97 ≤ v ≤ 102) then Some (v - 87)
  else if decide (65 ≤ v ≤ 70) then Some (v - 55)
  else None.

Fixpoint strto_digits `{Arch} (base acc : Z) (bs : list byte) : outcome (Z * list byte) :=
  match bs with
  | [] => Oops OutOfBounds
  | b :: r =>
      match xdigit b with
      | Some v => if decide (v < base) then strto_digits base (ulong (acc * base + v)) r
                  else Done (acc, bs)
      | None => Done (acc, bs)
      end
  end.

(** The base a string selects: 0x... is hexadecimal, 0... octal. *)
Definition guess_base (bs : list byte) : Z :=
  match bs with
  | x30 :: (x78 | x58) :: b :: _ => if decide (is_Some (xdigit b)) then 16 else 8
  | x30 :: _ => 8
  | _ => 10
  end.

(** [simple_strtoul(cp, endp, 0)]: the value and what [*endp] points to. *)
Definition simple_strtoul `{Arch} (bs : list byte) : outcome (Z * list byte) :=
  let base := guess_base bs in
  strto_digits base 0 (if decide (base = 16) then drop 2 bs else bs).

(** [simple_strtol(cp, endp, 0)]. *)
Definition simple_strtol `{Arch} (bs : list byte) : outcome (Z * list byte) :=
  match bs with
  | x2d :: r => '(v, e) ← simple_strtoul r; mret (slong (- v), e)
  | _ => '(v, e) ← simple_strtoul bs; mret (slong v, e)
  end.

(** ** Decimal strings denote the number they were printed from *)
Definition is_digit (b : byte) : Prop := 48 ≤ byte_val b ≤ 57.
#[export] Instance is_digit_dec b : Decision (is_digit b).
Proof. unfold is_digit. apply _. Defined.

Definition dec_val (acc : Z) (bs : list byte) : Z :=
  fold_left (λ a b, a * 10 + (byte_val b - 48)) bs acc.

Lemma byte_val_digit d : 0 ≤ d < 10 → byte_val (digit d) = 48 + d.
Proof. intros. unfold digit. rewrite byte_val_of. solve_width. Qed.

Lemma is_digit_digit d : 0 ≤ d < 10 → is_digit (digit d).
Proof. intros. unfold is_digit. rewrite byte_val_digit; lia. Qed.

Lemma is_digit_NUL : ¬ is_digit NUL.
Proof. unfold is_digit. vm_compute. intros []. congruence. Qed.

Lemma dec_val_app acc x y : dec_val acc (x ++ y) = dec_val (dec_val acc x) y.
Proof. apply fold_left_app. Qed.

Lemma dec_val_acc acc bs : dec_val acc bs = acc * 10 ^ zlen bs + dec_val 0 bs.
Proof.
  revert acc. induction bs as [|b bs IH]; intros acc; simpl.
  - unfold zlen. simpl. lia.
  - rewrite zlen_cons. rewrite IH. rewrite (IH (0 * 10 + _)).
    rewrite Z.pow_add_r by (pose proof (zlen_nonneg bs); lia). lia.
Qed.

Lemma dec_val_bound bs : Forall is_digit bs → 0 ≤ dec_val 0 bs < 10 ^ zlen bs.
Proof.
  induction 1 as [|b bs Hb Hbs IH]; [unfold zlen; simpl; lia|].
  simpl. rewrite dec_val_acc, zlen_cons. unfold is_digit in Hb.
  pose proof (zlen_nonneg bs).
  rewrite Z.pow_add_r by lia. nia.
Qed.

(** The decimal characters of [n]: digits only, denoting [n], and without a
    leading zero unless [n] is zero. *)
Lemma digits_spec fuel n :
  0 ≤ n < 10 ^ Z.of_nat fuel → (0 < fuel)%nat →
  Forall is_digit (digits fuel n) ∧ dec_val 0 (digits fuel n) = n ∧
  (0 < n → ∃ b r, digits fuel n = b :: r ∧ 49 ≤ byte_val b ≤ 57) ∧
  (0 < n → 10 ^ (zlen (digits fuel n) - 1) ≤ n).
Proof.
  revert n. induction fuel as [|f IH]; intros n Hn Hf; [lia|]. simpl.
  case_decide as Hd.
  - split_and!.
    + repeat constructor; unfold is_digit; rewrite byte_val_digit; lia.
    + simpl. rewrite byte_val_digit; lia.
    + intros. exists (digit n), []. rewrite byte_val_digit; [|lia]. split; [done|lia].
    + intros. unfold zlen. simpl. lia.
  - assert (0 < f)%nat as Hf'. { destruct f; [|lia]. simpl in Hn. lia. }
    rewrite Nat2Z.inj_succ, Z.pow_succ_r in Hn by lia.
    destruct (IH (n / 10)) as (H1 & H2 & H3 & H4); [|done|].
    { split; [apply Z.div_pos; lia|]. apply Z.div_lt_upper_bound; lia. }
    assert (0 < n / 10) as Hp by (apply Z.div_str_pos; lia).
    specialize (H4 Hp). destruct (H3 Hp) as (b & r & Hb & Hb').
    pose proof (Z.mod_pos_bound n 10 ltac:(lia)).
    split_and!.
    + apply Forall_app. split; [done|]. repeat constructor; apply is_digit_digit; lia.
    + rewrite dec_val_app, H2. simpl. rewrite byte_val_digit by lia.
      pose proof (Z.div_mod n 10). lia.
    + intros _. exists b, (r ++ [digit (n mod 10)]). by rewrite Hb.
    + intros _. rewrite zlen_app, Hb, zlen_cons in *.
      change (zlen [_]) with 1. pose proof (zlen_nonneg r).
      replace (1 + zlen r + 1 - 1) with (Z.succ (1 + zlen r - 1)) by lia.
      rewrite Z.pow_succ_r by lia. pose proof (Z.div_mod n 10). lia.
Qed.

Lemma fmt_ld_spec v :
  0 ≤ v →
  Forall is_digit (fmt_ld v) ∧ dec_val 0 (fmt_ld v) = v ∧
  (0 < v → ∃ b r, fmt_ld v = b :: r ∧ 49 ≤ byte_val b ≤ 57) ∧
  (0 < v → 10 ^ (zlen (fmt_ld v) - 1) ≤ v).
Proof.
  intros Hv. unfold fmt_ld. rewrite decide_False by lia. apply digits_spec; [|lia].
  split; [done|]. destruct (decide (v = 0)) as [->|]; [done|].
  apply Z.lt_le_trans with (2 ^ Z.succ (Z.log2 v)).
  - apply Z.log2_spec. lia.
  - pose proof (Z.log2_nonneg v).
    replace (Z.of_nat (S (Z.to_nat (Z.log2 v)))) with (Z.succ (Z.log2 v)) by lia.
    apply Z.pow_le_mono_l. lia.
Qed.

Lemma fmt_ld_len v k : 0 ≤ v < 10 ^ k → 1 ≤ k → zlen (fmt_ld v) ≤ k.
Proof.
  intros Hv Hk. destruct (decide (v = 0)) as [->|]; [unfold zlen; simpl; lia|].
  destruct (fmt_ld_spec v) as (_ & _ & _ & H); [lia|]. specialize (H ltac:(lia)).
  destruct (decide (zlen (fmt_ld v) ≤ k)); [done|].
  assert (10 ^ k ≤ 10 ^ (zlen (fmt_ld v) - 1)) by (apply Z.pow_le_mono_r; lia). lia.
Qed.

Lemma fmt_ld_nonempty v : 0 ≤ v → 1 ≤ zlen (fmt_ld v).
Proof.
  intros Hv. destruct (decide (v = 0)) as [->|]; [done|].
  destruct (fmt_ld_spec v Hv) as (_ & _ & (b & r & -> & _) & _); [lia|].
  rewrite zlen_cons. pose proof (zlen_nonneg r). lia.
Qed.

(** Keeping the first [k] characters divides by a power of ten. *)
Lemma dec_val_take k bs :
  Forall is_digit bs → (k ≤ length bs)%nat →
  dec_val 0 (take k bs) = dec_val 0 bs / 10 ^ (zlen bs - Z.of_nat k).
Proof.
  intros Hd Hk.
  assert (dec_val 0 bs = dec_val 0 (take k bs) * 10 ^ zlen (drop k bs) + dec_val 0 (drop k bs))
    as ->.
  { rewrite <-dec_val_acc, <-dec_val_app. by rewrite take_drop. }
  assert (Forall is_digit (drop k bs)) as Hd' by by apply Forall_drop.
  apply dec_val_bound in Hd'.
  assert (zlen (drop k bs) = zlen bs - Z.of_nat k) as E.
  { rewrite zlen_drop. unfold zlen. lia. }
  rewrite E in *. rewrite Z.div_add_l by lia.
  rewrite (Z.div_small (dec_val _ _)) by lia. lia.
Qed.

Section strtoul.
Context `{Arch}.

Lemma long_bits_pos : 10 ^ 9 < 2 ^ long_bits.
Proof. by destruct long_bits_ok as [-> | ->]. Qed.
Lemma ulong_id z : 0 ≤ z < 2 ^ long_bits → ulong z = z.
Proof. intros. by apply Z.mod_small. Qed.

Lemma xdigit_digit b : is_digit b → xdigit b = Some (byte_val b - 48).
Proof. unfold is_digit, xdigit. intros. by rewrite decide_True. Qed.

(** Characters that end a number. *)
Definition number_end (b : byte) : Prop := xdigit b = None.
#[export] Instance number_end_dec b : Decision (number_end b) := _.

Lemma strto_digits_dec acc ds c r :
  Forall is_digit ds → 0 ≤ acc → dec_val acc ds < 2 ^ long_bits → number_end c →
  strto_digits 10 acc (ds ++ c :: r) = Done (dec_val acc ds, c :: r).
Proof.
  intros Hd. revert acc. induction Hd as [|b ds Hb Hd IH]; intros acc Ha Hl Hc; simpl.
  - unfold number_end in Hc. by rewrite Hc.
  - rewrite xdigit_digit by done. unfold is_digit in Hb. rewrite decide_True by lia.
    change (dec_val acc (b :: ds)) with (dec_val (acc * 10 + (byte_val b - 48)) ds) in *.
    assert (acc * 10 + (byte_val b - 48) ≤ dec_val (acc * 10 + (byte_val b - 48)) ds).
    { rewrite dec_val_acc. pose proof (dec_val_bound ds Hd).
      assert (1 ≤ 10 ^ zlen ds).
      { pose proof (Z.pow_pos_nonneg 10 (zlen ds)). pose proof (zlen_nonneg ds). lia. }
      nia. }
    rewrite ulong_id by lia. apply IH; auto; lia.
Qed.

Lemma guess_base_nonzero b r : 49 ≤ byte_val b ≤ 57 → guess_base (b :: r) = 10.
Proof. intros Hb. destruct b; try done. vm_compute in Hb. naive_solver. Qed.

(** [simple_strtoul] reads back the decimal representation of a number. *)
Lemma simple_strtoul_dec ds c r :
  Forall is_digit ds → (∃ b ds', ds = b :: ds' ∧ 49 ≤ byte_val b ≤ 57) →
  dec_val 0 ds < 2 ^ long_bits → number_end c →
  simple_strtoul (ds ++ c :: r) = Done (dec_val 0 ds, c :: r).
Proof.
  intros Hd (b & ds' & -> & Hb) Hl Hc. unfold simple_strtoul.
  change ((b :: ds') ++ c :: r) with (b :: (ds' ++ c :: r)).
  rewrite guess_base_nonzero by done. rewrite decide_False by lia.
  by apply (strto_digits_dec 0 (b :: ds')).
Qed.

Lemma number_end_NUL : number_end NUL.
Proof. done. Qed.
End strtoul.

Lemma zlen_snprintf_ld dst size v :
  0 < size ≤ zlen dst → zlen (snprintf_ld dst size v) = zlen dst.
Proof.
  intros Hs. unfold snprintf_ld. apply zlen_splice; [lia|].
  rewrite zlen_app, zlen_take. change (zlen [NUL]) with 1. lia.
Qed.

(** The first [n] bytes of the string at the head of [bs], or all of it. *)
Fixpoint c_stringn (n : nat) (bs : list byte) : option (list byte) :=
  match n, bs with
  | O, _ => Some []
  | S _, [] => None
  | S n, b :: r => if decide (b = NUL) then Some [] else cons b <$> c_stringn n r
  end.

(** [strncpy(dst, src, n)]: copies at most [n] characters and fills what is left
    of the [n] with NULs, of which there may be none. *)
Definition strncpy (dst src : ptr) (n : Z) : M mem unit :=
  b ← (λ m, match mem_block m src with
            | None => Oops UseAfterFree
            | Some b => if decide (0 ≤ p_off src) then Done (drop (Z.to_nat (p_off src)) b, m)
                        else Oops OutOfBounds
            end);
  match c_stringn (Z.to_nat n) b with
  | None => oops OutOfBounds
  | Some s => store_bytes dst (s ++ replicate (Z.to_nat n - length s) NUL)
  end.

Lemma c_stringn_string n s r :
  NUL ∉ s → c_stringn n (s ++ NUL :: r) = Some (take n s).
Proof.
  revert n. induction s as [|b s IH]; intros [|n] Hs; simpl; [done..|].
  rewrite decide_False by set_solver. rewrite IH by set_solver. done.
Qed.

Lemma strncpy_spec m dst src n s :
  NUL ∉ s → has_bytes m src (s ++ [NUL]) → 0 ≤ n → in_bounds m dst n →
  strncpy dst src n m =
    Done (tt, upd m dst (take (Z.to_nat n) s ++ replicate (Z.to_nat n - length s) NUL)).
Proof.
  intros Hs Hh Hn Hd. unfold strncpy.
  assert (∃ r, (λ m, match mem_block m src with
            | None => Oops UseAfterFree
            | Some b => if decide (0 ≤ p_off src) then Done (drop (Z.to_nat (p_off src)) b, m)
                        else Oops OutOfBounds
            end) m = Done (s ++ NUL :: r, m)) as [r E].
  { unfold has_bytes in Hh. destruct (mem_block m src) as [b|]; [|done].
    apply slice_Some in Hh as (l & r & -> & Hl). pose proof (zlen_nonneg l).
    rewrite decide_True by lia. exists r. rewrite <-Hl. unfold zlen.
    by rewrite Nat2Z.id, drop_app_length, <-app_assoc. }
  rewrite (bind_Done _ _ _ _ _ E). rewrite c_stringn_string by done.
  rewrite length_take.
  replace (Z.to_nat n - Z.to_nat n `min` length s)%nat
    with (Z.to_nat n - length s)%nat by lia.
  rewrite store_bytes_spec; [done|].
  rewrite zlen_app, zlen_take, zlen_replicate. unfold zlen.
  eapply in_bounds_mono; [|exact Hd]. lia.
Qed.
