(* ===== verification/Protocol.v ===== *)
(** * Protocol: what client and server agree on

    Models [vsnfs.h], [vsnfsXdr.h], [server/vsnfsd.h] and [server/xdr.h]: the
    program, procedure and size constants, the status codes, file handles and
    the argument and result structures of the remote procedures. *)
From Stdlib Require Import Strings.Byte.
From S2P Require Import Prelude Mem CString.

(** ** Linux error numbers *)
Definition EPERM : Z := 1.
Definition ENOENT : Z := 2.
Definition EINTR : Z := 4.
Definition EIO : Z := 5.
Definition ENXIO : Z := 6.
Definition EAGAIN : Z := 11.
Definition ENOMEM : Z := 12.
Definition EACCES : Z := 13.
Definition EEXIST : Z := 17.
Definition EXDEV : Z := 18.
Definition ENODEV : Z := 19.
Definition ENOTDIR : Z := 20.
Definition EISDIR : Z := 21.
Definition EINVAL : Z := 22.
Definition ETXTBSY : Z := 26.
Definition EFBIG : Z := 27.
Definition ENOSPC : Z := 28.
Definition EROFS : Z := 30.
Definition EMLINK : Z := 31.
Definition ENAMETOOLONG : Z := 36.
Definition ENOTEMPTY : Z := 39.
Definition EREMOTE : Z := 66.
Definition EOPNOTSUPP : Z := 95.
Definition ETIMEDOUT : Z := 110.
Definition ESTALE : Z := 116.
Definition EDQUOT : Z := 122.
Definition ERESTARTSYS : Z := 512.
Definition EBADHANDLE : Z := 521.
Definition EBADCOOKIE : Z := 523.
Definition ETOOSMALL : Z := 525.

(** ** Constants of [vsnfs.h] *)
Definition VSNFS_PROGRAM : Z := 110003.
Definition VSNFS_VERSION : Z := 1.
Definition VSNFS_PORT : Z := 6789.
Definition VSNFS_MAXDATA : Z := 4096.
Definition VSNFS_DIRSIZE : Z := 4096.
Definition VSNFS_MAXNAMLEN : Z := 255.
Definition VSNFS_MAXPATHLEN : Z := 1024.
Definition VSNFS_FHSIZE : Z := 8.
Definition VSNFS_NRPROCS : Z := 10.
Definition VSNFS_TIMEOUT : Z := 600.
Definition VSNFS_SB_MAGIC : Z := 31097.   (* 0x7979 *)

Definition VSNFS_REG : Z := 1.
Definition VSNFS_DIR : Z := 2.
Definition VSNFS_OTHER : Z := 3.

(** Remote procedures. *)
Definition VSNFSPROC_NULL : Z := 0.
Definition VSNFSPROC_GETROOT : Z := 1.
Definition VSNFSPROC_REMOVE : Z := 2.
Definition VSNFSPROC_READ : Z := 3.
Definition VSNFSPROC_WRITE : Z := 4.
Definition VSNFSPROC_MKDIR : Z := 5.
Definition VSNFSPROC_RMDIR : Z := 6.
Definition VSNFSPROC_READDIR : Z := 7.
Definition VSNFSPROC_LOOKUP : Z := 8.
Definition VSNFSPROC_CREATE : Z := 9.

(** ** Status codes *)
Inductive vsnfs_stat : Type :=
  | VSNFS_OK
  | VSNFSERR_PERM
  | VSNFSERR_NOENT
  | VSNFSERR_IO
  | VSNFSERR_NXIO
  | VSNFSERR_EAGAIN
  | VSNFSERR_ACCES
  | VSNFSERR_EXIST
  | VSNFSERR_XDEV
  | VSNFSERR_NODEV
  | VSNFSERR_NOTDIR
  | VSNFSERR_ISDIR
  | VSNFSERR_INVAL
  | VSNFSERR_FBIG
  | VSNFSERR_NOSPC
  | VSNFSERR_ROFS
  | VSNFSERR_MLINK
  | VSNFSERR_OPNOTSUPP
  | VSNFSERR_NAMETOOLONG
  | VSNFSERR_NOTEMPTY
  | VSNFSERR_DQUOT
  | VSNFSERR_STALE
  | VSNFSERR_REMOTE
  | VSNFSERR_WFLUSH
  | VSNFSERR_BADHANDLE
  | VSNFSERR_NOT_SYNC
  | VSNFSERR_BAD_COOKIE
  | VSNFSERR_NOTSUPP
  | VSNFSERR_TOOSMALL
  | VSNFSERR_SERVERFAULT
  | VSNFSERR_BADTYPE
  | VSNFSERR_JUKEBOX
  | VSNFSERR_SAME
  | VSNFSERR_DENIED
  | VSNFSERR_EXPIRED
  | VSNFSERR_LOCKED
  | VSNFSERR_GRACE
  | VSNFSERR_FHEXPIRED
  | VSNFSERR_SHARE_DENIED
  | VSNFSERR_WRONGSEC
  | VSNFSERR_CLID_INUSE
  | VSNFSERR_RESOURCE
  | VSNFSERR_MOVED
  | VSNFSERR_NOFILEHANDLE
  | VSNFSERR_MINOR_VERS_MISMATCH
  | VSNFSERR_STALE_CLIENTID
  | VSNFSERR_STALE_STATEID
  | VSNFSERR_OLD_STATEID
  | VSNFSERR_BAD_STATEID
  | VSNFSERR_BAD_SEQID
  | VSNFSERR_NOT_SAME
  | VSNFSERR_LOCK_RANGE
  | VSNFSERR_SYMLINK
  | VSNFSERR_RESTOREFH
  | VSNFSERR_LEASE_MOVED
  | VSNFSERR_ATTRNOTSUPP
  | VSNFSERR_NO_GRACE
  | VSNFSERR_RECLAIM_BAD
  | VSNFSERR_RECLAIM_CONFLICT
  | VSNFSERR_BAD_XDR
  | VSNFSERR_LOCKS_HELD
  | VSNFSERR_OPENMODE
  | VSNFSERR_BADOWNER
  | VSNFSERR_BADCHAR
  | VSNFSERR_BADNAME
  | VSNFSERR_BAD_RANGE
  | VSNFSERR_LOCK_NOTSUPP
  | VSNFSERR_OP_ILLEGAL
  | VSNFSERR_DEADLOCK
  | VSNFSERR_FILE_OPEN
  | VSNFSERR_ADMIN_REVOKED
  | VSNFSERR_CB_PATH_DOWN.

Definition stat_code (s : vsnfs_stat) : Z :=
  match s with
  | VSNFS_OK => 0
  | VSNFSERR_PERM => 1
  | VSNFSERR_NOENT => 2
  | VSNFSERR_IO => 5
  | VSNFSERR_NXIO => 6
  | VSNFSERR_EAGAIN => 11
  | VSNFSERR_ACCES => 13
  | VSNFSERR_EXIST => 17
  | VSNFSERR_XDEV => 18
  | VSNFSERR_NODEV => 19
  | VSNFSERR_NOTDIR => 20
  | VSNFSERR_ISDIR => 21
  | VSNFSERR_INVAL => 22
  | VSNFSERR_FBIG => 27
  | VSNFSERR_NOSPC => 28
  | VSNFSERR_ROFS => 30
  | VSNFSERR_MLINK => 31
  | VSNFSERR_OPNOTSUPP => 45
  | VSNFSERR_NAMETOOLONG => 63
  | VSNFSERR_NOTEMPTY => 66
  | VSNFSERR_DQUOT => 69
  | VSNFSERR_STALE => 70
  | VSNFSERR_REMOTE => 71
  | VSNFSERR_WFLUSH => 99
  | VSNFSERR_BADHANDLE => 10001
  | VSNFSERR_NOT_SYNC => 10002
  | VSNFSERR_BAD_COOKIE => 10003
  | VSNFSERR_NOTSUPP => 10004
  | VSNFSERR_TOOSMALL => 10005
  | VSNFSERR_SERVERFAULT => 10006
  | VSNFSERR_BADTYPE => 10007
  | VSNFSERR_JUKEBOX => 10008
  | VSNFSERR_SAME => 10009
  | VSNFSERR_DENIED => 10010
  | VSNFSERR_EXPIRED => 10011
  | VSNFSERR_LOCKED => 10012
  | VSNFSERR_GRACE => 10013
  | VSNFSERR_FHEXPIRED => 10014
  | VSNFSERR_SHARE_DENIED => 10015
  | VSNFSERR_WRONGSEC => 10016
  | VSNFSERR_CLID_INUSE => 10017
  | VSNFSERR_RESOURCE => 10018
  | VSNFSERR_MOVED => 10019
  | VSNFSERR_NOFILEHANDLE => 10020
  | VSNFSERR_MINOR_VERS_MISMATCH => 10021
  | VSNFSERR_STALE_CLIENTID => 10022
  | VSNFSERR_STALE_STATEID => 10023
  | VSNFSERR_OLD_STATEID => 10024
  | VSNFSERR_BAD_STATEID => 10025
  | VSNFSERR_BAD_SEQID => 10026
  | VSNFSERR_NOT_SAME => 10027
  | VSNFSERR_LOCK_RANGE => 10028
  | VSNFSERR_SYMLINK => 10029
  | VSNFSERR_RESTOREFH => 10030
  | VSNFSERR_LEASE_MOVED => 10031
  | VSNFSERR_ATTRNOTSUPP => 10032
  | VSNFSERR_NO_GRACE => 10033
  | VSNFSERR_RECLAIM_BAD => 10034
  | VSNFSERR_RECLAIM_CONFLICT => 10035
  | VSNFSERR_BAD_XDR => 10036
  | VSNFSERR_LOCKS_HELD => 10037
  | VSNFSERR_OPENMODE => 10038
  | VSNFSERR_BADOWNER => 10039
  | VSNFSERR_BADCHAR => 10040
  | VSNFSERR_BADNAME => 10041
  | VSNFSERR_BAD_RANGE => 10042
  | VSNFSERR_LOCK_NOTSUPP => 10043
  | VSNFSERR_OP_ILLEGAL => 10044
  | VSNFSERR_DEADLOCK => 10045
  | VSNFSERR_FILE_OPEN => 10046
  | VSNFSERR_ADMIN_REVOKED => 10047
  | VSNFSERR_CB_PATH_DOWN => 10048
  end.

(** The pre-encoded constants [vsnfs_ok], [vsnfserr_...] of [server/vsnfsd.h]:
    the status in network byte order, as a native integer. *)
Definition vsnfserr `{Arch} (s : vsnfs_stat) : Z := cpu_to_be32 (stat_code s).

Lemma vsnfserr_OK `{Arch} : vsnfserr VSNFS_OK = 0.
Proof. by apply htonl_0_iff. Qed.
Lemma vsnfserr_0 `{Arch} st : vsnfserr st = 0 ↔ st = VSNFS_OK.
Proof. unfold vsnfserr, cpu_to_be32. rewrite htonl_0_iff. by destruct st. Qed.

#[export] Instance vsnfs_stat_eq_dec : EqDecision vsnfs_stat.
Proof. solve_decision. Defined.

(** ** File handles *)
Record vsnfs_fh : Type := VsnfsFh {
  fh_data : list byte;   (* unsigned char data[VSNFS_FHSIZE] *)
  fh_type : Z;           (* int type *)
}.
#[export] Instance vsnfs_fh_eq_dec : EqDecision vsnfs_fh.
Proof. solve_decision. Defined.

Definition fh_wf (fh : vsnfs_fh) : Prop := zlen (fh_data fh) = VSNFS_FHSIZE ∧ is_s32 (fh_type fh).
#[export] Instance fh_wf_dec fh : Decision (fh_wf fh).
Proof. unfold fh_wf. apply _. Defined.

(** A zeroed handle. *)
Definition fh_zero : vsnfs_fh := VsnfsFh (replicate 8 NUL) 0.

(** ** Client-side arguments and results ([vsnfsXdr.h]) *)
Record vsnfs_nullargs : Type := VsnfsNullargs { na_dummy : Z }.
Record vsnfs_nullres : Type := VsnfsNullres { nr_dummy : Z }.

Record vsnfs_readdirargs : Type := VsnfsReaddirargs {
  rda_fh : vsnfs_fh;
  rda_count : Z;
  rda_pages : ptr;     (* the page the reply is received into *)
}.

Record vsnfs_readargs : Type := VsnfsReadargs {
  ra_fh : vsnfs_fh;
  ra_offset : Z;
  ra_length : Z;
  ra_pages : ptr;
}.
Record vsnfs_readres : Type := VsnfsReadres { rr_count : Z }.

Record vsnfs_entry : Type := VsnfsEntry {
  e_ino : Z;
  e_offset : Z;
  e_name : ptr;        (* into the page of entries, not NUL-terminated *)
  e_len : Z;
  e_eof : Z;
  e_fh : vsnfs_fh;     (* *fh, owned by the caller *)
}.

Record vsnfs_getrootargs : Type := VsnfsGetrootargs { ga_path : ptr; ga_len : Z }.
Record vsnfs_lookupargs : Type := VsnfsLookupargs {
  la_fh : vsnfs_fh;
  la_filename : ptr;
  la_len : Z;
}.

(** ** Server-side arguments and results ([server/xdr.h]) *)
Record vsnfsd_nullargs : Type := VsnfsdNullargs { dna_dummy : Z }.
Record vsnfsd_nullres : Type := VsnfsdNullres { dnr_dummy : Z }.

Record vsnfsd_readdirargs : Type := VsnfsdReaddirargs {
  drda_fh : vsnfs_fh;
  drda_count : Z;
  drda_buffer : ptr;
}.
Record vsnfsd_readdirres : Type := VsnfsdReaddirres {
  drdr_count : Z;           (* words written *)
  drdr_err : Z;             (* a status, in network byte order *)
  drdr_buffer : ptr;        (* where the next entry goes *)
  drdr_buflen : Z;          (* words left *)
  drdr_offset : option ptr; (* the offset field of the last entry *)
}.

Record vsnfsd_readargs : Type := VsnfsdReadargs {
  dra_fh : vsnfs_fh;
  dra_offset : Z;
  dra_count : Z;
  dra_buffer : ptr;
}.
Record vsnfsd_readres : Type := VsnfsdReadres { drr_count : Z }.

Record vsnfsd_getrootargs : Type := VsnfsdGetrootargs { dga_path : ptr; dga_len : Z }.
Record vsnfsd_lookupargs : Type := VsnfsdLookupargs {
  dla_fh : vsnfs_fh;
  dla_filename : ptr;
  dla_len : Z;
}.

(** ** The layout of C structures

    A structure is laid out field by field, each at a multiple of its
    alignment, and padded to a multiple of the largest.  A field is its size
    and its alignment. *)
Definition round_up (n align : Z) : Z := (n + align - 1) / align * align.
Fixpoint layout (fields : list (Z * Z)) (off align : Z) : Z :=
  match fields with
  | [] => round_up off align
  | (size, a) :: fields => layout fields (round_up off a + size) (Z.max align a)
  end.
Definition c_struct (fields : list (Z * Z)) : Z := layout fields 0 1.

Section layout.
Context `{A : Arch}.
Definition c_int : Z * Z := (4, 4).
Definition c_ptr : Z * Z := (long_bits / 8, long_bits / 8).
(** An unsigned char array of eight and an int. *)
Definition sizeof_vsnfs_fh : Z := c_struct [(VSNFS_FHSIZE, 1); c_int].
Definition c_fh : Z * Z := (sizeof_vsnfs_fh, 4).
End layout.
