(* ===== verification/Sunrpc.v ===== *)
(** * Sunrpc: the interface to the kernel's XDR and RPC helpers

    [linux/sunrpc/xdr.h] and [linux/sunrpc/svc.h] are not part of the program.
    The helpers it calls are the fields of [SunrpcXdr]; what they are
    documented to do (RFC 4506 for the data layout, the comments of the kernel
    headers for the bookkeeping) is [SunrpcXdrLaws].  [sunrpc_ref] is an
    implementation of the interface, so that the laws can hold and examples
    can be run. *)
From Stdlib Require Import Strings.Byte.
From S2P Require Import Prelude Mem CString Protocol.

(** A [struct kvec]. *)
Record kvec : Type := Kvec { iov_base : ptr; iov_len : Z }.

(** A [struct xdr_buf], as far as the code fills it in. *)
Record xdr_buf : Type := XdrBuf {
  xb_head : kvec;
  xb_pages : option ptr;
  xb_page_base : Z;
  xb_page_len : Z;
}.

(** The client's request: the send buffer, its length, the receive buffer and
    the reply slack of the credential in use. *)
Record rpc_rqst : Type := RpcRqst {
  rq_svec : kvec;
  rq_slen : Z;
  rq_rcv_buf : xdr_buf;
  rq_au_rslack : Z;
}.

(** The server's request: argument head, result head, the pages for the
    result, how many are used, and the length of the paged part. *)
Record svc_rqst : Type := SvcRqst {
  rq_arg_head : kvec;
  rq_res_head : kvec;
  rq_respages : list ptr;
  rq_resused : nat;
  rq_page_len : Z;
}.

Class SunrpcXdr : Type := {
  XDR_QUADLEN : Z → Z;
  xdr_one : Z;
  RPC_REPHDRSIZE : Z;
  xdr_encode_array : ptr → ptr → Z → M mem ptr;
  xdr_decode_string_inplace : ptr → Z → M mem (option (ptr * ptr * Z));
  xdr_adjust_iovec : kvec → ptr → Z * kvec;
  xdr_inline_pages : xdr_buf → Z → ptr → Z → Z → xdr_buf;
  xdr_argsize_check : svc_rqst → ptr → Z;
  xdr_ressize_check : svc_rqst → ptr → Z * svc_rqst;
  (* the kernel address of the first byte of a block *)
  block_address : positive → Z;
}.

(** Variable-length opaque data, RFC 4506 section 4.10: a length word, the
    bytes, and zeros up to a multiple of four. *)
Definition xdr_pad (n : Z) : list byte := replicate (Z.to_nat ((- n) mod 4)) NUL.
Definition xdr_opaque (x : list byte) : list byte := be32 (zlen x) ++ x ++ xdr_pad (zlen x).

Definition set_res_head (r : svc_rqst) (v : kvec) : svc_rqst :=
  SvcRqst (rq_arg_head r) v (rq_respages r) (rq_resused r) (rq_page_len r).
Definition set_resused (r : svc_rqst) (n : nat) : svc_rqst :=
  SvcRqst (rq_arg_head r) (rq_res_head r) (rq_respages r) n (rq_page_len r).
Definition set_page_len (r : svc_rqst) (n : Z) : svc_rqst :=
  SvcRqst (rq_arg_head r) (rq_res_head r) (rq_respages r) (rq_resused r) n.
(** [p] lies between the start and the end of [v]. *)
Definition within (v : kvec) (p : ptr) : Prop :=
  p_blk p = p_blk (iov_base v) ∧ p_off (iov_base v) ≤ p_off p ≤ p_off (iov_base v) + iov_len v.
#[export] Instance within_dec v p : Decision (within v p).
Proof. unfold within. apply _. Defined.

Class SunrpcXdrLaws `{Arch} (X : SunrpcXdr) : Prop := {
  (* the number of words that hold [n] bytes, computed at 32 bits *)
  quadlen_spec n : 0 ≤ n → n + 3 < 2 ^ 32 → XDR_QUADLEN n = (n + 3) / 4;
  quadlen_nonneg n : 0 ≤ XDR_QUADLEN n;
  xdr_one_spec : xdr_one = htonl 1;
  encode_array_spec m p s x :
    has_bytes m s x → zlen x + 3 < 2 ^ 32 → in_bounds m p (zlen (xdr_opaque x)) →
    disjoint_at p (zlen (xdr_opaque x)) s (zlen x) →
    xdr_encode_array p s (zlen x) m =
      Done (p +p zlen (xdr_opaque x), upd m p (xdr_opaque x));
  (* it writes nowhere else *)
  encode_array_writes m p s n r m' :
    xdr_encode_array p s n m = Done (r, m') → p_blk r = p_blk p ∧ touches m (p_blk p) m';
  decode_string_spec m p len maxlen :
    is_u32 len → has_bytes m p (be32 len) →
    xdr_decode_string_inplace p maxlen m =
      Done (if decide (maxlen < len) then None
            else Some (p +p 4 +w XDR_QUADLEN len, p +p 4, len), m);
  (* it only reads *)
  decode_string_pure m p maxlen r m' :
    xdr_decode_string_inplace p maxlen m = Done (r, m') → m' = m;
  adjust_iovec_spec v p :
    p_blk p = p_blk (iov_base v) →
    xdr_adjust_iovec v p =
      (p_off p - p_off (iov_base v), Kvec (iov_base v) (p_off p - p_off (iov_base v)));
  inline_pages_spec xb off pg base len :
    xdr_inline_pages xb off pg base len =
      XdrBuf (Kvec (iov_base (xb_head xb)) off) (Some pg) base len;
  argsize_check_spec r p :
    xdr_argsize_check r p = if decide (within (rq_arg_head r) p) then 1 else 0;
  ressize_check_spec r p :
    p_blk p = p_blk (iov_base (rq_res_head r)) →
    let len := p_off p - p_off (iov_base (rq_res_head r)) in
    xdr_ressize_check r p =
      (if decide (len ≤ PAGE_SIZE) then 1 else 0,
       set_res_head r (Kvec (iov_base (rq_res_head r)) len));
  (* pages are page-aligned *)
  block_address_aligned b : block_address b mod PAGE_SIZE = 0;
}.

(** ** An implementation of the interface *)
Definition quadlen_ref (n : Z) : Z := Z.shiftr (u32 (n + 3)) 2.
Definition encode_array_ref `{Arch} (p s : ptr) (n : Z) : M mem ptr :=
  store32 p (htonl n);;
  x ← load_bytes s n;
  store_bytes (p +p 4) x;;
  store_bytes (p +p 4 +p n) (xdr_pad n);;
  mret (p +p 4 +w quadlen_ref n).
Definition decode_string_ref `{Arch} (p : ptr) (maxlen : Z) : M mem (option (ptr * ptr * Z)) :=
  w ← load32 p;
  let len := ntohl w in
  mret (if decide (maxlen < len) then None
        else Some (p +p 4 +w quadlen_ref len, p +p 4, len)).

#[export] Instance sunrpc_ref `{Arch} : SunrpcXdr := {|
  XDR_QUADLEN := quadlen_ref;
  xdr_one := htonl 1;
  RPC_REPHDRSIZE := 4;
  xdr_encode_array := encode_array_ref;
  xdr_decode_string_inplace := decode_string_ref;
  xdr_adjust_iovec v p :=
    let n := p_off p - p_off (iov_base v) in (n, Kvec (iov_base v) n);
  xdr_inline_pages xb off pg base len :=
    XdrBuf (Kvec (iov_base (xb_head xb)) off) (Some pg) base len;
  xdr_argsize_check r p := if decide (within (rq_arg_head r) p) then 1 else 0;
  xdr_ressize_check r p :=
    let len := p_off p - p_off (iov_base (rq_res_head r)) in
    (if decide (len ≤ PAGE_SIZE) then 1 else 0,
     set_res_head r (Kvec (iov_base (rq_res_head r)) len));
  block_address b := Z.pos b * PAGE_SIZE;
|}.

Lemma zlen_xdr_pad n : zlen (xdr_pad n) = (- n) mod 4.
Proof. unfold xdr_pad. rewrite zlen_replicate. pose proof (Z.mod_pos_bound (- n) 4). lia. Qed.

Lemma zlen_xdr_opaque x : zlen (xdr_opaque x) = 4 + 4 * ((zlen x + 3) / 4).
Proof.
  unfold xdr_opaque. rewrite !zlen_app, zlen_xdr_pad, zlen_be32.
  pose proof (zlen_nonneg x). Z.div_mod_to_equations. lia.
Qed.

Lemma quadlen_ref_spec n : 0 ≤ n → n + 3 < 2 ^ 32 → quadlen_ref n = (n + 3) / 4.
Proof.
  intros. unfold quadlen_ref. rewrite u32_id by (unfold is_u32; lia).
  by rewrite Z.shiftr_div_pow2 by lia.
Qed.

Lemma encode_array_ref_spec `{Arch} m p s x :
  has_bytes m s x → zlen x + 3 < 2 ^ 32 → in_bounds m p (zlen (xdr_opaque x)) →
  disjoint_at p (zlen (xdr_opaque x)) s (zlen x) →
  encode_array_ref p s (zlen x) m =
    Done (p +p zlen (xdr_opaque x), upd m p (xdr_opaque x)).
Proof.
  intros Hs Hl Hp Hd.
  assert (p +p 4 +w quadlen_ref (zlen x) = p +p zlen (xdr_opaque x)) as Hq.
  { pose proof (zlen_nonneg x).
    by rewrite quadlen_ref_spec, zlen_xdr_opaque, wadd_padd, padd_padd by lia. }
  unfold encode_array_ref. rewrite Hq. unfold xdr_opaque in *.
  mstep store32_htonl; [solve_bounds|].
  mstep load_bytes_spec.
  { apply has_bytes_upd_disj; [solve_bounds| |done].
    revert Hd. unfold disjoint_at. zlen_lia. }
  mstep store_bytes_spec; [solve_bounds|].
  merge_upd.
  mstep store_bytes_spec; [solve_bounds|]. merge_upd. by rewrite <-app_assoc.
Qed.

Lemma store_touches m p x m' : store_bytes p x m = Done (tt, m') → touches m (p_blk p) m'.
Proof. intros [Hb ->]%store_bytes_inv. by apply touches_upd. Qed.

Lemma encode_array_ref_writes `{Arch} m p s n r m' :
  encode_array_ref p s n m = Done (r, m') → p_blk r = p_blk p ∧ touches m (p_blk p) m'.
Proof.
  unfold encode_array_ref. intros E. minv E.
  destruct a, a1, a2. apply load_bytes_inv in E1 as [-> _]. injection E as <- <-.
  apply store_touches in E0, E2, E3. simpl in *. split; [done|].
  by eapply touches_trans; [|eapply touches_trans].
Qed.

#[export] Instance sunrpc_ref_laws `{Arch} : SunrpcXdrLaws sunrpc_ref.
Proof.
  split; simpl; try done.
  - intros n. apply quadlen_ref_spec.
  - intros n. apply Z.shiftr_nonneg. apply u32_range.
  - intros. by apply encode_array_ref_spec.
  - intros. by eapply encode_array_ref_writes.
  - intros m p len maxlen Hl Hh. unfold decode_string_ref. mstep load32_spec; [done|].
    rewrite ntohl_native, u32_id by done. done.
  - unfold decode_string_ref, load32. intros m p maxlen r m' E. minv E.
    injection E as <- <-. minv E0. injection E0 as <- <-. by apply load_bytes_inv in E as [? _].
  - intros b. apply Z.mod_mul. pose proof PAGE_SIZE_range. lia.
Qed.
