(* ===== verification/Wire.v ===== *)
(** * Wire: the messages, as byte strings

    The abstract specification the two XDR layers are compared with.  A message
    is a list of bytes laid out as RFC 4506 prescribes: 32-bit integers in
    network order, a handle as eight opaque bytes and its type, names as
    counted opaque data.  [ClientXdr] and [ServerXdr] prove that the encoders
    write these strings and that the decoders read them back, which makes every
    round trip of [RoundTrip] the composition of two lemmas. *)
From Stdlib Require Import Strings.Byte.
From S2P Require Import Prelude Mem CString Protocol Sunrpc.

Definition wire_fh (fh : vsnfs_fh) : list byte := fh_data fh ++ be32 (fh_type fh).

(** Arguments. *)
Definition wire_null (n : Z) : list byte := be32 n.
Definition wire_getroot (path : list byte) : list byte := xdr_opaque path.
Definition wire_lookup (fh : vsnfs_fh) (name : list byte) : list byte :=
  wire_fh fh ++ xdr_opaque name.
Definition wire_readdir (fh : vsnfs_fh) (count : Z) : list byte := wire_fh fh ++ be32 count.
Definition wire_read (fh : vsnfs_fh) (offset len : Z) : list byte :=
  wire_fh fh ++ be32 offset ++ be32 len.

(** A reply: the status word, and the result when the status is zero. *)
Definition wire_reply (status : Z) (body : list byte) : list byte := be32 status ++ body.

(** A directory entry: present marker, inode number, name, handle, and the
    offset of the next entry. *)
Record dirent : Type := Dirent {
  d_name : list byte;
  d_offset : Z;
  d_ino : Z;
  d_type : Z;
}.
#[export] Instance dirent_eq_dec : EqDecision dirent.
Proof. solve_decision. Defined.

Record wentry : Type := WEntry {
  we_ino : Z;
  we_name : list byte;
  we_fh : vsnfs_fh;
  we_next : Z;         (* offset of the next entry *)
}.
#[export] Instance wentry_eq_dec : EqDecision wentry.
Proof. solve_decision. Defined.

Definition wire_entry_head (e : wentry) : list byte :=
  be32 1 ++ be32 (we_ino e) ++ xdr_opaque (we_name e) ++ wire_fh (we_fh e).
Definition wire_entry (e : wentry) : list byte := wire_entry_head e ++ be32 (we_next e).
Definition wire_entries (es : list wentry) : list byte := concat (wire_entry <$> es).
(** The end of a listing: no more entries, and whether the listing is whole. *)
Definition wire_end (eof : bool) : list byte := be32 0 ++ be32 (Z.b2z eof).
Definition wire_listing (es : list wentry) (eof : bool) : list byte :=
  wire_entries es ++ wire_end eof.

Lemma zlen_wire_fh fh : fh_wf fh → zlen (wire_fh fh) = 12.
Proof. intros [Hd _]. unfold wire_fh. rewrite zlen_app, Hd, zlen_be32. done. Qed.

Lemma zlen_wire_entry_head e :
  fh_wf (we_fh e) → zlen (wire_entry_head e) = 24 + 4 * ((zlen (we_name e) + 3) / 4).
Proof.
  intros Hf. unfold wire_entry_head.
  rewrite !zlen_app, zlen_wire_fh, zlen_xdr_opaque, !zlen_be32 by done. lia.
Qed.

Lemma zlen_wire_entry e :
  fh_wf (we_fh e) → zlen (wire_entry e) = 28 + 4 * ((zlen (we_name e) + 3) / 4).
Proof.
  intros Hf. unfold wire_entry. rewrite zlen_app, zlen_wire_entry_head, zlen_be32 by done. lia.
Qed.

Lemma wire_entries_cons e es : wire_entries (e :: es) = wire_entry e ++ wire_entries es.
Proof. done. Qed.
Lemma wire_entries_app es fs : wire_entries (es ++ fs) = wire_entries es ++ wire_entries fs.
Proof. unfold wire_entries. by rewrite fmap_app, concat_app. Qed.
Lemma wire_entries_singleton e : wire_entries [e] = wire_entry e.
Proof. unfold wire_entries. simpl. by rewrite app_nil_r. Qed.
Lemma zlen_wire_end b : zlen (wire_end b) = 8.
Proof. done. Qed.
#[export] Hint Rewrite zlen_wire_end zlen_xdr_opaque : zlen.
