(* ===== verification/ClientXdr.v ===== *)
(** * ClientXdr: the client's XDR routines ([vsnfsXdr.c])

    The encoders of the call arguments, the decoders of the replies, the
    decoder of one directory entry, and the table that turns a status into an
    error number.  Every function is the C function
    run on the memory of [Mem]; a [__be32 *] cursor is a [ptr]. *)
From Stdlib Require Import Strings.Byte.
From S2P Require Import Prelude Mem CString Protocol Sunrpc Wire.

(** ** Sizes, in XDR words *)
Definition VSNFS_fhandle_sz : Z := 8.
Definition VSNFS_filename_sz : Z := 1 + Z.shiftr VSNFS_MAXNAMLEN 2.
Definition VSNFS_path_sz : Z := 1 + Z.shiftr VSNFS_MAXPATHLEN 2.
Definition VSNFS_nullargs_sz : Z := 1.
Definition VSNFS_getrootargs_sz : Z := VSNFS_path_sz.
Definition VSNFS_lookupargs_sz : Z := VSNFS_fhandle_sz + VSNFS_path_sz.
Definition VSNFS_readdirargs_sz : Z := VSNFS_fhandle_sz + 2.
Definition VSNFS_readargs_sz : Z := VSNFS_fhandle_sz + 3.
Definition VSNFS_fh_sz : Z := 1 + VSNFS_fhandle_sz + 1.
Definition VSNFS_nullres_sz : Z := 1.
Definition VSNFS_readdirres_sz : Z := 1.
Definition VSNFS_readres_sz : Z := 1 + 1.

(** ** Status to error number *)
Definition vsnfs_errtbl : list (Z * Z) :=
  [ (stat_code VSNFS_OK, 0);
    (stat_code VSNFSERR_NOENT, - ENOENT);
    (stat_code VSNFSERR_IO, - EIO);
    (stat_code VSNFSERR_NXIO, - ENXIO);
    (stat_code VSNFSERR_EAGAIN, - EAGAIN);
    (stat_code VSNFSERR_EXIST, - EEXIST);
    (stat_code VSNFSERR_NODEV, - ENODEV);
    (stat_code VSNFSERR_NOTDIR, - ENOTDIR);
    (stat_code VSNFSERR_ISDIR, - EISDIR);
    (stat_code VSNFSERR_INVAL, - EINVAL);
    (stat_code VSNFSERR_FBIG, - EFBIG);
    (stat_code VSNFSERR_NOSPC, - ENOSPC);
    (stat_code VSNFSERR_ROFS, - EROFS);
    (stat_code VSNFSERR_MLINK, - EMLINK);
    (* one initialiser, a difference: the second member is zero *)
    (stat_code VSNFSERR_OPNOTSUPP - EOPNOTSUPP, 0);
    (stat_code VSNFSERR_NAMETOOLONG, - ENAMETOOLONG);
    (stat_code VSNFSERR_NOTEMPTY, - ENOTEMPTY);
    (stat_code VSNFSERR_DQUOT, - EDQUOT);
    (stat_code VSNFSERR_STALE, - ESTALE);
    (stat_code VSNFSERR_REMOTE, - EREMOTE);
    (stat_code VSNFSERR_BADHANDLE, - EBADHANDLE);
    (* likewise *)
    (stat_code VSNFSERR_BAD_COOKIE - EBADCOOKIE, 0);
    (-1, - EIO) ].

(** The loop of [vsnfs_stat_to_errno], from the entry it is at. *)
Fixpoint stat_to_errno_loop (tbl : list (Z * Z)) (stat : Z) : outcome Z :=
  match tbl with
  | [] => Oops OutOfBounds
  | (st, er) :: rest =>
      if decide (st ≠ -1) then
        if decide (st = stat) then Done er else stat_to_errno_loop rest stat
      else Done er
  end.
Definition vsnfs_stat_to_errno (stat : Z) : outcome Z := stat_to_errno_loop vsnfs_errtbl stat.

Section client_xdr.
Context `{A : Arch} `{X : SunrpcXdr}.

(** ** Common routines *)
Definition xdr_encode_fhandle (p : ptr) (fh : vsnfs_fh) : M mem ptr :=
  store_bytes p (take (Z.to_nat VSNFS_FHSIZE) (fh_data fh));;
  let p := p +w XDR_QUADLEN VSNFS_FHSIZE in
  store32 p (htonl (fh_type fh));;
  mret (p +w 1).

Definition xdr_decode_fhandle (p : ptr) : M mem (ptr * vsnfs_fh) :=
  data ← load_bytes p VSNFS_FHSIZE;
  let p := p +w XDR_QUADLEN VSNFS_FHSIZE in
  w ← load32 p;
  mret (p +w 1, VsnfsFh data (s32 (ntohl w))).

(** [req->rq_slen = xdr_adjust_iovec(req->rq_svec, p)]. *)
Definition adjust_slen (req : rpc_rqst) (p : ptr) : rpc_rqst :=
  let '(n, v) := xdr_adjust_iovec (rq_svec req) p in
  RpcRqst v n (rq_rcv_buf req) (rq_au_rslack req).
Definition set_rcv_buf (req : rpc_rqst) (b : xdr_buf) : rpc_rqst :=
  RpcRqst (rq_svec req) (rq_slen req) b (rq_au_rslack req).

(** ** Encoders of the arguments *)
Definition vsnfs_xdr_nullargs (req : rpc_rqst) (p : ptr) (args : vsnfs_nullargs)
    : M mem (Z * rpc_rqst) :=
  store32 p (htonl (na_dummy args));;
  mret (0, adjust_slen req (p +w 1)).

Definition vsnfs_xdr_getrootargs (req : rpc_rqst) (p : ptr) (args : vsnfs_getrootargs)
    : M mem (Z * rpc_rqst) :=
  p ← xdr_encode_array p (ga_path args) (ga_len args);
  mret (0, adjust_slen req p).

Definition vsnfs_xdr_lookupargs (req : rpc_rqst) (p : ptr) (args : vsnfs_lookupargs)
    : M mem (Z * rpc_rqst) :=
  p ← xdr_encode_fhandle p (la_fh args);
  p ← xdr_encode_array p (la_filename args) (la_len args);
  mret (0, adjust_slen req p).

Definition vsnfs_xdr_readdirargs (req : rpc_rqst) (p : ptr) (args : vsnfs_readdirargs)
    : M mem (Z * rpc_rqst) :=
  let count := u32 (rda_count args) in
  p ← xdr_encode_fhandle p (rda_fh args);
  store32 p (htonl count);;
  let req := adjust_slen req (p +w 1) in
  let replen := u32 (Z.shiftl (RPC_REPHDRSIZE + rq_au_rslack req + VSNFS_readdirres_sz) 2) in
  mret (0, set_rcv_buf req (xdr_inline_pages (rq_rcv_buf req) replen (rda_pages args) 0 count)).

Definition vsnfs_xdr_readargs (req : rpc_rqst) (p : ptr) (args : vsnfs_readargs)
    : M mem (Z * rpc_rqst) :=
  let count := u32 (ra_length args) in
  p ← xdr_encode_fhandle p (ra_fh args);
  store32 p (htonl (ra_offset args));;
  store32 (p +w 1) (htonl (ra_length args));;
  let req := adjust_slen req (p +w 2) in
  let replen := u32 (Z.shiftl (RPC_REPHDRSIZE + rq_au_rslack req + VSNFS_readdirres_sz) 2) in
  mret (0, set_rcv_buf req (xdr_inline_pages (rq_rcv_buf req) replen (ra_pages args) 0 count)).

(** ** Decoders of the results

    Each returns its error number and the result structure, which it leaves as
    it was when the status is not zero. *)
Definition vsnfs_xdr_nullres (req : rpc_rqst) (p : ptr) (res : vsnfs_nullres)
    : M mem (Z * vsnfs_nullres) :=
  w ← load32 p;
  let status := s32 (ntohl w) in
  if decide (status ≠ 0) then
    e ← lift_outcome (vsnfs_stat_to_errno status); mret (e, res)
  else
    w ← load32 (p +w 1);
    mret (0, VsnfsNullres (s32 (ntohl w))).

Definition vsnfs_xdr_fh (req : rpc_rqst) (p : ptr) (fh : vsnfs_fh) : M mem (Z * vsnfs_fh) :=
  w ← load32 p;
  let status := s32 (ntohl w) in
  if decide (status ≠ 0) then
    e ← lift_outcome (vsnfs_stat_to_errno status); mret (e, fh)
  else
    let p := p +w 1 in
    data ← load_bytes p VSNFS_FHSIZE;
    let p := p +w XDR_QUADLEN VSNFS_FHSIZE in
    w ← load32 p;
    mret (0, VsnfsFh data (s32 (ntohl w))).

Definition vsnfs_xdr_readdirres (req : rpc_rqst) (p : ptr) : M mem Z :=
  w ← load32 p;
  let status := s32 (ntohl w) in
  if decide (status ≠ 0) then lift_outcome (vsnfs_stat_to_errno status) else mret 0.

(** The count is written to the reply, not read from it. *)
Definition vsnfs_xdr_readres (req : rpc_rqst) (p : ptr) (res : vsnfs_readres)
    : M mem (Z * rpc_rqst * vsnfs_readres) :=
  w ← load32 p;
  let status := s32 (ntohl w) in
  if decide (status ≠ 0) then
    e ← lift_outcome (vsnfs_stat_to_errno status); mret (e, req, res)
  else
    store32 (p +w 1) (htonl (rr_count res));;
    mret (0, adjust_slen req (p +w 2), res).

(** ** One directory entry

    The result is a pointer or, as [ERR_PTR] makes it, a negative error. *)
Definition vsnfs_decode_dirent (p : ptr) (entry : vsnfs_entry)
    : M mem ((Z + ptr) * vsnfs_entry) :=
  w ← load32 p;
  let p := p +w 1 in
  if decide (w = 0) then
    mret (inl (- EBADCOOKIE),
          VsnfsEntry (e_ino entry) (e_offset entry) (e_name entry) (e_len entry) 1 (e_fh entry))
  else
    ino ← load32 p;
    let p := p +w 1 in
    len ← load32 p;
    let p := p +w 1 in
    let len := ntohl len in
    let name := p in
    let p := p +w XDR_QUADLEN len in
    '(p, fh) ← xdr_decode_fhandle p;
    off ← load32 p;
    let p := p +w 1 in
    w0 ← load32 p;
    eof ← (if decide (w0 = 0)
           then w1 ← load32 (p +w 1); mret (if decide (w1 ≠ 0) then 1 else 0)
           else mret 0);
    mret (inr p, VsnfsEntry (ntohl ino) (ntohl off) name len eof fh).
End client_xdr.

(** ** What the encoders write *)
Section client_xdr_spec.
Context `{A : Arch} `{X : SunrpcXdr} `{L : !SunrpcXdrLaws X}.
Implicit Types (m : mem) (p : ptr) (req : rpc_rqst).

Lemma quadlen_FHSIZE : XDR_QUADLEN VSNFS_FHSIZE = 2.
Proof. by rewrite quadlen_spec. Qed.

Lemma take_fh_data fh : fh_wf fh → take (Z.to_nat VSNFS_FHSIZE) (fh_data fh) = fh_data fh.
Proof. intros [Hd _]. apply take_ge. unfold zlen, VSNFS_FHSIZE in *. lia. Qed.

Lemma xdr_encode_fhandle_spec m p fh :
  fh_wf fh → in_bounds m p 12 →
  xdr_encode_fhandle p fh m = Done (p +p 12, upd m p (wire_fh fh)).
Proof.
  intros Hf Hp. unfold xdr_encode_fhandle. rewrite take_fh_data, quadlen_FHSIZE by done.
  destruct (Hf) as [Hd Ht]. unfold VSNFS_FHSIZE in Hd.
  mstep store_bytes_spec; [solve_bounds|].
  mstep store32_htonl; [solve_bounds|].
  merge_upd. f_equal. f_equal. ptr_lia.
Qed.

Lemma xdr_decode_fhandle_spec m p fh :
  fh_wf fh → has_bytes m p (wire_fh fh) →
  xdr_decode_fhandle p m = Done ((p +p 12, fh), m).
Proof.
  intros Hf Hh. destruct (Hf) as [Hd Ht]. unfold wire_fh in Hh.
  apply has_bytes_app in Hh as [H1 H2]. rewrite Hd in H2.
  unfold xdr_decode_fhandle. rewrite quadlen_FHSIZE. rewrite <-Hd.
  mstep load_bytes_spec; [done|].
  mstep load32_spec; [use_bytes|].
  rewrite ntohl_native, s32_u32, s32_id by done. destruct fh. simpl.
  f_equal. f_equal. f_equal. ptr_lia.
Qed.

(** The request after the arguments up to [p] have been written. *)
Lemma adjust_slen_spec req p n :
  p_blk p = p_blk (iov_base (rq_svec req)) → n = p_off p - p_off (iov_base (rq_svec req)) →
  adjust_slen req p =
    RpcRqst (Kvec (iov_base (rq_svec req)) n) n (rq_rcv_buf req) (rq_au_rslack req).
Proof. intros Hb ->. unfold adjust_slen. by rewrite adjust_iovec_spec. Qed.

Lemma vsnfs_xdr_nullargs_spec m req p n :
  in_bounds m p 4 →
  vsnfs_xdr_nullargs req p (VsnfsNullargs n) m =
    Done ((0, adjust_slen req (p +p 4)), upd m p (wire_null n)).
Proof.
  intros Hp. unfold vsnfs_xdr_nullargs, wire_null. by mstep store32_htonl; [solve_bounds|].
Qed.

Lemma vsnfs_xdr_getrootargs_spec m req p s path :
  has_bytes m s path → zlen path + 3 < 2 ^ 32 → p_blk s ≠ p_blk p →
  in_bounds m p (zlen (wire_getroot path)) →
  vsnfs_xdr_getrootargs req p (VsnfsGetrootargs s (zlen path)) m =
    Done ((0, adjust_slen req (p +p zlen (wire_getroot path))), upd m p (wire_getroot path)).
Proof.
  intros Hs Hl Hb Hp. unfold vsnfs_xdr_getrootargs. simpl.
  by mstep encode_array_spec; [done|done|done|by left|].
Qed.

Lemma vsnfs_xdr_lookupargs_spec m req p fh s name :
  fh_wf fh → has_bytes m s name → zlen name + 3 < 2 ^ 32 → p_blk s ≠ p_blk p →
  in_bounds m p (zlen (wire_lookup fh name)) →
  vsnfs_xdr_lookupargs req p (VsnfsLookupargs fh s (zlen name)) m =
    Done ((0, adjust_slen req (p +p zlen (wire_lookup fh name))),
          upd m p (wire_lookup fh name)).
Proof.
  intros Hf Hs Hl Hb Hp. pose proof (zlen_wire_fh fh Hf) as Hw.
  unfold vsnfs_xdr_lookupargs, wire_lookup in *. simpl.
  rewrite zlen_app in Hp |- *.
  mstep xdr_encode_fhandle_spec; [done|solve_bounds|].
  mstep encode_array_spec.
  - apply has_bytes_upd_disj; [solve_bounds|by left; simpl|done].
  - done.
  - solve_bounds.
  - by left; simpl.
  - merge_upd. by rewrite padd_padd, Hw.
Qed.

(** The receive buffer of a call that reads one page. *)
Definition one_page (req : rpc_rqst) (pg : ptr) (count : Z) : xdr_buf :=
  XdrBuf (Kvec (iov_base (xb_head (rq_rcv_buf req)))
               (u32 (Z.shiftl (RPC_REPHDRSIZE + rq_au_rslack req + VSNFS_readdirres_sz) 2)))
         (Some pg) 0 (u32 count).

Lemma vsnfs_xdr_readdirargs_spec m req p fh count pg :
  fh_wf fh → in_bounds m p 16 →
  ∃ req',
    vsnfs_xdr_readdirargs req p (VsnfsReaddirargs fh count pg) m =
      Done ((0, req'), upd m p (wire_readdir fh count)) ∧
    rq_svec req' = rq_svec (adjust_slen req (p +p 16)) ∧
    rq_slen req' = rq_slen (adjust_slen req (p +p 16)) ∧
    rq_au_rslack req' = rq_au_rslack req ∧ rq_rcv_buf req' = one_page req pg count.
Proof.
  intros Hf Hp. pose proof (zlen_wire_fh fh Hf) as Hw. eexists. split.
  - unfold vsnfs_xdr_readdirargs. simpl.
    mstep xdr_encode_fhandle_spec; [done|solve_bounds|].
    mstep store32_htonl; [solve_bounds|]. rewrite be32_u32. by merge_upd.
  - rewrite wadd_padd, padd_padd. simpl. rewrite inline_pages_spec.
    unfold adjust_slen. by destruct (xdr_adjust_iovec _ _).
Qed.

Lemma vsnfs_xdr_readargs_spec m req p fh offset len pg :
  fh_wf fh → in_bounds m p 20 →
  ∃ req',
    vsnfs_xdr_readargs req p (VsnfsReadargs fh offset len pg) m =
      Done ((0, req'), upd m p (wire_read fh offset len)) ∧
    rq_svec req' = rq_svec (adjust_slen req (p +p 20)) ∧
    rq_slen req' = rq_slen (adjust_slen req (p +p 20)) ∧
    rq_au_rslack req' = rq_au_rslack req ∧ rq_rcv_buf req' = one_page req pg len.
Proof.
  intros Hf Hp. pose proof (zlen_wire_fh fh Hf) as Hw. eexists. split.
  - unfold vsnfs_xdr_readargs. simpl.
    mstep xdr_encode_fhandle_spec; [done|solve_bounds|].
    mstep store32_htonl; [solve_bounds|].
    merge_upd.
    mstep store32_htonl; [solve_bounds|]. merge_upd. by rewrite <-app_assoc.
  - rewrite wadd_padd, padd_padd. simpl. rewrite inline_pages_spec.
    unfold adjust_slen. by destruct (xdr_adjust_iovec _ _).
Qed.
End client_xdr_spec.

(** ** What the decoders read *)

(** What the scan returns: the entry of the status or, failing that, the last
    one. *)
Lemma stat_to_errno_loop_spec tbl d stat :
  Forall (λ x, x.1 ≠ -1) tbl →
  stat_to_errno_loop (tbl ++ [(-1, d)]) stat =
    Done (default d (snd <$> find (λ x, bool_decide (x.1 = stat)) tbl)).
Proof.
  induction 1 as [|[st er] tbl Hx Ht IH]; simpl in *; [done|].
  rewrite decide_True by done. rewrite IH.
  case_decide; [by rewrite bool_decide_eq_true_2|by rewrite bool_decide_eq_false_2].
Qed.

Lemma stat_to_errno_spec stat :
  vsnfs_stat_to_errno stat =
    Done (default (- EIO) (snd <$> find (λ x, bool_decide (x.1 = stat)) (take 22 vsnfs_errtbl))).
Proof.
  apply (stat_to_errno_loop_spec (take 22 vsnfs_errtbl)).
  apply (bool_decide_unpack _). by vm_compute.
Qed.

Lemma stat_to_errno_total stat : ∃ e, vsnfs_stat_to_errno stat = Done e.
Proof. rewrite stat_to_errno_spec. eauto. Qed.

Section client_xdr_decode.
Context `{A : Arch} `{X : SunrpcXdr} `{L : !SunrpcXdrLaws X}.
Implicit Types (m : mem) (p : ptr) (req : rpc_rqst).

Lemma vsnfs_xdr_nullres_spec m req p res n :
  has_bytes m p (wire_reply 0 (be32 n)) →
  vsnfs_xdr_nullres req p res m = Done ((0, VsnfsNullres (s32 n)), m).
Proof.
  intros [H1 H2]%has_bytes_app. unfold vsnfs_xdr_nullres.
  mstep load32_spec; [done|]. rewrite ntohl_native. change (s32 (u32 0)) with 0. case_lia.
  mstep load32_spec; [use_bytes|]. by rewrite ntohl_native, s32_u32.
Qed.

Lemma vsnfs_xdr_fh_spec m req p fh0 fh :
  fh_wf fh → has_bytes m p (wire_reply 0 (wire_fh fh)) →
  vsnfs_xdr_fh req p fh0 m = Done ((0, fh), m).
Proof.
  intros [Hd Ht] [H1 H2]%has_bytes_app. apply has_bytes_app in H2 as [H2 H3].
  unfold VSNFS_FHSIZE in Hd.
  unfold vsnfs_xdr_fh. mstep load32_spec; [done|]. rewrite ntohl_native. change (s32 (u32 0)) with 0. case_lia.
  unfold VSNFS_FHSIZE. rewrite <-Hd.
  mstep load_bytes_spec; [use_bytes|]. rewrite Hd.
  rewrite quadlen_spec by lia. change ((8 + 3) / 4) with 2.
  mstep load32_spec; [use_bytes|].
  rewrite ntohl_native, s32_u32, s32_id by done. by destruct fh.
Qed.

Lemma vsnfs_xdr_readdirres_spec m req p :
  has_bytes m p (be32 0) → vsnfs_xdr_readdirres req p m = Done (0, m).
Proof.
  intros H1. unfold vsnfs_xdr_readdirres. mstep load32_spec; [done|].
  rewrite ntohl_native. change (s32 (u32 0)) with 0. by case_lia.
Qed.

(** A failed call: the decoders return the error number of the status and do
    not touch the result. *)
Lemma vsnfs_xdr_fh_err m req p fh0 st e :
  has_bytes m p (be32 st) → s32 st ≠ 0 → vsnfs_stat_to_errno (s32 st) = Done e →
  vsnfs_xdr_fh req p fh0 m = Done ((e, fh0), m).
Proof.
  intros H1 Hst He. unfold vsnfs_xdr_fh. mstep load32_spec; [done|].
  rewrite ntohl_native, s32_u32. case_lia. unfold lift_outcome. rewrite He. done.
Qed.
Lemma vsnfs_xdr_readdirres_err m req p st e :
  has_bytes m p (be32 st) → s32 st ≠ 0 → vsnfs_stat_to_errno (s32 st) = Done e →
  vsnfs_xdr_readdirres req p m = Done (e, m).
Proof.
  intros H1 Hst He. unfold vsnfs_xdr_readdirres. mstep load32_spec; [done|].
  rewrite ntohl_native, s32_u32. case_lia. unfold lift_outcome. by rewrite He.
Qed.

(** Whether the two words after an entry end the listing. *)
Definition eof_flag (w0 w1 : Z) : Z :=
  if decide (u32 w0 = 0 ∧ u32 w1 ≠ 0) then 1 else 0.

Lemma native_be32_0 z : native_val32 (be32 z) = 0 ↔ u32 z = 0.
Proof. by rewrite native_val32_0, val32_be32. Qed.

Lemma vsnfs_decode_dirent_end m p ent :
  has_bytes m p (be32 0) →
  vsnfs_decode_dirent p ent m =
    Done ((inl (- EBADCOOKIE),
           VsnfsEntry (e_ino ent) (e_offset ent) (e_name ent) (e_len ent) 1 (e_fh ent)), m).
Proof.
  intros H1. unfold vsnfs_decode_dirent. mstep load32_spec; [done|].
  rewrite decide_True by by apply native_be32_0. done.
Qed.

Lemma vsnfs_decode_dirent_spec m p ent e w0 w1 :
  fh_wf (we_fh e) → zlen (we_name e) + 3 < 2 ^ 32 → is_u32 (we_ino e) → is_u32 (we_next e) →
  has_bytes m p (wire_entry e ++ be32 w0 ++ be32 w1) →
  vsnfs_decode_dirent p ent m =
    Done ((inr (p +p zlen (wire_entry e)),
           VsnfsEntry (we_ino e) (we_next e) (p +p 12) (zlen (we_name e))
                      (eof_flag w0 w1) (we_fh e)), m).
Proof.
  intros Hf Hn Hi Ho Hh. pose proof (zlen_wire_fh _ Hf) as Hw. pose proof (zlen_nonneg (we_name e)).
  assert (is_u32 (zlen (we_name e))) as Hnu by (split; lia).
  assert (zlen (xdr_pad (zlen (we_name e))) = 4 * ((zlen (we_name e) + 3) / 4) - zlen (we_name e))
    as Hpad by (rewrite zlen_xdr_pad; Z.div_mod_to_equations; lia).
  rewrite zlen_wire_entry by done.
  unfold wire_entry, wire_entry_head, xdr_opaque in Hh. rewrite <-!app_assoc in Hh.
  repeat (let Hx := fresh "B" in apply has_bytes_app in Hh as [Hx Hh]).
  rewrite Hw, !Hpad, !zlen_be32 in *.
  unfold vsnfs_decode_dirent. mstep load32_spec; [use_bytes|].
  rewrite decide_False by by rewrite native_be32_0.
  mstep load32_spec; [use_bytes|]. mstep load32_spec; [use_bytes|].
  rewrite !ntohl_native, (u32_id (zlen _)), (u32_id (we_ino e)), quadlen_spec by done.
  mstep xdr_decode_fhandle_spec; [done|use_bytes|].
  mstep load32_spec; [use_bytes|].
  rewrite ntohl_native, (u32_id (we_next e)) by done.
  mstep load32_spec; [use_bytes|].
  unfold eof_flag. destruct (decide (native_val32 (be32 w0) = 0)) as [Hz|Hz];
    rewrite native_be32_0 in Hz.
  - mstep load32_spec; [use_bytes|].
    destruct (decide (native_val32 (be32 w1) ≠ 0)) as [Hz1|Hz1]; rewrite native_be32_0 in Hz1.
    + rewrite (decide_True (P := _ ∧ _)) by done. repeat f_equal; ptr_lia.
    + rewrite (decide_False (P := _ ∧ _)) by naive_solver. repeat f_equal; ptr_lia.
  - mrun. rewrite (decide_False (P := _ ∧ _)) by naive_solver. repeat f_equal; ptr_lia.
Qed.
End client_xdr_decode.
