(* ===== verification/ServerXdr.v ===== *)
(** * ServerXdr: the server's XDR routines ([server/vsnfsxdr.c])

    The decoders of the call arguments, which also take the page the result is
    built in, and the encoders of the results, among them the callback that
    [vfs_readdir] runs on every directory entry.  A decoder returns 0 when the
    arguments are malformed and 1 otherwise, with the argument structure as
    filled in so far. *)
From Stdlib Require Import Strings.Byte.
From S2P Require Import Prelude Mem CString Protocol Sunrpc Wire.

Section server_xdr.
Context `{A : Arch} `{X : SunrpcXdr}.

(** ** Decoders of the arguments *)
Definition vsnfssvc_decode_nullargs (rqstp : svc_rqst) (p : ptr) (args : vsnfsd_nullargs)
    : M mem (Z * vsnfsd_nullargs) :=
  w ← load32 p;
  mret (xdr_argsize_check rqstp (p +w 1), VsnfsdNullargs (s32 (ntohl w))).

Definition decode_fh (p : ptr) : M mem (ptr * vsnfs_fh) :=
  data ← load_bytes p VSNFS_FHSIZE;
  let p := p +w Z.shiftr VSNFS_FHSIZE 2 in
  w ← load32 p;
  mret (p +w 1, VsnfsFh data (s32 (ntohl w))).

(** The loop over the characters of a decoded string: whether it meets one
    that [bad] rejects within the next [n]. *)
Fixpoint scan_chars (bad : byte → bool) (name : ptr) (n : nat) : M mem bool :=
  match n with
  | O => mret false
  | S n =>
      c ← load_bytes name 1;
      if existsb bad c then mret true else scan_chars bad (name +p 1) n
  end.

Definition bad_in_filename (c : byte) : bool := bool_decide (c = NUL ∨ c = SLASH).
Definition bad_in_pathname (c : byte) : bool := bool_decide (c = NUL).

Definition decode_filename (p : ptr) (namp : ptr) (lenp : Z) : M mem (option ptr * ptr * Z) :=
  r ← xdr_decode_string_inplace p VSNFS_MAXNAMLEN;
  match r with
  | None => mret (None, namp, lenp)
  | Some (p, namp, lenp) =>
      b ← scan_chars bad_in_filename namp (Z.to_nat lenp);
      mret (if b : bool then None else Some p, namp, lenp)
  end.

Definition decode_pathname (p : ptr) (namp : ptr) (lenp : Z) : M mem (option ptr * ptr * Z) :=
  r ← xdr_decode_string_inplace p VSNFS_MAXPATHLEN;
  match r with
  | None => mret (None, namp, lenp)
  | Some (p, namp, lenp) =>
      b ← scan_chars bad_in_pathname namp (Z.to_nat lenp);
      mret (if b : bool then None else Some p, namp, lenp)
  end.

Definition vsnfssvc_decode_getrootargs (rqstp : svc_rqst) (p : ptr) (args : vsnfsd_getrootargs)
    : M mem (Z * vsnfsd_getrootargs) :=
  '(r, path, len) ← decode_pathname p (dga_path args) (dga_len args);
  let args := VsnfsdGetrootargs path len in
  match r with
  | None => mret (0, args)
  | Some p => mret (xdr_argsize_check rqstp p, args)
  end.

Definition vsnfssvc_decode_lookupargs (rqstp : svc_rqst) (p : ptr) (args : vsnfsd_lookupargs)
    : M mem (Z * vsnfsd_lookupargs) :=
  '(p, fh) ← decode_fh p;
  '(r, name, len) ← decode_filename p (dla_filename args) (dla_len args);
  let args := VsnfsdLookupargs fh name len in
  match r with
  | None => mret (0, args)
  | Some p => mret (xdr_argsize_check rqstp p, args)
  end.

(** [page_address(rqstp->rq_respages[rqstp->rq_resused++])]. *)
Definition take_respage (rqstp : svc_rqst) : outcome (ptr * svc_rqst) :=
  match rq_respages rqstp !! rq_resused rqstp with
  | Some pg => Done (pg, set_resused rqstp (S (rq_resused rqstp)))
  | None => Oops OutOfBounds
  end.

Definition vsnfssvc_decode_readdirargs (rqstp : svc_rqst) (p : ptr) (args : vsnfsd_readdirargs)
    : M mem (Z * vsnfsd_readdirargs * svc_rqst) :=
  '(p, fh) ← decode_fh p;
  w ← load32 p;
  let p := p +w 1 in
  let count := ntohl w in
  let count := if decide (PAGE_SIZE < count) then PAGE_SIZE else count in
  '(buffer, rqstp) ← lift_outcome (take_respage rqstp);
  mret (xdr_argsize_check rqstp p, VsnfsdReaddirargs fh count buffer, rqstp).

Definition vsnfssvc_decode_readargs (rqstp : svc_rqst) (p : ptr) (args : vsnfsd_readargs)
    : M mem (Z * vsnfsd_readargs * svc_rqst) :=
  '(p, fh) ← decode_fh p;
  offset ← load32 p;
  let p := p +w 1 in
  w ← load32 p;
  let p := p +w 1 in
  let len := ntohl w in
  let len := if decide (PAGE_SIZE < len) then PAGE_SIZE else len in
  '(buffer, rqstp) ← lift_outcome (take_respage rqstp);
  mret (xdr_argsize_check rqstp p, VsnfsdReadargs fh (ntohl offset) len buffer, rqstp).

(** ** Encoders of the results *)
Definition vsnfssvc_encode_nullres (rqstp : svc_rqst) (p : ptr) (resp : vsnfsd_nullres)
    : M mem (Z * svc_rqst) :=
  store32 p (htonl (dnr_dummy resp));;
  mret (xdr_ressize_check rqstp (p +w 1)).

Definition encode_fh (p : ptr) (fhp : vsnfs_fh) : M mem ptr :=
  store_bytes p (take (Z.to_nat VSNFS_FHSIZE) (fh_data fhp));;
  mret (p +w Z.shiftr VSNFS_FHSIZE 2).

Definition vsnfssvc_encode_fhandle (rqstp : svc_rqst) (p : ptr) (resp : vsnfs_fh)
    : M mem (Z * svc_rqst) :=
  p ← encode_fh p resp;
  store32 p (htonl (fh_type resp));;
  mret (xdr_ressize_check rqstp (p +w 1)).

(** [(unsigned long) p]. *)
Definition address (p : ptr) : Z := ulong (block_address (p_blk p) + p_off p).
(** [(((unsigned long)p - 1) & ~PAGE_MASK) + 1]. *)
Definition page_offset_of (p : ptr) : Z := Z.land (ulong (address p - 1)) (PAGE_SIZE - 1) + 1.

Definition vsnfssvc_encode_readdirres (rqstp : svc_rqst) (p : ptr) (resp : vsnfsd_readdirres)
    : M mem (Z * svc_rqst) :=
  let '(_, rqstp) := xdr_ressize_check rqstp p in
  let p := drdr_buffer resp in
  store32 p 0;;
  store32 (p +w 1) (htonl (if decide (drdr_err resp = vsnfserr VSNFS_OK) then 1 else 0));;
  mret (1, set_page_len rqstp (page_offset_of (p +w 2))).

Definition set_err (res : vsnfsd_readdirres) (e : Z) : vsnfsd_readdirres :=
  VsnfsdReaddirres (drdr_count res) e (drdr_buffer res) (drdr_buflen res) (drdr_offset res).

(** The filler of [vfs_readdir].  [junk] is what the uninitialised handle on
    the stack contains. *)
Definition vsnfssvc_encode_entry (junk : list byte) (res : vsnfsd_readdirres)
    (name : ptr) (namlen offset ino d_type : Z) : M mem (Z * vsnfsd_readdirres) :=
  let p := drdr_buffer res in
  if decide (u32 (-1) < offset) then mret (- EINVAL, set_err res (vsnfserr VSNFSERR_FBIG)) else
  (match drdr_offset res with
   | Some o => store32 o (htonl offset)
   | None => mret tt
   end);;
  let namlen := if decide (VSNFS_MAXNAMLEN < namlen) then VSNFS_MAXNAMLEN else namlen in
  let slen := XDR_QUADLEN namlen in
  let buflen := drdr_buflen res - slen - (5 + XDR_QUADLEN VSNFS_FHSIZE) in
  if decide (buflen < 0) then mret (- EINVAL, set_err res (vsnfserr VSNFSERR_TOOSMALL)) else
  if decide (u32 (-1) < ino) then mret (- EINVAL, set_err res (vsnfserr VSNFSERR_FBIG)) else
  store32 p xdr_one;;
  let p := p +w 1 in
  store32 p (htonl (u32 ino));;
  let p := p +w 1 in
  p ← xdr_encode_array p name namlen;
  let fh := VsnfsFh (snprintf_ld junk VSNFS_FHSIZE (slong ino)) (s32 d_type) in
  p ← encode_fh p fh;
  store32 p (htonl (fh_type fh));;
  let p := p +w 1 in
  let off := p in
  store32 p (htonl (u32 (-1)));;
  let p := p +w 1 in
  mret (0, VsnfsdReaddirres (drdr_count res) (drdr_err res) p buflen (Some off)).

Definition vsnfssvc_encode_readres (rqstp : svc_rqst) (p : ptr) (res : vsnfsd_readres)
    : M mem (Z * svc_rqst) :=
  store32 p (htonl (drr_count res));;
  let p := p +w 1 in
  mret (xdr_ressize_check (set_page_len rqstp (page_offset_of p)) p).
End server_xdr.

Lemma scan_chars_spec bad m q x :
  has_bytes m q x → scan_chars bad q (length x) m = Done (existsb bad x, m).
Proof.
  revert q. induction x as [|c x IH]; intros q Hh; simpl; [done|].
  change (c :: x) with ([c] ++ x) in Hh. apply has_bytes_app in Hh as [H1 H2].
  mstep (load_bytes_spec m q [c]); [done|].
  change (existsb bad [c]) with (bad c || false).
  destruct (bad c); simpl; [done|]. by apply IH.
Qed.

Section server_xdr_spec.
Context `{A : Arch} `{X : SunrpcXdr} `{L : !SunrpcXdrLaws X}.
Implicit Types (m : mem) (p : ptr) (r : svc_rqst).

Lemma decode_fh_spec m p fh :
  fh_wf fh → has_bytes m p (wire_fh fh) → decode_fh p m = Done ((p +p 12, fh), m).
Proof.
  intros Hf Hh. destruct (Hf) as [Hd Ht]. unfold wire_fh in Hh.
  apply has_bytes_app in Hh as [H1 H2].
  unfold decode_fh. rewrite <-Hd.
  mstep load_bytes_spec; [done|]. rewrite Hd in *.
  change (Z.shiftr VSNFS_FHSIZE 2) with 2. unfold VSNFS_FHSIZE in *.
  mstep load32_spec; [use_bytes|].
  rewrite ntohl_native, s32_u32, s32_id by done. destruct fh. repeat f_equal; ptr_lia.
Qed.

(** Names a directory entry can have, and path names, as the decoders accept
    them. *)
Definition filename_ok (x : list byte) : Prop :=
  zlen x ≤ VSNFS_MAXNAMLEN ∧ (NUL ∉ x) ∧ (SLASH ∉ x).
Definition pathname_ok (x : list byte) : Prop := zlen x ≤ VSNFS_MAXPATHLEN ∧ (NUL ∉ x).
#[export] Instance filename_ok_dec x : Decision (filename_ok x).
Proof. unfold filename_ok. apply _. Defined.
#[export] Instance pathname_ok_dec x : Decision (pathname_ok x).
Proof. unfold pathname_ok. apply _. Defined.

Lemma existsb_filename x : existsb bad_in_filename x = bool_decide (NUL ∈ x ∨ SLASH ∈ x).
Proof.
  apply eq_bool_prop_intro. rewrite bool_decide_spec.
  rewrite Is_true_true, existsb_exists. unfold bad_in_filename.
  setoid_rewrite <-list_elem_of_In. setoid_rewrite bool_decide_eq_true. naive_solver.
Qed.
Lemma existsb_pathname x : existsb bad_in_pathname x = bool_decide (NUL ∈ x).
Proof.
  apply eq_bool_prop_intro. rewrite bool_decide_spec.
  rewrite Is_true_true, existsb_exists. unfold bad_in_pathname.
  setoid_rewrite <-list_elem_of_In. setoid_rewrite bool_decide_eq_true. naive_solver.
Qed.

(** The decoders of names on a well-formed string: accepted exactly when it is
    short enough and has none of the forbidden characters. *)
Lemma decode_filename_spec m p n0 l0 x :
  zlen x < 2 ^ 32 → has_bytes m p (xdr_opaque x) →
  ∃ n l, decode_filename p n0 l0 m =
    Done ((if decide (filename_ok x) then Some (p +p zlen (xdr_opaque x)) else None, n, l), m) ∧
    (zlen x ≤ VSNFS_MAXNAMLEN → n = p +p 4 ∧ l = zlen x).
Proof.
  intros Hl Hh. pose proof Hh as [H1 H2]%has_bytes_app. apply has_bytes_app in H2 as [H2 _].
  pose proof (zlen_nonneg x). rewrite zlen_be32 in H2. unfold decode_filename.
  pose proof (decode_string_spec m p (zlen x) VSNFS_MAXNAMLEN ltac:(split; lia) H1) as E.
  case_decide as Hd.
  - exists n0, l0. split; [|lia]. mstep E. rewrite decide_False; [done|].
    unfold filename_ok. lia.
  - exists (p +p 4), (zlen x). split; [|done]. mstep E.
    unfold zlen at 3. rewrite Nat2Z.id.
    mstep scan_chars_spec; [done|]. rewrite existsb_filename.
    rewrite quadlen_spec by (unfold VSNFS_MAXNAMLEN in *; lia). rewrite zlen_xdr_opaque.
    case_bool_decide as Hb; case_decide as Hf; unfold filename_ok in Hf; [naive_solver|done| |].
    + by rewrite wadd_padd, padd_padd.
    + exfalso. apply Hf. split; [lia|]. naive_solver.
Qed.

Lemma decode_pathname_spec m p n0 l0 x :
  zlen x < 2 ^ 32 → has_bytes m p (xdr_opaque x) →
  ∃ n l, decode_pathname p n0 l0 m =
    Done ((if decide (pathname_ok x) then Some (p +p zlen (xdr_opaque x)) else None, n, l), m) ∧
    (zlen x ≤ VSNFS_MAXPATHLEN → n = p +p 4 ∧ l = zlen x).
Proof.
  intros Hl Hh. pose proof Hh as [H1 H2]%has_bytes_app. apply has_bytes_app in H2 as [H2 _].
  pose proof (zlen_nonneg x). rewrite zlen_be32 in H2. unfold decode_pathname.
  pose proof (decode_string_spec m p (zlen x) VSNFS_MAXPATHLEN ltac:(split; lia) H1) as E.
  case_decide as Hd.
  - exists n0, l0. split; [|lia]. mstep E. rewrite decide_False; [done|].
    unfold pathname_ok. lia.
  - exists (p +p 4), (zlen x). split; [|done]. mstep E.
    unfold zlen at 3. rewrite Nat2Z.id.
    mstep scan_chars_spec; [done|]. rewrite existsb_pathname.
    rewrite quadlen_spec by (unfold VSNFS_MAXPATHLEN in *; lia). rewrite zlen_xdr_opaque.
    case_bool_decide as Hb; case_decide as Hf; unfold pathname_ok in Hf; [naive_solver|done| |].
    + by rewrite wadd_padd, padd_padd.
    + exfalso. apply Hf. split; [lia|]. naive_solver.
Qed.

(** ** The argument decoders on well-formed messages *)
Lemma decode_nullargs_spec m r p a0 n :
  has_bytes m p (wire_null n) → within (rq_arg_head r) (p +p 4) →
  vsnfssvc_decode_nullargs r p a0 m = Done ((1, VsnfsdNullargs (s32 n)), m).
Proof.
  intros Hh Hw. unfold vsnfssvc_decode_nullargs. mstep load32_spec; [done|].
  by rewrite ntohl_native, s32_u32, argsize_check_spec, decide_True by done.
Qed.

Lemma decode_getrootargs_spec m r p a0 path :
  has_bytes m p (wire_getroot path) → pathname_ok path →
  within (rq_arg_head r) (p +p zlen (wire_getroot path)) →
  vsnfssvc_decode_getrootargs r p a0 m =
    Done ((1, VsnfsdGetrootargs (p +p 4) (zlen path)), m).
Proof.
  intros Hh Hok Hw. destruct (Hok) as [Hl _]. unfold VSNFS_MAXPATHLEN in Hl.
  destruct (decode_pathname_spec m p (dga_path a0) (dga_len a0) path) as (n & l & E & Hn);
    [lia|done|]. destruct (Hn Hl) as [-> ->].
  unfold vsnfssvc_decode_getrootargs. mstep E. rewrite decide_True by done.
  by rewrite argsize_check_spec, decide_True by done.
Qed.

Lemma decode_getrootargs_reject m r p a0 path :
  zlen path < 2 ^ 32 → has_bytes m p (wire_getroot path) → ¬ pathname_ok path →
  ∃ a, vsnfssvc_decode_getrootargs r p a0 m = Done ((0, a), m).
Proof.
  intros Hl Hh Hok.
  destruct (decode_pathname_spec m p (dga_path a0) (dga_len a0) path) as (n & l & E & _);
    [done|done|]. eexists. unfold vsnfssvc_decode_getrootargs. mstep E.
  by rewrite decide_False by done.
Qed.

Lemma decode_lookupargs_spec m r p a0 fh name :
  fh_wf fh → has_bytes m p (wire_lookup fh name) → filename_ok name →
  within (rq_arg_head r) (p +p zlen (wire_lookup fh name)) →
  vsnfssvc_decode_lookupargs r p a0 m =
    Done ((1, VsnfsdLookupargs fh (p +p 16) (zlen name)), m).
Proof.
  intros Hf Hh Hok Hw. destruct (Hok) as [Hl _]. unfold VSNFS_MAXNAMLEN in Hl.
  unfold wire_lookup in *. apply has_bytes_app in Hh as [H1 H2].
  rewrite zlen_app, zlen_wire_fh in * by done.
  destruct (decode_filename_spec m (p +p 12) (dla_filename a0) (dla_len a0) name)
    as (n & l & E & Hn); [lia|done|]. destruct (Hn Hl) as [-> ->].
  unfold vsnfssvc_decode_lookupargs. mstep decode_fh_spec; [done|done|].
  mstep E. rewrite decide_True by done. rewrite !padd_padd.
  by rewrite argsize_check_spec, decide_True by done.
Qed.

Lemma decode_lookupargs_reject m r p a0 fh name :
  fh_wf fh → zlen name < 2 ^ 32 → has_bytes m p (wire_lookup fh name) → ¬ filename_ok name →
  ∃ a, vsnfssvc_decode_lookupargs r p a0 m = Done ((0, a), m).
Proof.
  intros Hf Hl Hh Hok. unfold wire_lookup in *. apply has_bytes_app in Hh as [H1 H2].
  rewrite zlen_wire_fh in * by done.
  destruct (decode_filename_spec m (p +p 12) (dla_filename a0) (dla_len a0) name)
    as (n & l & E & _); [done|done|]. eexists. unfold vsnfssvc_decode_lookupargs.
  mstep decode_fh_spec; [done|done|]. mstep E. by rewrite decide_False by done.
Qed.

Lemma decode_readdirargs_spec m r p a0 fh count pg :
  fh_wf fh → is_u32 count → has_bytes m p (wire_readdir fh count) →
  rq_respages r !! rq_resused r = Some pg → within (rq_arg_head r) (p +p 16) →
  vsnfssvc_decode_readdirargs r p a0 m =
    Done ((1, VsnfsdReaddirargs fh (Z.min count PAGE_SIZE) pg,
           set_resused r (S (rq_resused r))), m).
Proof.
  intros Hf Hc Hh Hpg Hw. unfold wire_readdir in Hh. apply has_bytes_app in Hh as [H1 H2].
  rewrite zlen_wire_fh in H2 by done.
  unfold vsnfssvc_decode_readdirargs. mstep decode_fh_spec; [done|done|].
  mstep load32_spec; [done|]. unfold lift_outcome, take_respage. rewrite Hpg.
  unfold mbind at 1, M_bind at 1. rewrite ntohl_native, u32_id by done.
  rewrite argsize_check_spec, decide_True by by rewrite wadd_padd, padd_padd.
  mrun. repeat f_equal. case_decide; lia.
Qed.

Lemma decode_readargs_spec m r p a0 fh offset len pg :
  fh_wf fh → is_u32 offset → is_u32 len → has_bytes m p (wire_read fh offset len) →
  rq_respages r !! rq_resused r = Some pg → within (rq_arg_head r) (p +p 20) →
  vsnfssvc_decode_readargs r p a0 m =
    Done ((1, VsnfsdReadargs fh offset (Z.min len PAGE_SIZE) pg,
           set_resused r (S (rq_resused r))), m).
Proof.
  intros Hf Ho Hc Hh Hpg Hw. unfold wire_read in Hh. apply has_bytes_app in Hh as [H1 H2].
  apply has_bytes_app in H2 as [H2 H3]. rewrite zlen_wire_fh in * by done.
  unfold vsnfssvc_decode_readargs. mstep decode_fh_spec; [done|done|].
  mstep load32_spec; [done|]. mstep load32_spec; [use_bytes|].
  unfold lift_outcome, take_respage. rewrite Hpg.
  unfold mbind at 1, M_bind at 1. rewrite !ntohl_native, !u32_id by done.
  rewrite argsize_check_spec, decide_True by by rewrite !wadd_padd, !padd_padd.
  mrun. repeat f_equal. case_decide; lia.
Qed.

(** ** The result encoders *)
Lemma encode_nullres_spec m r p n :
  in_bounds m p 4 →
  vsnfssvc_encode_nullres r p (VsnfsdNullres n) m =
    Done (xdr_ressize_check r (p +p 4), upd m p (be32 n)).
Proof.
  intros Hp. unfold vsnfssvc_encode_nullres. by mstep store32_htonl; [solve_bounds|].
Qed.

Lemma encode_fh_spec m p fh :
  fh_wf fh → in_bounds m p 8 → encode_fh p fh m = Done (p +p 8, upd m p (fh_data fh)).
Proof.
  intros [Hd _] Hp. unfold encode_fh.
  rewrite take_ge by (unfold zlen, VSNFS_FHSIZE in *; lia).
  unfold VSNFS_FHSIZE in Hd. by mstep store_bytes_spec; [solve_bounds|].
Qed.

Lemma encode_fhandle_spec m r p fh :
  fh_wf fh → in_bounds m p 12 →
  vsnfssvc_encode_fhandle r p fh m =
    Done (xdr_ressize_check r (p +p 12), upd m p (wire_fh fh)).
Proof.
  intros Hf Hp. destruct (Hf) as [Hd _]. unfold VSNFS_FHSIZE in Hd.
  unfold vsnfssvc_encode_fhandle.
  mstep encode_fh_spec; [done|solve_bounds|].
  mstep store32_htonl; [solve_bounds|]. merge_upd. by rewrite wadd_padd, padd_padd.
Qed.

(** For a cursor into a page this is how far into the page it is, the end of
    the page included. *)
Lemma page_offset_of_spec p : 0 < p_off p ≤ PAGE_SIZE → page_offset_of p = p_off p.
Proof.
  intros Ho. unfold page_offset_of, address, ulong, PAGE_SIZE in *.
  pose proof PAGE_SHIFT_ok as Hs. pose proof long_bits_ok.
  replace (2 ^ PAGE_SHIFT - 1) with (Z.ones PAGE_SHIFT) by (rewrite Z.ones_equiv; lia).
  rewrite Z.land_ones, Zminus_mod_idemp_l, Z.mod_mod_divide; [| |lia].
  2: { exists (2 ^ (long_bits - PAGE_SHIFT)). rewrite <-Z.pow_add_r by lia. f_equal. lia. }
  pose proof (block_address_aligned (p_blk p)) as Hal. unfold PAGE_SIZE in Hal.
  replace (block_address (p_blk p) + p_off p - 1)
    with (p_off p - 1 + block_address (p_blk p)) by lia.
  rewrite Z.add_mod, Hal, Z.add_0_r, Z.mod_mod, Z.mod_small by lia. lia.
Qed.
End server_xdr_spec.

(** ** One directory entry *)
Section encode_entry.
Context `{A : Arch} `{X : SunrpcXdr} `{L : !SunrpcXdrLaws X}.
Implicit Types (m : mem) (res : vsnfsd_readdirres).

(** What goes on the wire for a directory entry, the offset of the next one
    still unknown. *)
Definition entry_of (junk : list byte) (d : dirent) : wentry :=
  WEntry (d_ino d) (take (Z.to_nat VSNFS_MAXNAMLEN) (d_name d))
    (VsnfsFh (snprintf_ld junk VSNFS_FHSIZE (slong (d_ino d))) (s32 (d_type d))) (u32 (-1)).

(** The memory once the offset of the previous entry is filled in. *)
Definition patch_offset m res (offset : Z) : mem :=
  match drdr_offset res with Some o => upd m o (be32 offset) | None => m end.

(** The words an entry takes in the page. *)
Definition entry_words (d : dirent) : Z :=
  7 + (Z.min VSNFS_MAXNAMLEN (zlen (d_name d)) + 3) / 4.

Lemma entry_of_wf junk d : zlen junk = VSNFS_FHSIZE → fh_wf (we_fh (entry_of junk d)).
Proof.
  intros Hj. split; simpl; [|apply s32_range].
  rewrite zlen_snprintf_ld; [done|]. rewrite Hj. by vm_compute.
Qed.

Lemma zlen_entry_name junk d :
  zlen (we_name (entry_of junk d)) = Z.min VSNFS_MAXNAMLEN (zlen (d_name d)).
Proof. simpl. rewrite zlen_take. unfold VSNFS_MAXNAMLEN. lia. Qed.

Lemma zlen_entry_of junk d :
  zlen junk = VSNFS_FHSIZE → zlen (wire_entry (entry_of junk d)) = 4 * entry_words d.
Proof.
  intros Hj. rewrite zlen_wire_entry by by apply entry_of_wf.
  rewrite zlen_entry_name. unfold entry_words. lia.
Qed.

Lemma entry_words_pos d : 7 ≤ entry_words d.
Proof.
  unfold entry_words, VSNFS_MAXNAMLEN. pose proof (zlen_nonneg (d_name d)).
  Z.div_mod_to_equations. lia.
Qed.

Section branches.
Context (junk : list byte) (res : vsnfsd_readdirres) (name : ptr) (d : dirent) (m : mem).
Context (Hname : has_bytes m name (d_name d)) (Hblk : p_blk name ≠ p_blk (drdr_buffer res)).
Context (Hoff : ∀ o, drdr_offset res = Some o →
                  in_bounds m o 4 ∧ p_blk o = p_blk (drdr_buffer res)).

Local Abbreviation encode :=
  (vsnfssvc_encode_entry junk res name (zlen (d_name d)) (d_offset d) (d_ino d) (d_type d) m).

Lemma encode_entry_offset_too_big :
  u32 (-1) < d_offset d → encode = Done ((- EINVAL, set_err res (vsnfserr VSNFSERR_FBIG)), m).
Proof using. intros. unfold vsnfssvc_encode_entry. by rewrite decide_True. Qed.

Lemma patch_offset_run (k : () → M mem (Z * vsnfsd_readdirres)) :
  ((match drdr_offset res with
    | Some o => store32 o (htonl (d_offset d)) | None => mret tt end) ≫= k) m =
  k tt (patch_offset m res (d_offset d)).
Proof using Hoff.
  unfold patch_offset. destruct (drdr_offset res) as [o|]; [|done].
  by mstep store32_htonl; [apply Hoff|].
Qed.

Lemma patch_offset_bounds q n :
  in_bounds m q n → in_bounds (patch_offset m res (d_offset d)) q n.
Proof using Hoff.
  unfold patch_offset. destruct (drdr_offset res) as [o|]; [|done].
  apply in_bounds_upd. by apply Hoff.
Qed.

Lemma clamp_name :
  (if decide (VSNFS_MAXNAMLEN < zlen (d_name d)) then VSNFS_MAXNAMLEN else zlen (d_name d)) =
  Z.min VSNFS_MAXNAMLEN (zlen (d_name d)).
Proof using. clear Hname Hblk Hoff. case_decide; lia. Qed.

Lemma entry_room :
  drdr_buflen res - XDR_QUADLEN (Z.min VSNFS_MAXNAMLEN (zlen (d_name d)))
    - (5 + XDR_QUADLEN VSNFS_FHSIZE) = drdr_buflen res - entry_words d.
Proof using L.
  clear Hname Hblk Hoff. pose proof (zlen_nonneg (d_name d)).
  rewrite !quadlen_spec by (unfold VSNFS_MAXNAMLEN, VSNFS_FHSIZE; lia).
  change ((VSNFS_FHSIZE + 3) / 4) with 2. unfold entry_words. lia.
Qed.

Lemma encode_entry_too_small :
  d_offset d ≤ u32 (-1) → drdr_buflen res < entry_words d →
  encode = Done ((- EINVAL, set_err res (vsnfserr VSNFSERR_TOOSMALL)),
                 patch_offset m res (d_offset d)).
Proof using L Hoff.
  clear Hname Hblk. intros Ho Hb. unfold vsnfssvc_encode_entry. rewrite decide_False by lia.
  rewrite patch_offset_run, clamp_name, entry_room. by rewrite decide_True by lia.
Qed.

Lemma encode_entry_ino_too_big :
  d_offset d ≤ u32 (-1) → entry_words d ≤ drdr_buflen res → u32 (-1) < d_ino d →
  encode = Done ((- EINVAL, set_err res (vsnfserr VSNFSERR_FBIG)),
                 patch_offset m res (d_offset d)).
Proof using L Hoff.
  clear Hname Hblk. intros Ho Hb Hi. unfold vsnfssvc_encode_entry. rewrite decide_False by lia.
  rewrite patch_offset_run, clamp_name, entry_room.
  by rewrite decide_False, decide_True by lia.
Qed.

Lemma has_bytes_name :
  has_bytes (patch_offset m res (d_offset d)) name (we_name (entry_of junk d)).
Proof using Hname Hblk Hoff.
  assert (has_bytes m name (we_name (entry_of junk d))) as Hn.
  { simpl. rewrite <-(take_drop (Z.to_nat VSNFS_MAXNAMLEN) (d_name d)) in Hname.
    by apply has_bytes_app in Hname as [? _]. }
  unfold patch_offset. destruct (drdr_offset res) as [o|]; [|done].
  destruct (Hoff o eq_refl) as [? Hb].
  apply has_bytes_upd_disj; [done| |done]. left. congruence.
Qed.

Lemma encode_entry_spec :
  zlen junk = VSNFS_FHSIZE → d_offset d ≤ u32 (-1) → is_u32 (d_ino d) →
  entry_words d ≤ drdr_buflen res → in_bounds m (drdr_buffer res) (4 * entry_words d) →
  encode = Done ((0, VsnfsdReaddirres (drdr_count res) (drdr_err res)
                       (drdr_buffer res +p 4 * entry_words d)
                       (drdr_buflen res - entry_words d)
                       (Some (drdr_buffer res +p (4 * entry_words d - 4)))),
                 upd (patch_offset m res (d_offset d)) (drdr_buffer res)
                     (wire_entry (entry_of junk d))).
Proof using All.
  intros Hj Ho [Hi1 Hi2] Hb Hp. pose proof (entry_of_wf junk d Hj) as Hwf.
  pose proof (zlen_entry_of junk d Hj) as Hlen. pose proof (zlen_entry_name junk d) as Hnl.
  pose proof has_bytes_name as Hn. pose proof (patch_offset_bounds _ _ Hp) as Hp'.
  destruct (Hwf) as [Hfd _]. unfold VSNFS_FHSIZE in Hfd.
  unfold vsnfssvc_encode_entry. rewrite decide_False by lia.
  rewrite patch_offset_run, clamp_name, entry_room.
  rewrite decide_False by lia.
  rewrite decide_False by (change (u32 (-1)) with (2 ^ 32 - 1); lia). rewrite xdr_one_spec.
  set (m1 := patch_offset m res (d_offset d)) in *. clearbody m1.
  change (VsnfsFh _ _) with (we_fh (entry_of junk d)).
  change (u32 (-1)) with (we_next (entry_of junk d)).
  change (u32 (d_ino d)) with (u32 (we_ino (entry_of junk d))).
  assert (zlen (xdr_opaque (we_name (entry_of junk d))) = 4 * entry_words d - 24) as Hol.
  { rewrite zlen_xdr_opaque, Hnl. unfold entry_words. lia. }
  assert (zlen (we_name (entry_of junk d)) + 3 < 2 ^ 32) as Hsm
    by (rewrite Hnl; unfold VSNFS_MAXNAMLEN; lia).
  rewrite <-Hnl. generalize dependent (entry_of junk d). intros e. intros.
  remember (entry_words d) as ew.
  mstep store32_htonl; [solve_bounds|].
  mstep store32_htonl; [solve_bounds|]. merge_upd. rewrite be32_u32.
  mstep encode_array_spec;
    [apply has_bytes_upd_disj; [solve_bounds|left; simpl; congruence|done]
    |done|solve_bounds|left; simpl; congruence|]. merge_upd.
  mstep encode_fh_spec; [done|solve_bounds|]. merge_upd.
  mstep store32_htonl; [solve_bounds|]. merge_upd.
  mstep store32_htonl; [solve_bounds|]. merge_upd.
  unfold wire_entry, wire_entry_head, wire_fh. rewrite <-!app_assoc.
  repeat f_equal; ptr_lia.
Qed.
End branches.
End encode_entry.
