(* ===== verification/Handle.v ===== *)
(** * Handle: inode numbers as file handles

    A handle's eight data bytes hold the inode number in decimal, printed by
    [snprintf(data, VSNFS_FHSIZE, "%ld", ino)] on the server and read back by
    [simple_strtoul(data, ..., 0)] on both sides.  The bytes are followed in
    memory by the handle's type, into which an unterminated number runs. *)
From Stdlib Require Import Strings.Byte.
From S2P Require Import Prelude Mem CString Protocol.

Section handle.
Context `{A : Arch}.

(** The bytes of a [struct vsnfs_fh], from the first of [data]. *)
Definition fh_bytes (fh : vsnfs_fh) : list byte := fh_data fh ++ native32 (fh_type fh).

(** [simple_strtoul(fh->data, &tmp, 0)]. *)
Definition fh_strtoul (fh : vsnfs_fh) : outcome Z :=
  '(v, _) ← simple_strtoul (fh_bytes fh); mret v.

(** [snprintf(data, VSNFS_FHSIZE, "%ld", ino)] over what [data] held. *)
Definition ino_data (junk : list byte) (ino : Z) : list byte :=
  snprintf_ld junk VSNFS_FHSIZE (slong ino).

Lemma slong_id z : 0 ≤ z < 2 ^ (long_bits - 1) → slong z = z.
Proof.
  intros Hz. unfold slong. rewrite Z.mod_small; [lia|].
  assert (2 ^ long_bits = 2 * 2 ^ (long_bits - 1)); [|lia].
  rewrite <-Z.pow_succ_r; [f_equal; lia|]. destruct long_bits_ok as [-> | ->]; lia.
Qed.

Lemma seven_digits_fit : 10 ^ 7 < 2 ^ (long_bits - 1) ∧ 10 ^ 7 < 2 ^ long_bits.
Proof. by destruct long_bits_ok as [-> | ->]. Qed.

Lemma ino_data_cons junk ino :
  zlen junk = VSNFS_FHSIZE →
  ∃ r, ino_data junk ino = take 7 (fmt_ld (slong ino)) ++ NUL :: r.
Proof.
  intros Hj. unfold ino_data, snprintf_ld, splice.
  rewrite take_0. simpl app. eexists. rewrite <-app_assoc. done.
Qed.

Lemma fh_strtoul_dec ds r t :
  Forall is_digit ds → (∃ b ds', ds = b :: ds' ∧ 49 ≤ byte_val b ≤ 57) →
  (length ds ≤ 7)%nat → fh_strtoul (VsnfsFh (ds ++ NUL :: r) t) = Done (dec_val 0 ds).
Proof.
  intros Hd Hb Hl. unfold fh_strtoul, fh_bytes. simpl. rewrite <-app_assoc. simpl.
  rewrite simple_strtoul_dec; [done|done|done| |done].
  pose proof (dec_val_bound ds Hd). pose proof seven_digits_fit.
  assert (10 ^ zlen ds ≤ 10 ^ 7) by (apply Z.pow_le_mono_r; unfold zlen; lia). lia.
Qed.

Lemma ino_data_first ino :
  0 < ino → ∃ b r, take 7 (fmt_ld ino) = b :: r ∧ 49 ≤ byte_val b ≤ 57.
Proof.
  intros Hi. destruct (fmt_ld_spec ino) as (_ & _ & H & _); [lia|].
  destruct (H Hi) as (b & r & -> & ?). by exists b, (take 6 r).
Qed.

Lemma take_digits k ino : 0 ≤ ino → Forall is_digit (take k (fmt_ld ino)).
Proof. intros Hi. apply Forall_take. by apply fmt_ld_spec. Qed.
End handle.

(** A number printed on one machine and read on another. *)
Lemma handle_reads_back (A1 A2 : Arch) junk ino t :
  zlen junk = VSNFS_FHSIZE → 0 ≤ ino < 10 ^ 7 →
  fh_strtoul (A := A1) (VsnfsFh (ino_data (A := A2) junk ino) t) = Done ino.
Proof.
  intros Hj Hi. destruct (ino_data_cons (A := A2) junk ino Hj) as [r ->].
  rewrite (slong_id (A := A2)) by (pose proof (seven_digits_fit (A := A2)); lia).
  assert (zlen (fmt_ld ino) ≤ 7) by (apply fmt_ld_len; lia).
  destruct (decide (ino = 0)) as [->|]; [done|].
  rewrite fh_strtoul_dec.
  - rewrite take_ge by (unfold zlen in *; lia). f_equal. apply fmt_ld_spec. lia.
  - apply take_digits. lia.
  - apply ino_data_first. lia.
  - rewrite length_take. lia.
Qed.

(** C25: An inode number below 10,000,000 survives the trip through a handle:
    whatever the eight bytes held before and whatever the type is, parsing the
    printed handle gives the number back, whichever machine prints it and
    whichever parses it. *)
Theorem handle_roundtrip (A1 A2 : Arch) junk ino t :
  zlen junk = VSNFS_FHSIZE → 0 ≤ ino < 10 ^ 7 →
  fh_strtoul (A := A1) (VsnfsFh (ino_data (A := A2) junk ino) t) = Done ino.
Proof. apply handle_reads_back. Qed.

Lemma handle_roundtrip_witness :
  fh_strtoul (A := x86_64) (VsnfsFh (ino_data (A := x86_64) (replicate 8 x5a) 29387) 1) =
  Done 29387.
Proof. apply (handle_roundtrip x86_64 x86_64); [reflexivity|lia]. Defined.

(** C26: A larger inode number does not: the handle keeps its seven leading
    digits only, so it parses as the quotient of the number by a power of ten,
    which names a different inode. *)
Theorem handle_truncated `{A : Arch} junk ino t :
  zlen junk = VSNFS_FHSIZE → 10 ^ 7 ≤ ino < 2 ^ (long_bits - 1) →
  let k := zlen (fmt_ld ino) - 7 in
  0 < k ∧ fh_strtoul (VsnfsFh (ino_data junk ino) t) = Done (ino / 10 ^ k) ∧
  ino / 10 ^ k ≠ ino.
Proof.
  intros Hj Hi k. destruct (ino_data_cons junk ino Hj) as [r ->].
  rewrite slong_id by lia.
  destruct (fmt_ld_spec ino) as (Hd & Hv & _ & _); [lia|].
  assert (0 < k) as Hk.
  { pose proof (dec_val_bound _ Hd) as Hb. rewrite Hv in Hb. subst k.
    destruct (decide (zlen (fmt_ld ino) ≤ 7)) as [Hle|]; [|lia].
    assert (10 ^ zlen (fmt_ld ino) ≤ 10 ^ 7) by (apply Z.pow_le_mono_r; lia). lia. }
  split_and!; [done| |].
  - rewrite fh_strtoul_dec.
    + rewrite dec_val_take by (done || (unfold zlen in *; lia)). by rewrite Hv.
    + apply take_digits. lia.
    + apply ino_data_first. lia.
    + rewrite length_take. lia.
  - assert (1 < 10 ^ k) by (apply Z.pow_gt_1; lia).
    assert (ino / 10 ^ k < ino) by (apply Z.div_lt; lia). lia.
Qed.

Lemma handle_truncated_witness :
  fh_strtoul (A := x86_64) (VsnfsFh (ino_data (A := x86_64) (replicate 8 x5a) 12345678) 1) =
  Done 1234567.
Proof.
  destruct (handle_truncated (A := x86_64) (replicate 8 x5a) 12345678 1) as (_ & H & _);
    [reflexivity|vm_compute; split; congruence|]. exact H.
Defined.
