(* ===== verification/RoundTrip.v ===== *)
(** * RoundTrip: what one side encodes the other decodes

    The arguments a client encodes are the arguments the server decodes, and
    the handle a server encodes is the one the client decodes, for any two
    machines: the client runs on [Ac] with the RPC library [Xc], the server on
    [As] with [Xs].  What lies between is a transport that delivers the bytes
    of the message, [delivered]. *)
From Stdlib Require Import Strings.Byte.
From S2P Require Import Prelude Mem CString Protocol Sunrpc Wire ClientXdr ServerXdr.

(** The bytes the client wrote from [p] to the end of its send buffer are at
    [q] in the server's memory, inside the received head. *)
Definition delivered (mc : mem) (p : ptr) (req : rpc_rqst)
    (ms : mem) (q : ptr) (r : svc_rqst) : Prop :=
  ∃ w, has_bytes mc p w ∧
       p_off p + zlen w = p_off (iov_base (rq_svec req)) + rq_slen req ∧
       has_bytes ms q w ∧ within (rq_arg_head r) (q +p zlen w).

Lemma delivered_wire `{A : Arch} `{X : SunrpcXdr} `{L : !SunrpcXdrLaws X}
    (m : mem) (p : ptr) (req req' : rpc_rqst) ms q r x :
  in_bounds m p (zlen x) → p_blk p = p_blk (iov_base (rq_svec req)) →
  rq_svec req' = rq_svec (adjust_slen req (p +p zlen x)) →
  rq_slen req' = rq_slen (adjust_slen req (p +p zlen x)) →
  delivered (upd m p x) p req' ms q r →
  has_bytes ms q x ∧ within (rq_arg_head r) (q +p zlen x).
Proof.
  intros Hb Hp Hv Hl (w & H1 & H2 & H3 & H4).
  assert (zlen w = zlen x) as Hz.
  { rewrite Hv, Hl in H2. erewrite adjust_slen_spec in H2; [|done|done]. simpl in H2. lia. }
  assert (w = x) as ->; [|done].
  eapply has_bytes_inj; [done|exact H1|]. by apply has_bytes_upd.
Qed.

(** Concrete memories and requests for the examples. *)
Definition rqst_at (b : ptr) : rpc_rqst := RpcRqst (Kvec b 0) 0 (XdrBuf (Kvec b 0) None 0 0) 0.
Definition svc_at (arg : kvec) (res : kvec) (pages : list ptr) : svc_rqst :=
  SvcRqst arg res pages 0 0.

Section args.
Context (Ac As : Arch) (Xc Xs : SunrpcXdr).
Context {Lc : SunrpcXdrLaws (H := Ac) Xc} {Ls : SunrpcXdrLaws (H := As) Xs}.

(** C23: GETROOT arguments: the server decodes the path the client encoded,
    with its length, and finds its bytes in the request, for every path the
    protocol admits. *)
Theorem getroot_args_roundtrip mc req p s path :
  pathname_ok path → has_bytes mc s path → p_blk s ≠ p_blk p →
  p_blk p = p_blk (iov_base (rq_svec req)) → in_bounds mc p (zlen (wire_getroot path)) →
  ∃ req' mc',
    vsnfs_xdr_getrootargs (X := Xc) req p (VsnfsGetrootargs s (zlen path)) mc =
      Done ((0, req'), mc') ∧
    ∀ ms q r a0, delivered mc' p req' ms q r →
      ∃ path_p,
        vsnfssvc_decode_getrootargs (X := Xs) r q a0 ms =
          Done ((1, VsnfsdGetrootargs path_p (zlen path)), ms) ∧
        has_bytes ms path_p path.
Proof using Lc Ls.
  intros Hok Hs Hb Hp Hin. destruct (Hok) as [Hl _]. unfold VSNFS_MAXPATHLEN in Hl.
  eexists _, _. split; [apply vsnfs_xdr_getrootargs_spec; (done || lia)|].
  intros ms q r a0 Hd. eapply (delivered_wire (A := Ac) (X := Xc) mc p req) in Hd as [Hh Hw]; [|done..].
  exists (q +p 4). split; [by apply decode_getrootargs_spec|].
  unfold wire_getroot, xdr_opaque in Hh. apply has_bytes_app in Hh as [_ Hh].
  by apply has_bytes_app in Hh as [? _].
Qed.

(** C22: LOOKUP arguments: the server decodes the directory handle and the name
    the client encoded, for every name of at most 255 bytes without a slash or
    a NUL. *)
Theorem lookup_args_roundtrip mc req p fh s name :
  fh_wf fh → filename_ok name → has_bytes mc s name → p_blk s ≠ p_blk p →
  p_blk p = p_blk (iov_base (rq_svec req)) → in_bounds mc p (zlen (wire_lookup fh name)) →
  ∃ req' mc',
    vsnfs_xdr_lookupargs (A := Ac) (X := Xc) req p (VsnfsLookupargs fh s (zlen name)) mc =
      Done ((0, req'), mc') ∧
    ∀ ms q r a0, delivered mc' p req' ms q r →
      ∃ name_p,
        vsnfssvc_decode_lookupargs (A := As) (X := Xs) r q a0 ms =
          Done ((1, VsnfsdLookupargs fh name_p (zlen name)), ms) ∧
        has_bytes ms name_p name.
Proof using Lc Ls.
  intros Hf Hok Hs Hb Hp Hin. destruct (Hok) as [Hl _]. unfold VSNFS_MAXNAMLEN in Hl.
  eexists _, _. split; [apply vsnfs_xdr_lookupargs_spec; (done || lia)|].
  intros ms q r a0 Hd. eapply (delivered_wire (A := Ac) (X := Xc) mc p req) in Hd as [Hh Hw]; [|done..].
  exists (q +p 16). split; [by apply decode_lookupargs_spec|].
  unfold wire_lookup, xdr_opaque in Hh. apply has_bytes_app in Hh as [_ Hh].
  rewrite zlen_wire_fh in Hh by done.
  apply has_bytes_app in Hh as [_ Hh]. apply has_bytes_app in Hh as [Hh _]. use_bytes.
Qed.

(** READDIR arguments: the server decodes the handle the client encoded
    and its byte count, cut to one page, and takes the next response page as
    the buffer. *)
Theorem readdir_args_roundtrip mc req p fh count pg :
  fh_wf fh → is_u32 count →
  p_blk p = p_blk (iov_base (rq_svec req)) → in_bounds mc p 16 →
  ∃ req' mc',
    vsnfs_xdr_readdirargs (A := Ac) (X := Xc) req p (VsnfsReaddirargs fh count pg) mc =
      Done ((0, req'), mc') ∧
    xb_pages (rq_rcv_buf req') = Some pg ∧ xb_page_len (rq_rcv_buf req') = count ∧
    ∀ ms q r a0 buffer, delivered mc' p req' ms q r →
      rq_respages r !! rq_resused r = Some buffer →
      vsnfssvc_decode_readdirargs (A := As) (X := Xs) r q a0 ms =
        Done ((1, VsnfsdReaddirargs fh (Z.min count (PAGE_SIZE (H := As))) buffer,
               set_resused r (S (rq_resused r))), ms).
Proof using Lc Ls.
  intros Hf Hc Hp Hin. pose proof (zlen_wire_fh fh Hf) as Hw.
  assert (zlen (wire_readdir fh count) = 16) as Hz
    by (unfold wire_readdir; rewrite zlen_app, Hw; done).
  destruct (vsnfs_xdr_readdirargs_spec (A := Ac) (X := Xc) mc req p fh count pg Hf Hin)
    as (req' & E & Hv & Hl & _ & Hpg).
  eexists _, _. split; [exact E|]. rewrite Hpg. simpl.
  rewrite (u32_id count) by done. split_and!; [done..|].
  intros ms q r a0 buffer Hd Hbuf.
  eapply (delivered_wire (A := Ac) (X := Xc) mc p req) in Hd as [Hh Hwi]; rewrite ?Hz in *; [|done..].
  by apply decode_readdirargs_spec.
Qed.

(** READ arguments: the server decodes the handle, the offset and the
    length, cut to one page. *)
Theorem read_args_roundtrip mc req p fh offset len pg :
  fh_wf fh → is_u32 offset → is_u32 len →
  p_blk p = p_blk (iov_base (rq_svec req)) → in_bounds mc p 20 →
  ∃ req' mc',
    vsnfs_xdr_readargs (A := Ac) (X := Xc) req p (VsnfsReadargs fh offset len pg) mc =
      Done ((0, req'), mc') ∧
    ∀ ms q r a0 buffer, delivered mc' p req' ms q r →
      rq_respages r !! rq_resused r = Some buffer →
      vsnfssvc_decode_readargs (A := As) (X := Xs) r q a0 ms =
        Done ((1, VsnfsdReadargs fh offset (Z.min len (PAGE_SIZE (H := As))) buffer,
               set_resused r (S (rq_resused r))), ms).
Proof using Lc Ls.
  intros Hf Ho Hc Hp Hin. pose proof (zlen_wire_fh fh Hf) as Hw.
  assert (zlen (wire_read fh offset len) = 20) as Hz
    by (unfold wire_read; rewrite !zlen_app, Hw; done).
  destruct (vsnfs_xdr_readargs_spec (A := Ac) (X := Xc) mc req p fh offset len pg Hf Hin)
    as (req' & E & Hv & Hl & _).
  eexists _, _. split; [exact E|]. intros ms q r a0 buffer Hd Hbuf.
  eapply (delivered_wire (A := Ac) (X := Xc) mc p req) in Hd as [Hh Hwi]; rewrite ?Hz in *; [|done..].
  by apply decode_readargs_spec.
Qed.
End args.

(** ** Examples: an x86-64 client and a big-endian 32-bit server *)
Definition ex_name : list byte := [x6f; x6e; x65].                        (* one *)
Definition ex_path : list byte := [x2f; x74; x6d; x70].                   (* /tmp *)
Definition ex_fh : vsnfs_fh := VsnfsFh [x32; x39; x33; x38; x37; x00; x00; x00] VSNFS_DIR.
Definition ex_mc : mem := mem_of [(1%positive, zeros 64); (2%positive, ex_name); (4%positive, ex_path)].
Definition ex_req : rpc_rqst := rqst_at (Ptr 1 0).
Definition ex_ms (w : list byte) : mem := mem_of [(3%positive, zeros 24 ++ w ++ zeros 16)].
Definition ex_svc (w : list byte) : svc_rqst :=
  svc_at (Kvec (Ptr 3 24) (zlen w)) (Kvec (Ptr 5 0) 0) [Ptr 6 0].

Lemma getroot_args_roundtrip_witness :
  let w := wire_getroot ex_path in
  ∃ path_p,
    vsnfssvc_decode_getrootargs (X := sunrpc_ref (H := ppc_32)) (ex_svc w) (Ptr 3 24)
      (VsnfsdGetrootargs (Ptr 1 0) 0) (ex_ms w) =
      Done ((1, VsnfsdGetrootargs path_p 4), ex_ms w) ∧
    has_bytes (ex_ms w) path_p ex_path.
Proof.
  intros w.
  destruct (getroot_args_roundtrip x86_64 ppc_32 (sunrpc_ref (H := x86_64))
    (sunrpc_ref (H := ppc_32)) ex_mc ex_req (Ptr 1 8) (Ptr 4 0) ex_path)
    as (req' & mc' & E & H); [by_eval|by_eval|discriminate|reflexivity|by_eval|].
  vm_compute in E. injection E as <- <-. apply H.
  exists w. split_and!; [by_eval|reflexivity|by_eval|by_eval].
Defined.

Lemma lookup_args_roundtrip_witness :
  let w := wire_lookup ex_fh ex_name in
  ∃ name_p,
    vsnfssvc_decode_lookupargs (A := ppc_32) (X := sunrpc_ref (H := ppc_32)) (ex_svc w) (Ptr 3 24)
      (VsnfsdLookupargs fh_zero (Ptr 1 0) 0) (ex_ms w) =
      Done ((1, VsnfsdLookupargs ex_fh name_p 3), ex_ms w) ∧
    has_bytes (ex_ms w) name_p ex_name.
Proof.
  intros w.
  destruct (lookup_args_roundtrip x86_64 ppc_32 (sunrpc_ref (H := x86_64))
    (sunrpc_ref (H := ppc_32)) ex_mc ex_req (Ptr 1 8) ex_fh (Ptr 2 0) ex_name)
    as (req' & mc' & E & H); [by_eval|by_eval|by_eval|discriminate|reflexivity|by_eval|].
  vm_compute in E. injection E as <- <-. apply H.
  exists w. split_and!; [by_eval|reflexivity|by_eval|by_eval].
Defined.

Lemma readdir_args_roundtrip_witness :
  let w := wire_readdir ex_fh 8192 in
  vsnfssvc_decode_readdirargs (A := ppc_32) (X := sunrpc_ref (H := ppc_32)) (ex_svc w) (Ptr 3 24)
      (VsnfsdReaddirargs fh_zero 0 (Ptr 1 0)) (ex_ms w) =
    Done ((1, VsnfsdReaddirargs ex_fh 4096 (Ptr 6 0), set_resused (ex_svc w) 1), ex_ms w).
Proof.
  intros w.
  destruct (readdir_args_roundtrip x86_64 ppc_32 (sunrpc_ref (H := x86_64))
    (sunrpc_ref (H := ppc_32)) ex_mc ex_req (Ptr 1 8) ex_fh 8192 (Ptr 7 0))
    as (req' & mc' & E & _ & _ & H); [by_eval|by_eval|reflexivity|by_eval|].
  vm_compute in E. injection E as <- <-. apply H; [|reflexivity].
  exists w. split_and!; [by_eval|reflexivity|by_eval|by_eval].
Defined.

Lemma read_args_roundtrip_witness :
  let w := wire_read ex_fh 100 512 in
  vsnfssvc_decode_readargs (A := ppc_32) (X := sunrpc_ref (H := ppc_32)) (ex_svc w) (Ptr 3 24)
      (VsnfsdReadargs fh_zero 0 0 (Ptr 1 0)) (ex_ms w) =
    Done ((1, VsnfsdReadargs ex_fh 100 512 (Ptr 6 0), set_resused (ex_svc w) 1), ex_ms w).
Proof.
  intros w.
  destruct (read_args_roundtrip x86_64 ppc_32 (sunrpc_ref (H := x86_64))
    (sunrpc_ref (H := ppc_32)) ex_mc ex_req (Ptr 1 8) ex_fh 100 512 (Ptr 7 0))
    as (req' & mc' & E & H); [by_eval|by_eval|by_eval|reflexivity|by_eval|].
  vm_compute in E. injection E as <- <-. apply H; [|reflexivity].
  exists w. split_and!; [by_eval|reflexivity|by_eval|by_eval].
Defined.
