(* ===== verification/VfsApi.v ===== *)
(** * VfsApi: the interface to the kernel's file system layer

    Path resolution, opening, reading and listing files belong to the kernel
    the server module runs in.  They are the fields of [ServerKernel], with the
    documented behaviour the server relies on as laws; [kernel_ref] builds an
    instance from a table of files, for the examples. *)
From Stdlib Require Import Strings.Byte.
From S2P Require Import Prelude Mem CString Protocol Sunrpc Wire.

(** ** Inodes, as the server looks at them *)
Record inode_info : Type := InodeInfo { i_ino : Z; i_mode : Z }.
#[export] Instance inode_info_eq_dec : EqDecision inode_info.
Proof. solve_decision. Defined.

Definition S_IFMT : Z := 61440.    (* 0170000 *)
Definition S_IFREG : Z := 32768.   (* 0100000 *)
Definition S_IFDIR : Z := 16384.   (* 0040000 *)
Definition S_ISREG (mode : Z) : bool := bool_decide (Z.land mode S_IFMT = S_IFREG).
Definition S_ISDIR (mode : Z) : bool := bool_decide (Z.land mode S_IFMT = S_IFDIR).
Definition O_RDONLY : Z := 0.

(** The address limit of the thread: user copies are checked against user
    memory unless it is [KERNEL_DS]. *)
Inductive addr_limit : Type := USER_DS | KERNEL_DS.
#[export] Instance addr_limit_eq_dec : EqDecision addr_limit.
Proof. solve_decision. Defined.

(** A directory filler: name, its length, offset, inode number, type. *)
Definition filldir (S : Type) : Type := ptr → Z → Z → Z → Z → M S Z.

(** How [vfs_readdir] drives a filler: on each entry in turn, until it returns
    something other than zero. *)
Fixpoint fill_all {S} (es : list (ptr * dirent)) (filler : filldir S) : M S Z :=
  match es with
  | [] => mret 0
  | (nm, d) :: es =>
      r ← filler nm (zlen (d_name d)) (d_offset d) (d_ino d) (d_type d);
      if decide (r ≠ 0) then mret r else fill_all es filler
  end.

Class ServerKernel : Type := {
  (* [path_lookup(path, 0, nd)]: its result and what nd->path.dentry then is.
     On failure that may be anything: the walk has given back its references,
     and leaves the field as it is. *)
  path_lookup : list byte → Z * option inode_info;
  (* [filp_open(path, mode, 0)]: an error or an open file *)
  filp_open : list byte → Z → Z + Z;
  filp_close : Z → Z;
  (* the entries of an open directory and where their names are in memory *)
  dir_entries : Z → list (ptr * dirent);
  (* the result of [vfs_readdir] given the filler's last one *)
  readdir_result : Z → Z → Z;
  vfs_readdir : ∀ S, Z → filldir S → M S Z;
  (* [vfs_read(file, buf, count, pos)]: its result and the bytes read *)
  vfs_read : addr_limit → Z → Z → Z → Z * list byte;
  sizeof_nameidata : Z;
  (* what uninitialised stack memory holds *)
  stack_junk : Z → list byte;
  stack_loff : Z;
}.

Class ServerKernelLaws (K : ServerKernel) : Prop := {
  path_lookup_ok p : (path_lookup p).1 = 0 → is_Some (path_lookup p).2;
  path_lookup_err p : (path_lookup p).1 ≤ 0;
  vfs_readdir_spec S f filler (s : S) :
    vfs_readdir S f filler s =
      (r ← fill_all (dir_entries f) filler; mret (readdir_result f r)) s;
  vfs_read_ok l f n pos :
    0 ≤ n → 0 ≤ (vfs_read l f n pos).1 →
    (vfs_read l f n pos).1 = zlen (vfs_read l f n pos).2 ∧ (vfs_read l f n pos).1 ≤ n;
  sizeof_nameidata_pos : 0 < sizeof_nameidata;
  stack_junk_len i : zlen (stack_junk i) = VSNFS_FHSIZE;
}.

(** ** An instance: a fixed set of files *)
Record kfile : Type := KFile { kf_path : list byte; kf_inode : inode_info }.

(** A failed walk of [kernel_ref] leaves the first of its paths that is a
    prefix of the one asked for, when there is one. *)
Definition last_dentry (files : list kfile) (p : list byte) : option inode_info :=
  kf_inode <$> find (λ k, bool_decide (kf_path k `prefix_of` p)) files.

Definition kernel_ref (files : list kfile) (dirs : Z → list (ptr * dirent))
    (content : Z → list byte) : ServerKernel := {|
  path_lookup p :=
    match find (λ k, bool_decide (kf_path k = p)) files with
    | Some k => (0, Some (kf_inode k))
    | None => (- ENOENT, last_dentry files p)
    end;
  filp_open p _ :=
    match find (λ k, bool_decide (kf_path k = p)) files with
    | Some k => inr (i_ino (kf_inode k))
    | None => inl (- ENOENT)
    end;
  filp_close _ := 0;
  dir_entries := dirs;
  readdir_result _ _ := 0;
  vfs_readdir S f filler := fill_all (dirs f) filler;; mret 0;
  vfs_read _ f n pos :=
    let d := take (Z.to_nat n) (drop (Z.to_nat pos) (content f)) in (zlen d, d);
  sizeof_nameidata := 72;
  stack_junk _ := replicate 8 x5a;
  stack_loff := 0;
|}.

#[export] Instance kernel_ref_laws files dirs content :
  ServerKernelLaws (kernel_ref files dirs content).
Proof.
  split; simpl; try done.
  - intros p. by destruct (find _ _).
  - intros p. by destruct (find _ _).
  - intros _ f n pos Hn _. split; [done|]. rewrite zlen_take. lia.
Qed.
