(* ===== verification/ServerState.v ===== *)
(** * ServerState: the server's state and its file access ([server/vfs.c])

    The lookup table, kernel memory, the references and files the server holds,
    and the functions of [server/vfs.c] with the two of [server/vsnfsproc.c]
    they call: [vsnfsd_fh_to_path] and [vsnfserrno]. *)
From Stdlib Require Import Strings.Byte.
From S2P Require Import Prelude Mem CString Protocol Sunrpc Wire ServerXdr Handle VfsApi.

(** A node of the lookup table: the block it was allocated in and its fields. *)
Record lp_node : Type := LpNode {
  ln_self : ptr;
  ln_ino : Z;
  ln_path : ptr;
}.
#[export] Instance lp_node_eq_dec : EqDecision lp_node.
Proof. solve_decision. Defined.

Record sstate : Type := SState {
  s_mem : mem;
  (* vsnfs_lp_tab: None until the list head is initialised *)
  s_tab : option (list lp_node);
  (* dentries on which the server holds a reference *)
  s_drefs : list Z;
  (* files it has open *)
  s_files : list Z;
  s_fs : addr_limit;
  (* the last reservation made for a reply *)
  s_reserved : Z;
}.

Definition set_mem (m : mem) (s : sstate) : sstate :=
  SState m (s_tab s) (s_drefs s) (s_files s) (s_fs s) (s_reserved s).
Definition set_tab (t : option (list lp_node)) (s : sstate) : sstate :=
  SState (s_mem s) t (s_drefs s) (s_files s) (s_fs s) (s_reserved s).
Definition set_drefs (l : list Z) (s : sstate) : sstate :=
  SState (s_mem s) (s_tab s) l (s_files s) (s_fs s) (s_reserved s).
Definition set_files (l : list Z) (s : sstate) : sstate :=
  SState (s_mem s) (s_tab s) (s_drefs s) l (s_fs s) (s_reserved s).
Definition set_limit (f : addr_limit) (s : sstate) : sstate :=
  SState (s_mem s) (s_tab s) (s_drefs s) (s_files s) f (s_reserved s).
Definition set_reserved (n : Z) (s : sstate) : sstate :=
  SState (s_mem s) (s_tab s) (s_drefs s) (s_files s) (s_fs s) n.

(** Runs a memory operation in the server. *)
Definition in_mem {A} (m : M mem A) : M sstate A := zoom s_mem set_mem m.

(** Walking the list before its head is initialised follows a NULL pointer. *)
Definition lp_list : M sstate (list lp_node) := t ← gets s_tab; deref t.
Definition lp_find (ino : Z) (l : list lp_node) : option lp_node :=
  find (λ n, bool_decide (ln_ino n = ino)) l.

(** Releases one of the held items; releasing one not held is a fault. *)
Fixpoint drop_one (x : Z) (l : list Z) : option (list Z) :=
  match l with
  | [] => None
  | y :: l => if decide (x = y) then Some l else cons y <$> drop_one x l
  end.

(** ** Dentry references *)
Definition dget (d : option inode_info) : M sstate (option inode_info) :=
  match d with
  | None => mret None
  | Some i => modify (λ s, set_drefs (i_ino i :: s_drefs s) s);; mret (Some i)
  end.
Definition dput (d : option inode_info) : M sstate unit :=
  match d with
  | None => mret tt
  | Some i =>
      s ← get;
      match drop_one (i_ino i) (s_drefs s) with
      | Some l => put (set_drefs l s)
      | None => oops NotHeld
      end
  end.
Definition path_put (d : option inode_info) : M sstate unit := dput d.

Section server_state.
Context `{A : Arch} `{Km : Kmem} `{K : ServerKernel}.

(** [path_lookup(path, 0, nd)] on the string at [path]; on success nd->path
    holds a reference, and after a failure it does not, whatever it points to. *)
Definition do_path_lookup (path : ptr) : M sstate (Z * option inode_info) :=
  p ← in_mem (load_cstr path);
  let '(ret, d) := path_lookup p in
  if decide (ret = 0) then dget d;; mret (ret, d) else mret (ret, d).

(** ** Error numbers to status ([vsnfserrno]) *)
Definition vsnfs_errno_tbl : list (Z * Z) :=
  [ (vsnfserr VSNFS_OK, 0);
    (vsnfserr VSNFSERR_PERM, - EPERM);
    (vsnfserr VSNFSERR_NOENT, - ENOENT);
    (vsnfserr VSNFSERR_IO, - EIO);
    (vsnfserr VSNFSERR_NXIO, - ENXIO);
    (vsnfserr VSNFSERR_ACCES, - EACCES);
    (vsnfserr VSNFSERR_EXIST, - EEXIST);
    (vsnfserr VSNFSERR_XDEV, - EXDEV);
    (vsnfserr VSNFSERR_MLINK, - EMLINK);
    (vsnfserr VSNFSERR_NODEV, - ENODEV);
    (vsnfserr VSNFSERR_NOTDIR, - ENOTDIR);
    (vsnfserr VSNFSERR_ISDIR, - EISDIR);
    (vsnfserr VSNFSERR_INVAL, - EINVAL);
    (vsnfserr VSNFSERR_FBIG, - EFBIG);
    (vsnfserr VSNFSERR_NOSPC, - ENOSPC);
    (vsnfserr VSNFSERR_ROFS, - EROFS);
    (vsnfserr VSNFSERR_MLINK, - EMLINK);
    (vsnfserr VSNFSERR_NAMETOOLONG, - ENAMETOOLONG);
    (vsnfserr VSNFSERR_NOTEMPTY, - ENOTEMPTY);
    (vsnfserr VSNFSERR_STALE, - ESTALE);
    (vsnfserr VSNFSERR_JUKEBOX, - ETIMEDOUT);
    (vsnfserr VSNFSERR_JUKEBOX, - ERESTARTSYS);
    (vsnfserr VSNFSERR_IO, - ETXTBSY);
    (vsnfserr VSNFSERR_NOTSUPP, - EOPNOTSUPP);
    (vsnfserr VSNFSERR_TOOSMALL, - ETOOSMALL) ].

Definition vsnfserrno (errno : Z) : Z :=
  match find (λ x, bool_decide (x.2 = errno)) vsnfs_errno_tbl with
  | Some (e, _) => e
  | None => vsnfserr VSNFSERR_IO
  end.

(** ** From a handle to a path *)
Definition vsnfsd_fh_to_path (fh : vsnfs_fh) (path : ptr) (len : Z) : M sstate Z :=
  ino ← lift_outcome (fh_strtoul fh);
  if decide (ino = 0) then mret (-1) else
  l ← lp_list;
  match lp_find ino l with
  | Some node => in_mem (strncpy path (ln_path node) len);; mret 0
  | None => mret (-1)
  end.

(** ** Opening and closing ([server/vfs.c])

    The result is a status and, when that is [vsnfs_ok], the file. *)
Definition vsnfsd_open (fhp : vsnfs_fh) (mode : Z) : M sstate (Z * option Z) :=
  path ← in_mem (kmalloc VSNFS_MAXPATHLEN);
  match path with
  | None => mret (vsnfserr VSNFSERR_NOSPC, None)
  | Some p =>
      ret ← vsnfsd_fh_to_path fhp p VSNFS_MAXPATHLEN;
      r ← (if decide (ret ≠ 0) then mret (vsnfserr VSNFSERR_NOENT, None) else
           str ← in_mem (load_cstr p);
           match filp_open str mode with
           | inl _ => mret (vsnfserr VSNFSERR_IO, None)
           | inr f => modify (λ s, set_files (f :: s_files s) s);;
                      mret (vsnfserr VSNFS_OK, Some f)
           end);
      in_mem (kfree path);;
      mret r
  end.

Definition vsnfsd_close (filp : Z) : M sstate Z :=
  s ← get;
  match drop_one filp (s_files s) with
  | None => oops NotHeld
  | Some l =>
      put (set_files l s);;
      mret (if decide (filp_close filp ≠ 0) then vsnfserr VSNFSERR_IO else vsnfserr VSNFS_OK)
  end.

Section xdr.
Context `{X : SunrpcXdr}.

(** The filler with the result structure [vfs_readdir] hands it. *)
Definition entry_filler : filldir (mem * vsnfsd_readdirres) :=
  λ name namlen offset ino d_type '(m, res),
    match vsnfssvc_encode_entry (stack_junk ino) res name namlen offset ino d_type m with
    | Done (r, res, m) => Done (r, (m, res))
    | Oops e => Oops e
    end.

Definition vsnfsd_readdir (fhp : vsnfs_fh) (buf : vsnfsd_readdirres)
    : M sstate (Z * vsnfsd_readdirres) :=
  '(err, filp) ← vsnfsd_open fhp O_RDONLY;
  if decide (err ≠ 0) then mret (err, buf) else
  file ← deref filp;
  s ← get;
  '(ret, (m, buf)) ← lift_outcome (vfs_readdir _ file entry_filler (s_mem s, buf));
  modify (set_mem m);;
  let err := if decide (ret < 0) then vsnfserrno ret else err in
  vsnfsd_close file;;
  mret (err, buf).
End xdr.

(** Reads at [*pos], and leaves there the number of bytes read. *)
Definition vsnfsd_read (fhp : vsnfs_fh) (buffer : ptr) (count : Z) (pos : Z)
    : M sstate (Z * Z) :=
  '(err, filp) ← vsnfsd_open fhp O_RDONLY;
  if decide (err ≠ vsnfserr VSNFS_OK) then mret (err, pos) else
  file ← deref filp;
  oldfs ← gets s_fs;
  modify (set_limit KERNEL_DS);;
  lim ← gets s_fs;
  let '(host_err, data) := vfs_read lim file count pos in
  in_mem (store_bytes buffer data);;
  modify (set_limit oldfs);;
  let '(err, pos) := if decide (0 ≤ host_err) then (err, host_err)
                     else (vsnfserrno host_err, pos) in
  vsnfsd_close file;;
  mret (err, pos).
End server_state.
