(* ===== verification/ServerProc.v ===== *)
(** * ServerProc: the remote procedures ([server/vsnfsproc.c])

    Each procedure takes the decoded arguments and the result structure the RPC
    layer provides, and returns a status, as a native integer in network byte
    order, and the result as filled in. *)
From Stdlib Require Import Strings.Byte.
From S2P Require Import Prelude Mem CString Protocol Sunrpc Wire ServerXdr Handle VfsApi.
From S2P Require Import ServerState.

Section server_proc.
Context `{A : Arch} `{Km : Kmem} `{K : ServerKernel}.

(** NULL: one more than the argument. *)
Definition vsnfsd_proc_null (argp : vsnfsd_nullargs) (resp : vsnfsd_nullres)
    : M sstate (Z * vsnfsd_nullres) :=
  mret (vsnfserr VSNFS_OK, VsnfsdNullres (s32 (dna_dummy argp + 1))).

(** ** LOOKUP *)
Definition sizeof_lookup_table : Z := 4 * (long_bits / 8).

(** The path of the directory, then the name after it. *)
Definition build_path (path : ptr) (node : lp_node) (argp : vsnfsd_lookupargs) : M mem unit :=
  dir ← load_cstr (ln_path node);
  let len := zlen dir in
  store_bytes path (dir ++ [NUL]);;
  cur ← load_cstr path;
  let nullt := path +p zlen cur in
  name ← load_bytes (dla_filename argp) (dla_len argp);
  store_bytes nullt name;;
  let len := dla_len argp + len in
  store_bytes (path +p len) [NUL].

(** A directory's path ends in a slash. *)
Definition add_slash (path : ptr) : M mem unit :=
  cur ← load_cstr path;
  let len := zlen cur in
  last ← load_bytes (path +p (len - 1)) 1;
  if decide (last ≠ [SLASH]) then
    store_bytes (path +p len) [SLASH];;
    store_bytes (path +p (len + 1)) [NUL]
  else mret tt.

(** A new node at the head of the table, with a copy of the path. *)
Definition lp_add (ino : Z) (path : ptr) (size : Z) : M sstate bool :=
  node ← in_mem (kmalloc sizeof_lookup_table);
  self ← deref node;
  np ← in_mem (kmalloc size);
  match np with
  | None => mret false
  | Some np =>
      str ← in_mem (load_cstr path);
      in_mem (store_bytes np (str ++ [NUL]));;
      l ← lp_list;
      modify (set_tab (Some (LpNode self ino np :: l)));;
      mret true
  end.

(** What follows the resolution of the path: fill in the handle and remember
    the path. *)
Definition lookup_reply (path : ptr) (dentry : option inode_info) (rc : Z) (resp : vsnfs_fh)
    : M sstate (Z * vsnfs_fh) :=
  i ← deref dentry;
  let resp := VsnfsFh (ino_data (fh_data resp) (i_ino i)) (fh_type resp) in
  resp ← (if S_ISREG (i_mode i) then mret (VsnfsFh (fh_data resp) VSNFS_REG)
          else if S_ISDIR (i_mode i) then
            in_mem (add_slash path);;
            mret (VsnfsFh (fh_data resp) VSNFS_DIR)
          else mret resp);
  l ← lp_list;
  match lp_find (i_ino i) l with
  | Some _ => mret (rc, resp)
  | None =>
      str ← in_mem (load_cstr path);
      ok ← lp_add (i_ino i) path (zlen str + 2);
      mret (if ok : bool then rc else u32 (- vsnfserr VSNFSERR_NOSPC), resp)
  end.

Definition vsnfsd_proc_lookup (argp : vsnfsd_lookupargs) (resp : vsnfs_fh)
    : M sstate (Z * vsnfs_fh) :=
  ino ← lift_outcome (fh_strtoul (dla_fh argp));
  l ← lp_list;
  match lp_find ino l with
  | None => mret (vsnfserr VSNFS_OK, resp)
  | Some node =>
      path ← in_mem (kmalloc (VSNFS_MAXPATHLEN + 1));
      match path with
      | None => mret (u32 (- vsnfserr VSNFSERR_NOSPC), resp)
      | Some p =>
          in_mem (build_path p node argp);;
          nd ← in_mem (kmalloc sizeof_nameidata);
          match nd with
          | None => in_mem (kfree path);; mret (u32 (- vsnfserr VSNFSERR_NOSPC), resp)
          | Some ndp =>
              in_mem (store_bytes ndp (replicate (Z.to_nat sizeof_nameidata) NUL));;
              '(ret, d) ← do_path_lookup p;
              let rc := u32 ret in
              dentry ← dget d;
              path_put d;;
              '(rc, resp) ← lookup_reply p dentry rc resp;
              dput dentry;;
              in_mem (kfree nd);;
              in_mem (kfree path);;
              mret (rc, resp)
          end
      end
  end.

(** ** GETROOT *)

(** The path sent by the client, with a slash at its end. *)
Definition copy_root_path (path : ptr) (argp : vsnfsd_getrootargs) : M mem unit :=
  str ← load_bytes (dga_path argp) (dga_len argp);
  store_bytes path str;;
  last ← load_bytes (path +p u32 (dga_len argp - 1)) 1;
  if decide (last ≠ [SLASH]) then
    store_bytes (path +p dga_len argp) [SLASH];;
    store_bytes (path +p (dga_len argp + 1)) [NUL]
  else store_bytes (path +p dga_len argp) [NUL].

(** The root becomes the only node of a new table. *)
Definition getroot_reply (path : ptr) (root : option inode_info) (ret : Z)
    (argp : vsnfsd_getrootargs) (resp : vsnfs_fh) : M sstate (Z * vsnfs_fh) :=
  i ← deref root;
  let resp := VsnfsFh (ino_data (fh_data resp) (i_ino i)) (fh_type resp) in
  if S_ISREG (i_mode i) then mret (u32 (- vsnfserr VSNFSERR_NOTDIR), resp) else
  let resp := if S_ISDIR (i_mode i) then VsnfsFh (fh_data resp) VSNFS_DIR else resp in
  modify (set_tab (Some []));;
  ok ← lp_add (i_ino i) path (u32 (dga_len argp + 2));
  mret (if ok : bool then ret else u32 (- vsnfserr VSNFSERR_NOSPC), resp).

Definition vsnfsd_proc_getroot (argp : vsnfsd_getrootargs) (resp : vsnfs_fh)
    : M sstate (Z * vsnfs_fh) :=
  nd ← in_mem (kmalloc sizeof_nameidata);
  match nd with
  | None => mret (u32 (- vsnfserr VSNFSERR_NOSPC), resp)
  | Some ndp =>
      in_mem (store_bytes ndp (replicate (Z.to_nat sizeof_nameidata) NUL));;
      path ← in_mem (kmalloc (u32 (dga_len argp + 2)));
      match path with
      | None => in_mem (kfree nd);; mret (u32 (- vsnfserr VSNFSERR_NOSPC), resp)
      | Some p =>
          in_mem (copy_root_path p argp);;
          '(ret, d) ← do_path_lookup p;
          root ← dget d;
          path_put d;;
          '(ret, resp) ← getroot_reply p root (u32 ret) argp resp;
          dput root;;
          in_mem (kfree nd);;
          in_mem (kfree path);;
          mret (ret, resp)
      end
  end.

(** ** READDIR *)
Section xdr.
Context `{X : SunrpcXdr}.

Definition vsnfsd_proc_readdir (argp : vsnfsd_readdirargs) (resp : vsnfsd_readdirres)
    : M sstate (Z * vsnfsd_readdirres) :=
  let count := s32 (Z.shiftr (drda_count argp) 2) in
  let count := count - 2 in
  let count := if decide (count < 0) then 0 else count in
  let resp := VsnfsdReaddirres (drdr_count resp) (vsnfserr VSNFS_OK) (drda_buffer argp) count None in
  '(vfserr, resp) ← vsnfsd_readdir (drda_fh argp) resp;
  let resp := if decide (vfserr ≠ 0 ∧ drdr_err resp = vsnfserr VSNFS_OK)
              then set_err resp vfserr else resp in
  let resp := VsnfsdReaddirres ((p_off (drdr_buffer resp) - p_off (drda_buffer argp)) / 4)
                (drdr_err resp) (drdr_buffer resp) (drdr_buflen resp) (drdr_offset resp) in
  mret (vfserr, resp).
End xdr.

(** ** READ: at an offset nobody set *)
Definition vsnfsd_proc_read (argp : vsnfsd_readargs) (resp : vsnfsd_readres)
    : M sstate (Z * vsnfsd_readres) :=
  let pos := stack_loff in
  modify (set_reserved (2 + dra_count argp));;
  '(err, pos) ← vsnfsd_read (dra_fh argp) (dra_buffer argp) (dra_count argp) pos;
  mret (err, VsnfsdReadres (ulong pos)).
End server_proc.
