(* ===== verification/ServerTable.v ===== *)
(** * ServerTable: the lookup table as a finite map

    The abstract state of the server is a finite map from inode numbers to the
    paths they were found under.  [server_rel] relates it to the linked list in
    kernel memory, [clean] says what a procedure may leave behind, and the
    lemmas run the pieces LOOKUP and GETROOT are made of. *)
From Stdlib Require Import Strings.Byte.
From S2P Require Import Prelude Mem Frame CString Protocol Sunrpc Wire ServerXdr Handle VfsApi.
From S2P Require Import ServerState ServerProc.

(** ** The abstract server *)
Abbreviation table := (gmap Z (list byte)).

Definition with_slash (p : list byte) : list byte :=
  if decide (last p = Some SLASH) then p else p ++ [SLASH].

(** The path remembered for an inode found under [p]. *)
Definition entry_path (i : inode_info) (p : list byte) : list byte :=
  if S_ISREG (i_mode i) then p else if S_ISDIR (i_mode i) then with_slash p else p.

Lemma with_slash_ok x : NUL ∉ x → (NUL ∉ with_slash x) ∧ with_slash x ≠ [].
Proof.
  intros Hn. unfold with_slash. case_decide as Hl.
  - split; [done|]. by intros ->.
  - rewrite not_elem_of_app, list_elem_of_singleton. split; [done|]. by destruct x.
Qed.
Lemma entry_path_ok i x : NUL ∉ x → NUL ∉ entry_path i x.
Proof.
  intros Hn. unfold entry_path. destruct (S_ISREG (i_mode i)), (S_ISDIR (i_mode i)); try done.
  by apply with_slash_ok.
Qed.

Lemma entry_path_ge i x : zlen x ≤ zlen (entry_path i x).
Proof. unfold entry_path, with_slash. repeat case_match; rewrite ?zlen_app; zlen_facts; lia. Qed.
Lemma entry_path_le i x : zlen (entry_path i x) ≤ zlen x + 1.
Proof.
  unfold entry_path, with_slash. repeat case_match; rewrite ?zlen_app; change (zlen [SLASH]) with 1; lia.
Qed.

Lemma entry_path_fits i dir name :
  zlen dir + zlen name + 2 ≤ VSNFS_MAXPATHLEN + 1 →
  zlen (entry_path i (dir ++ name)) ≤ VSNFS_MAXPATHLEN.
Proof. pose proof (entry_path_le i (dir ++ name)) as H. rewrite zlen_app in H. lia. Qed.

(** The first path under which an inode was found stays. *)
Definition remember (g : table) (i : inode_info) (p : list byte) : table :=
  match g !! i_ino i with
  | Some _ => g
  | None => <[i_ino i := entry_path i p]> g
  end.

(** The handle of an inode, written over [resp]. *)
Definition reply_fh `{A : Arch} (resp : vsnfs_fh) (i : inode_info) : vsnfs_fh :=
  VsnfsFh (ino_data (fh_data resp) (i_ino i))
    (if S_ISREG (i_mode i) then VSNFS_REG
     else if S_ISDIR (i_mode i) then VSNFS_DIR else fh_type resp).

(** ** The representation *)
Definition node_ok (m : mem) (n : lp_node) (str : list byte) : Prop :=
  p_off (ln_self n) = 0 ∧ is_Some (mem_block m (ln_self n)) ∧
  p_off (ln_path n) = 0 ∧ has_bytes m (ln_path n) (str ++ [NUL]) ∧ (NUL ∉ str).

Definition node_blocks (l : list lp_node) : list positive :=
  concat ((λ n, [p_blk (ln_self n); p_blk (ln_path n)]) <$> l).

Record table_rel (m : mem) (l : list lp_node) (g : table) : Prop := TableRel {
  tr_nodes n : n ∈ l → ∃ str, g !! ln_ino n = Some str ∧ node_ok m n str;
  tr_dom ino : is_Some (g !! ino) → ∃ n, n ∈ l ∧ ln_ino n = ino;
  tr_inos : NoDup (ln_ino <$> l);
  tr_blocks : NoDup (node_blocks l);
}.

Definition server_rel (s : sstate) (T : option table) : Prop :=
  mem_wf (s_mem s) ∧
  match s_tab s, T with
  | None, None => True
  | Some l, Some g => table_rel (s_mem s) l g
  | _, _ => False
  end.

Lemma node_blocks_In l n :
  n ∈ l → p_blk (ln_self n) ∈ node_blocks l ∧ p_blk (ln_path n) ∈ node_blocks l.
Proof.
  intros Hn. unfold node_blocks. rewrite !list_elem_of_In, !in_concat.
  split; eexists; (split; [apply list_elem_of_In, list_elem_of_fmap; eauto|]);
    simpl; auto.
Qed.

Lemma node_blocks_live m l g b :
  table_rel m l g → b ∈ node_blocks l → is_Some (m_blocks m !! b).
Proof.
  intros Hr Hb. unfold node_blocks in Hb. rewrite list_elem_of_In, in_concat in Hb.
  destruct Hb as (x & Hx & Hb). apply list_elem_of_In, list_elem_of_fmap in Hx as (n & -> & Hn).
  destruct (tr_nodes _ _ _ Hr n Hn) as (str & _ & _ & Hs & _ & Hp & _).
  apply has_bytes_live in Hp. destruct Hb as [<-|[<-|[]]]; done.
Qed.

(** The table does not notice changes to other blocks. *)
Lemma table_rel_agree D m m' l g :
  agree D m m' → (∀ b, b ∈ node_blocks l → b ∉ D) → table_rel m l g → table_rel m' l g.
Proof.
  intros Ha Hd Hr. split; [|apply Hr..]. intros n Hn.
  destruct (tr_nodes _ _ _ Hr n Hn) as (str & Hg & H1 & H2 & H3 & H4 & H5).
  destruct (node_blocks_In l n Hn) as [Hs Hp].
  exists str. split; [done|]. split_and!; try done.
  - unfold mem_block in *. rewrite Ha; auto.
  - eapply agree_has_bytes; eauto.
Qed.

Lemma lp_find_Some ino l n : lp_find ino l = Some n → n ∈ l ∧ ln_ino n = ino.
Proof.
  unfold lp_find. intros H. apply find_some in H as [H1 H2].
  rewrite bool_decide_eq_true in H2. by rewrite list_elem_of_In.
Qed.

Lemma lp_find_rel m l g ino :
  table_rel m l g →
  match lp_find ino l with
  | Some n => n ∈ l ∧ ∃ str, g !! ino = Some str ∧ node_ok m n str
  | None => g !! ino = None
  end.
Proof.
  intros Hr. destruct (lp_find ino l) as [n|] eqn:E.
  - apply lp_find_Some in E as [Hn <-]. split; [done|]. by apply (tr_nodes _ _ _ Hr).
  - destruct (g !! ino) eqn:Eg; [|done].
    destruct (tr_dom _ _ _ Hr ino) as (n & Hn & Hi); [by rewrite Eg|].
    unfold lp_find in E. eapply find_none in E; [|by apply list_elem_of_In].
    rewrite bool_decide_eq_false in E. done.
Qed.

(** The empty table. *)
Lemma table_rel_nil m : table_rel m [] ∅.
Proof. split; [set_solver|by intros ? []| |]; apply NoDup_nil_2. Qed.

(** Adding a node for an inode not in the table. *)
Lemma table_rel_add m l g n str :
  table_rel m l g → g !! ln_ino n = None → node_ok m n str →
  p_blk (ln_self n) ≠ p_blk (ln_path n) →
  p_blk (ln_self n) ∉ node_blocks l → p_blk (ln_path n) ∉ node_blocks l →
  table_rel m (n :: l) (<[ln_ino n := str]> g).
Proof.
  intros Hr Hg Hn Hb H1 H2. split.
  - intros n' [->|Hn']%elem_of_cons; [exists str; by rewrite lookup_insert_eq|].
    destruct (tr_nodes _ _ _ Hr n' Hn') as (str' & Hg' & Hok).
    exists str'. rewrite lookup_insert_ne by congruence. done.
  - intros ino. rewrite lookup_insert. case_decide as Hd.
    + exists n. split; [by left|done].
    + intros (n' & ? & ?)%(tr_dom _ _ _ Hr). exists n'. split; [by right|done].
  - simpl. apply NoDup_cons. split; [|apply Hr].
    intros (n' & E & Hn')%list_elem_of_fmap.
    destruct (tr_nodes _ _ _ Hr n' Hn') as (str' & Hg' & _). congruence.
  - unfold node_blocks. simpl. change (concat _) with (node_blocks l).
    rewrite !NoDup_cons. split_and!; [|done|apply Hr]. set_solver.
Qed.

(** ** The pieces of the procedures *)
Lemma in_mem_run {B} (f : M mem B) m t d fl fs rv a m' :
  f m = Done (a, m') →
  in_mem f (SState m t d fl fs rv) = Done (a, SState m' t d fl fs rv).
Proof. intros H. unfold in_mem, zoom. simpl. by rewrite H. Qed.
Lemma in_mem_fault {B} (f : M mem B) m t d fl fs rv e :
  f m = Oops e → in_mem f (SState m t d fl fs rv) = Oops e.
Proof. intros H. unfold in_mem, zoom. simpl. by rewrite H. Qed.

Lemma bind_lp_list {B} (f : list lp_node → M sstate B) m l d fl fs rv :
  (lp_list ≫= f) (SState m (Some l) d fl fs rv) = f l (SState m (Some l) d fl fs rv).
Proof. done. Qed.
#[export] Hint Rewrite @bind_lp_list : mrun.

(** [mem_step H] runs a memory operation of the server by the lemma [H]. *)
Tactic Notation "mem_step" uconstr(H) := mstep in_mem_run; [eapply H|].

Lemma drop_one_cons x l : drop_one x (x :: l) = Some l.
Proof. simpl. by rewrite decide_True. Qed.

Section pieces.
Context `{A : Arch} `{Km : Kmem} `{K : ServerKernel}.
Implicit Types (m : mem) (b : positive).

Lemma build_path_spec m b node argp dir name :
  has_bytes m (ln_path node) (dir ++ [NUL]) → NUL ∉ dir →
  has_bytes m (dla_filename argp) name → zlen name = dla_len argp →
  p_blk (ln_path node) ≠ b → p_blk (dla_filename argp) ≠ b →
  in_bounds m (Ptr b 0) (zlen dir + zlen name + 1) →
  ∃ m', build_path (Ptr b 0) node argp m = Done (tt, m') ∧ touches m b m' ∧
        has_bytes m' (Ptr b 0) (dir ++ name ++ [NUL]).
Proof.
  intros Hd Hnd Hn Hl Hb1 Hb2 Hin. set (p := Ptr b 0) in *.
  set (m1 := upd m p (dir ++ [NUL])).
  assert (in_bounds m p (zlen (dir ++ [NUL]))) as B1 by solve_bounds.
  assert (touches m b m1) as T1 by exact (touches_upd m p _ B1).
  assert (in_bounds m1 (p +p zlen dir) (zlen name)) as B2 by (unfold m1; solve_bounds).
  set (m2 := upd m1 (p +p zlen dir) name).
  assert (touches m1 b m2) as T2 by exact (touches_upd m1 _ _ B2).
  assert (in_bounds m2 (p +p (dla_len argp + zlen dir)) 1) as B3
    by (unfold m2, m1; solve_bounds).
  set (m3 := upd m2 (p +p (dla_len argp + zlen dir)) [NUL]).
  assert (touches m2 b m3) as T3 by exact (touches_upd m2 _ [NUL] B3).
  assert (has_bytes m1 p (dir ++ [NUL])) as R1 by by apply has_bytes_upd.
  exists m3. split; [|split].
  - unfold build_path. mstep load_cstr_spec; [done|done|].
    mstep store_bytes_spec; [done|]. fold m1. mstep load_cstr_spec; [done|done|].
    rewrite <-Hl. mstep load_bytes_spec; [by eapply touches_has_bytes|].
    mstep store_bytes_spec; [done|]. fold m2. rewrite Hl. by apply store_bytes_spec.
  - by eapply touches_trans; [eapply touches_trans|].
  - apply has_bytes_app in R1 as [R1 _]. apply has_bytes_app. split.
    { apply has_bytes_upd_disj; [done|right; simpl; zlen_lia|].
      apply has_bytes_upd_disj; [done|right; simpl; zlen_lia|done]. }
    apply has_bytes_app. split.
    { apply has_bytes_upd_disj; [done|right; simpl; zlen_lia|]. by apply has_bytes_upd. }
    replace (p +p zlen dir +p zlen name) with (p +p (dla_len argp + zlen dir)) by ptr_lia.
    by apply has_bytes_upd.
Qed.

(** Nothing holds the path against the size of the buffer. *)
Lemma build_path_overflow m b node argp dir name :
  has_bytes m (ln_path node) (dir ++ [NUL]) → NUL ∉ dir →
  has_bytes m (dla_filename argp) name → zlen name = dla_len argp →
  p_blk (ln_path node) ≠ b → p_blk (dla_filename argp) ≠ b →
  is_Some (mem_block m (Ptr b 0)) → ¬ in_bounds m (Ptr b 0) (zlen dir + zlen name + 1) →
  build_path (Ptr b 0) node argp m = Oops OutOfBounds.
Proof.
  intros Hd Hnd Hn Hl Hb1 Hb2 Hlive Hout. set (p := Ptr b 0) in *. zlen_facts.
  unfold build_path. mstep load_cstr_spec; [done|done|].
  destruct (decide (in_bounds m p (zlen (dir ++ [NUL])))) as [B1|B1].
  2:{ by apply bind_Oops, store_bytes_oob. }
  set (m1 := upd m p (dir ++ [NUL])). mstep store_bytes_spec; [done|]. fold m1.
  assert (touches m b m1) as T1 by exact (touches_upd m p _ B1).
  assert (has_bytes m1 p (dir ++ [NUL])) as R1 by by apply has_bytes_upd.
  mstep load_cstr_spec; [done|done|].
  rewrite <-Hl. mstep load_bytes_spec; [by eapply touches_has_bytes|].
  pose proof (has_bytes_live _ _ _ R1) as L1.
  destruct (decide (in_bounds m1 (p +p zlen dir) (zlen name))) as [B2|B2].
  2:{ by apply bind_Oops, store_bytes_oob. }
  mstep store_bytes_spec; [done|]. apply store_bytes_oob.
  - pose proof (touches_upd m1 _ _ B2) as (c & c' & _ & _ & ->). unfold mem_block, mem_set. simpl.
    rewrite lookup_insert_eq. eauto.
  - rewrite in_bounds_upd by done. unfold m1. rewrite in_bounds_upd by done. intros B3. apply Hout.
    revert B3. unfold in_bounds. rewrite mem_block_padd. destruct (mem_block m p); [|done].
    unfold p. simpl. zlen_lia.
Qed.

Lemma last_byte m p x c : has_bytes m p (x ++ [c]) → has_bytes m (p +p zlen x) [c].
Proof. by intros [_ ?]%has_bytes_app. Qed.

Lemma with_slash_last x c :
  with_slash (x ++ [c]) = if decide (c = SLASH) then x ++ [c] else (x ++ [c]) ++ [SLASH].
Proof.
  unfold with_slash. rewrite last_snoc.
  by destruct (decide (c = SLASH)), (decide (Some c = Some SLASH)); simplify_eq.
Qed.

(** Writing a slash and a terminator after a string. *)
Definition put_slash (p : ptr) (len : Z) : M mem unit :=
  store_bytes (p +p len) [SLASH];; store_bytes (p +p (len + 1)) [NUL].

Lemma put_slash_spec m p x :
  has_bytes m p x → in_bounds m p (zlen x + 2) →
  ∃ m', put_slash p (zlen x) m = Done (tt, m') ∧ touches m (p_blk p) m' ∧
        has_bytes m' p ((x ++ [SLASH]) ++ [NUL]).
Proof.
  intros Hx Hin.
  assert (in_bounds m (p +p zlen x) 1) as B1 by solve_bounds.
  set (m1 := upd m (p +p zlen x) [SLASH]).
  assert (in_bounds m1 (p +p (zlen x + 1)) 1) as B2 by (unfold m1; solve_bounds).
  exists (upd m1 (p +p (zlen x + 1)) [NUL]). split_and!.
  - unfold put_slash. mstep store_bytes_spec; [done|]. fold m1. by apply store_bytes_spec.
  - eapply touches_trans; [exact (touches_upd m _ [SLASH] B1)|exact (touches_upd m1 _ [NUL] B2)].
  - rewrite <-app_assoc. apply has_bytes_app. split.
    { apply has_bytes_upd_disj; [done|right; simpl; zlen_lia|].
      apply has_bytes_upd_disj; [done|right; simpl; zlen_lia|done]. }
    apply has_bytes_app. split.
    { apply has_bytes_upd_disj; [done|right; simpl; zlen_lia|]. by apply has_bytes_upd. }
    replace (p +p zlen x +p zlen [SLASH]) with (p +p (zlen x + 1)) by ptr_lia.
    by apply has_bytes_upd.
Qed.

Lemma add_slash_spec m b x :
  has_bytes m (Ptr b 0) (x ++ [NUL]) → NUL ∉ x → x ≠ [] →
  in_bounds m (Ptr b 0) (zlen (with_slash x) + 1) →
  ∃ m', add_slash (Ptr b 0) m = Done (tt, m') ∧ touches m b m' ∧
        has_bytes m' (Ptr b 0) (with_slash x ++ [NUL]).
Proof.
  intros Hh Hn Hne Hin. destruct (exists_last Hne) as (y & c & ->). clear Hne.
  set (p := Ptr b 0) in *. rewrite with_slash_last in Hin |- *.
  pose proof (proj1 (proj1 (has_bytes_app _ _ _ _) Hh)) as Hx.
  assert (E : load_bytes (p +p (zlen (y ++ [c]) - 1)) 1 m = Done ([c], m)).
  { replace (zlen (y ++ [c]) - 1) with (zlen y) by zlen_lia.
    apply (load_bytes_spec m _ [c]). by apply last_byte. }
  case_decide as Hc.
  - exists m. subst c. pose proof (has_bytes_live _ _ _ Hh) as [c0 ?].
    split_and!; [|by eapply touches_refl|done].
    unfold add_slash. mstep load_cstr_spec; [done|done|]. mstep E. by rewrite decide_False by auto.
  - destruct (put_slash_spec m p (y ++ [c])) as (m' & E' & ? & ?);
      [done|eapply in_bounds_mono; [|exact Hin]; zlen_lia|].
    exists m'. split_and!; [|done..].
    unfold add_slash. mstep load_cstr_spec; [done|done|]. mstep E.
    rewrite decide_True by congruence. exact E'.
Qed.

Lemma add_slash_overflow m b x :
  has_bytes m (Ptr b 0) (x ++ [NUL]) → NUL ∉ x → x ≠ [] →
  ¬ in_bounds m (Ptr b 0) (zlen (with_slash x) + 1) →
  add_slash (Ptr b 0) m = Oops OutOfBounds.
Proof.
  intros Hh Hn Hne Hout. destruct (exists_last Hne) as (y & c & ->). clear Hne.
  set (p := Ptr b 0) in *. rewrite with_slash_last in Hout.
  pose proof (proj1 (proj1 (has_bytes_app _ _ _ _) Hh)) as Hx.
  assert (E : load_bytes (p +p (zlen (y ++ [c]) - 1)) 1 m = Done ([c], m)).
  { replace (zlen (y ++ [c]) - 1) with (zlen y) by zlen_lia.
    apply (load_bytes_spec m _ [c]). by apply last_byte. }
  pose proof (has_bytes_in_bounds _ _ _ Hh) as Hib.
  assert (in_bounds m (p +p zlen (y ++ [c])) (zlen [SLASH])) as B1.
  { eapply in_bounds_sub; [apply zlen_nonneg|done| |exact Hib]. zlen_lia. }
  case_decide as Hc; [exfalso; apply Hout; eapply in_bounds_mono; [|exact Hib]; zlen_lia|].
  unfold add_slash. mstep load_cstr_spec; [done|done|]. mstep E. rewrite decide_True by congruence.
  mstep store_bytes_spec; [exact B1|]. apply store_bytes_oob.
  - pose proof (touches_upd m _ _ B1) as (c0 & c' & _ & _ & ->). unfold mem_block, mem_set. simpl.
    rewrite lookup_insert_eq. eauto.
  - rewrite in_bounds_upd by done. intros B2. apply Hout. revert B2. unfold in_bounds.
    rewrite mem_block_padd. destruct (mem_block m p); [|done]. unfold p. simpl. zlen_lia.
Qed.
End pieces.

Section procedures.
Context `{A : Arch} `{Km : Kmem} `{K : ServerKernel} `{KL : !ServerKernelLaws K}.
Implicit Types (m : mem) (b : positive).

Lemma lp_add_spec m l d fl fs rv ino p size str :
  let b3 := m_next m in let b4 := Pos.succ b3 in
  kmalloc_ok b3 = true → kmalloc_ok b4 = true → mem_wf m →
  has_bytes m p (str ++ [NUL]) → NUL ∉ str → zlen str + 1 ≤ size →
  ∃ m', lp_add ino p size (SState m (Some l) d fl fs rv) =
          Done (true, SState m' (Some (LpNode (Ptr b3 0) ino (Ptr b4 0) :: l)) d fl fs rv) ∧
        agree [b3; b4] m m' ∧ is_Some (m_blocks m' !! b3) ∧
        has_bytes m' (Ptr b4 0) (str ++ [NUL]) ∧
        m_next m' = Pos.succ b4 ∧ mem_wf m'.
Proof.
  intros b3 b4 Ok3 Ok4 Hwf Hh Hn Hs.
  set (m1 := alloc m sizeof_lookup_table). set (m2 := alloc m1 size).
  assert (has_bytes m2 p (str ++ [NUL])) as Hh2.
  { unfold m2, m1. apply has_bytes_alloc; [by apply mem_wf_alloc|]. by apply has_bytes_alloc. }
  assert (in_bounds m2 (Ptr b4 0) (zlen (str ++ [NUL]))) as B.
  { change b4 with (m_next m1). apply in_bounds_alloc_new; zlen_lia. }
  pose proof (touches_upd _ _ _ B) as T. set (m3 := upd m2 (Ptr b4 0) (str ++ [NUL])) in *.
  exists m3. split_and!.
  - unfold lp_add. mem_step kmalloc_Some; [done|].
    mem_step kmalloc_Some; [done|]. fold m1 m2. mem_step load_cstr_spec; [done|done|].
    mem_step store_bytes_spec; [done|]. done.
  - eapply agree_trans; [apply agree_alloc; set_solver|].
    eapply agree_trans; [apply agree_alloc; set_solver|].
    by eapply agree_touches; [|exact T]; set_solver.
  - change (m_blocks m3 !! b3) with (mem_block m3 (Ptr b3 0)).
    rewrite (touches_block _ _ _ _ T) by (simpl; lia).
    unfold m2. rewrite mem_block_alloc_ne by (simpl; lia).
    unfold m1. rewrite mem_block_alloc_new by done. eauto.
  - by apply has_bytes_upd.
  - by rewrite (touches_next _ _ _ T).
  - eapply touches_wf; [exact T|]. by repeat apply mem_wf_alloc.
Qed.

(** The state of memory and table after an inode has been remembered: the new
    blocks are the scratch ones and those of its node. *)
Definition remembered (B : list positive) (m0 : mem) (l : list lp_node)
    (m' : mem) (l' : list lp_node) (g' : table) : Prop :=
  table_rel m' l' g' ∧
  ∃ N, scratch (N ++ B) m0 m' ∧ node_blocks l' = N ++ node_blocks l ∧ (∀ b, b ∈ N → b ∉ B).

Lemma table_rel_fresh m l g b : table_rel m l g → ¬ live m b → b ∉ node_blocks l.
Proof. intros Hr Hl Hb. apply Hl. by eapply node_blocks_live. Qed.

(** Adding a node to the table, once the path to remember is in the buffer. *)
Lemma remember_add B m0 m l g p ino str d fl fs rv size :
  kmalloc_ok (m_next m) = true → kmalloc_ok (Pos.succ (m_next m)) = true →
  scratch B m0 m → table_rel m l g → has_bytes m p (str ++ [NUL]) → NUL ∉ str →
  zlen str + 1 ≤ size → g !! ino = None →
  ∃ m' l', lp_add ino p size (SState m (Some l) d fl fs rv) =
             Done (true, SState m' (Some l') d fl fs rv) ∧
           remembered B m0 l m' l' (<[ino := str]> g).
Proof.
  intros Ok3 Ok4 Hsc Hr Hh Hn Hs Hg.
  destruct (lp_add_spec m l d fl fs rv ino p size str)
    as (m' & E & Ha & Hb3 & Hb4 & Hnext & Hwf'); [done|done|apply Hsc|done..|].
  set (b3 := m_next m) in *. set (b4 := Pos.succ b3) in *.
  assert (¬ live m b3 ∧ ¬ live m b4) as [N3 N4].
  { split; intros Hl%(sc_wf _ _ _ Hsc); unfold b4, b3 in *; lia. }
  pose proof (table_rel_fresh _ _ _ _ Hr N3). pose proof (table_rel_fresh _ _ _ _ Hr N4).
  eexists m', _. split; [exact E|]. split; [|exists [b3; b4]; split_and!].
  - apply (table_rel_add m' l g (LpNode (Ptr b3 0) ino (Ptr b4 0)) str); simpl;
      [|done|split_and!; simpl; done|lia|done|done].
    eapply table_rel_agree; [exact Ha| |done]. intros b' Hb'. set_solver.
  - pose proof (sc_next _ _ _ Hsc). split; [apply Hsc| | | |done|rewrite Hnext; lia].
    + intros b' [Hb'|Hb']%elem_of_app; [|by eapply sc_fresh].
      assert (b' = b3 ∨ b' = b4) as [-> | ->] by set_solver; unfold b4, b3 in *; lia.
    + intros b' Hb'. destruct (decide (b' ∈ [b3; b4])) as [Hd|Hd].
      * assert (b' = b3 ∨ b' = b4) as [-> | ->] by set_solver; [done|].
        by apply has_bytes_live in Hb4.
      * unfold live. rewrite Ha by done. apply (sc_live _ _ _ Hsc). set_solver.
    + eapply agree_trans; [eapply agree_weaken; [|apply Hsc]|eapply agree_weaken; [|exact Ha]];
        set_solver.
  - done.
  - intros b' Hb' HB. apply (sc_live _ _ _ Hsc) in HB. set_solver.
Qed.

Lemma lookup_reply_spec B m0 m l g b x i rc resp d fl fs rv :
  (∀ b, kmalloc_ok b = true) → scratch B m0 m → table_rel m l g → b ∈ B → b ∉ node_blocks l →
  has_bytes m (Ptr b 0) (x ++ [NUL]) → NUL ∉ x → x ≠ [] →
  in_bounds m (Ptr b 0) (zlen (entry_path i x) + 1) →
  ∃ m' l', lookup_reply (Ptr b 0) (Some i) rc resp (SState m (Some l) d fl fs rv) =
             Done ((rc, reply_fh resp i), SState m' (Some l') d fl fs rv) ∧
           remembered B m0 l m' l' (remember g i x).
Proof.
  intros Hok Hsc Hr HbB Hb Hh Hn Hne Hin.
  pose proof (has_bytes_live _ _ _ Hh) as Hlb. simpl in Hlb.
  set (str := entry_path i x).
  assert (∃ m1,
    (if S_ISREG (i_mode i)
     then mret (VsnfsFh (ino_data (fh_data resp) (i_ino i)) VSNFS_REG)
     else if S_ISDIR (i_mode i) then
       in_mem (add_slash (Ptr b 0));;
       mret (VsnfsFh (ino_data (fh_data resp) (i_ino i)) VSNFS_DIR)
     else mret (VsnfsFh (ino_data (fh_data resp) (i_ino i)) (fh_type resp)))
      (SState m (Some l) d fl fs rv) =
    Done (reply_fh resp i, SState m1 (Some l) d fl fs rv) ∧
    touches m b m1 ∧ has_bytes m1 (Ptr b 0) (str ++ [NUL])) as (m1 & E1 & T1 & H1).
  { unfold str, entry_path, reply_fh in *. destruct (S_ISREG (i_mode i)).
    - exists m. destruct Hlb. split_and!; [done|by eapply touches_refl|done].
    - destruct (S_ISDIR (i_mode i)).
      + destruct (add_slash_spec m b x) as (m1 & E & ? & ?); [done..|]. exists m1.
        split_and!; [|done..]. by mem_step E.
      + exists m. destruct Hlb. split_and!; [done|by eapply touches_refl|done]. }
  pose proof (entry_path_ok i x Hn) as Hns. fold str in Hns.
  pose proof (scratch_touches _ _ _ _ _ HbB T1 Hsc) as Hsc1.
  assert (table_rel m1 l g) as Hr1.
  { apply (table_rel_agree [b] m); [by eapply agree_touches; [|exact T1]; left| |done].
    set_solver. }
  pose proof (lp_find_rel m l g (i_ino i) Hr) as Hf. unfold remember.
  destruct (lp_find (i_ino i) l) as [n|] eqn:Ef.
  - destruct Hf as (_ & str' & Hg & _). rewrite Hg. exists m1, l. split.
    { unfold lookup_reply. mstep E1. by rewrite Ef. }
    split; [done|]. exists []. split_and!; [done|done|set_solver].
  - rewrite Hf.
    destruct (remember_add B m0 m1 l g (Ptr b 0) (i_ino i) str d fl fs rv (zlen str + 2))
      as (m' & l' & E & Hrem); [done..|lia|done|].
    exists m', l'. split; [|done].
    unfold lookup_reply. mstep E1. rewrite Ef.
    mem_step load_cstr_spec; [exact Hns|done|]. by mstep E.
Qed.

(** The blocks of the table. *)
Definition table_blocks (s : sstate) : list positive :=
  match s_tab s with Some l => node_blocks l | None => [] end.

(** [clean_but D s s']: what a procedure may leave behind.  No reference, open
    file or changed address limit; no block but those of the table, which grows
    by new blocks only; and no change to a block that was there, apart from
    those in [D]. *)
Record clean_but (D : list positive) (s s' : sstate) : Prop := Clean {
  cl_drefs : s_drefs s' = s_drefs s;
  cl_files : s_files s' = s_files s;
  cl_fs : s_fs s' = s_fs s;
  cl_live b : live (s_mem s') b → live (s_mem s) b ∨ b ∈ table_blocks s';
  cl_table b : b ∈ table_blocks s' → b ∈ table_blocks s ∨ ¬ live (s_mem s) b;
  cl_frame b : b ∉ D → live (s_mem s) b → m_blocks (s_mem s') !! b = m_blocks (s_mem s) !! b;
}.
Definition clean : sstate → sstate → Prop := clean_but [].

Lemma path_lookup_spec m t d fl fs rv p str i :
  has_bytes m p (str ++ [NUL]) → NUL ∉ str → path_lookup str = (0, Some i) →
  do_path_lookup p (SState m t d fl fs rv) =
    Done ((0, Some i), SState m t (i_ino i :: d) fl fs rv).
Proof.
  intros Hh Hn Hp. unfold do_path_lookup. mem_step load_cstr_spec; [done|done|].
  rewrite Hp. mrun. done.
Qed.

Lemma path_lookup_failed m t d fl fs rv p str err o :
  has_bytes m p (str ++ [NUL]) → NUL ∉ str → path_lookup str = (err, o) → err ≠ 0 →
  do_path_lookup p (SState m t d fl fs rv) = Done ((err, o), SState m t d fl fs rv).
Proof.
  intros Hh Hn Hp He. unfold do_path_lookup. mem_step load_cstr_spec; [done|done|].
  by rewrite Hp, decide_False.
Qed.

(** A reference that is not held cannot be given back. *)
Lemma dput_unheld i m t fl fs rv : dput (Some i) (SState m t [] fl fs rv) = Oops NotHeld.
Proof. done. Qed.

Lemma dput_spec i m t d fl fs rv :
  dput (Some i) (SState m t (i_ino i :: d) fl fs rv) = Done (tt, SState m t d fl fs rv).
Proof. unfold dput. mrun. simpl. by rewrite decide_True by done. Qed.

Lemma remembered_release b B m0 l m' l' g' :
  b ∉ B → b ∉ node_blocks l → remembered (b :: B) m0 l m' l' g' →
  remembered B m0 l (release m' (Ptr b 0)) l' g' ∧ kfree (Some (Ptr b 0)) m' = Done (tt, release m' (Ptr b 0)).
Proof.
  intros HB Hl (Hr & N & Hsc & Hnb & Hd). split.
  - split.
    + apply (table_rel_agree [b] m'); [apply agree_release; simpl; set_solver| |done].
      rewrite Hnb. intros b' [?|?]%elem_of_app; set_solver.
    + exists N. split_and!; [|done|set_solver].
      apply scratch_release; [set_solver|]. eapply scratch_equiv; [|exact Hsc]. set_solver.
  - apply kfree_spec; [|done]. apply (sc_live _ _ _ Hsc). set_solver.
Qed.

Lemma remembered_swap b1 b2 B m0 l m' l' g' :
  remembered (b1 :: b2 :: B) m0 l m' l' g' → remembered (b2 :: b1 :: B) m0 l m' l' g'.
Proof.
  intros (Hr & N & Hsc & Hnb & Hd). split; [done|]. exists N.
  split_and!; [|done|set_solver]. eapply scratch_equiv; [|exact Hsc]. set_solver.
Qed.

Lemma scratch_blocks B m m' l g b :
  scratch B m m' → table_rel m l g → b ∈ B → b ∉ node_blocks l.
Proof.
  intros Hsc Hr Hb Hl. eapply scratch_old; [done| |exact Hb]. by eapply node_blocks_live.
Qed.
Lemma scratch_table_rel B m m' l g : scratch B m m' → table_rel m l g → table_rel m' l g.
Proof.
  intros Hsc Hr. eapply table_rel_agree; [apply Hsc| |done].
  intros b Hb HB. by eapply scratch_blocks.
Qed.

Lemma remembered_clean m0 t l m' l' g' d fl fs rv rv' :
  (∀ b, b ∈ node_blocks l → b ∈ table_blocks (SState m0 t d fl fs rv)) →
  remembered [] m0 l m' l' g' →
  server_rel (SState m' (Some l') d fl fs rv') (Some g') ∧
  clean (SState m0 t d fl fs rv) (SState m' (Some l') d fl fs rv').
Proof.
  intros Hl (Hr & N & Hsc & Hnb & _). rewrite app_nil_r in Hsc. split; [split; [apply Hsc|done]|].
  split; simpl; [done..| | |].
  - intros b. rewrite (scratch_live _ _ _ _ Hsc). unfold table_blocks. simpl. rewrite Hnb. set_solver.
  - intros b. unfold table_blocks at 1. simpl. rewrite Hnb. intros [Hb|Hb]%elem_of_app; [right|auto].
    intros Hlive. by eapply scratch_old.
  - intros b _. by apply (scratch_frame N).
Qed.

Lemma scratch_rel N m0 m' T t d d' fl fl' fs fs' rv rv' :
  scratch N m0 m' → server_rel (SState m0 t d fl fs rv) T →
  server_rel (SState m' t d' fl' fs' rv') T.
Proof.
  intros Hsc [Hwf Hrel]. split; [apply Hsc|]. destruct t, T; try done. by eapply scratch_table_rel.
Qed.

Lemma scratch_server_rel m0 m' T t d fl fs rv rv' :
  scratch [] m0 m' → server_rel (SState m0 t d fl fs rv) T →
  server_rel (SState m' t d fl fs rv') T ∧
  clean (SState m0 t d fl fs rv) (SState m' t d fl fs rv').
Proof.
  intros Hsc Hrel. split; [by eapply scratch_rel|]. split; simpl; [done..| | |].
  - intros b. rewrite (scratch_live _ _ _ _ Hsc). set_solver.
  - auto.
  - intros b _. by apply (scratch_frame []).
Qed.

(** A procedure that, besides, writes to a block outside the table. *)
Lemma touch_server_rel b m0 m1 m' T t d fl fs rv rv' :
  scratch [] m0 m1 → touches m1 b m' →
  b ∉ table_blocks (SState m0 t d fl fs rv) → server_rel (SState m0 t d fl fs rv) T →
  server_rel (SState m' t d fl fs rv') T ∧
  clean_but [b] (SState m0 t d fl fs rv) (SState m' t d fl fs rv').
Proof.
  intros Hsc Ht Hb Hrel.
  destruct (scratch_server_rel m0 m1 T t d fl fs rv rv' Hsc Hrel) as [[Hwf1 Hrel1] Hc].
  split; [split; [by eapply touches_wf|]|].
  - destruct t, T; try done. simpl in *.
    apply (table_rel_agree [b] m1); [by eapply agree_touches; [|exact Ht]; left| |done].
    unfold table_blocks in Hb. simpl in Hb. set_solver.
  - destruct Hc as [_ _ _ Hl Htb Hf]. split; simpl in *; [done..| | |].
    + intros b'. rewrite (live_touches _ _ _ _ Ht). apply Hl.
    + apply Htb.
    + intros b' Hb' Hl'. rewrite <-Hf by (set_solver || done).
      apply (touches_block m1 b m' (Ptr b' 0) Ht). simpl. set_solver.
Qed.

(** Writing to a block that existed and is not the table's. *)
Lemma write_clean D b s s1 T m' :
  clean_but D s s1 → server_rel s1 T → live (s_mem s) b → b ∉ table_blocks s →
  touches (s_mem s1) b m' →
  server_rel (set_mem m' s1) T ∧ clean_but (b :: D) s (set_mem m' s1).
Proof.
  intros Hc Hr Hlive Hout Ht.
  assert (b ∉ table_blocks s1) as Hn.
  { intros Hin. by destruct (cl_table _ _ _ Hc b Hin). }
  destruct s1 as [m1 t d fl fs rv]. unfold set_mem. simpl in *. split; [split|].
  - eapply touches_wf; [exact Ht|apply Hr].
  - destruct Hr as [_ Hr]. simpl in *. destruct t as [l|], T as [g|]; try done.
    apply (table_rel_agree [b] m1); [by eapply agree_touches; [|exact Ht]; left| |done].
    unfold table_blocks in Hn. simpl in Hn. set_solver.
  - destruct Hc as [H1 H2 H3 H4 H5 H6]. split; simpl in *; try done.
    + intros b'. rewrite (live_touches _ _ _ _ Ht). apply H4.
    + intros b' Hb' Hl. rewrite <-H6 by (set_solver || done).
      apply (touches_block m1 b _ (Ptr b' 0) Ht). simpl. set_solver.
Qed.


(** A zeroed nameidata. *)
Lemma alloc_zero B m0 m n :
  0 ≤ n → scratch B m0 m →
  let p := Ptr (m_next m) 0 in let z := replicate (Z.to_nat n) NUL in
  store_bytes p z (alloc m n) = Done (tt, upd (alloc m n) p z) ∧
  touches (alloc m n) (m_next m) (upd (alloc m n) p z) ∧
  scratch (m_next m :: B) m0 (upd (alloc m n) p z).
Proof.
  intros Hn Hsc p z.
  assert (in_bounds (alloc m n) p (zlen z)).
  { apply in_bounds_alloc_new; unfold zlen, z; rewrite ?length_replicate; lia. }
  split; [by apply store_bytes_spec|].
  assert (touches (alloc m n) (m_next m) (upd (alloc m n) p z)) by by apply (touches_upd _ p).
  split; [done|]. eapply scratch_touches; [|done|by apply scratch_alloc]. left.
Qed.

Lemma lookup_buffer_overflow m0 node argp dir name :
  let b1 := m_next m0 in
  mem_wf m0 → has_bytes m0 (ln_path node) (dir ++ [NUL]) → NUL ∉ dir →
  has_bytes m0 (dla_filename argp) name → zlen name = dla_len argp →
  VSNFS_MAXPATHLEN < zlen dir + zlen name →
  build_path (Ptr b1 0) node argp (alloc m0 (VSNFS_MAXPATHLEN + 1)) = Oops OutOfBounds.
Proof.
  intros b1 Hwf Hdir Hnd Hname Hlen Hlong.
  pose proof (scratch_alloc _ _ _ (VSNFS_MAXPATHLEN + 1) (scratch_refl m0 Hwf)) as S1.
  apply (build_path_overflow _ _ _ _ dir name); try done.
  - by eapply scratch_has_bytes.
  - by eapply scratch_has_bytes.
  - by eapply has_bytes_fresh.
  - by eapply has_bytes_fresh.
  - rewrite mem_block_alloc_new by done. eauto.
  - unfold in_bounds. rewrite mem_block_alloc_new, kmalloc_junk_len by done. simpl. lia.
Qed.

(** The buffers of LOOKUP: the path of the entry and a zeroed nameidata. *)
Lemma lookup_buffers m0 node argp dir name :
  let b1 := m_next m0 in let b2 := Pos.succ b1 in
  let z := replicate (Z.to_nat sizeof_nameidata) NUL in
  mem_wf m0 → has_bytes m0 (ln_path node) (dir ++ [NUL]) → NUL ∉ dir →
  has_bytes m0 (dla_filename argp) name → zlen name = dla_len argp →
  zlen dir + zlen name ≤ VSNFS_MAXPATHLEN →
  ∃ m2 m4,
    build_path (Ptr b1 0) node argp (alloc m0 (VSNFS_MAXPATHLEN + 1)) = Done (tt, m2) ∧
    m_next m2 = b2 ∧
    store_bytes (Ptr b2 0) z (alloc m2 sizeof_nameidata) = Done (tt, m4) ∧
    scratch [b2; b1] m0 m4 ∧ has_bytes m4 (Ptr b1 0) ((dir ++ name) ++ [NUL]) ∧
    (∀ n, 0 ≤ n → in_bounds m4 (Ptr b1 0) n ↔ n ≤ VSNFS_MAXPATHLEN + 1).
Proof.
  intros b1 b2 z Hwf Hdir Hnd Hname Hlen Hfit.
  pose proof (scratch_alloc [] m0 m0 (VSNFS_MAXPATHLEN + 1) (scratch_refl m0 Hwf)) as S1.
  fold b1 in S1. set (m1 := alloc m0 (VSNFS_MAXPATHLEN + 1)) in *.
  assert (∀ n, 0 ≤ n ≤ VSNFS_MAXPATHLEN + 1 → in_bounds m1 (Ptr b1 0) n) as Hb1.
  { intros n Hn. apply in_bounds_alloc_new; lia. }
  zlen_facts.
  destruct (build_path_spec m1 b1 node argp dir name) as (m2 & E2 & T2 & H2); [..|].
  { by eapply scratch_has_bytes. } { done. } { by eapply scratch_has_bytes. } { done. }
  { by eapply has_bytes_fresh. } { by eapply has_bytes_fresh. } { apply Hb1. zlen_lia. }
  pose proof (touches_next _ _ _ T2) as N2.
  destruct (alloc_zero [b1] m0 m2 sizeof_nameidata) as (E4 & T4 & S4).
  { pose proof sizeof_nameidata_pos. lia. }
  { eapply scratch_touches; [|exact T2|exact S1]. left. }
  rewrite N2 in E4, T4, S4. change (m_next m1) with b2 in E4, T4, S4, N2.
  exists m2. eexists. split_and!; [exact E2|exact N2|exact E4|exact S4| |].
  - eapply touches_has_bytes; [exact T4|simpl; lia|]. rewrite <-app_assoc.
    apply has_bytes_alloc; [|done]. eapply touches_wf; [exact T2|apply S1].
  - intros n Hn.
    rewrite (touches_in_bounds_iff _ _ _ _ _ T4). unfold in_bounds at 1.
    rewrite mem_block_alloc_ne by (rewrite N2; simpl; lia).
    change (in_bounds m2 (Ptr b1 0) n ↔ n ≤ VSNFS_MAXPATHLEN + 1).
    rewrite (touches_in_bounds_iff _ _ _ _ _ T2). unfold in_bounds, m1.
    rewrite mem_block_alloc_new, kmalloc_junk_len by done. simpl. lia.
Qed.
End procedures.
