(* ===== verification/ServerSpec.v ===== *)
(** * ServerSpec: the procedures refine the abstract server

    LOOKUP and GETROOT, with all their allocation and copying, act on the map
    from inode numbers to paths as the specification says and leave neither
    memory nor references nor open files behind; and what they do on every
    other branch. *)
From Stdlib Require Import Strings.Byte.
From S2P Require Import Prelude Mem Frame CString Protocol Sunrpc Wire ServerXdr Handle VfsApi.
From S2P Require Import ServerState ServerProc ServerTable.

Section lookup.
Context `{A : Arch} `{Km : Kmem} `{K : ServerKernel} `{KL : !ServerKernelLaws K}.

(** A LOOKUP in a known directory. *)
Section known.
Context (s : sstate) (g : table) (argp : vsnfsd_lookupargs) (ino : Z) (dir name : list byte).
Context (Hok : ∀ b, kmalloc_ok b = true) (Hrel : server_rel s (Some g)).
Context (Hino : fh_strtoul (dla_fh argp) = Done ino) (Hg : g !! ino = Some dir).
Context (Hname : has_bytes (s_mem s) (dla_filename argp) name).
Context (Hlen : zlen name = dla_len argp) (Hnn : NUL ∉ name).

(** What is left to do once the path has been built. *)
Definition lookup_rest (p ndp : ptr) (resp : vsnfs_fh) : M sstate (Z * vsnfs_fh) :=
  '(ret, d) ← do_path_lookup p;
  let rc := u32 ret in
  dentry ← dget d;
  path_put d;;
  '(rc, resp) ← lookup_reply p dentry rc resp;
  dput dentry;;
  in_mem (kfree (Some ndp));;
  in_mem (kfree (Some p));;
  mret (rc, resp).

Lemma lookup_node :
  ∃ l node, s_tab s = Some l ∧ table_rel (s_mem s) l g ∧ lp_find ino l = Some node ∧
    has_bytes (s_mem s) (ln_path node) (dir ++ [NUL]) ∧ (NUL ∉ dir) ∧ mem_wf (s_mem s).
Proof using Hrel Hg Hname.
  destruct s as [m0 [l|] d fl fs rv], Hrel as [Hwf Hr]; [|done]. simpl in *.
  pose proof (lp_find_rel m0 l g ino Hr) as Hf.
  destruct (lp_find ino l) as [node|] eqn:Ef; [|congruence].
  destruct Hf as (Hnode & dir' & Hg' & Hs & Hlive & Hp0 & Hdir & Hnd).
  assert (dir' = dir) as -> by congruence. by exists l, node.
Qed.

(** The run until the path is resolved, when it fits into its buffer ... *)
Lemma lookup_prefix resp :
  let m0 := s_mem s in let b1 := m_next m0 in let b2 := Pos.succ b1 in
  zlen dir + zlen name ≤ VSNFS_MAXPATHLEN →
  ∃ m4 l, s_tab s = Some l ∧ table_rel m0 l g ∧ scratch [b2; b1] m0 m4 ∧
    has_bytes m4 (Ptr b1 0) ((dir ++ name) ++ [NUL]) ∧ (NUL ∉ dir ++ name) ∧
    (∀ n, 0 ≤ n → in_bounds m4 (Ptr b1 0) n ↔ n ≤ VSNFS_MAXPATHLEN + 1) ∧
    vsnfsd_proc_lookup argp resp s =
      lookup_rest (Ptr b1 0) (Ptr b2 0) resp
        (SState m4 (Some l) (s_drefs s) (s_files s) (s_fs s) (s_reserved s)).
Proof using A Km K KL Hok Hrel Hino Hg Hname Hlen Hnn.
  destruct lookup_node as (l & node & Ht & Hr & Ef & Hdir & Hnd & Hwf).
  destruct s as [m0 t d fl fs rv]. simpl in *. subst t. intros Hfit.
  destruct (lookup_buffers m0 node argp dir name) as (m2 & m4 & E2 & N2 & E4 & S4 & H4 & B4);
    [done..|].
  exists m4, l. split_and!; try done; [by rewrite not_elem_of_app|].
  unfold vsnfsd_proc_lookup. rewrite Hino. mrun. rewrite Ef.
  mem_step kmalloc_Some; [done|]. mem_step E2. mem_step kmalloc_Some; [done|].
  rewrite N2. mem_step E4. reflexivity.
Qed.

(** ... and when it does not. *)
Lemma lookup_too_long resp :
  VSNFS_MAXPATHLEN < zlen dir + zlen name → vsnfsd_proc_lookup argp resp s = Oops OutOfBounds.
Proof using A Km K KL Hok Hrel Hino Hg Hname Hlen Hnn.
  destruct lookup_node as (l & node & Ht & Hr & Ef & Hdir & Hnd & Hwf).
  destruct s as [m0 t d fl fs rv]. simpl in *. subst t. intros Hlong.
  unfold vsnfsd_proc_lookup. rewrite Hino. mrun. rewrite Ef. mem_step kmalloc_Some; [done|].
  apply bind_Oops, in_mem_fault. by apply (lookup_buffer_overflow m0 node argp dir name).
Qed.

(** What the dentry [i] leads to, with room for its path and without. *)
Lemma lookup_reply_run m4 l d fl fs rv rc resp i :
  let b1 := m_next (s_mem s) in let b2 := Pos.succ b1 in
  table_rel (s_mem s) l g → scratch [b2; b1] (s_mem s) m4 →
  has_bytes m4 (Ptr b1 0) ((dir ++ name) ++ [NUL]) → NUL ∉ dir ++ name → dir ++ name ≠ [] →
  (∀ n, 0 ≤ n → in_bounds m4 (Ptr b1 0) n ↔ n ≤ VSNFS_MAXPATHLEN + 1) →
  if decide (zlen (entry_path i (dir ++ name)) ≤ VSNFS_MAXPATHLEN)
  then ∃ m5 l', lookup_reply (Ptr b1 0) (Some i) rc resp (SState m4 (Some l) d fl fs rv) =
           Done ((rc, reply_fh resp i), SState m5 (Some l') d fl fs rv) ∧
         remembered [b2; b1] (s_mem s) l m5 l' (remember g i (dir ++ name))
  else zlen (dir ++ name) ≤ VSNFS_MAXPATHLEN →
       lookup_reply (Ptr b1 0) (Some i) rc resp (SState m4 (Some l) d fl fs rv) = Oops OutOfBounds.
Proof using A Km K KL Hok Hrel Hino Hg Hname Hlen Hnn.
  intros b1 b2 Hr S4 H4 Hn4 Hne B4. case_decide as Hfit; [|intros Hx].
  - apply lookup_reply_spec; try done.
    + by eapply scratch_table_rel.
    + set_solver.
    + eapply scratch_blocks; [done|done|set_solver].
    + apply B4; [zlen_facts; lia|lia].
  - unfold entry_path in Hfit. unfold lookup_reply. mrun.
    destruct (S_ISREG (i_mode i)); [done|]. destruct (S_ISDIR (i_mode i)); [|done]. mrun.
    apply bind_Oops, in_mem_fault, (add_slash_overflow _ _ (dir ++ name)); try done.
    rewrite B4 by (zlen_facts; lia). lia.
Qed.

(** LOOKUP of a name in a directory of the table, when the path resolves
    and memory is available, answers OK with the handle of the inode found, and
    acts on the table as the specification [remember] does: the inode is added
    under the directory's path followed by the name (and a slash, for a
    directory) unless it was known.  Nothing else stays behind: the path buffer
    and the nameidata are freed, both references are dropped, no other block of
    memory has changed. *)
Lemma lookup_refines resp i :
  dir ++ name ≠ [] → zlen (entry_path i (dir ++ name)) ≤ VSNFS_MAXPATHLEN → path_lookup (dir ++ name) = (0, Some i) →
  ∃ s', vsnfsd_proc_lookup argp resp s = Done ((vsnfserr VSNFS_OK, reply_fh resp i), s') ∧
        server_rel s' (Some (remember g i (dir ++ name))) ∧ clean s s'.
Proof using A Km K KL Hok Hrel Hino Hg Hname Hlen Hnn.
  intros Hne Hfit Hpl. pose proof (entry_path_ge i (dir ++ name)) as Hge. rewrite zlen_app in Hge.
  destruct (lookup_prefix resp) as (m4 & l & Ht & Hr & S4 & H4 & Hn4 & B4 & ->); [lia|].
  pose proof (lookup_reply_run m4 l (i_ino i :: s_drefs s) (s_files s) (s_fs s) (s_reserved s)
    (u32 0) resp i Hr S4 H4 Hn4 Hne B4) as Hrun.
  rewrite decide_True in Hrun by done. destruct Hrun as (m5 & l' & E5 & R5).
  destruct s as [m0 t d fl fs rv]. simpl in *. subst t.
  set (b1 := m_next m0) in *. set (b2 := Pos.succ b1) in *.
  assert ((b1 ∉ node_blocks l) ∧ (b2 ∉ node_blocks l)) as [Hb1 Hb2]
    by (split; (eapply scratch_blocks; [done|done|set_solver])).
  assert (b2 ∉ [b1]) as Hb21 by (intros ?%list_elem_of_singleton; lia).
  destruct (remembered_release b2 [b1] m0 l m5 l' _ Hb21 Hb2 R5) as [R6 F6].
  destruct (remembered_release b1 [] m0 l _ l' _ ltac:(set_solver) Hb1 R6) as [R7 F7].
  destruct (remembered_clean m0 (Some l) l _ l' _ d fl fs rv rv (λ b H, H) R7) as [Hrel' Hcl].
  eexists. split; [|split; [exact Hrel'|exact Hcl]].
  unfold lookup_rest. mstep path_lookup_spec; [done|done|done|].
  unfold dget. mrun. mstep (dput_spec i). mstep E5. mstep (dput_spec i). mem_step F6.
  mem_step F7. by rewrite vsnfserr_OK.
Qed.

(** A path that resolves, but does not fit with its slash and terminator. *)
Lemma lookup_overflow resp i :
  dir ++ name ≠ [] → VSNFS_MAXPATHLEN < zlen (entry_path i (dir ++ name)) →
  path_lookup (dir ++ name) = (0, Some i) → vsnfsd_proc_lookup argp resp s = Oops OutOfBounds.
Proof using A Km K KL Hok Hrel Hino Hg Hname Hlen Hnn.
  intros Hne Hlong Hpl. destruct (decide (zlen (dir ++ name) ≤ VSNFS_MAXPATHLEN)) as [Hx|Hx].
  2:{ apply lookup_too_long. rewrite zlen_app in Hx. lia. }
  rewrite zlen_app in Hx.
  destruct (lookup_prefix resp Hx) as (m4 & l & Ht & Hr & S4 & H4 & Hn4 & B4 & ->).
  unfold lookup_rest. mstep path_lookup_spec; [done|done|done|]. unfold dget. mrun.
  mstep (dput_spec i). pose proof (lookup_reply_run m4 l (i_ino i :: s_drefs s) (s_files s) (s_fs s)
    (s_reserved s) (u32 0) resp i Hr S4 H4 Hn4 Hne B4) as Hrun.
  rewrite decide_False in Hrun by lia. by apply bind_Oops, Hrun; rewrite zlen_app.
Qed.

(** A path that does not resolve. *)
Lemma lookup_unresolved resp err left_over :
  dir ++ name ≠ [] → path_lookup (dir ++ name) = (err, left_over) → err ≠ 0 → s_drefs s = [] →
  ∃ e, vsnfsd_proc_lookup argp resp s = Oops e ∧
    (zlen dir + zlen name + 2 ≤ VSNFS_MAXPATHLEN + 1 →
     e = match left_over with Some _ => NotHeld | None => NullDeref end).
Proof using A Km K KL Hok Hrel Hino Hg Hname Hlen Hnn.
  intros Hne Hpl He Hd. destruct (decide (zlen (dir ++ name) ≤ VSNFS_MAXPATHLEN)) as [Hx|Hx];
    rewrite zlen_app in Hx.
  2:{ exists OutOfBounds. split; [apply lookup_too_long; lia|lia]. }
  destruct (lookup_prefix resp Hx) as (m4 & l & Ht & Hr & S4 & H4 & Hn4 & B4 & ->).
  unfold lookup_rest. destruct left_over as [i|]; [|exists NullDeref; split; [|done]].
  2:{ by mstep path_lookup_failed. }
  pose proof (lookup_reply_run m4 l [] (s_files s) (s_fs s) (s_reserved s) (u32 err) resp i
    Hr S4 H4 Hn4 Hne B4) as Hrun. rewrite zlen_app in Hrun.
  case_decide as Hfit; [destruct Hrun as (m5 & l' & E5 & _); exists NotHeld
                       |exists OutOfBounds; split; [|pose proof (entry_path_le i (dir ++ name)) as Hle;
                                                     rewrite zlen_app in Hle; lia]].
  - split; [|done]. mstep path_lookup_failed; [done|done|done|done|]. rewrite Hd. unfold dget. mrun.
    mstep (dput_spec i). mstep E5. by mstep dput_unheld.
  - mstep path_lookup_failed; [done|done|done|done|]. rewrite Hd. unfold dget. mrun.
    mstep (dput_spec i). by apply bind_Oops, Hrun.
Qed.

(** C32: LOOKUP of a name that does not resolve.  The error of [path_lookup] is
    stored in an unsigned status whose sign is then tested, so the failure is
    not noticed and the code goes on with what the failed walk has left in
    [nd->path], to which no reference is held any more.  If that is a dentry,
    one reference is taken and two are given back, the last of them one that
    is not held; if it is NULL, it is followed.  There is no error for the
    client in either case. *)
Theorem lookup_missing_faults resp err left_over :
  dir ++ name ≠ [] → zlen dir + zlen name + 2 ≤ VSNFS_MAXPATHLEN + 1 →
  path_lookup (dir ++ name) = (err, left_over) → err ≠ 0 → s_drefs s = [] →
  vsnfsd_proc_lookup argp resp s =
    Oops (match left_over with Some _ => NotHeld | None => NullDeref end).
Proof using A Km K KL Hok Hrel Hino Hg Hname Hlen Hnn.
  intros Hne Hz Hpl He Hd. destruct (lookup_unresolved resp err left_over) as (e & -> & Hf); try done.
  by rewrite Hf.
Qed.

(** C30: LOOKUP does not hold the path it builds against the 1024 characters its
    buffer has room for.  When what it would remember (the directory's path,
    the name, and a slash after a directory) fits, the handle is returned and
    the table gets the path; when it is longer, and the file exists, the
    procedure writes past the end of the buffer. *)
Theorem lookup_path_bound resp i :
  dir ++ name ≠ [] → path_lookup (dir ++ name) = (0, Some i) →
  let path := entry_path i (dir ++ name) in
  (zlen path ≤ VSNFS_MAXPATHLEN →
     ∃ s', vsnfsd_proc_lookup argp resp s = Done ((vsnfserr VSNFS_OK, reply_fh resp i), s') ∧
           server_rel s' (Some (remember g i (dir ++ name))) ∧ clean s s') ∧
  (VSNFS_MAXPATHLEN < zlen path → vsnfsd_proc_lookup argp resp s = Oops OutOfBounds).
Proof using A Km K KL Hok Hrel Hino Hg Hname Hlen Hnn.
  intros Hne Hpl path. split; intros Hz; [by apply lookup_refines|by eapply lookup_overflow].
Qed.
End known.

(** C31: LOOKUP in a directory the server does not know answers OK all the same,
    with whatever the result structure held: no handle is written and the
    client is told of no error. *)
Theorem lookup_unknown_dir s g argp resp ino :
  server_rel s (Some g) → fh_strtoul (dla_fh argp) = Done ino → g !! ino = None →
  vsnfsd_proc_lookup argp resp s = Done ((vsnfserr VSNFS_OK, resp), s).
Proof.
  intros [Hwf Hrel] Hino Hg. destruct s as [m0 [l|] d fl fs rv]; [|done]. simpl in Hrel.
  unfold vsnfsd_proc_lookup. rewrite Hino. mrun.
  pose proof (lp_find_rel m0 l g ino Hrel) as Hf.
  destruct (lp_find ino l) as [n|]; [|done]. destruct Hf as (_ & ? & ? & _). congruence.
Qed.

(** Before the first GETROOT the list head is zeroes, and LOOKUP with any
    readable handle follows its NULL pointer. *)
Theorem lookup_before_getroot_faults s argp resp ino :
  server_rel s None → fh_strtoul (dla_fh argp) = Done ino →
  vsnfsd_proc_lookup argp resp s = Oops NullDeref.
Proof.
  intros [_ Hrel] Hino. destruct s as [m0 [l|] d fl fs rv]; [done|].
  unfold vsnfsd_proc_lookup. by rewrite Hino.
Qed.
End lookup.

(** ** An example server *)
Definition ex_dirpath : list byte := [x2f; x61; x2f].                 (* /a/ *)
Definition ex_filename : list byte := [x62].                          (* b *)
Definition ex_kernel : ServerKernel :=
  kernel_ref [KFile ex_dirpath (InodeInfo 2 S_IFDIR); KFile [x2f; x61] (InodeInfo 2 S_IFDIR);
              KFile (ex_dirpath ++ ex_filename) (InodeInfo 7 S_IFREG)] (λ _, []) (λ _, [x68; x69]).
Definition ex_node : lp_node := LpNode (Ptr 10 0) 2 (Ptr 11 0).
Definition ex_smem : mem :=
  mem_of [(10%positive, zeros 32); (11%positive, ex_dirpath ++ [NUL]); (12%positive, ex_filename);
          (13%positive, [x2f; x61]); (14%positive, zeros 16)].
Definition ex_server : sstate := SState ex_smem (Some [ex_node]) [] [] USER_DS 0.
Definition ex_table : table := {[2 := ex_dirpath]}.
Definition ex_lookup : vsnfsd_lookupargs :=
  VsnfsdLookupargs (VsnfsFh [x32; x00; x00; x00; x00; x00; x00; x00] VSNFS_DIR) (Ptr 12 0) 1.


Lemma ex_rel_of m :
  mem_wf m → node_ok m ex_node ex_dirpath →
  server_rel (SState m (Some [ex_node]) [] [] USER_DS 0) (Some ex_table).
Proof.
  intros Hwf Hn. split; [done|]. unfold ex_table.
  apply (table_rel_add _ [] ∅ ex_node ex_dirpath); try done; try set_solver.
  apply table_rel_nil.
Qed.
Lemma ex_server_rel : server_rel ex_server (Some ex_table).
Proof. apply ex_rel_of; [apply mem_of_wf; repeat constructor|split_and!; by_eval]. Qed.

Lemma lookup_refines_example :
  let fh := VsnfsFh [x37; x00; x00; x00; x00; x00; x00; x00] VSNFS_REG in
  ∃ s', vsnfsd_proc_lookup (A := x86_64) (Km := kmem_ref []) (K := ex_kernel) ex_lookup fh_zero
          ex_server = Done ((vsnfserr (H := x86_64) VSNFS_OK, fh), s') ∧
        server_rel s' (Some (<[7 := ex_dirpath ++ ex_filename]> ex_table)) ∧ clean ex_server s'.
Proof.
  exact (lookup_refines (A := x86_64) (Km := kmem_ref []) (K := ex_kernel) ex_server ex_table
    ex_lookup 2 ex_dirpath ex_filename ltac:(done) ex_server_rel ltac:(done) ltac:(done)
    ltac:(by_eval) ltac:(done) ltac:(by_eval) fh_zero (InodeInfo 7 S_IFREG)
    ltac:(done) ltac:(by_eval) ltac:(done)).
Defined.

(** A directory whose path has 1024 characters. *)
Definition ex_long : list byte := replicate 1023 x61 ++ [x2f].
Definition ex_long_server : sstate :=
  SState (mem_of [(10%positive, zeros 32); (11%positive, ex_long ++ [NUL]); (12%positive, ex_filename)])
    (Some [ex_node]) [] [] USER_DS 0.
Definition ex_long_kernel : ServerKernel :=
  kernel_ref [KFile (ex_long ++ ex_filename) (InodeInfo 7 S_IFREG)] (λ _, []) (λ _, []).
Lemma ex_long_rel : server_rel ex_long_server (Some {[2 := ex_long]}).
Proof.
  split; [apply mem_of_wf; repeat constructor|].
  apply (table_rel_add _ [] ∅ ex_node ex_long); try done; try set_solver; [apply table_rel_nil|].
  split_and!; by_eval.
Qed.

Lemma lookup_path_bound_witness :
  let path := entry_path (InodeInfo 7 S_IFREG) (ex_long ++ ex_filename) in
  VSNFS_MAXPATHLEN < zlen path ∧
  vsnfsd_proc_lookup (A := x86_64) (Km := kmem_ref []) (K := ex_long_kernel) ex_lookup fh_zero
    ex_long_server = Oops OutOfBounds.
Proof.
  intros path. assert (VSNFS_MAXPATHLEN < zlen path) as Hz by by_eval. split; [exact Hz|].
  exact (proj2 (lookup_path_bound (A := x86_64) (Km := kmem_ref []) (K := ex_long_kernel)
    ex_long_server {[2 := ex_long]} ex_lookup 2 ex_long ex_filename ltac:(done) ex_long_rel ltac:(done)
    ltac:(done) ltac:(by_eval) ltac:(done) ltac:(by_eval) fh_zero (InodeInfo 7 S_IFREG)
    ltac:(done) ltac:(by_eval)) Hz).
Defined.

Lemma lookup_unknown_dir_witness :
  let argp := VsnfsdLookupargs (VsnfsFh [x39; x00; x00; x00; x00; x00; x00; x00] VSNFS_DIR)
                (Ptr 12 0) 1 in
  vsnfsd_proc_lookup (A := x86_64) (Km := kmem_ref []) (K := ex_kernel) argp fh_zero ex_server =
    Done ((0, fh_zero), ex_server).
Proof.
  intros argp.
  exact (lookup_unknown_dir (A := x86_64) (Km := kmem_ref []) (K := ex_kernel) ex_server ex_table
    argp fh_zero 9 ex_server_rel ltac:(done) ltac:(done)).
Defined.

Lemma lookup_missing_faults_witness :
  let argp := VsnfsdLookupargs (dla_fh ex_lookup) (Ptr 13 1) 1 in
  path_lookup (ServerKernel := ex_kernel) (ex_dirpath ++ [x61]) =
    (- ENOENT, Some (InodeInfo 2 S_IFDIR)) ∧
  vsnfsd_proc_lookup (A := x86_64) (Km := kmem_ref []) (K := ex_kernel) argp fh_zero ex_server =
    Oops NotHeld.
Proof.
  intros argp. split; [done|].
  exact (lookup_missing_faults (A := x86_64) (Km := kmem_ref []) (K := ex_kernel) ex_server ex_table
    argp 2 ex_dirpath [x61] ltac:(done) ex_server_rel ltac:(done) ltac:(done)
    ltac:(by_eval) ltac:(done) ltac:(by_eval) fh_zero (- ENOENT)
    (Some (InodeInfo 2 S_IFDIR)) ltac:(done) ltac:(by_eval) ltac:(done) ltac:(done) ltac:(done)).
Defined.

Lemma lookup_before_getroot_faults_witness :
  vsnfsd_proc_lookup (A := x86_64) (Km := kmem_ref []) (K := ex_kernel) ex_lookup fh_zero
    (SState ex_smem None [] [] USER_DS 0) = Oops NullDeref.
Proof.
  apply (lookup_before_getroot_faults (A := x86_64) (Km := kmem_ref []) (K := ex_kernel) _ _ _ 2);
    [|done]. split; [apply mem_of_wf; repeat constructor|done].
Defined.
