(* ===== verification/ServerRoot.v ===== *)
(** * ServerRoot: GETROOT starts a new table

    GETROOT resolves the path the client mounts and makes its inode the only
    one of a fresh lookup table. *)
From Stdlib Require Import Strings.Byte.
From S2P Require Import Prelude Mem Frame CString Protocol Sunrpc Wire ServerXdr Handle VfsApi.
From S2P Require Import ServerState ServerProc ServerTable ServerSpec.

Section pieces.
Context `{A : Arch} `{Km : Kmem} `{K : ServerKernel} `{KL : !ServerKernelLaws K}.
Implicit Types (m : mem) (b : positive).

Lemma copy_root_path_spec m b argp x :
  has_bytes m (dga_path argp) x → zlen x = dga_len argp → x ≠ [] → is_u32 (zlen x) →
  p_blk (dga_path argp) ≠ b → in_bounds m (Ptr b 0) (zlen x + 2) →
  ∃ m', copy_root_path (Ptr b 0) argp m = Done (tt, m') ∧ touches m b m' ∧
        has_bytes m' (Ptr b 0) (with_slash x ++ [NUL]).
Proof.
  intros Hx Hlen Hne Hu Hb Hin. set (p := Ptr b 0) in *. unfold copy_root_path. rewrite <-Hlen.
  assert (in_bounds m p (zlen x)) as B1 by solve_bounds.
  set (m1 := upd m p x). pose proof (touches_upd _ _ _ B1 : touches m b m1) as T1.
  assert (has_bytes m1 p x) as H1 by by apply has_bytes_upd.
  destruct (exists_last Hne) as (y & c & E).
  assert (load_bytes (p +p u32 (zlen x - 1)) 1 m1 = Done ([c], m1)) as E1.
  { replace (u32 (zlen x - 1)) with (zlen y).
    - apply (load_bytes_spec m1 _ [c]). apply last_byte. by rewrite <-E.
    - rewrite E in Hu |- *. unfold is_u32 in Hu. rewrite u32_id; [|unfold is_u32]; zlen_lia. }
  assert (with_slash x = if decide (c = SLASH) then x else x ++ [SLASH]) as ->
    by (rewrite E; apply with_slash_last).
  assert (in_bounds m1 (p +p zlen x) 1) as B2 by (unfold m1; solve_bounds).
  case_decide as Hc.
  - exists (upd m1 (p +p zlen x) [NUL]). split_and!.
    + mstep load_bytes_spec; [done|]. mstep store_bytes_spec; [done|]. fold m1. mstep E1.
      rewrite decide_False by congruence. by apply store_bytes_spec.
    + eapply touches_trans; [exact T1|exact (touches_upd m1 _ [NUL] B2)].
    + apply has_bytes_app. split; [|by apply has_bytes_upd].
      apply has_bytes_upd_disj; [done|right; simpl; zlen_lia|done].
  - destruct (put_slash_spec m1 p x) as (m' & E' & T' & H'); [done|unfold m1; solve_bounds|].
    exists m'. split_and!; [|by eapply touches_trans|done].
    mstep load_bytes_spec; [done|]. mstep store_bytes_spec; [done|]. fold m1. mstep E1.
    rewrite decide_True by congruence. exact E'.
Qed.
End pieces.

Section getroot.
Context `{A : Arch} `{Km : Kmem} `{K : ServerKernel} `{KL : !ServerKernelLaws K}.

(** A GETROOT of a path as the decoder delivers it. *)
Section good_path.
Context (s : sstate) (T : option table) (argp : vsnfsd_getrootargs) (path : list byte).
Context (Hok : ∀ b, kmalloc_ok b = true) (Hrel : server_rel s T).
Context (Hpath : has_bytes (s_mem s) (dga_path argp) path) (Hlen : zlen path = dga_len argp).
Context (Hmax : 0 < zlen path ≤ VSNFS_MAXPATHLEN) (Hnp : NUL ∉ path).

(** What is left to do once the path has been copied. *)
Definition getroot_rest (p ndp : ptr) (resp : vsnfs_fh) : M sstate (Z * vsnfs_fh) :=
  '(ret, d) ← do_path_lookup p;
  root ← dget d;
  path_put d;;
  '(ret, resp) ← getroot_reply p root (u32 ret) argp resp;
  dput root;;
  in_mem (kfree (Some ndp));;
  in_mem (kfree (Some p));;
  mret (ret, resp).

Lemma getroot_prefix resp :
  let m0 := s_mem s in let b1 := m_next m0 in let b2 := Pos.succ b1 in
  ∃ m4, scratch [b2; b1] m0 m4 ∧ has_bytes m4 (Ptr b2 0) (with_slash path ++ [NUL]) ∧
    vsnfsd_proc_getroot argp resp s =
      getroot_rest (Ptr b2 0) (Ptr b1 0) resp
        (SState m4 (s_tab s) (s_drefs s) (s_files s) (s_fs s) (s_reserved s)).
Proof using A Km K KL Hok Hrel Hpath Hlen Hmax Hnp.
  destruct s as [m0 t d fl fs rv], Hrel as [Hwf _]. simpl in *. set (b1 := m_next m0).
  unfold VSNFS_MAXPATHLEN in Hmax.
  assert (is_u32 (zlen path + 2)) as Hu by (unfold is_u32; lia).
  destruct (alloc_zero [] m0 m0 sizeof_nameidata) as (E1 & T1 & S1);
    [pose proof sizeof_nameidata_pos; lia|by apply scratch_refl|]. fold b1 in E1, T1, S1.
  set (m1 := alloc m0 sizeof_nameidata) in *. set (m2 := upd m1 _ _) in *.
  pose proof (touches_next _ _ _ T1 : m_next m2 = Pos.succ b1) as N2.
  pose proof (scratch_alloc _ _ _ (zlen path + 2) S1) as S3. rewrite N2 in S3.
  set (m3 := alloc m2 (zlen path + 2)) in *.
  destruct (copy_root_path_spec m3 (Pos.succ b1) argp path) as (m4 & E4 & T4 & H4).
  { by eapply scratch_has_bytes. } { done. } { intros ->. by destruct Hmax. }
  { unfold is_u32; lia. }
  { apply has_bytes_live in Hpath. apply Hwf in Hpath. unfold b1. lia. }
  { rewrite <-N2. apply in_bounds_alloc_new; lia. }
  exists m4. split_and!; [by eapply scratch_touches; [|exact T4|exact S3]; left|done|].
  unfold vsnfsd_proc_getroot. mem_step kmalloc_Some; [apply Hok|]. fold b1 m1. mem_step E1.
  rewrite <-Hlen, (u32_id (zlen path + 2)) by done. mem_step kmalloc_Some; [apply Hok|]. rewrite N2. by mem_step E4.
Qed.

Lemma root_path_size : zlen (with_slash path) + 1 ≤ u32 (dga_len argp + 2).
Proof using Hlen Hmax.
  unfold VSNFS_MAXPATHLEN in Hmax. rewrite <-Hlen, u32_id by (unfold is_u32; lia).
  unfold with_slash. case_decide; zlen_lia.
Qed.

(** GETROOT of a path that resolves to something other than a regular file
    answers OK with its handle, and the table becomes the one with just that
    inode, under the path with a slash at its end, whatever it was before; the
    scratch buffers are freed and the references dropped. *)
Lemma getroot_refines resp i :
  path_lookup (with_slash path) = (0, Some i) → S_ISREG (i_mode i) = false →
  ∃ s', vsnfsd_proc_getroot argp resp s = Done ((vsnfserr VSNFS_OK, reply_fh resp i), s') ∧
        server_rel s' (Some {[i_ino i := with_slash path]}) ∧ clean s s'.
Proof using A Km K KL Hok Hrel Hpath Hlen Hmax Hnp.
  intros Hpl Hreg. destruct (getroot_prefix resp) as (m4 & S4 & H4 & ->).
  destruct s as [m0 t d fl fs rv]. simpl in *.
  set (b1 := m_next m0) in *. set (b2 := Pos.succ b1) in *.
  destruct (with_slash_ok path Hnp) as [Hnw Hne].
  pose proof root_path_size as Hsz. pose proof (table_rel_nil m4) as R0.
  destruct (remember_add [b2; b1] m0 m4 [] ∅ (Ptr b2 0) (i_ino i) (with_slash path) (i_ino i :: d) fl fs rv
    (u32 (dga_len argp + 2))) as (m5 & l' & E5 & R5); [done..|].
  assert (b1 ∉ [b2]) as Hb12 by (intros ?%list_elem_of_singleton; lia).
  apply remembered_swap in R5.
  destruct (remembered_release b1 [b2] m0 [] m5 l' _ Hb12 ltac:(set_solver) R5) as [R6 F6].
  destruct (remembered_release b2 [] m0 [] _ l' _ ltac:(set_solver) ltac:(set_solver) R6) as [R7 F7].
  destruct (remembered_clean m0 t [] _ l' _ d fl fs rv rv ltac:(set_solver) R7) as [Hrel' Hcl].
  eexists. split; [|split; [exact Hrel'|exact Hcl]].
  unfold getroot_rest. mstep path_lookup_spec; [done|done|done|].
  unfold dget. mrun. mstep (dput_spec i). unfold getroot_reply. mrun. rewrite Hreg. mrun.
  mstep E5. mstep (dput_spec i). mem_step F6.
  mem_step F7. rewrite vsnfserr_OK. unfold reply_fh. rewrite Hreg.
  by destruct (S_ISDIR (i_mode i)).
Qed.

(** GETROOT of a regular file is refused before the table is touched, and
    frees its buffers; but the status is the negation of the value already in
    network byte order. *)
Theorem getroot_regular_file resp i :
  path_lookup (with_slash path) = (0, Some i) → S_ISREG (i_mode i) = true →
  ∃ s', vsnfsd_proc_getroot argp resp s =
          Done ((u32 (- vsnfserr VSNFSERR_NOTDIR),
                 VsnfsFh (ino_data (fh_data resp) (i_ino i)) (fh_type resp)), s') ∧
        server_rel s' T ∧ clean s s' ∧ s_tab s' = s_tab s.
Proof using A Km K KL Hok Hrel Hpath Hlen Hmax Hnp.
  intros Hpl Hreg. destruct (getroot_prefix resp) as (m4 & S4 & H4 & ->).
  destruct s as [m0 t d fl fs rv]. simpl in *.
  set (b1 := m_next m0) in *. set (b2 := Pos.succ b1) in *.
  destruct (with_slash_ok path Hnp) as [Hnw Hne].
  eapply scratch_equiv with (B' := [b1; b2]) in S4; [|set_solver].
  assert (b1 ∉ [b2]) as Hb12 by (intros ?%list_elem_of_singleton; lia).
  pose proof (sc_live _ _ _ S4 b1 ltac:(set_solver)) as L1.
  pose proof (scratch_release _ _ _ _ Hb12 S4) as S5.
  pose proof (sc_live _ _ _ S5 b2 ltac:(set_solver)) as L2.
  pose proof (scratch_release _ _ _ _ (not_elem_of_nil b2) S5) as S6.
  destruct (scratch_server_rel _ _ T t d fl fs rv rv S6 Hrel) as [Hrel' Hcl].
  eexists. split; [|split; [exact Hrel'|split; [exact Hcl|done]]].
  unfold getroot_rest. mstep path_lookup_spec; [done|done|done|].
  unfold dget. mrun. mstep (dput_spec i). unfold getroot_reply. mrun. rewrite Hreg. mrun.
  mstep (dput_spec i). mem_step kfree_spec; [exact L1|done|].
  mem_step kfree_spec; [exact L2|done|]. done.
Qed.

(** GETROOT of a path that does not resolve: as in LOOKUP the failure is not
    noticed, and a reference that is not held is given back, or NULL followed. *)
Theorem getroot_missing_faults resp err left_over :
  path_lookup (with_slash path) = (err, left_over) → err ≠ 0 → s_drefs s = [] →
  vsnfsd_proc_getroot argp resp s =
    Oops (match left_over with Some _ => NotHeld | None => NullDeref end).
Proof using A Km K KL Hok Hrel Hpath Hlen Hmax Hnp.
  intros Hpl He Hd. destruct (getroot_prefix resp) as (m4 & S4 & H4 & ->).
  destruct (with_slash_ok path Hnp) as [Hnw Hne].
  unfold getroot_rest. mstep path_lookup_failed; [done|done|done|done|].
  destruct left_over as [i|]; [|done]. rewrite Hd. unfold dget. mrun. mstep (dput_spec i).
  unfold getroot_reply. mrun. destruct (S_ISREG (i_mode i)); [by mstep dput_unheld|]. mrun.
  pose proof root_path_size as Hsz. pose proof (table_rel_nil m4) as R0.
  destruct (remember_add [Pos.succ (m_next (s_mem s)); m_next (s_mem s)] (s_mem s) m4 [] ∅
    (Ptr (Pos.succ (m_next (s_mem s))) 0) (i_ino i) (with_slash path) [] (s_files s) (s_fs s)
    (s_reserved s) (u32 (dga_len argp + 2))) as (m5 & l' & E5 & _); [done..|].
  mstep E5. by mstep dput_unheld.
Qed.
End good_path.

(** GETROOT of the empty path, which the decoder lets through (mounting
    "ip:" sends it), indexes the buffer at the largest unsigned integer. *)
Theorem getroot_empty_faults s T argp resp :
  (∀ b, kmalloc_ok b = true) → server_rel s T →
  has_bytes (s_mem s) (dga_path argp) [] → dga_len argp = 0 →
  vsnfsd_proc_getroot argp resp s = Oops OutOfBounds.
Proof.
  intros Hok [Hwf _] Hp Hlen. destruct s as [m0 t d fl fs rv]. simpl in *.
  unfold vsnfsd_proc_getroot. mem_step kmalloc_Some; [done|].
  destruct (alloc_zero [] m0 m0 sizeof_nameidata) as (E1 & T1 & S1);
    [pose proof sizeof_nameidata_pos; lia|by apply scratch_refl|].
  mem_step E1. mem_step kmalloc_Some; [done|]. rewrite Hlen. change (u32 (0 + 2)) with 2.
  set (m2 := upd _ _ _) in *.
  etransitivity; [|reflexivity]. eapply bind_Oops, in_mem_fault. unfold copy_root_path.
  rewrite Hlen. mstep (load_bytes_spec _ _ []).
  { eapply scratch_has_bytes; [|exact Hp]. apply scratch_alloc, S1. }
  set (p := Ptr (m_next m2) 0).
  assert (in_bounds (alloc m2 2) p 0) as B0 by (apply in_bounds_alloc_new; lia).
  mstep store_bytes_spec; [done|]. rewrite (upd_nil _ _ B0).
  eapply bind_Oops, load_bytes_oob.
  - rewrite mem_block_padd, mem_block_alloc_new by done. eauto.
  - unfold in_bounds. rewrite mem_block_padd, mem_block_alloc_new by done.
    rewrite kmalloc_junk_len by lia. change (u32 (0 - 1)) with 4294967295. simpl. lia.
Qed.
End getroot.

(** ** Examples *)
Definition ex_getroot : vsnfsd_getrootargs := VsnfsdGetrootargs (Ptr 13 0) 2.

Lemma getroot_refines_example :
  ∃ s', vsnfsd_proc_getroot (A := x86_64) (Km := kmem_ref []) (K := ex_kernel) ex_getroot fh_zero
          ex_server =
          Done ((vsnfserr (H := x86_64) VSNFS_OK,
                 VsnfsFh [x32; x00; x00; x00; x00; x00; x00; x00] VSNFS_DIR), s') ∧
        server_rel s' (Some {[2 := ex_dirpath]}) ∧ clean ex_server s'.
Proof.
  exact (getroot_refines (A := x86_64) (Km := kmem_ref []) (K := ex_kernel) ex_server
    (Some ex_table) ex_getroot [x2f; x61] ltac:(done) ex_server_rel ltac:(by_eval) ltac:(done)
    ltac:(done) ltac:(by_eval) fh_zero (InodeInfo 2 S_IFDIR) ltac:(done) ltac:(done)).
Defined.

(** A kernel in which the exported path is a regular file, and one in which it
    does not exist. *)
Definition ex_kernel_reg : ServerKernel :=
  kernel_ref [KFile ex_dirpath (InodeInfo 7 S_IFREG)] (λ _, []) (λ _, [x68; x69]).
Definition ex_kernel_empty : ServerKernel := kernel_ref [] (λ _, []) (λ _, [x68; x69]).

Lemma getroot_regular_file_witness :
  ∃ s', vsnfsd_proc_getroot (A := x86_64) (Km := kmem_ref []) (K := ex_kernel_reg) ex_getroot
          fh_zero ex_server =
          Done ((3959422976, VsnfsFh [x37; x00; x00; x00; x00; x00; x00; x00] 0), s') ∧
        server_rel s' (Some ex_table) ∧ clean ex_server s' ∧ s_tab s' = s_tab ex_server.
Proof.
  exact (getroot_regular_file (A := x86_64) (Km := kmem_ref []) (K := ex_kernel_reg) ex_server
    (Some ex_table) ex_getroot [x2f; x61] ltac:(done) ex_server_rel ltac:(by_eval) ltac:(done)
    ltac:(done) ltac:(by_eval) fh_zero (InodeInfo 7 S_IFREG) ltac:(done) ltac:(done)).
Defined.

Lemma getroot_missing_faults_witness :
  vsnfsd_proc_getroot (A := x86_64) (Km := kmem_ref []) (K := ex_kernel_empty) ex_getroot
    fh_zero ex_server = Oops NullDeref.
Proof.
  exact (getroot_missing_faults (A := x86_64) (Km := kmem_ref []) (K := ex_kernel_empty) ex_server
    (Some ex_table) ex_getroot [x2f; x61] ltac:(done) ex_server_rel ltac:(by_eval) ltac:(done)
    ltac:(done) ltac:(by_eval) fh_zero (- ENOENT) None ltac:(done) ltac:(done) ltac:(done)).
Defined.

Lemma getroot_empty_faults_witness :
  vsnfsd_proc_getroot (A := x86_64) (Km := kmem_ref []) (K := ex_kernel)
    (VsnfsdGetrootargs (Ptr 13 0) 0) fh_zero ex_server = Oops OutOfBounds.
Proof.
  exact (getroot_empty_faults (A := x86_64) (Km := kmem_ref []) (K := ex_kernel) ex_server
    (Some ex_table) (VsnfsdGetrootargs (Ptr 13 0) 0) fh_zero ltac:(done) ex_server_rel
    ltac:(by_eval) ltac:(done)).
Defined.
