(* ===== verification/ServerFile.v ===== *)
(** * ServerFile: opening, reading and closing files through handles

    [vsnfsd_open] turns a handle into a path by the lookup table and opens it;
    READ reads a page's worth and closes the file again. *)
From Stdlib Require Import Strings.Byte.
From S2P Require Import Prelude Mem Frame CString Protocol Sunrpc Wire ServerXdr Handle VfsApi.
From S2P Require Import ServerState ServerProc ServerTable ServerSpec.

Section open.
Context `{A : Arch} `{Km : Kmem} `{K : ServerKernel} `{KL : !ServerKernelLaws K}.
Implicit Types (m : mem) (b : positive).

(** The three results of [vsnfsd_fh_to_path]. *)
Lemma fh_to_path_known m l g d fl fs rv fh p ino str :
  table_rel m l g → fh_strtoul fh = Done ino → ino ≠ 0 → g !! ino = Some str →
  zlen str < VSNFS_MAXPATHLEN → in_bounds m p VSNFS_MAXPATHLEN →
  ∃ m', vsnfsd_fh_to_path fh p VSNFS_MAXPATHLEN (SState m (Some l) d fl fs rv) =
          Done (0, SState m' (Some l) d fl fs rv) ∧ touches m (p_blk p) m' ∧
        has_bytes m' p (str ++ [NUL]) ∧ (NUL ∉ str).
Proof.
  intros Hr Hino H0 Hg Hlen Hin. pose proof (lp_find_rel m l g ino Hr) as Hf.
  destruct (lp_find ino l) as [node|] eqn:Ef; [|congruence].
  destruct Hf as (_ & str' & Hg' & _ & _ & _ & Hh & Hn). assert (str' = str) as -> by congruence.
  unfold VSNFS_MAXPATHLEN in *.
  pose proof (strncpy_spec m p (ln_path node) 1024 str Hn Hh ltac:(lia) Hin) as E.
  rewrite take_ge in E by (unfold zlen in Hlen; lia).
  destruct (Z.to_nat 1024 - length str)%nat as [|k] eqn:Ek; [unfold zlen in Hlen; lia|].
  set (x := str ++ replicate (S k) NUL) in *.
  assert (in_bounds m p (zlen x)) as Hb.
  { eapply in_bounds_mono; [|exact Hin]. unfold x. rewrite zlen_app, zlen_replicate.
    unfold zlen in *. lia. }
  exists (upd m p x). split_and!; [|by apply touches_upd| |done].
  - unfold vsnfsd_fh_to_path. rewrite Hino. mrun.
    rewrite decide_False by done. mrun. rewrite Ef. by mem_step E.
  - pose proof (has_bytes_upd m p x Hb) as Hx.
    assert (x = (str ++ [NUL]) ++ replicate k NUL) as Ex by by rewrite <-app_assoc.
    rewrite Ex in Hx at 2. by apply has_bytes_app in Hx as [Hx _].
Qed.

Lemma fh_to_path_unknown m l g d fl fs rv fh p n ino :
  table_rel m l g → fh_strtoul fh = Done ino → ino = 0 ∨ g !! ino = None →
  vsnfsd_fh_to_path fh p n (SState m (Some l) d fl fs rv) =
    Done (-1, SState m (Some l) d fl fs rv).
Proof.
  intros Hr Hino H0. unfold vsnfsd_fh_to_path. rewrite Hino. mrun.
  case_decide; [done|]. mrun. pose proof (lp_find_rel m l g ino Hr) as Hf.
  destruct (lp_find ino l); [|done]. destruct Hf as (_ & ? & ? & _). destruct H0; congruence.
Qed.

(** ** Opening: all results, with the path buffer freed in each *)
Lemma vsnfsd_open_known s g fh mode ino str :
  (∀ b, kmalloc_ok b = true) → server_rel s (Some g) → fh_strtoul fh = Done ino → ino ≠ 0 →
  g !! ino = Some str → zlen str < VSNFS_MAXPATHLEN →
  ∃ m', scratch [] (s_mem s) m' ∧
    vsnfsd_open fh mode s =
      match filp_open str mode with
      | inl _ => Done ((vsnfserr VSNFSERR_IO, None), set_mem m' s)
      | inr f => Done ((vsnfserr VSNFS_OK, Some f), set_files (f :: s_files s) (set_mem m' s))
      end.
Proof.
  intros Hok [Hwf Hr] Hino H0 Hg Hlen. destruct s as [m0 [l|] d fl fs rv]; [|done]. simpl in *.
  pose proof (scratch_alloc [] m0 m0 VSNFS_MAXPATHLEN (scratch_refl m0 Hwf)) as S1.
  set (m1 := alloc m0 VSNFS_MAXPATHLEN) in *. set (b := m_next m0) in *.
  destruct (fh_to_path_known m1 l g d fl fs rv fh (Ptr b 0) ino str)
    as (m2 & E2 & T2 & H2 & Hn); [by eapply scratch_table_rel|done..| |].
  { apply in_bounds_alloc_new; unfold VSNFS_MAXPATHLEN; lia. }
  pose proof (scratch_touches _ _ _ _ _ (list_elem_of_here _ _) T2 S1) as S2.
  exists (release m2 (Ptr b 0)). split; [by apply scratch_release; [set_solver|]|].
  assert (is_Some (mem_block m2 (Ptr b 0))) as L by apply (sc_live _ _ _ S2 b (list_elem_of_here _ _)).
  unfold vsnfsd_open. mem_step kmalloc_Some; [done|]. fold b m1. mstep E2.
  rewrite decide_False by auto. mem_step load_cstr_spec; [done|done|].
  destruct (filp_open str mode); mrun; mem_step kfree_spec; done.
Qed.

(** A path that fills the buffer is copied without its terminator. *)
Lemma vsnfsd_open_too_long s g fh mode ino str :
  (∀ b, kmalloc_ok b = true) → server_rel s (Some g) → fh_strtoul fh = Done ino → ino ≠ 0 →
  g !! ino = Some str → VSNFS_MAXPATHLEN ≤ zlen str → vsnfsd_open fh mode s = Oops OutOfBounds.
Proof.
  intros Hok [Hwf Hr] Hino H0 Hg Hlen. destruct s as [m0 [l|] d fl fs rv]; [|done]. simpl in *.
  pose proof (scratch_alloc [] m0 m0 VSNFS_MAXPATHLEN (scratch_refl m0 Hwf)) as S1.
  set (m1 := alloc m0 VSNFS_MAXPATHLEN) in *. set (p := Ptr (m_next m0) 0).
  assert (table_rel m1 l g) as Hr1 by by eapply scratch_table_rel.
  pose proof (lp_find_rel m1 l g ino Hr1) as Hf.
  destruct (lp_find ino l) as [node|] eqn:Ef; [|congruence].
  destruct Hf as (_ & str' & Hg' & _ & _ & _ & Hh & Hn). assert (str' = str) as -> by congruence.
  assert (in_bounds m1 p VSNFS_MAXPATHLEN) as Hin by (apply in_bounds_alloc_new; unfold VSNFS_MAXPATHLEN; lia).
  pose proof (strncpy_spec m1 p (ln_path node) VSNFS_MAXPATHLEN str Hn Hh ltac:(done) Hin) as E.
  replace (Z.to_nat VSNFS_MAXPATHLEN - length str)%nat with O in E by (unfold zlen in Hlen; lia).
  rewrite app_nil_r in E. set (x := take (Z.to_nat VSNFS_MAXPATHLEN) str) in *.
  assert (zlen x = VSNFS_MAXPATHLEN) as Hx 
    by (unfold x; rewrite zlen_take; unfold VSNFS_MAXPATHLEN in *; lia).
  assert (mem_block (upd m1 p x) p = Some x) as Hb.
  { rewrite mem_block_upd, decide_True by done. unfold m1.
    rewrite mem_block_alloc_new by done. simpl. unfold splice. rewrite take_0, drop_ge, app_nil_r; [done|].
    pose proof (kmalloc_junk_len (m_next m0) VSNFS_MAXPATHLEN ltac:(done)). unfold zlen in *. lia. }
  assert (vsnfsd_fh_to_path fh p VSNFS_MAXPATHLEN (SState m1 (Some l) d fl fs rv) =
    Done (0, SState (upd m1 p x) (Some l) d fl fs rv)) as E2.
  { unfold vsnfsd_fh_to_path. rewrite Hino. mrun. rewrite decide_False by done. mrun. rewrite Ef.
    by mem_step E. }
  unfold vsnfsd_open. mem_step kmalloc_Some; [done|]. fold m1 p. mstep E2.
  rewrite decide_False by auto. apply bind_Oops, bind_Oops, in_mem_fault.
  apply (load_cstr_unterminated _ _ x Hb eq_refl). rewrite <-(take_drop (Z.to_nat VSNFS_MAXPATHLEN) str), not_elem_of_app in Hn.
  by destruct Hn.
Qed.

Lemma vsnfsd_open_unknown s g fh mode ino :
  (∀ b, kmalloc_ok b = true) → server_rel s (Some g) → fh_strtoul fh = Done ino →
  ino = 0 ∨ g !! ino = None →
  ∃ m', scratch [] (s_mem s) m' ∧
    vsnfsd_open fh mode s = Done ((vsnfserr VSNFSERR_NOENT, None), set_mem m' s).
Proof.
  intros Hok [Hwf Hr] Hino H0. destruct s as [m0 [l|] d fl fs rv]; [|done]. simpl in *.
  pose proof (scratch_alloc [] m0 m0 VSNFS_MAXPATHLEN (scratch_refl m0 Hwf)) as S1.
  set (m1 := alloc m0 VSNFS_MAXPATHLEN) in *. set (b := m_next m0) in *.
  exists (release m1 (Ptr b 0)). split; [by apply scratch_release; [set_solver|]|].
  unfold vsnfsd_open. mem_step kmalloc_Some; [done|].
  mstep fh_to_path_unknown; [by eapply scratch_table_rel|done|done|].
  rewrite decide_True by done. mem_step kfree_spec; [|done|done]. apply (sc_live _ _ _ S1 b (list_elem_of_here _ _)).
Qed.

Lemma vsnfsd_open_nomem s fh mode :
  kmalloc_ok (m_next (s_mem s)) = false →
  vsnfsd_open fh mode s = Done ((vsnfserr VSNFSERR_NOSPC, None), set_mem (alloc_failed (s_mem s)) s).
Proof. intros Hok. destruct s. unfold vsnfsd_open. by mem_step kmalloc_None. Qed.

Lemma vsnfsd_close_spec f s fl :
  s_files s = f :: fl →
  vsnfsd_close f s =
    Done (if decide (filp_close f ≠ 0) then vsnfserr VSNFSERR_IO else vsnfserr VSNFS_OK,
          set_files fl s).
Proof. intros Hf. unfold vsnfsd_close. mrun. by rewrite Hf, drop_one_cons. Qed.
End open.

Section read.
Context `{A : Arch} `{Km : Kmem} `{K : ServerKernel} `{KL : !ServerKernelLaws K}.

(** READ through a handle of the table. *)
Section known.
Context (s : sstate) (g : table) (argp : vsnfsd_readargs) (ino : Z) (path : list byte).
Context (Hok : ∀ b, kmalloc_ok b = true) (Hrel : server_rel s (Some g)).
Context (Hino : fh_strtoul (dra_fh argp) = Done ino) (H0 : ino ≠ 0) (Hg : g !! ino = Some path).
Context (Hlen : zlen path < VSNFS_MAXPATHLEN).
Context (Hcount : 0 ≤ dra_count argp).
Context (Hbuf : in_bounds (s_mem s) (dra_buffer argp) (dra_count argp)).
Context (Hout : p_blk (dra_buffer argp) ∉ table_blocks s).

(** C19: READ through a handle of the table, of a file that can be opened,
    answers OK with the count and leaves in the page the bytes [vfs_read]
    delivers to a kernel buffer.  The file is closed again, the address limit
    restored, the path buffer freed, and only the page's block has changed.
    (The bytes are those at the uninitialised position, not at the offset of
    the call.) *)
Theorem read_refines resp f n data :
  filp_open path O_RDONLY = inr f →
  vfs_read KERNEL_DS f (dra_count argp) stack_loff = (n, data) → 0 ≤ n < 2 ^ 32 →
  ∃ s', vsnfsd_proc_read argp resp s = Done ((vsnfserr VSNFS_OK, VsnfsdReadres n), s') ∧
        server_rel s' (Some g) ∧ clean_but [p_blk (dra_buffer argp)] s s' ∧
        zlen data = n ∧ has_bytes (s_mem s') (dra_buffer argp) data.
Proof using A Km K KL Hok Hrel Hino H0 Hg Hlen Hcount Hbuf Hout.
  intros Hopen Hread Hn.
  assert (zlen data = n ∧ n ≤ dra_count argp) as [Hd Hle].
  { pose proof (vfs_read_ok KERNEL_DS f (dra_count argp) stack_loff) as H.
    rewrite Hread in H. simpl in H. destruct H; lia. }
  set (rv := 2 + dra_count argp).
  destruct (vsnfsd_open_known (set_reserved rv s) g (dra_fh argp) O_RDONLY ino path)
    as (m1 & S1 & E1); [done|by destruct s|done..|]. rewrite Hopen in E1.
  set (buf := dra_buffer argp) in *.
  assert (in_bounds m1 buf (zlen data)) as B1.
  { eapply scratch_in_bounds; [exact S1|]. destruct s. eapply in_bounds_mono; [|exact Hbuf]. lia. }
  pose proof (touches_upd _ _ _ B1) as T1. set (m2 := upd m1 buf data) in *.
  destruct s as [m0 t d fl fs rv0].
  destruct (touch_server_rel (p_blk buf) m0 m1 m2 (Some g) t d fl fs rv0 rv) as [Hrel' Hcl]; [done..|].
  eexists. split; [|split_and!; [exact Hrel'|exact Hcl|done|by apply has_bytes_upd]].
  unfold vsnfsd_proc_read. mrun. fold rv. unfold vsnfsd_read. mstep E1.
  rewrite decide_False by auto. mrun. simpl s_fs. rewrite Hread.
  mem_step store_bytes_spec; [exact B1|]. fold m2. rewrite decide_True by lia.
  mstep vsnfsd_close_spec; [done|]. unfold ulong.
  rewrite Z.mod_small; [done|]. destruct long_bits_ok as [-> | ->]; lia.
Qed.

(** C20: READ when the file cannot be opened or read: the status is the one the
    cause maps to, and the file, if it was opened, is closed. *)
Theorem read_errors resp :
  match filp_open path O_RDONLY with
  | inl _ =>
      ∃ s' c, vsnfsd_proc_read argp resp s = Done ((vsnfserr VSNFSERR_IO, c), s') ∧
              server_rel s' (Some g) ∧ clean s s'
  | inr f =>
      ∀ n, vfs_read KERNEL_DS f (dra_count argp) stack_loff = (n, []) → n < 0 →
      ∃ s' c, vsnfsd_proc_read argp resp s = Done ((vsnfserrno n, c), s') ∧
              server_rel s' (Some g) ∧ clean s s'
  end.
Proof using A Km K KL Hok Hrel Hino H0 Hg Hlen Hcount Hbuf.
  clear Hout. set (rv := 2 + dra_count argp).
  destruct (vsnfsd_open_known (set_reserved rv s) g (dra_fh argp) O_RDONLY ino path)
    as (m1 & S1 & E1); [done|by destruct s|done..|].
  set (buf := dra_buffer argp) in *. destruct s as [m0 t d fl fs rv0].
  destruct (scratch_server_rel m0 m1 (Some g) t d fl fs rv0 rv) as [Hrel' Hcl]; [done..|].
  destruct (filp_open path O_RDONLY) as [e|f]; [|intros n Hread Hn].
  - eexists _, _. split; [|split; [exact Hrel'|exact Hcl]].
    unfold vsnfsd_proc_read. mrun. fold rv. unfold vsnfsd_read. mstep E1.
    rewrite decide_True; [done|]. by rewrite vsnfserr_OK, vsnfserr_0.
  - assert (in_bounds m1 buf 0) as B1.
    { eapply scratch_in_bounds; [exact S1|]. eapply in_bounds_mono; [|exact Hbuf]. lia. }
    rewrite <-(upd_nil m1 buf B1) in Hrel', Hcl.
    eexists _, _. split; [|split; [exact Hrel'|exact Hcl]].
    unfold vsnfsd_proc_read. mrun. fold rv. unfold vsnfsd_read. mstep E1.
    rewrite decide_False by auto. mrun. simpl s_fs. rewrite Hread.
    mem_step store_bytes_spec; [exact B1|]. rewrite decide_False by lia.
    by mstep vsnfsd_close_spec.
Qed.
End known.

(** READ through a handle that is not in the table (or names inode 0)
    answers NOENT. *)
Theorem read_unknown s g argp resp ino :
  (∀ b, kmalloc_ok b = true) → server_rel s (Some g) → fh_strtoul (dra_fh argp) = Done ino →
  ino = 0 ∨ g !! ino = None →
  ∃ s' c, vsnfsd_proc_read argp resp s = Done ((vsnfserr VSNFSERR_NOENT, c), s') ∧
          server_rel s' (Some g) ∧ clean s s'.
Proof.
  intros Hok Hrel Hino H0. set (rv := 2 + dra_count argp).
  destruct (vsnfsd_open_unknown (set_reserved rv s) g (dra_fh argp) O_RDONLY ino)
    as (m1 & S1 & E1); [done|by destruct s|done..|].
  destruct s as [m0 t d fl fs rv0].
  destruct (scratch_server_rel m0 m1 (Some g) t d fl fs rv0 rv) as [Hrel' Hcl]; [done..|].
  eexists _, _. split; [|split; [exact Hrel'|exact Hcl]].
  unfold vsnfsd_proc_read. mrun. fold rv. unfold vsnfsd_read. mstep E1.
  rewrite decide_True; [done|]. by rewrite vsnfserr_OK, vsnfserr_0.
Qed.
End read.

(** ** Examples *)
Definition ex_read : vsnfsd_readargs := VsnfsdReadargs (dla_fh ex_lookup) 0 16 (Ptr 14 0).

Lemma read_refines_witness :
  ∃ s', vsnfsd_proc_read (A := x86_64) (Km := kmem_ref []) (K := ex_kernel) ex_read
          (VsnfsdReadres 0) ex_server =
          Done ((vsnfserr (H := x86_64) VSNFS_OK, VsnfsdReadres 2), s') ∧
        server_rel s' (Some ex_table) ∧ clean_but [14%positive] ex_server s' ∧
        zlen [x68; x69] = 2 ∧ has_bytes (s_mem s') (Ptr 14 0) [x68; x69].
Proof.
  exact (read_refines (A := x86_64) (Km := kmem_ref []) (K := ex_kernel) ex_server ex_table
    ex_read 2 ex_dirpath ltac:(done) ex_server_rel ltac:(done) ltac:(done) ltac:(done)
    ltac:(by_eval) ltac:(by_eval) ltac:(by_eval) ltac:(by_eval) (VsnfsdReadres 0) 2 2 [x68; x69]
    ltac:(done) ltac:(done) ltac:(by_eval)).
Defined.

Lemma read_errors_witness :
  ∃ s' c, vsnfsd_proc_read (A := x86_64) (Km := kmem_ref []) (K := kernel_ref [] (λ _, []) (λ _, []))
          ex_read (VsnfsdReadres 0) ex_server =
          Done ((vsnfserr (H := x86_64) VSNFSERR_IO, c), s') ∧
        server_rel s' (Some ex_table) ∧ clean ex_server s'.
Proof.
  exact (read_errors (A := x86_64) (Km := kmem_ref []) (K := kernel_ref [] (λ _, []) (λ _, []))
    ex_server ex_table ex_read 2 ex_dirpath ltac:(done) ex_server_rel ltac:(done) ltac:(done)
    ltac:(done) ltac:(by_eval) ltac:(by_eval) ltac:(by_eval) (VsnfsdReadres 0)).
Defined.

Lemma read_unknown_witness :
  let argp := VsnfsdReadargs (VsnfsFh [x39; x00; x00; x00; x00; x00; x00; x00] VSNFS_REG) 0 16
                (Ptr 14 0) in
  ∃ s' c, vsnfsd_proc_read (A := x86_64) (Km := kmem_ref []) (K := ex_kernel) argp
          (VsnfsdReadres 0) ex_server =
          Done ((vsnfserr (H := x86_64) VSNFSERR_NOENT, c), s') ∧
        server_rel s' (Some ex_table) ∧ clean ex_server s'.
Proof.
  intros argp.
  exact (read_unknown (A := x86_64) (Km := kmem_ref []) (K := ex_kernel) ex_server ex_table
    argp (VsnfsdReadres 0) 9 ltac:(done) ex_server_rel ltac:(done) (or_intror eq_refl)).
Defined.
