(* ===== verification/ServerInv.v ===== *)
(** * ServerInv: what every run of the server preserves

    Whatever the arguments, whatever the kernel answers and whichever
    allocations fail, a procedure that ends without a fault leaves the lookup
    table well formed, drops the references and closes the files it took.  The
    procedures are verified with the rules for [triple]; [inv] carries the
    blocks a procedure owns, which the table does not use. *)
From Stdlib Require Import Strings.Byte.
From S2P Require Import Prelude Mem Frame CString Protocol Sunrpc Wire ServerXdr Handle VfsApi.
From S2P Require Import ServerState ServerProc ServerTable.

Record inv (B : list positive) (d fl : list Z) (fs : addr_limit) (s : sstate) : Prop := Inv {
  iv_rel : ∃ T, server_rel s T;
  iv_own b : b ∈ B → (b < m_next (s_mem s))%positive ∧ (b ∉ table_blocks s);
  iv_drefs : s_drefs s = d;
  iv_files : s_files s = fl;
  iv_fs : s_fs s = fs;
}.

(** Memory changed in blocks that are not the table's. *)
Lemma inv_mem B d fl fs m m' t rv b :
  inv B d fl fs (SState m t d fl fs rv) → b ∈ B → touches m b m' →
  inv B d fl fs (SState m' t d fl fs rv).
Proof.
  intros [[T [Hwf Hr]] Ho _ _ _] Hb Ht. destruct (Ho b Hb) as [_ Hnt]. simpl in *. split; try done.
  - exists T. split; [by eapply touches_wf|]. destruct t, T; try done. simpl in *.
    apply (table_rel_agree [b] m); [by eapply agree_touches; [|exact Ht]; left| |done].
    unfold table_blocks in Hnt. simpl in Hnt. set_solver.
  - simpl. by rewrite (touches_next _ _ _ Ht).
Qed.

Lemma inv_scratch N B d fl fs m m' t rv :
  inv B d fl fs (SState m t d fl fs rv) → scratch N m m' →
  inv (N ++ B) d fl fs (SState m' t d fl fs rv).
Proof.
  intros [[T HT] Ho _ _ _] Hs. pose proof (sc_next _ _ _ Hs). split; try done.
  - exists T. by eapply scratch_rel.
  - intros b [Hb|Hb]%elem_of_app; simpl in *.
    + split; [apply Hs; by apply (sc_live _ _ _ Hs)|].
      destruct HT as [_ Hr]. destruct t as [l|], T as [g|]; try done; [|set_solver].
      unfold table_blocks. simpl. eapply scratch_blocks; [exact Hs|exact Hr|exact Hb].
    + destruct (Ho b Hb). split; [lia|done].
Qed.

Lemma inv_eta B d fl fs s :
  inv B d fl fs s → ∃ m t rv, s = SState m t d fl fs rv.
Proof. destruct s. intros [_ _ [= ->] [= ->] [= ->]]. eauto. Qed.

(** Runs an operation on memory from a state that satisfies [inv]. *)
Ltac inv_run :=
  let s := fresh "s" in let HP := fresh "HP" in
  intros s ? ? HP (? & E & ->)%zoom_inv;
  destruct (inv_eta _ _ _ _ _ HP) as (m & t & rv & ->); simpl in E.

(** What the stores of a run say about memory. *)
Ltac stores :=
  repeat match goal with x : unit |- _ => destruct x end;
  repeat match goal with
  | H : store_bytes _ _ _ = Done (tt, _) |- _ => apply store_touches in H; simpl in H
  end.

Section inv.
Context `{A : Arch} `{Km : Kmem} `{K : ServerKernel} `{KL : !ServerKernelLaws K}.
Implicit Types (B : list positive) (d fl : list Z) (fs : addr_limit).

Lemma triple_pure {T} P (f : M mem T) :
  (∀ m a m', f m = Done (a, m') → m' = m) → triple P (in_mem f) (λ _, P).
Proof.
  intros Hf s a s' HP (m' & E & ->)%zoom_inv. apply Hf in E as ->. by destruct s.
Qed.

Lemma triple_touch B d fl fs b (f : M mem unit) :
  b ∈ B → (∀ m m', f m = Done (tt, m') → touches m b m') →
  triple (inv B d fl fs) (in_mem f) (λ _, inv B d fl fs).
Proof. intros Hb Hf. inv_run. destruct a. eapply inv_mem; eauto. Qed.

Lemma triple_store B d fl fs p x :
  p_blk p ∈ B → triple (inv B d fl fs) (in_mem (store_bytes p x)) (λ _, inv B d fl fs).
Proof. intros Hp. eapply triple_touch; [done|]. intros m m'. apply store_touches. Qed.

Lemma triple_kmalloc B d fl fs n :
  triple (inv B d fl fs) (in_mem (kmalloc n))
    (λ o, inv (match o with Some p => p_blk p :: B | None => B end) d fl fs).
Proof.
  inv_run. assert (mem_wf m) as Hwf by by destruct HP as [[T [Hwf _]] _ _ _ _].
  unfold kmalloc in E. destruct (kmalloc_ok (m_next m)); injection E as <- <-.
  - eapply (inv_scratch [m_next m]); [done|]. by apply scratch_alloc, scratch_refl.
  - eapply (inv_scratch []); [done|]. by apply scratch_alloc_failed, scratch_refl.
Qed.

Lemma triple_kfree B d fl fs op :
  (∀ p, op = Some p → p_blk p ∈ B) →
  triple (inv B d fl fs) (in_mem (kfree op)) (λ _, inv B d fl fs).
Proof.
  intros Hop. inv_run. destruct op as [p|]; [|by injection E as <- <-].
  specialize (Hop p eq_refl). unfold kfree in E.
  destruct (m_blocks m !! p_blk p); [|done]. case_decide; [|done]. injection E as <- <-.
  change (Mem _ _) with (release m p).
  destruct HP as [[T [Hwf Hr]] Ho _ _ _]. destruct (Ho _ Hop) as [_ Hnt]. split; try done.
  exists T. split; [by apply mem_wf_release|]. destruct t as [lt|], T; try done. simpl in *.
  eapply (table_rel_agree [p_blk p]); [apply agree_release; left| |done].
  unfold table_blocks in Hnt. simpl in Hnt. set_solver.
Qed.

Lemma load_cstr_pure p m a m' : load_cstr p m = Done (a, m') → m' = m.
Proof. unfold load_cstr. repeat case_match; by intros [= _ <-]. Qed.
Lemma load_bytes_pure p n m a m' : load_bytes p n m = Done (a, m') → m' = m.
Proof. by intros [? _]%load_bytes_inv. Qed.

Lemma inv_weaken B B' d fl fs s : B' ⊆ B → inv B d fl fs s → inv B' d fl fs s.
Proof. intros Hs []. split; try done. auto. Qed.

(** A new node, or none when there is no memory for it. *)
Lemma triple_lp_add B d fl fs ino p size :
  p_blk p ∈ B → 0 ≤ size →
  triple (λ s, inv B d fl fs s ∧ ∃ l, s_tab s = Some l ∧ lp_find ino l = None)
    (lp_add ino p size) (λ _, inv B d fl fs).
Proof.
  intros HpB Hsz s a s' [HP (l & Hl & Hf)] E.
  destruct (inv_eta _ _ _ _ _ HP) as (m & t & rv & ->). simpl in Hl. subst t.
  pose proof HP as [[[g|] [Hwf Hr]] Ho _ _ _]; [|done]. simpl in Hwf, Hr.
  destruct (Ho _ HpB) as [Hlt _]. simpl in Hlt. pose proof (scratch_refl _ Hwf) as S0.
  pose proof (lp_find_rel m l g ino Hr) as Hg. rewrite Hf in Hg.
  destruct (kmalloc_ok (m_next m)) eqn:Ok3.
  2:{ assert (Done (a, s') = Oops NullDeref); [|done]. rewrite <-E. unfold lp_add.
      mem_step kmalloc_None; [done|]. done. }
  pose proof (scratch_alloc _ _ _ sizeof_lookup_table S0) as S1.
  destruct (kmalloc_ok (Pos.succ (m_next m))) eqn:Ok4.
  2:{ assert (Done (a, s') = Done (false, SState (alloc_failed (alloc m sizeof_lookup_table))
        (Some l) d fl fs rv)) as [= -> ->].
      { rewrite <-E. unfold lp_add. mem_step kmalloc_Some; [done|]. by mem_step kmalloc_None. }
      eapply inv_weaken; [|eapply inv_scratch; [exact HP|]]; [|by apply scratch_alloc_failed, S1].
      set_solver. }
  set (m2 := alloc (alloc m sizeof_lookup_table) size).
  assert (mem_block m2 p = mem_block m p) as Hmp.
  { unfold m2. rewrite !mem_block_alloc_ne; [done|lia|simpl; lia]. }
  destruct (load_cstr p m2) as [[str m2']|e] eqn:El.
  2:{ assert (Done (a, s') = Oops e); [|done]. rewrite <-E. unfold lp_add.
      mem_step kmalloc_Some; [done|]. mem_step kmalloc_Some; [done|]. mstep in_mem_fault; [exact El|]. done. }
  apply load_cstr_inv in El as (-> & Hn & Hh).
  assert (has_bytes m p (str ++ [NUL])) as Hh0 by (unfold has_bytes in *; by rewrite Hmp in Hh).
  destruct (decide (zlen str + 1 ≤ size)) as [Hle|Hgt].
  - destruct (remember_add [] m m l g p ino str d fl fs rv size) as (m' & l' & E' & R); [done..|].
    assert (Done (a, s') = Done (true, SState m' (Some l') d fl fs rv)) as [= -> ->]
      by by rewrite <-E, E'.
    destruct R as (Hr' & N & Hsc & Hnb & _). rewrite app_nil_r in Hsc. split; try done.
    + exists (Some (<[ino := str]> g)). split; [apply Hsc|done].
    + intros b Hb. destruct (Ho b Hb) as [Hb1 Hb2]. pose proof (sc_next _ _ _ Hsc). simpl in *.
      unfold table_blocks in *. simpl in *. split; [lia|]. rewrite Hnb, not_elem_of_app.
      split; [|done]. intros HN%(sc_fresh _ _ _ Hsc). lia.
  - assert (Done (a, s') = Oops OutOfBounds); [|done]. rewrite <-E. unfold lp_add.
    mem_step kmalloc_Some; [done|]. mem_step kmalloc_Some; [done|].
    mem_step load_cstr_spec; [exact Hn|exact Hh|]. mstep in_mem_fault; [|done].
    apply store_bytes_oob; [|]; unfold in_bounds; rewrite mem_block_alloc_new by done; [eauto|].
    rewrite kmalloc_junk_len by done. simpl. zlen_lia.
Qed.

Lemma triple_lp_list P : triple P lp_list (λ l s, P s ∧ s_tab s = Some l).
Proof.
  intros s l s' HP E. unfold lp_list in E. minv E. injection E0 as <- <-.
  destruct (s_tab s) eqn:Et; [|done]. by injection E as <- <-.
Qed.

(** References: taken by [path_lookup] and [dget], given back by [dput]. *)
Definition dref (o : option inode_info) (d : list Z) : list Z :=
  match o with Some i => i_ino i :: d | None => d end.

(** ... which [path_lookup] leaves only when it succeeds. *)
Definition held (ret : Z) (o : option inode_info) : list Z :=
  if decide (ret = 0) then dref o [] else [].

Lemma triple_path_lookup B fl fs p :
  triple (inv B [] fl fs) (do_path_lookup p) (λ r, inv B (held r.1 r.2) fl fs).
Proof.
  unfold do_path_lookup, held. eapply triple_bind; [apply triple_pure, load_cstr_pure|].
  intros x. destruct (path_lookup x) as [ret o]. intros s r s' HP E.
  case_decide as Hret; minv E; [|by injection E as <- <-; simpl; rewrite decide_False].
  destruct o as [i|]; injection E0 as <- <-; injection E as <- <-; simpl; rewrite decide_True by done;
    [|done].
  destruct HP as [[T HT] ? Hd ? ?]. split; try done; [by exists T|]. simpl. by rewrite Hd.
Qed.
Lemma triple_dget B d fl fs o :
  triple (inv B d fl fs) (dget o) (λ r s, r = o ∧ inv B (dref o d) fl fs s).
Proof.
  destruct o as [i|]; simpl; [|by apply triple_ret].
  intros s r s' [[T HT] ? Hd ? ?] E. injection E as <- <-. split; [done|].
  split; try done; [by exists T|]. simpl. by rewrite Hd.
Qed.
Lemma triple_dput B d fl fs o :
  triple (inv B (dref o d) fl fs) (dput o) (λ _, inv B d fl fs).
Proof.
  destruct o as [i|]; simpl; [|by apply triple_ret].
  intros s [] s' HP E. minv E. injection E0 as <- <-.
  destruct HP as [[T HT] ? Hd ? ?]. simpl in Hd. rewrite Hd, drop_one_cons in E.
  injection E as <-. split; try done. by exists T.
Qed.

(** After a failure what the code gives back is not held, and it goes no further. *)
Lemma triple_dput_found B fl fs ret o :
  triple (λ s, is_Some o ∧ inv B (held ret o) fl fs s) (dput o) (λ _, inv B [] fl fs).
Proof.
  apply triple_fact. intros [i ->]. unfold held. case_decide; [apply (triple_dput B [] fl fs (Some i))|].
  intros s [] s' [_ _ Hd _ _] E. unfold dput in E. minv E. injection E0 as <- <-. by rewrite Hd in E.
Qed.

(** Programs that read memory and write to one block. *)
Ltac touches_inv :=
  repeat match goal with
  | H : mret _ _ = Done _ |- _ => unfold mret, M_ret in H; simplify_eq
  | H : load_cstr _ _ = Done _ |- _ =>
      apply load_cstr_inv in H as (-> & _ & H); apply has_bytes_live in H
  | H : load_bytes _ _ _ = Done _ |- _ => apply load_bytes_pure in H as ->
  | H : store_bytes _ _ _ = Done (?x, _) |- _ => destruct x; apply store_touches in H; simpl in H
  end;
  first [ by eauto 4 using touches_trans
        | match goal with H : is_Some _ |- _ => destruct H; by eapply touches_refl end ].

Lemma build_path_touches p node argp m m' :
  build_path p node argp m = Done (tt, m') → touches m (p_blk p) m'.
Proof. unfold build_path. intros E. minv E. touches_inv. Qed.
Lemma add_slash_touches p m m' : add_slash p m = Done (tt, m') → touches m (p_blk p) m'.
Proof. unfold add_slash. intros E. minv E. case_decide; minv E; touches_inv. Qed.
Lemma copy_root_path_touches p argp m m' :
  copy_root_path p argp m = Done (tt, m') → touches m (p_blk p) m'.
Proof. unfold copy_root_path. intros E. minv E. case_decide; minv E; touches_inv. Qed.

Lemma triple_lookup_reply B d fl fs p o rc resp :
  p_blk p ∈ B →
  triple (inv B d fl fs) (lookup_reply p o rc resp) (λ _ s, is_Some o ∧ inv B d fl fs s).
Proof.
  intros Hp. unfold lookup_reply. destruct o as [i|]; [|by intros s ? ? _ E].
  eapply triple_post; [intros ? s' H; split; [by eexists|exact H]|].
  eapply triple_bind; [apply triple_deref; intros ? ? _ H; exact H|]. clear i. intros i.
  eapply (triple_bind _ _ _ (λ _, inv B d fl fs)).
  { destruct (S_ISREG (i_mode i)); [by apply triple_ret|].
    destruct (S_ISDIR (i_mode i)); [|by apply triple_ret].
    eapply triple_bind; [by eapply triple_touch; [|intros; by apply add_slash_touches]|].
    intros. by apply triple_ret. }
  intros resp'. eapply triple_bind; [apply triple_lp_list|]. intros l.
  destruct (lp_find (i_ino i) l) as [n|] eqn:Ef; [apply triple_ret; by intros s []|].
  eapply triple_bind; [apply triple_pure, load_cstr_pure|]. intros str. simpl.
  eapply (triple_bind _ _ _ (λ _, inv B d fl fs)); [|intros; by apply triple_ret].
  eapply triple_pre; [|apply triple_lp_add; [exact Hp|pose proof (zlen_nonneg str); lia]].
  intros s [? ?]. eauto.
Qed.

(** Takes the next action of the program by the rule given. *)
Tactic Notation "tstep" uconstr(H) := eapply triple_bind; [apply H|intros ?].

Lemma lookup_inv B fl fs argp resp :
  triple (inv B [] fl fs) (vsnfsd_proc_lookup argp resp) (λ _, inv B [] fl fs).
Proof.
  unfold vsnfsd_proc_lookup. tstep triple_lift; [intros ? ? _ H; exact H|].
  tstep triple_lp_list. destruct (lp_find a a0) as [node|]; [|apply triple_ret; by intros s []].
  eapply triple_pre; [by intros s []|]. tstep triple_kmalloc.
  destruct a1 as [p|]; [|by apply triple_ret]. set (Bp := p_blk p :: B).
  eapply triple_bind; [eapply (triple_touch Bp); [left|intros; by eapply build_path_touches]|].
  intros []. tstep triple_kmalloc. destruct a1 as [ndp|].
  2:{ tstep triple_kfree; [intros ? [= <-]; left|]. apply triple_ret. intros s.
      apply inv_weaken. set_solver. }
  tstep triple_store; [left|]. tstep triple_path_lookup. destruct a2 as [ret o]. simpl.
  tstep triple_dget. apply triple_fact. intros ->.
  tstep triple_dput. eapply triple_bind; [apply triple_lookup_reply; set_solver|]. intros [rc rsp].
  tstep triple_dput_found. tstep triple_kfree; [intros ? [= <-]; set_solver|].
  tstep triple_kfree; [intros ? [= <-]; set_solver|]. apply triple_ret. intros s.
  apply inv_weaken. set_solver.
Qed.

Lemma triple_getroot_reply B d fl fs p o ret argp resp :
  p_blk p ∈ B →
  triple (inv B d fl fs) (getroot_reply p o ret argp resp) (λ _ s, is_Some o ∧ inv B d fl fs s).
Proof.
  intros Hp. unfold getroot_reply. destruct o as [i0|]; [|by intros s ? ? _ E].
  eapply triple_post; [intros ? s' H; split; [by eexists|exact H]|].
  tstep triple_deref; [intros ? ? _ H; exact H|]. rename a into i.
  destruct (S_ISREG (i_mode i)); [by apply triple_ret|].
  eapply (triple_bind _ _ _ (λ _ s, inv B d fl fs s ∧ s_tab s = Some [])).
  { apply triple_modify. intros s [[T [Hwf _]] Ho Hd Hf Hfs]. split; [|done]. split; try done.
    - exists (Some ∅). split; [done|]. apply table_rel_nil.
    - intros b Hb. destruct (Ho b Hb). split; [done|]. unfold table_blocks. simpl. set_solver. }
  intros _. eapply (triple_bind _ _ _ (λ _, inv B d fl fs)); [|intros; by apply triple_ret].
  eapply triple_pre; [|apply triple_lp_add; [exact Hp|apply u32_range]].
  intros s [? ?]. eauto.
Qed.

Lemma getroot_inv B fl fs argp resp :
  triple (inv B [] fl fs) (vsnfsd_proc_getroot argp resp) (λ _, inv B [] fl fs).
Proof.
  unfold vsnfsd_proc_getroot. tstep triple_kmalloc. destruct a as [ndp|]; [|by apply triple_ret].
  tstep triple_store; [left|]. tstep triple_kmalloc. destruct a0 as [p|].
  2:{ tstep triple_kfree; [intros ? [= <-]; left|]. apply triple_ret. intros s.
      apply inv_weaken. set_solver. }
  eapply triple_bind; [eapply triple_touch; [left|intros; by eapply copy_root_path_touches]|].
  intros []. tstep triple_path_lookup. destruct a0 as [ret o]. simpl.
  tstep triple_dget. apply triple_fact. intros ->.
  tstep triple_dput. eapply triple_bind; [apply triple_getroot_reply; set_solver|]. intros [rc rsp].
  tstep triple_dput_found. tstep triple_kfree; [intros ? [= <-]; set_solver|].
  tstep triple_kfree; [intros ? [= <-]; set_solver|]. apply triple_ret. intros s.
  apply inv_weaken. set_solver.
Qed.

(** ** Files *)
Definition fref (o : option Z) (fl : list Z) : list Z :=
  match o with Some f => f :: fl | None => fl end.

Lemma strncpy_touches dst src n m m' :
  strncpy dst src n m = Done (tt, m') → touches m (p_blk dst) m'.
Proof.
  unfold strncpy. intros E. minv E. case_match; [|done].
  destruct (mem_block m src); [|done]. case_decide; [|done]. injection E0 as <- <-.
  by apply store_touches in E.
Qed.

Lemma triple_fh_to_path B d fl fs fh p n :
  p_blk p ∈ B → triple (inv B d fl fs) (vsnfsd_fh_to_path fh p n) (λ _, inv B d fl fs).
Proof.
  intros Hp. unfold vsnfsd_fh_to_path. tstep triple_lift; [intros ? ? _ H; exact H|].
  apply triple_if; [intros; by apply triple_ret|intros _].
  tstep triple_lp_list. eapply triple_pre; [by intros s []|].
  destruct (lp_find a a0); [|by apply triple_ret].
  eapply triple_bind; [eapply triple_touch; [exact Hp|intros; by eapply strncpy_touches]|].
  intros. by apply triple_ret.
Qed.

Lemma triple_open B d fl fs fh mode :
  triple (inv B d fl fs) (vsnfsd_open fh mode)
    (λ r s, (is_Some r.2 ↔ r.1 = 0) ∧ inv B d (fref r.2 fl) fs s).
Proof.
  assert (∀ st, st ≠ VSNFS_OK → is_Some (@None Z) ↔ vsnfserr st = 0) as Hst.
  { intros st Hne. rewrite vsnfserr_0. split; [by intros []|done]. }
  unfold vsnfsd_open. tstep triple_kmalloc. destruct a as [p|].
  2:{ apply triple_ret. intros. split; [by apply Hst|done]. }
  tstep triple_fh_to_path; [left|].
  eapply (triple_bind _ _ _ (λ r s, (is_Some r.2 ↔ r.1 = 0) ∧ inv (p_blk p :: B) d (fref r.2 fl) fs s)).
  - apply triple_if; [intros; apply triple_ret; intros; split; [by apply Hst|done]|intros _].
    tstep (triple_pure (inv (p_blk p :: B) d fl fs)); [apply load_cstr_pure|].
    destruct (filp_open a0 mode); [apply triple_ret; intros; split; [by apply Hst|done]|].
    intros s r s' HP E. minv E. injection E0 as <- <-. injection E as <- <-. simpl.
    split; [rewrite vsnfserr_OK; split; [done|by eauto]|].
    destruct HP as [[T HT] ? ? Hf ?]. split; try done; [by exists T|]. simpl. by rewrite Hf.
  - intros r. apply triple_fact. intros Hr. tstep triple_kfree; [intros ? [= <-]; left|].
    apply triple_ret. intros s HP. split; [done|]. by eapply inv_weaken; [|exact HP]; set_solver.
Qed.

Lemma triple_close B d fl fs f :
  triple (inv B d (f :: fl) fs) (vsnfsd_close f) (λ _, inv B d fl fs).
Proof.
  intros s r s' HP E. unfold vsnfsd_close in E. minv E. injection E0 as <- <-.
  destruct HP as [[T HT] ? ? Hf ?]. rewrite Hf, drop_one_cons in E. minv E.
  injection E0 as <- <-. injection E as <- <-. split; try done. by exists T.
Qed.

Lemma read_inv B d fl fs argp resp :
  p_blk (dra_buffer argp) ∈ B →
  triple (inv B d fl fs) (vsnfsd_proc_read argp resp) (λ _, inv B d fl fs).
Proof.
  intros Hb. unfold vsnfsd_proc_read.
  tstep (triple_modify _ _ (λ _, inv B d fl fs)).
  { intros s [[T HT] ? ? ? ?]. split; try done. by exists T. }
  eapply (triple_bind _ _ _ (λ _, inv B d fl fs)); [|intros []; by apply triple_ret].
  unfold vsnfsd_read. tstep triple_open. apply triple_fact. intros Hr. destruct a0 as [err o].
  simpl in *. apply triple_if; intros Herr.
  { apply triple_ret. rewrite vsnfserr_OK in Herr. destruct o as [z|]; [|done].
    exfalso. apply Herr, Hr. by exists z. }
  tstep (triple_deref _ _ (λ f s, o = Some f ∧ inv B d (fref o fl) fs s)); [done|].
  apply triple_fact. intros ->. simpl.
  tstep (triple_gets _ _ (λ x s, x = fs ∧ inv B d (a0 :: fl) fs s)); [intros s HP; split; [apply HP|done]|].
  apply triple_fact. intros ->.
  tstep (triple_modify _ _ (λ _, inv B d (a0 :: fl) KERNEL_DS)).
  { intros s [[T HT] ? ? ? ?]. split; try done. by exists T. }
  tstep (triple_gets _ _ (λ _, inv B d (a0 :: fl) KERNEL_DS)); [done|].
  destruct (vfs_read a2 a0 _ _) as [n data]. tstep triple_store; [exact Hb|].
  tstep (triple_modify _ _ (λ _, inv B d (a0 :: fl) fs)).
  { intros s [[T HT] ? ? ? ?]. split; try done. by exists T. }
  destruct (if decide (0 ≤ n) then (err, n) else (vsnfserrno n, stack_loff)) as [e p].
  tstep triple_close. by apply triple_ret.
Qed.

(** ** Directories *)
Section readdir.
Context `{X : SunrpcXdr} `{XL : !SunrpcXdrLaws X}.

(** The filler writes to the page of its buffer only. *)
Definition wrote (b : positive) (m m' : mem) : Prop := m' = m ∨ touches m b m'.
Lemma wrote_trans b m1 m2 m3 : wrote b m1 m2 → wrote b m2 m3 → wrote b m1 m3.
Proof. intros [->|H1] [->|H2]; unfold wrote; eauto using touches_trans. Qed.
Lemma wrote_store b p x m m' : p_blk p = b → store_bytes p x m = Done (tt, m') → wrote b m m'.
Proof. intros <- H%store_touches. by right. Qed.

(** A result structure whose pointers are into block [b]. *)
Definition res_in (b : positive) (res : vsnfsd_readdirres) : Prop :=
  p_blk (drdr_buffer res) = b ∧ ∀ o, drdr_offset res = Some o → p_blk o = b.

Lemma encode_entry_writes junk b res name namlen offset ino dt m r res' m' :
  res_in b res →
  vsnfssvc_encode_entry junk res name namlen offset ino dt m = Done ((r, res'), m') →
  res_in b res' ∧ wrote b m m'.
Proof.
  intros [Hb Ho] E. unfold vsnfssvc_encode_entry in E.
  case_decide; [injection E as <- <- <-; split; [done|by left]|].
  apply bind_inv in E as ([] & m1 & E1 & E).
  assert (wrote b m m1) as W1.
  { destruct (drdr_offset res) as [o|]; [eapply wrote_store; [|exact E1]; auto|].
    injection E1 as <-. by left. }
  case_decide; [injection E as <- <- <-; split; [done|done]|].
  case_decide; [injection E as <- <- <-; split; [done|done]|].
  minv E. destruct a, a0, a3, a4.
  apply encode_array_writes in E3 as [P3 W3]. unfold encode_fh in E4.
  apply bind_inv in E4 as ([] & s5 & E4 & E7). injection E7 as <- <-. injection E as <- <- <-.
  apply store_touches in E0, E2, E4, E5, E6. simpl in *. rewrite P3 in *. rewrite Hb in *.
  split; [split; [done|by intros o [= <-]]|].
  eapply wrote_trans; [exact W1|right]. eauto 8 using touches_trans.
Qed.

Lemma fill_all_writes b es m res r m' res' :
  res_in b res →
  fill_all es entry_filler (m, res) = Done (r, (m', res')) → res_in b res' ∧ wrote b m m'.
Proof.
  revert m res. induction es as [|[nm e] es IH]; intros m res Hres E; simpl in E.
  - injection E as <- <- <-. split; [done|by left].
  - apply bind_inv in E as (r1 & [m1 res1] & E1 & E).
    assert (res_in b res1 ∧ wrote b m m1) as [H1 W1].
    { unfold entry_filler in E1.
      destruct (vsnfssvc_encode_entry _ _ _ _ _ _ _ _) as [[[r2 res2] m2]|] eqn:Ee; [|done].
      injection E1 as <- <- <-. by eapply encode_entry_writes. }
    case_decide.
    + injection E as <- <- <-. done.
    + apply IH in E as [? ?]; [|done]. eauto using wrote_trans.
Qed.

Lemma inv_wrote B d fl fs m m' t rv b :
  inv B d fl fs (SState m t d fl fs rv) → b ∈ B → wrote b m m' →
  inv B d fl fs (SState m' t d fl fs rv).
Proof. intros HP Hb [->|Ht]; [done|]. by eapply inv_mem. Qed.

Lemma readdir_inv B d fl fs argp resp :
  p_blk (drda_buffer argp) ∈ B →
  triple (inv B d fl fs) (vsnfsd_proc_readdir argp resp)
    (λ r s, inv B d fl fs s ∧ res_in (p_blk (drda_buffer argp)) r.2).
Proof.
  intros Hb. unfold vsnfsd_proc_readdir. set (b := p_blk (drda_buffer argp)) in *.
  set (count := if decide (_ < 0) then 0 else _).
  set (res := VsnfsdReaddirres (drdr_count resp) (vsnfserr VSNFS_OK) (drda_buffer argp) count None).
  assert (res_in b res) as Hres by by split.
  eapply (triple_bind _ _ _ (λ r s, inv B d fl fs s ∧ res_in b r.2)).
  2:{ intros [err res']. apply triple_ret. intros s [? [? ?]]. split; [done|].
      simpl. by case_decide; split. }
  unfold vsnfsd_readdir. tstep triple_open. apply triple_fact. intros Hr. destruct a as [err o].
  simpl in *. apply triple_if; intros Herr.
  { apply triple_ret. destruct o as [z|]; [|done]. exfalso. apply Herr, Hr. by exists z. }
  tstep (triple_deref _ _ (λ f s, o = Some f ∧ inv B d (fref o fl) fs s)); [done|].
  apply triple_fact. intros ->. simpl. rename a into f.
  tstep (triple_get _ (λ x s, x = s ∧ inv B d (f :: fl) fs s)); [done|]. rename a into x.
  eapply (triple_bind _ _ _ (λ r s, res_in b r.2.2 ∧ inv B d (f :: fl) fs (set_mem r.2.1 s))).
  { apply triple_lift. intros [ret [m1 res1]] s E [-> HP]. simpl.
    destruct (inv_eta _ _ _ _ _ HP) as (m & t & rv & ->). simpl in E.
    rewrite vfs_readdir_spec in E. apply bind_inv in E as (q & [m2 res2] & Ef & E).
    injection E as <- <- <-. apply (fill_all_writes b) in Ef as [? ?]; [|done].
    split; [done|]. by eapply inv_wrote. }
  intros [ret [m1 res1]]. simpl. apply triple_fact. intros Hres1.
  tstep (triple_modify _ _ (λ _, inv B d (f :: fl) fs)); [done|].
  tstep triple_close. by apply triple_ret.
Qed.

Lemma null_inv B d fl fs argp resp :
  triple (inv B d fl fs) (vsnfsd_proc_null argp resp) (λ _, inv B d fl fs).
Proof. by apply triple_ret. Qed.
End readdir.
End inv.
