(* ===== verification/ServerSvc.v ===== *)
(** * ServerSvc: the RPC service ([server/vsnfssvc.c])

    The procedure table, the dispatcher that decodes the arguments, runs the
    procedure and encodes status and result, the daemon's request loop, and the
    life of the service from [init_vsnfsd] to [vsnfsd_last_thread]. *)
From Stdlib Require Import Strings.Byte.
From S2P Require Import Prelude Mem Frame CString Protocol Sunrpc Wire ServerXdr Handle VfsApi.
From S2P Require Import ServerState ServerProc.

(** ** Sizes of the argument and result structures *)
Section sizes.
Context `{A : Arch}.
Definition sizeof_nullargs : Z := c_struct [c_int].
Definition sizeof_nullres : Z := c_struct [c_int].
Definition sizeof_getrootargs : Z := c_struct [c_ptr; c_int].
Definition sizeof_lookupargs : Z := c_struct [c_fh; c_ptr; c_int].
Definition sizeof_readdirargs : Z := c_struct [c_fh; c_int; c_ptr].
Definition sizeof_readdirres : Z := c_struct [c_int; c_int; c_ptr; c_int; c_ptr].
Definition sizeof_readargs : Z := c_struct [c_fh; c_int; c_int; c_ptr].
Definition sizeof_readres : Z := c_struct [c_ptr].

(** The store for arguments and results: the union of some of them. *)
Definition VSNFS_SVC_XDRSIZE : Z :=
  Z.max (Z.max sizeof_nullargs sizeof_getrootargs) (Z.max sizeof_lookupargs sizeof_readdirargs).
End sizes.

(** ** The procedure table *)
Record svc_procedure : Type := SvcProcedure {
  pc_args : Type;
  pc_res : Type;
  (* the cleared stores the RPC layer passes in *)
  pc_args0 : pc_args;
  pc_res0 : pc_res;
  pc_func : pc_args → pc_res → M sstate (Z * pc_res);
  pc_decode : svc_rqst → ptr → pc_args → M mem (Z * pc_args * svc_rqst);
  pc_encode : svc_rqst → ptr → pc_res → M mem (Z * svc_rqst);
  pc_argsize : Z;
  pc_ressize : Z;
  pc_xdrressize : Z;
}.

(** A decoder that leaves the request as it is. *)
Definition same_rqst {T} (dec : svc_rqst → ptr → T → M mem (Z * T))
    (rqstp : svc_rqst) (p : ptr) (args : T) : M mem (Z * T * svc_rqst) :=
  '(ok, args) ← dec rqstp p args; mret (ok, args, rqstp).

Definition VSNFSSVC_MAXBLKSIZE : Z := 8 * 1024.
Definition ST : Z := 1.
Definition FH : Z := 8.
Definition NULL_PTR : ptr := Ptr 1 0.

Section procedures.
Context `{A : Arch} `{Km : Kmem} `{K : ServerKernel} `{X : SunrpcXdr}.

Definition svc_null : svc_procedure := {|
  pc_func := vsnfsd_proc_null;
  pc_decode := same_rqst vsnfssvc_decode_nullargs;
  pc_encode := vsnfssvc_encode_nullres;
  pc_args0 := VsnfsdNullargs 0; pc_res0 := VsnfsdNullres 0;
  pc_argsize := sizeof_nullargs; pc_ressize := sizeof_nullres; pc_xdrressize := ST + 1;
|}.
Definition svc_getroot : svc_procedure := {|
  pc_func := vsnfsd_proc_getroot;
  pc_decode := same_rqst vsnfssvc_decode_getrootargs;
  pc_encode := vsnfssvc_encode_fhandle;
  pc_args0 := VsnfsdGetrootargs NULL_PTR 0; pc_res0 := fh_zero;
  pc_argsize := sizeof_getrootargs; pc_ressize := sizeof_vsnfs_fh; pc_xdrressize := ST + FH;
|}.
Definition svc_lookup : svc_procedure := {|
  pc_func := vsnfsd_proc_lookup;
  pc_decode := same_rqst vsnfssvc_decode_lookupargs;
  pc_encode := vsnfssvc_encode_fhandle;
  pc_args0 := VsnfsdLookupargs fh_zero NULL_PTR 0; pc_res0 := fh_zero;
  pc_argsize := sizeof_lookupargs; pc_ressize := sizeof_vsnfs_fh; pc_xdrressize := ST + FH;
|}.
Definition svc_readdir : svc_procedure := {|
  pc_func := vsnfsd_proc_readdir;
  pc_decode := vsnfssvc_decode_readdirargs;
  pc_encode := vsnfssvc_encode_readdirres;
  pc_args0 := VsnfsdReaddirargs fh_zero 0 NULL_PTR;
  pc_res0 := VsnfsdReaddirres 0 0 NULL_PTR 0 None;
  pc_argsize := sizeof_readdirargs; pc_ressize := sizeof_readdirres; pc_xdrressize := ST;
|}.
Definition svc_read : svc_procedure := {|
  pc_func := vsnfsd_proc_read;
  pc_decode := vsnfssvc_decode_readargs;
  pc_encode := vsnfssvc_encode_readres;
  pc_args0 := VsnfsdReadargs fh_zero 0 0 NULL_PTR; pc_res0 := VsnfsdReadres 0;
  pc_argsize := sizeof_readargs; pc_ressize := sizeof_readres;
  pc_xdrressize := ST + VSNFSSVC_MAXBLKSIZE / 4;
|}.

(** The entries of [vsnfsd_procedures1] that are filled in. *)
Definition vsnfsd_procedures1 : list (Z * svc_procedure) :=
  [ (VSNFSPROC_NULL, svc_null); (VSNFSPROC_GETROOT, svc_getroot);
    (VSNFSPROC_LOOKUP, svc_lookup); (VSNFSPROC_READDIR, svc_readdir);
    (VSNFSPROC_READ, svc_read) ].
Definition svc_proc (n : Z) : option svc_procedure :=
  snd <$> find (λ x, bool_decide (x.1 = n)) vsnfsd_procedures1.

(** ** The program *)
Record svc_version : Type := SvcVersion {
  vs_vers : Z;
  vs_nproc : Z;
  vs_proc : Z → option svc_procedure;
  vs_xdrsize : Z;
}.
Definition vsnfsd_version1 : svc_version :=
  SvcVersion 1 VSNFS_NRPROCS svc_proc VSNFS_SVC_XDRSIZE.
(** By version number; there is no version 0. *)
Definition vsnfsd_versions : list (option svc_version) := [None; Some vsnfsd_version1].
Definition SVC_OK : Z := 5.
Definition vsnfs_authentication (rqst : svc_rqst) : Z := SVC_OK.
Record svc_program : Type := SvcProgram {
  pg_prog : Z;
  pg_nvers : Z;
  pg_vers : list (option svc_version);
  pg_authenticate : svc_rqst → Z;
}.
Definition vsnfsd_program : svc_program :=
  SvcProgram VSNFS_PROGRAM (zlen vsnfsd_versions) vsnfsd_versions vsnfs_authentication.

(** ** The dispatcher *)
Definition rpc_garbage_args : Z := cpu_to_be32 4.
Definition rpc_system_err : Z := cpu_to_be32 5.

(** Returns what the function returns, the request and what [*statp] then is. *)
Definition vsnfsd_dispatch (proc : svc_procedure) (rqstp : svc_rqst) (statp : Z)
    : M sstate (Z * svc_rqst * Z) :=
  '(ok, argp, rqstp) ←
    in_mem (pc_decode proc rqstp (iov_base (rq_arg_head rqstp)) (pc_args0 proc));
  if decide (ok = 0) then mret (1, rqstp, rpc_garbage_args) else
  let head := rq_res_head rqstp in
  let nfserrp := iov_base head +p iov_len head in
  let rqstp := set_res_head rqstp (Kvec (iov_base head) (iov_len head + 4)) in
  '(nfserr, resp) ← pc_func proc argp (pc_res0 proc);
  in_mem (store32 nfserrp nfserr);;
  let nfserrp := nfserrp +w 1 in
  if decide (nfserr = 0) then
    '(ok, rqstp) ← in_mem (pc_encode proc rqstp nfserrp resp);
    if decide (ok = 0) then mret (1, rqstp, rpc_system_err) else mret (1, rqstp, statp)
  else mret (1, rqstp, statp).
End procedures.

(** ** The end of the service: every node of the table is freed *)
Fixpoint free_nodes (l : list lp_node) : M sstate unit :=
  match l with
  | [] => mret tt
  | node :: l =>
      in_mem (kfree (Some (ln_path node)));;
      modify (set_tab (Some l));;
      in_mem (kfree (Some (ln_self node)));;
      free_nodes l
  end.

(** ** The service

    What the RPC layer and lockd keep is theirs: a service, with its references
    (the threads and the creator) and permanent sockets, and the state of
    lockd. *)
Inductive transport : Type := UDP | TCP.
#[export] Instance transport_eq_dec : EqDecision transport.
Proof. solve_decision. Defined.

Class SvcApi : Type := {
  svc_serv : Type;
  lockd : Type;
  sv_nrthreads : svc_serv → Z;
  (* the length of the list sv_permsocks *)
  sv_permsocks : svc_serv → nat;
  lockd_users : lockd → Z;
  svc_create_pooled : option svc_serv;
  (* the port or an error *)
  svc_create_xprt : svc_serv → transport → Z → Z * svc_serv;
  lockd_up : lockd → Z * lockd;
  lockd_down : lockd → lockd;
  svc_set_num_threads : svc_serv → Z → Z * svc_serv;
  (* svc_destroy: what remains, or nothing when that was the last reference *)
  svc_put : svc_serv → option svc_serv;
}.

(** What is documented of them. *)
Class SvcApiLaws (V : SvcApi) : Prop := {
  create_pooled_spec v : svc_create_pooled = Some v → sv_nrthreads v = 1 ∧ sv_permsocks v = O;
  create_xprt_spec v t port :
    let '(r, v') := svc_create_xprt v t port in
    sv_nrthreads v' = sv_nrthreads v ∧
    sv_permsocks v' = if decide (r < 0) then sv_permsocks v else S (sv_permsocks v);
  lockd_up_spec l :
    let '(r, l') := lockd_up l in
    r ≤ 0 ∧ lockd_users l' = if decide (r < 0) then lockd_users l else lockd_users l + 1;
  lockd_down_spec l : lockd_users (lockd_down l) = lockd_users l - 1;
  set_num_threads_spec v n :
    let '(r, v') := svc_set_num_threads v n in
    r ≤ 0 ∧ sv_permsocks v' = sv_permsocks v ∧ (r = 0 → sv_nrthreads v' = sv_nrthreads v + n);
  put_last v : sv_nrthreads v = 1 → svc_put v = None;
  put_other v :
    1 < sv_nrthreads v →
    ∃ v', svc_put v = Some v' ∧ sv_nrthreads v' = sv_nrthreads v - 1 ∧
          sv_permsocks v' = sv_permsocks v;
}.

Section service.
Context `{V : SvcApi}.

Record dstate : Type := DState {
  ds_server : sstate;
  ds_serv : option svc_serv;    (* vsnfsd_serv *)
  ds_lockd : lockd;
}.
Definition set_server (s : sstate) (x : dstate) : dstate := DState s (ds_serv x) (ds_lockd x).
Definition set_serv (v : option svc_serv) (x : dstate) : dstate :=
  DState (ds_server x) v (ds_lockd x).
Definition set_lockd (l : lockd) (x : dstate) : dstate := DState (ds_server x) (ds_serv x) l.
Definition in_server {B} (f : M sstate B) : M dstate B := zoom ds_server set_server f.

(** The shutdown function: the table goes, then lockd's users, one for each
    socket. *)
Definition vsnfsd_last_thread (serv : svc_serv) : M dstate unit :=
  in_server (l ← lp_list; free_nodes l);;
  modify (λ x, set_lockd (Nat.iter (sv_permsocks serv) lockd_down (ds_lockd x)) x).

Definition vsnfsd_create_serv : M dstate Z :=
  modify (set_serv svc_create_pooled);;
  x ← get;
  mret (match ds_serv x with None => - ENOMEM | Some _ => 0 end).

Definition do_create_xprt (t : transport) (port : Z) : M dstate Z :=
  x ← get;
  v ← deref (ds_serv x);
  let '(r, v) := svc_create_xprt v t port in
  put (set_serv (Some v) x);;
  mret r.
Definition do_lockd_up : M dstate Z :=
  x ← get;
  let '(r, l) := lockd_up (ds_lockd x) in
  put (set_lockd l x);;
  mret r.

Definition vsnfsd_init_socks (port : Z) : M dstate Z :=
  x ← get;
  v ← deref (ds_serv x);
  if decide (sv_permsocks v ≠ O) then mret 0 else
  error ← do_create_xprt UDP port;
  if decide (error < 0) then mret error else
  error ← do_lockd_up;
  if decide (error < 0) then mret error else
  error ← do_create_xprt TCP port;
  if decide (error < 0) then mret error else
  error ← do_lockd_up;
  if decide (error < 0) then mret error else
  mret 0.

Definition do_set_num_threads (nr : Z) : M dstate Z :=
  x ← get;
  v ← deref (ds_serv x);
  let '(r, v) := svc_set_num_threads v nr in
  put (set_serv (Some v) x);;
  mret r.

(** The last reference takes the service with it, after its shutdown
    function. *)
Definition svc_destroy : M dstate unit :=
  x ← get;
  v ← deref (ds_serv x);
  match svc_put v with
  | Some v => put (set_serv (Some v) x)
  | None => vsnfsd_last_thread v;; modify (set_serv None)
  end.

Definition vsnfsd_svc (port nrservs : Z) : M dstate Z :=
  error ← vsnfsd_create_serv;
  if decide (error ≠ 0) then mret error else
  error ← vsnfsd_init_socks port;
  error ← (if decide (error ≠ 0) then mret error else
           error ← do_set_num_threads nrservs;
           if decide (error = 0) then
             x ← get;
             v ← deref (ds_serv x);
             mret (sv_nrthreads v - 1)
           else mret error);
  svc_destroy;;
  mret error.

Definition VSNFS_NRSERVS : Z := 1.

Definition init_vsnfsd : M dstate Z :=
  vsnfsd_svc VSNFS_PORT VSNFS_NRSERVS;;
  mret 0.
Definition exit_vsnfsd : M dstate unit := mret tt.
End service.
Arguments DState {V}.

(** ** The daemon's loop

    [svc_recv] delivers a sequence of results, with a request where it is not
    negative; [process] handles one.  When the sequence ends the daemon waits
    in [svc_recv]. *)
Inductive daemon : Type := Waiting | Ended.

Section daemon.
Context {S R : Type} (process : R → M S unit).

(** [preverr] is the last error that was reported, and [log] the reports. *)
Fixpoint vsnfsd_loop (recvs : list (Z * R)) (preverr : Z) (log : list Z)
    : M S (daemon * list Z) :=
  match recvs with
  | [] => mret (Waiting, log)
  | (err, r) :: recvs =>
      if decide (err = - EAGAIN) then vsnfsd_loop recvs preverr log else
      if decide (err = - EINTR) then mret (Ended, log) else
      if decide (err < 0) then
        if decide (err ≠ preverr) then vsnfsd_loop recvs err (log ++ [- err])
        else vsnfsd_loop recvs preverr log
      else
        process r;;
        vsnfsd_loop recvs preverr log
  end.

Definition vsnfsd (unshare_fs_struct : Z) (recvs : list (Z * R)) : M S (daemon * list Z) :=
  if decide (unshare_fs_struct < 0) then mret (Ended, []) else vsnfsd_loop recvs 0 [].
End daemon.
