(* ===== verification/DispatchInv.v ===== *)
(** * DispatchInv: every dispatched request preserves the invariant

    Decoders only read, procedures preserve [inv], and encoders write to the
    reply, so the dispatcher preserves [inv] on any request whatever. *)
From Stdlib Require Import Strings.Byte.
From S2P Require Import Prelude Mem Frame CString Protocol Sunrpc Wire ServerXdr Handle VfsApi.
From S2P Require Import ServerState ServerProc ServerTable ServerSpec ServerRoot ServerFile.
From S2P Require Import ServerInv ServerSvc.

(** ** Every dispatched request preserves the invariant *)
Section dispatch_inv.
Context `{A : Arch} `{Km : Kmem} `{K : ServerKernel} `{KL : !ServerKernelLaws K}.
Context `{X : SunrpcXdr} `{XL : !SunrpcXdrLaws X}.
Context (B : list positive) (d fl : list Z) (fs : addr_limit).

(** What is needed of a procedure: the decoder only reads, its arguments point
    into pages of the request, and so does the result. *)
Record proc_safe (proc : svc_procedure) (args_ok : pc_args proc → Prop)
    (res_ok : pc_res proc → Prop) : Prop := ProcSafe {
  ps_decode rqstp p a m ok a' r' m' :
    Forall (λ q, p_blk q ∈ B) (rq_respages rqstp) →
    pc_decode proc rqstp p a m = Done ((ok, a', r'), m') →
    m' = m ∧ rq_res_head r' = rq_res_head rqstp ∧ args_ok a';
  ps_func a r :
    args_ok a →
    triple (inv B d fl fs) (pc_func proc a r) (λ x s, inv B d fl fs s ∧ res_ok x.2);
  ps_encode rqstp p r :
    res_ok r → p_blk p ∈ B →
    triple (inv B d fl fs) (in_mem (pc_encode proc rqstp p r)) (λ _, inv B d fl fs);
}.

Lemma dispatch_safe proc ao ro rqstp statp :
  proc_safe proc ao ro →
  p_blk (iov_base (rq_res_head rqstp)) ∈ B → Forall (λ q, p_blk q ∈ B) (rq_respages rqstp) →
  triple (inv B d fl fs) (vsnfsd_dispatch proc rqstp statp) (λ _, inv B d fl fs).
Proof.
  intros Hps Hhead Hpages. unfold vsnfsd_dispatch.
  eapply (triple_bind _ _ _ (λ x s, (rq_res_head x.2 = rq_res_head rqstp ∧ ao x.1.2) ∧ inv B d fl fs s)).
  { intros s [[ok a] r'] s' HP (m' & E & ->)%zoom_inv.
    apply (ps_decode _ _ _ Hps) in E as (-> & ? & ?); [|done]. by destruct s. }
  intros [[ok a] r']. simpl. apply triple_fact. intros [Hr Ha].
  apply triple_if; [intros; by apply triple_ret|intros _].
  eapply triple_bind; [by apply (ps_func _ _ _ Hps)|]. intros [err resp]. simpl.
  eapply triple_pre; [intros s [H1 H2]; exact (conj H2 H1)|]. apply triple_fact. intros Hres.
  unfold store32. eapply triple_bind; [apply triple_store; simpl; by rewrite Hr|]. intros [].
  apply triple_if; intros _; [|by apply triple_ret].
  eapply triple_bind; [apply (ps_encode _ _ _ Hps); [done|simpl; by rewrite Hr]|].
  intros [ok' r'']. apply triple_if; intros; by apply triple_ret.
Qed.
End dispatch_inv.

(** The decoders only read memory. *)
Section decoders.
Context `{A : Arch} `{X : SunrpcXdr} `{XL : !SunrpcXdrLaws X}.

Definition pure_mem {T} (f : M mem T) : Prop := ∀ m a m', f m = Done (a, m') → m' = m.

Lemma pure_bind {T U} (f : M mem T) (k : T → M mem U) :
  pure_mem f → (∀ a, pure_mem (k a)) → pure_mem (f ≫= k).
Proof. intros Hf Hk m b m' (a & m1 & E1 & E2)%bind_inv. apply Hf in E1 as ->. by eapply Hk. Qed.
Lemma pure_ret {T} (a : T) : pure_mem (mret a).
Proof. intros m b m' E. by injection E. Qed.
Lemma pure_load p n : pure_mem (load_bytes p n).
Proof. intros m x m' E. by eapply load_bytes_pure. Qed.
Lemma pure_load32 p : pure_mem (load32 p).
Proof. apply pure_bind; [apply pure_load|]. intros. apply pure_ret. Qed.
Lemma pure_lift {T} (o : outcome T) : pure_mem (lift_outcome o).
Proof. intros m a m'. destruct o; [|done]. simpl. by intros [= _ <-]. Qed.
Lemma pure_string p n : pure_mem (xdr_decode_string_inplace p n).
Proof. intros m r m' E. by eapply decode_string_pure. Qed.
Lemma pure_scan bad n p : pure_mem (scan_chars bad p n).
Proof.
  revert p. induction n as [|n IH]; intros p; simpl; [apply pure_ret|].
  apply pure_bind; [apply pure_load|]. intros c. destruct (existsb bad c); [apply pure_ret|apply IH].
Qed.

Ltac pure :=
  repeat first
    [ progress intros | apply pure_ret | apply pure_load | apply pure_load32 | apply pure_lift
    | apply pure_string | apply pure_scan | apply pure_bind | case_match ].

Lemma pure_decode_nullargs r p a : pure_mem (vsnfssvc_decode_nullargs r p a).
Proof. unfold vsnfssvc_decode_nullargs. pure. Qed.
Lemma pure_decode_getrootargs r p a : pure_mem (vsnfssvc_decode_getrootargs r p a).
Proof. unfold vsnfssvc_decode_getrootargs, decode_pathname. pure. Qed.
Lemma pure_decode_lookupargs r p a : pure_mem (vsnfssvc_decode_lookupargs r p a).
Proof. unfold vsnfssvc_decode_lookupargs, decode_fh, decode_filename. pure. Qed.
Lemma pure_decode_readdirargs r p a : pure_mem (vsnfssvc_decode_readdirargs r p a).
Proof. unfold vsnfssvc_decode_readdirargs, decode_fh. pure. Qed.
Lemma pure_decode_readargs r p a : pure_mem (vsnfssvc_decode_readargs r p a).
Proof. unfold vsnfssvc_decode_readargs, decode_fh. pure. Qed.

(** Where the buffer of READDIR and READ comes from. *)
Lemma take_respage_inv r pg r' :
  take_respage r = Done (pg, r') → pg ∈ rq_respages r ∧ rq_res_head r' = rq_res_head r.
Proof.
  unfold take_respage. case_match eqn:E; [|done]. intros [= <- <-].
  split; [|done]. by eapply list_elem_of_lookup_2.
Qed.
Lemma decode_readdirargs_page r p a m ok a' r' m' :
  vsnfssvc_decode_readdirargs r p a m = Done ((ok, a', r'), m') →
  drda_buffer a' ∈ rq_respages r ∧ rq_res_head r' = rq_res_head r.
Proof.
  unfold vsnfssvc_decode_readdirargs. intros E. apply bind_inv in E as ([p1 fh] & m1 & _ & E).
  apply bind_inv in E as (w & m2 & _ & E). apply bind_inv in E as ([pg rq] & m3 & E1 & E).
  unfold lift_outcome in E1. destruct (take_respage r) eqn:Et; [|done]. injection E1 as -> <-.
  injection E as _ <- <- _. by apply take_respage_inv in Et.
Qed.
Lemma decode_readargs_page r p a m ok a' r' m' :
  vsnfssvc_decode_readargs r p a m = Done ((ok, a', r'), m') →
  dra_buffer a' ∈ rq_respages r ∧ rq_res_head r' = rq_res_head r.
Proof.
  unfold vsnfssvc_decode_readargs. intros E. apply bind_inv in E as ([p1 fh] & m1 & _ & E).
  apply bind_inv in E as (w & m2 & _ & E). apply bind_inv in E as (w' & m4 & _ & E).
  apply bind_inv in E as ([pg rq] & m3 & E1 & E).
  unfold lift_outcome in E1. destruct (take_respage r) eqn:Et; [|done]. injection E1 as -> <-.
  injection E as _ <- <- _. by apply take_respage_inv in Et.
Qed.
End decoders.

Section table_safe.
Context `{A : Arch} `{Km : Kmem} `{K : ServerKernel} `{KL : !ServerKernelLaws K}.
Context `{X : SunrpcXdr} `{XL : !SunrpcXdrLaws X}.
Context (B : list positive) (fl : list Z) (fs : addr_limit).
Local Abbreviation safe := (proc_safe B [] fl fs).

Lemma same_rqst_inv {T} (dec : svc_rqst → ptr → T → M mem (Z * T)) r p a m ok a' r' m' :
  (∀ r p a, pure_mem (dec r p a)) →
  same_rqst dec r p a m = Done ((ok, a', r'), m') → m' = m ∧ rq_res_head r' = rq_res_head r.
Proof.
  intros Hd E. unfold same_rqst in E. apply bind_inv in E as ([ok1 a1] & m1 & E1 & E).
  injection E as <- <- <- <-. by apply Hd in E1.
Qed.

Lemma triple_encode_fhandle rqstp p r :
  p_blk p ∈ B →
  triple (inv B [] fl fs) (in_mem (vsnfssvc_encode_fhandle rqstp p r)) (λ _, inv B [] fl fs).
Proof.
  intros Hp. unfold vsnfssvc_encode_fhandle, encode_fh, store32. inv_run. minv E.
  apply bind_inv in E0 as ([] & m1 & E0 & E2). injection E2 as <- <-.
  injection E as _ <-. stores. eapply inv_mem; [done|exact Hp|]. by eapply touches_trans.
Qed.

Lemma svc_null_safe : safe svc_null (λ _, True) (λ _, True).
Proof.
  split.
  - intros rq p a m ok a' r' m' _ E. apply same_rqst_inv in E as [? ?]; [done|].
    intros. apply pure_decode_nullargs.
  - intros a r _. eapply triple_post; [|apply null_inv]. done.
  - intros rq p r _ Hp. simpl. unfold vsnfssvc_encode_nullres, store32. inv_run. minv E.
    injection E as _ <-. stores. by eapply inv_mem.
Qed.
Lemma svc_getroot_safe : safe svc_getroot (λ _, True) (λ _, True).
Proof.
  split.
  - intros rq p a m ok a' r' m' _ E. apply same_rqst_inv in E as [? ?]; [done|].
    intros. apply pure_decode_getrootargs.
  - intros a r _. eapply triple_post; [|apply getroot_inv]. done.
  - intros rq p r _ Hp. by apply triple_encode_fhandle.
Qed.
Lemma svc_lookup_safe : safe svc_lookup (λ _, True) (λ _, True).
Proof.
  split.
  - intros rq p a m ok a' r' m' _ E. apply same_rqst_inv in E as [? ?]; [done|].
    intros. apply pure_decode_lookupargs.
  - intros a r _. eapply triple_post; [|apply lookup_inv]. done.
  - intros rq p r _ Hp. by apply triple_encode_fhandle.
Qed.
Lemma svc_readdir_safe :
  safe svc_readdir (λ a, p_blk (drda_buffer a) ∈ B) (λ r, p_blk (drdr_buffer r) ∈ B).
Proof.
  split.
  - intros rq p a m ok a' r' m' Hpg E. pose proof (pure_decode_readdirargs rq p a m _ _ E).
    destruct (decode_readdirargs_page rq p a m _ _ _ _ E) as [? ?]. rewrite Forall_forall in Hpg. auto.
  - intros a r Ha. eapply triple_post; [|by apply readdir_inv].
    intros x s [? [Hb _]]. split; [done|]. simpl in *. by rewrite Hb.
  - intros rq p r Hr Hp. simpl. unfold vsnfssvc_encode_readdirres, store32. inv_run.
    destruct (xdr_ressize_check rq p). minv E. injection E as _ <-. stores.
    eapply inv_mem; [done|exact Hr|]. by eapply touches_trans.
Qed.
Lemma svc_read_safe : safe svc_read (λ a, p_blk (dra_buffer a) ∈ B) (λ _, True).
Proof.
  split.
  - intros rq p a m ok a' r' m' Hpg E. pose proof (pure_decode_readargs rq p a m _ _ E).
    destruct (decode_readargs_page rq p a m _ _ _ _ E) as [? ?]. rewrite Forall_forall in Hpg. auto.
  - intros a r Ha. eapply triple_post; [|by apply read_inv]. done.
  - intros rq p r _ Hp. simpl. unfold vsnfssvc_encode_readres, store32. inv_run. minv E.
    injection E as _ <-. stores. by eapply inv_mem.
Qed.

(** The dispatcher on any request for any procedure of the table. *)
Lemma dispatch_inv n proc rqstp statp :
  svc_proc n = Some proc →
  p_blk (iov_base (rq_res_head rqstp)) ∈ B → Forall (λ q, p_blk q ∈ B) (rq_respages rqstp) →
  triple (inv B [] fl fs) (vsnfsd_dispatch proc rqstp statp) (λ _, inv B [] fl fs).
Proof.
  intros Hn Hh Hp. unfold svc_proc, vsnfsd_procedures1 in Hn. simpl in Hn.
  repeat (case_bool_decide; [injection Hn as <-|]); try done.
  - by eapply dispatch_safe; [apply svc_null_safe|..].
  - by eapply dispatch_safe; [apply svc_getroot_safe|..].
  - by eapply dispatch_safe; [apply svc_lookup_safe|..].
  - by eapply dispatch_safe; [apply svc_readdir_safe|..].
  - by eapply dispatch_safe; [apply svc_read_safe|..].
Qed.
End table_safe.
