(* ===== verification/ServiceSpec.v ===== *)
(** * ServiceSpec: the life of the service and its invariant

    Whatever requests arrive, in whatever order, the lookup table stays well
    formed and no reference or open file is left over; the shutdown function
    frees the whole table; what happens when the service starts, and which
    requests the daemon serves. *)
From Stdlib Require Import Strings.Byte.
From S2P Require Import Prelude Mem Frame CString Protocol Sunrpc Wire ServerXdr Handle VfsApi.
From S2P Require Import ServerState ServerProc ServerTable ServerSpec ServerInv ServerSvc.
From S2P Require Import DispatchInv.

(** ** Shutdown *)
Lemma free_nodes_spec l m d fl fs rv :
  NoDup (node_blocks l) →
  (∀ n, n ∈ l → p_off (ln_self n) = 0 ∧ p_off (ln_path n) = 0 ∧
                live m (p_blk (ln_self n)) ∧ live m (p_blk (ln_path n))) →
  ∃ m', free_nodes l (SState m (Some l) d fl fs rv) = Done (tt, SState m' (Some []) d fl fs rv) ∧
        m_next m' = m_next m ∧
        ∀ b, m_blocks m' !! b = if decide (b ∈ node_blocks l) then None else m_blocks m !! b.
Proof.
  revert m. induction l as [|n l IH]; intros m Hnd Hok.
  - exists m. split_and!; [done|done|]. intros b. by rewrite decide_False by set_solver.
  - destruct (Hok n) as (O1 & O2 & L1 & L2); [left|].
    change (node_blocks (n :: l)) with (p_blk (ln_self n) :: p_blk (ln_path n) :: node_blocks l) in *.
    apply NoDup_cons in Hnd as [H1 Hnd]. apply NoDup_cons in Hnd as [H2 Hnd].
    rewrite elem_of_cons in H1.
    set (m1 := release m (ln_path n)). set (m2 := release m1 (ln_self n)).
    assert (live m1 (p_blk (ln_self n))) as L1'
      by (unfold live, m1; simpl; rewrite lookup_delete_ne by naive_solver; exact L1).
    destruct (IH m2 Hnd) as (m' & E & Hn & Hb).
    { intros n' Hn'. destruct (Hok n') as (? & ? & ? & ?); [by right|].
      destruct (node_blocks_In l n' Hn').
      assert (∀ b, b ∈ node_blocks l → live m b → live m2 b) as Hl.
      { intros b ? ?. unfold live, m2, m1. simpl. rewrite !lookup_delete_ne by naive_solver. done. }
      auto. }
    exists m'. split_and!; [|done|].
    + simpl. mem_step kfree_spec; [exact L2|done|]. fold m1.
      mem_step kfree_spec; [exact L1'|done|]. exact E.
    + intros b. rewrite Hb. unfold m2, m1. simpl. rewrite !lookup_delete.
      destruct (decide (b ∈ p_blk _ :: _)) as [Hin|Hin]; rewrite !elem_of_cons in Hin.
      * repeat case_decide; try done. naive_solver.
      * rewrite !decide_False; naive_solver.
Qed.

Lemma free_table_spec l m d fl fs rv g :
  server_rel (SState m (Some l) d fl fs rv) (Some g) →
  ∃ m', free_nodes l (SState m (Some l) d fl fs rv) = Done (tt, SState m' (Some []) d fl fs rv) ∧
        server_rel (SState m' (Some []) d fl fs rv) (Some ∅) ∧
        ∀ b, m_blocks m' !! b = if decide (b ∈ node_blocks l) then None else m_blocks m !! b.
Proof.
  intros [Hwf Hr]. simpl in *.
  destruct (free_nodes_spec l m d fl fs rv) as (m' & E & Hn & Hb); [apply Hr| |].
  { intros n Hin. destruct (tr_nodes _ _ _ Hr n Hin) as (str & _ & ? & ? & ? & Hh & _).
    apply has_bytes_live in Hh. done. }
  exists m'. split_and!; [done| |done]. split.
  - intros b. simpl. rewrite Hb, Hn. case_decide; [by intros []|apply Hwf].
  - apply table_rel_nil.
Qed.

Section shutdown.
Context `{V : SvcApi} `{VL : !SvcApiLaws V}.

(** C18: When the last thread goes, the shutdown function frees exactly the
    blocks of the lookup table, each once: every node and every path.  All
    other memory, references and files are untouched, the table is empty, and
    lockd loses one user for each socket of the service. *)
Theorem last_thread_frees_table s g serv v lk :
  server_rel s (Some g) →
  ∃ s' lk', vsnfsd_last_thread serv (DState s v lk) = Done (tt, DState s' v lk') ∧
    server_rel s' (Some ∅) ∧ s_tab s' = Some [] ∧
    (∀ b, m_blocks (s_mem s') !! b =
          if decide (b ∈ table_blocks s) then None else m_blocks (s_mem s) !! b) ∧
    s_drefs s' = s_drefs s ∧ s_files s' = s_files s ∧
    lockd_users lk' = lockd_users lk - Z.of_nat (sv_permsocks serv).
Proof using VL.
  intros Hrel. destruct s as [m [l|] d fl fs rv]; [|by destruct Hrel].
  destruct (free_table_spec l m d fl fs rv g Hrel) as (m' & E & Hrel' & Hb).
  eexists (SState m' (Some []) d fl fs rv), _. split_and!; [|exact Hrel'|done|exact Hb|done|done|].
  - unfold vsnfsd_last_thread. mstep zoom_Done; [|done]. mrun. exact E.
  - simpl. induction (sv_permsocks serv) as [|k IH]; simpl; [lia|]. rewrite lockd_down_spec, IH. lia.
Qed.
End shutdown.

(** ** Reachable states *)
Section reachable.
Context `{A : Arch} `{Km : Kmem} `{K : ServerKernel} `{KL : !ServerKernelLaws K}.
Context `{X : SunrpcXdr} `{XL : !SunrpcXdrLaws X}.

(** The blocks of a request that a reply is built in. *)
Definition reply_blocks (rqstp : svc_rqst) : list positive :=
  p_blk (iov_base (rq_res_head rqstp)) :: (p_blk <$> rq_respages rqstp).

(** One step of the server: a request is served; the rest of the kernel uses
    memory that is not the table's; the table is freed. *)
Inductive service_step (s : sstate) : sstate → Prop :=
  | step_serve n proc rqstp statp r s' :
      svc_proc n = Some proc →
      (∀ b, b ∈ reply_blocks rqstp → (b < m_next (s_mem s))%positive ∧ (b ∉ table_blocks s)) →
      vsnfsd_dispatch proc rqstp statp s = Done (r, s') →
      service_step s s'
  | step_kernel m' :
      (∀ b, b ∈ table_blocks s → m_blocks m' !! b = m_blocks (s_mem s) !! b) →
      mem_wf m' → service_step s (set_mem m' s)
  | step_shutdown s' :
      (l ← lp_list; free_nodes l) s = Done (tt, s') →
      service_step s s'.

(** The module has just been loaded. *)
Definition boot (s : sstate) : Prop :=
  mem_wf (s_mem s) ∧ s_tab s = None ∧ s_drefs s = [] ∧ s_files s = [] ∧ s_fs s = USER_DS.

Lemma service_step_inv s s' : inv [] [] [] USER_DS s → service_step s s' → inv [] [] [] USER_DS s'.
Proof using A Km K KL X XL.
  intros HP [n proc rqstp statp r s1 Hn Hb E|m' Hm Hwf|s1 E].
  - eapply inv_weaken; [|eapply (dispatch_inv (reply_blocks rqstp)); [exact Hn| | | |exact E]].
    + set_solver.
    + left.
    + apply Forall_forall. intros q Hq. right. apply list_elem_of_fmap. eauto.
    + destruct HP. by split.
  - destruct HP as [[T [_ Hr]] _ Hd Hf Hfs]. destruct s as [m t d fl fs rv]. simpl in *.
    split; try done; [|set_solver]. exists T. split; [done|].
    destruct t as [l|], T as [g|]; try done. simpl in *.
    unfold table_blocks in Hm. simpl in Hm.
    split; [|apply Hr..]. intros nd Hin. destruct (node_blocks_In l nd Hin).
    destruct (tr_nodes _ _ _ Hr nd Hin) as (str & Hg & H1 & H2 & H3 & H4 & H5).
    exists str. unfold node_ok, has_bytes, mem_block in *. by rewrite !Hm.
  - destruct HP as [[T Hrel] _ Hd Hf Hfs]. destruct s as [m t d fl fs rv]. simpl in *. subst.
    destruct t as [l|]; [|done]. destruct T as [g|]; [|by destruct Hrel].
    destruct (free_table_spec _ _ _ _ _ _ _ Hrel) as (m' & E' & Hrel' & _).
    assert (s1 = SState m' (Some []) [] [] USER_DS rv) as ->.
    { rewrite bind_lp_list in E. rewrite E in E'. by injection E'. }
    split; try done; [|set_solver]. eauto.
Qed.

(** C17: In every state the server can reach from its start, by any sequence of
    requests, valid or not, with any allocations failing and any other use of
    kernel memory in between, the lookup table is a well-formed list with
    distinct inodes and blocks and terminated paths, the server holds no
    reference and no open file, and the thread is not left with the kernel's
    address limit. *)
Theorem reachable_well_formed s0 s :
  boot s0 → rtc service_step s0 s →
  (∃ T, server_rel s T) ∧ s_drefs s = [] ∧ s_files s = [] ∧ s_fs s = USER_DS.
Proof using A Km K KL X XL.
  intros (Hwf & Ht & Hd & Hf & Hfs) Hsteps.
  assert (inv [] [] [] USER_DS s) as [? _ ? ? ?]; [|done].
  assert (inv [] [] [] USER_DS s0) as H0.
  { split; try done; [|set_solver]. exists None. split; [done|]. by rewrite Ht. }
  clear Hwf Ht Hd Hf Hfs. induction Hsteps as [x|x y z Hstep Hsteps IH]; [done|].
  apply IH. by eapply service_step_inv.
Qed.
End reachable.

(** ** Starting the service *)
Section start.
Context `{V : SvcApi} `{VL : !SvcApiLaws V}.

Lemma create_xprt_run s v l t port :
  ∃ v', v' = (svc_create_xprt v t port).2 ∧
        do_create_xprt t port (DState s (Some v) l) =
          Done ((svc_create_xprt v t port).1, DState s (Some v') l) ∧
        sv_nrthreads v' = sv_nrthreads v ∧
        sv_permsocks v' = if decide ((svc_create_xprt v t port).1 < 0) then sv_permsocks v
                          else S (sv_permsocks v).
Proof.
  unfold do_create_xprt. pose proof (create_xprt_spec v t port) as H. mrun. simpl. mrun.
  destruct (svc_create_xprt v t port) as [r v']. exists v'.
  split; [reflexivity|split; [reflexivity|exact H]].
Qed.
Lemma lockd_up_run s v l :
  ∃ l', l' = (lockd_up l).2 ∧
        do_lockd_up (DState s v l) = Done ((lockd_up l).1, DState s v l') ∧ (lockd_up l).1 ≤ 0 ∧
        lockd_users l' = if decide ((lockd_up l).1 < 0) then lockd_users l else lockd_users l + 1.
Proof.
  unfold do_lockd_up. pose proof (lockd_up_spec l) as H. mrun. simpl. mrun.
  destruct (lockd_up l) as [r l']. exists l'.
  split; [reflexivity|split; [reflexivity|exact H]].
Qed.

(** One of the four things [vsnfsd_init_socks] needs for a new service fails: a
    UDP socket, lockd, a TCP socket, lockd again. *)
Definition socks_fail v l port : Prop :=
  let '(udp, v1) := svc_create_xprt v UDP port in
  let '(up1, l1) := lockd_up l in
  let '(tcp, v2) := svc_create_xprt v1 TCP port in
  let '(up2, l2) := lockd_up l1 in
  udp < 0 ∨ up1 < 0 ∨ tcp < 0 ∨ up2 < 0.

(** What [vsnfsd_init_socks] does to a new service: on success two sockets and
    as many users of lockd; on failure a negative error. *)
Lemma init_socks_run s v l port :
  sv_permsocks v = O →
  ∃ r v' l', vsnfsd_init_socks port (DState s (Some v) l) = Done (r, DState s (Some v') l') ∧
    sv_nrthreads v' = sv_nrthreads v ∧ r ≤ 0 ∧
    (r = 0 → sv_permsocks v' = 2%nat ∧ lockd_users l' = lockd_users l + 2) ∧
    ((∀ v t, 0 ≤ (svc_create_xprt v t port).1) → (∀ l, (lockd_up l).1 = 0) → r = 0) ∧
    (socks_fail v l port → r < 0).
Proof using VL.
  intros Hs.
  destruct (create_xprt_run s v l UDP port) as (v1 & V1 & E1 & N1 & S1).
  destruct (lockd_up_run s (Some v1) l) as (l1 & L1 & E2 & R2 & U1).
  destruct (create_xprt_run s v1 l1 TCP port) as (v2 & V2 & E3 & N2 & S2).
  destruct (lockd_up_run s (Some v2) l1) as (l2 & L2 & E4 & R4 & U2).
  set (r1 := (svc_create_xprt v UDP port).1) in *. set (r2 := (lockd_up l).1) in *.
  set (r3 := (svc_create_xprt v1 TCP port).1) in *. set (r4 := (lockd_up l1).1) in *.
  assert (socks_fail v l port → r1 < 0 ∨ r2 < 0 ∨ r3 < 0 ∨ r4 < 0) as HF.
  { unfold r1, r2, r3, r4, socks_fail. subst v1 l1. clear.
    destruct (svc_create_xprt v UDP port) as [? w1]. destruct (lockd_up l) as [? k1]. simpl.
    by destruct (svc_create_xprt w1 TCP port), (lockd_up k1). }
  assert ((∀ v t, 0 ≤ (svc_create_xprt v t port).1) → 0 ≤ r1 ∧ 0 ≤ r3) as HX
    by (intros HX; split; apply HX).
  assert ((∀ l, (lockd_up l).1 = 0) → r2 = 0 ∧ r4 = 0) as HL by (intros HL; split; apply HL).
  unfold vsnfsd_init_socks.
  destruct (decide (r1 < 0)); [eexists r1, v1, l; split; [|naive_solver lia]|].
  { mrun. simpl. mrun. rewrite Hs, decide_False by auto. mstep E1. by rewrite decide_True. }
  destruct (decide (r2 < 0)); [eexists r2, v1, l1; split; [|naive_solver lia]|].
  { mrun. simpl. mrun. rewrite Hs, decide_False by auto. mstep E1. rewrite decide_False by done.
    mstep E2. by rewrite decide_True. }
  destruct (decide (r3 < 0)); [eexists r3, v2, l1; split; [|naive_solver lia]|].
  { mrun. simpl. mrun. rewrite Hs, decide_False by auto. mstep E1. rewrite decide_False by done.
    mstep E2. rewrite decide_False by done. mstep E3. by rewrite decide_True. }
  exists r4, v2, l2. split; [|split_and!; [lia|lia| |naive_solver|intros [?|[?|[?|?]]]%HF; lia]].
  2:{ intros. rewrite decide_False in U2 by lia. lia. }
  mrun. simpl. mrun. rewrite Hs, decide_False by auto. mstep E1. rewrite decide_False by done.
  mstep E2. rewrite decide_False by done. mstep E3. rewrite decide_False by done. mstep E4.
  case_decide; [done|]. by replace r4 with 0 by lia.
Qed.

Lemma svc_destroy_last s v l :
  s_tab s = None → sv_nrthreads v = 1 → svc_destroy (DState s (Some v) l) = Oops NullDeref.
Proof using VL.
  intros Ht Hn. unfold svc_destroy. mrun. simpl. mrun. rewrite put_last by done.
  destruct s as [m t d fl fs rv]. simpl in Ht. by subst t.
Qed.

(** Starting the service when the RPC layer and lockd cooperate: the
    number of threads is returned, the creator's own reference is given up, and
    the two sockets are registered with lockd. *)
Theorem svc_start_ok s serv0 l port nrservs v :
  svc_create_pooled = Some v → 1 ≤ nrservs →
  (∀ v' t, 0 ≤ (svc_create_xprt v' t port).1) → (∀ l', (lockd_up l').1 = 0) →
  (∀ v', (svc_set_num_threads v' nrservs).1 = 0) →
  ∃ v' l', vsnfsd_svc port nrservs (DState s serv0 l) = Done (nrservs, DState s (Some v') l') ∧
    sv_nrthreads v' = nrservs ∧ sv_permsocks v' = 2%nat ∧ lockd_users l' = lockd_users l + 2.
Proof using VL.
  intros Hc Hnr Hx Hl Hth. destruct (create_pooled_spec v Hc) as [N0 S0].
  destruct (init_socks_run s v l port S0) as (r & v1 & l1 & E1 & N1 & R1 & H1 & H2 & _).
  assert (r = 0) as -> by auto. destruct (H1 eq_refl) as [S1 U1].
  pose proof (set_num_threads_spec v1 nrservs) as Ht. specialize (Hth v1).
  destruct (svc_set_num_threads v1 nrservs) as [r2 v2] eqn:E2. simpl in Hth. subst r2.
  destruct Ht as (_ & S2 & N2). specialize (N2 eq_refl).
  destruct (put_other v2) as (v3 & E3 & N3 & S3); [lia|].
  exists v3, l1. split; [|split_and!; [lia|congruence|done]].
  unfold vsnfsd_svc, vsnfsd_create_serv. mrun. simpl. rewrite Hc. mrun.
  rewrite decide_False by auto. mstep E1. rewrite decide_False by auto.
  unfold do_set_num_threads. mrun. simpl. mrun. rewrite E2. mrun. rewrite decide_True by done.
  mrun. simpl. mrun. unfold svc_destroy. mrun. simpl. mrun. rewrite E3. mrun.
  repeat f_equal. lia.
Qed.

(** C33: When a socket cannot be created, for instance because the port is in
    use, or lockd cannot be started, loading the server module is a NULL
    dereference: the service is destroyed again, and its shutdown function walks
    the lookup table, whose head is initialised by the first GETROOT only.
    This is so whichever of the two sockets, UDP and TCP, and of the two starts
    of lockd it is that fails. *)
Theorem svc_start_failure_faults s serv0 l v :
  svc_create_pooled = Some v → s_tab s = None → socks_fail v l VSNFS_PORT →
  init_vsnfsd (DState s serv0 l) = Oops NullDeref.
Proof using VL.
  intros Hc Ht Hx. destruct (create_pooled_spec v Hc) as [N0 S0].
  destruct (init_socks_run s v l VSNFS_PORT S0) as (r & v1 & l1 & E1 & N1 & R1 & _ & _ & H3).
  specialize (H3 Hx). unfold init_vsnfsd, vsnfsd_svc, vsnfsd_create_serv. mrun. simpl. rewrite Hc.
  mrun. rewrite decide_False by auto. mstep E1. rewrite decide_True by lia. mrun.
  mstep svc_destroy_last; [done|lia|]. done.
Qed.
End start.

(** ** The daemon *)
Section daemon.
Context {S R : Type} (process : R → M S unit).

(** The results of [svc_recv] the daemon sees: up to the first interrupt. *)
Fixpoint until_interrupt (recvs : list (Z * R)) : list (Z * R) :=
  match recvs with
  | [] => []
  | (err, r) :: recvs => if decide (err = - EINTR) then [] else (err, r) :: until_interrupt recvs
  end.
(** The requests among them. *)
Definition served (recvs : list (Z * R)) : list R :=
  snd <$> filter (λ x, 0 ≤ x.1) (until_interrupt recvs).
Fixpoint run_all (rs : list R) : M S unit :=
  match rs with [] => mret tt | r :: rs => process r;; run_all rs end.

Lemma served_cons err r recvs :
  served ((err, r) :: recvs) =
    if decide (err = - EINTR) then [] else
    if decide (0 ≤ err) then r :: served recvs else served recvs.
Proof.
  unfold served. cbn [until_interrupt]. case_decide; [done|].
  destruct (decide (0 ≤ err)).
  - by rewrite filter_cons_True.
  - by rewrite filter_cons_False.
Qed.
(** How the daemon's loop ends. *)
Definition outcome_of (recvs : list (Z * R)) : daemon :=
  if decide (- EINTR ∈ recvs.*1) then Ended else Waiting.
Lemma outcome_of_cons err r recvs :
  outcome_of ((err, r) :: recvs) = if decide (err = - EINTR) then Ended else outcome_of recvs.
Proof.
  unfold outcome_of. rewrite fmap_cons. cbn [fst].
  destruct (decide (err = - EINTR)) as [->|Hne].
  - by rewrite decide_True by left.
  - destruct (decide (- EINTR ∈ recvs.*1)).
    + by rewrite decide_True by by right.
    + rewrite decide_False; [done|]. rewrite elem_of_cons. naive_solver.
Qed.

Lemma loop_serves recvs preverr log s :
  ∃ log', vsnfsd_loop process recvs preverr log s =
    (run_all (served recvs);; mret (outcome_of recvs, log')) s.
Proof.
  revert preverr log s. induction recvs as [|[err r] recvs IH]; intros preverr log s.
  { exists log. reflexivity. }
  rewrite served_cons, outcome_of_cons. cbn [vsnfsd_loop].
  destruct (decide (err = - EAGAIN)) as [->|H1].
  { rewrite !(decide_False (P := - EAGAIN = - EINTR)) by done.
    rewrite (decide_False (P := 0 ≤ - EAGAIN)) by by vm_compute. apply IH. }
  destruct (decide (err = - EINTR)) as [H2|H2]; [by exists log|].
  destruct (decide (err < 0)).
  { rewrite (decide_False (P := 0 ≤ err)) by lia. case_decide; apply IH. }
  rewrite (decide_True (P := 0 ≤ err)) by lia. destruct (process r s) as [[[] s1]|e] eqn:E.
  - destruct (IH preverr log s1) as [log' Hl]. exists log'. cbn [run_all].
    mstep E. rewrite Hl. symmetry. by mstep E.
  - exists log. cbn [run_all]. mstep E. symmetry. by mstep E.
Qed.

(** C28: The daemon serves exactly the requests received before the first
    interrupt, each once and in order, whatever errors and retries lie between
    them; it ends if there was an interrupt and waits otherwise. *)
Theorem daemon_serves recvs s :
  ∃ log, vsnfsd process 0 recvs s =
    (run_all (served recvs);;
     mret (if decide (- EINTR ∈ recvs.*1) then Ended else Waiting, log)) s.
Proof. exact (loop_serves recvs 0 [] s). Qed.
End daemon.

(** ** The store for arguments and results *)
Section store.
Context `{A : Arch} `{Km : Kmem} `{K : ServerKernel} `{X : SunrpcXdr}.

(** C29: The store that the RPC layer sets aside is large enough for the
    arguments and the result of every procedure, except for READ's arguments on
    a 32-bit machine, which the union that gives its size leaves out: there 24
    bytes go into 20. *)
Theorem xdr_store_size n proc :
  svc_proc n = Some proc →
  pc_ressize proc ≤ VSNFS_SVC_XDRSIZE ∧
  (pc_argsize proc ≤ VSNFS_SVC_XDRSIZE ↔ n ≠ VSNFSPROC_READ ∨ long_bits = 64).
Proof.
  assert (sizeof_readargs ≤ VSNFS_SVC_XDRSIZE ↔ long_bits = 64) as Hr.
  { unfold sizeof_readargs, VSNFS_SVC_XDRSIZE, sizeof_nullargs, sizeof_getrootargs,
      sizeof_lookupargs, sizeof_readdirargs, c_ptr.
    destruct long_bits_ok as [-> | ->]; by vm_compute. }
  assert (Forall (λ z, z ≤ VSNFS_SVC_XDRSIZE)
    [sizeof_nullargs; sizeof_getrootargs; sizeof_lookupargs; sizeof_readdirargs;
     sizeof_nullres; sizeof_vsnfs_fh; sizeof_readdirres; sizeof_readres]) as Hz.
  { unfold sizeof_nullargs, VSNFS_SVC_XDRSIZE, sizeof_getrootargs, sizeof_lookupargs,
      sizeof_readdirargs, sizeof_nullres, sizeof_readdirres, sizeof_readres, c_ptr.
    destruct long_bits_ok as [-> | ->]; by_eval. }
  rewrite !Forall_cons in Hz. destruct Hz as (? & ? & ? & ? & ? & ? & ? & ? & _).
  intros Hn. unfold svc_proc, vsnfsd_procedures1 in Hn. cbn [find fst] in Hn.
  repeat (case_bool_decide as Hd; [injection Hn as <-; subst n|clear Hd]); try done; split;
    cbn [pc_ressize pc_argsize svc_null svc_getroot svc_lookup svc_readdir svc_read]; try done.
  1-4: split; [by left|done].
  rewrite Hr. naive_solver.
Qed.
End store.

(** ** Examples *)
(** An RPC layer whose sockets get the result [xprt]. *)
Definition svc_ref (xprt : transport → Z) : SvcApi := {|
  svc_serv := Z * nat;
  lockd := Z;
  sv_nrthreads v := v.1;
  sv_permsocks v := v.2;
  lockd_users l := l;
  svc_create_pooled := Some (1, O);
  svc_create_xprt v t _ := (xprt t, if decide (xprt t < 0) then v else (v.1, S v.2));
  lockd_up l := (0, l + 1);
  lockd_down l := l - 1;
  svc_set_num_threads v n := (0, (v.1 + n, v.2));
  svc_put v := if decide (v.1 = 1) then None else Some (v.1 - 1, v.2);
|}.
#[export] Instance svc_ref_laws xprt : SvcApiLaws (svc_ref xprt).
Proof.
  split; simpl; try done.
  - by intros v [= <-].
  - intros v t _. by case_decide.
  - intros v Hv. by rewrite decide_True.
  - intros v Hv. rewrite decide_False by lia. eauto.
Qed.

Lemma last_thread_frees_table_witness :
  ∃ s' lk', vsnfsd_last_thread (V := svc_ref (λ _, 1)) (1, 2%nat) (DState (V := svc_ref (λ _, 1)) ex_server None 2) =
      Done (tt, DState (V := svc_ref (λ _, 1)) s' None lk') ∧
    server_rel s' (Some ∅) ∧ s_tab s' = Some [] ∧
    (∀ b, m_blocks (s_mem s') !! b =
          if decide (b ∈ [10; 11]%positive) then None else m_blocks ex_smem !! b) ∧
    s_drefs s' = [] ∧ s_files s' = [] ∧ lk' = 0.
Proof.
  exact (last_thread_frees_table (V := svc_ref (λ _, 1)) ex_server ex_table (1, 2%nat) None 2 ex_server_rel).
Defined.

Lemma svc_start_ok_witness :
  ∃ v' l', vsnfsd_svc (V := svc_ref (λ _, 0)) 6789 1 (DState (V := svc_ref (λ _, 0)) ex_server None 0) =
      Done (1, DState (V := svc_ref (λ _, 0)) ex_server (Some v') l') ∧
    v'.1 = 1 ∧ v'.2 = 2%nat ∧ l' = 0 + 2.
Proof.
  exact (svc_start_ok (V := svc_ref (λ _, 0)) ex_server None 0 6789 1 (1, O) eq_refl ltac:(lia)
    (λ _ _, ltac:(simpl; lia)) (λ _, eq_refl) (λ _, eq_refl)).
Defined.

(** Another service has the TCP port. *)
Definition ex_no_tcp (t : transport) : Z := match t with UDP => 1 | TCP => -98 end.
Lemma svc_start_failure_faults_witness :
  init_vsnfsd (V := svc_ref ex_no_tcp)
    (DState (V := svc_ref ex_no_tcp) (SState ex_smem None [] [] USER_DS 0) None 0) = Oops NullDeref.
Proof.
  exact (svc_start_failure_faults (V := svc_ref ex_no_tcp) (SState ex_smem None [] [] USER_DS 0) None 0
    (1, O) eq_refl eq_refl ltac:(right; right; left; simpl; lia)).
Defined.

Lemma xdr_store_size_witness :
  let V := VSNFS_SVC_XDRSIZE (A := x86_32) in
  sizeof_readres (A := x86_32) ≤ V ∧
  (sizeof_readargs (A := x86_32) ≤ V ↔ VSNFSPROC_READ ≠ VSNFSPROC_READ ∨ 32 = 64).
Proof.
  exact (xdr_store_size (A := x86_32) (Km := kmem_ref []) (K := ex_kernel)
    (X := sunrpc_ref (H := x86_32)) VSNFSPROC_READ _ eq_refl).
Defined.

(** A server that has just started serves a GETROOT. *)
Definition ex_boot : sstate :=
  SState (mem_of [(20%positive, wire_getroot [x2f; x61]); (21%positive, zeros 64)])
    None [] [] USER_DS 0.
Definition ex_boot_rqst : svc_rqst :=
  SvcRqst (Kvec (Ptr 20 0) 8) (Kvec (Ptr 21 0) 24) [] 0 0.

Lemma reachable_well_formed_witness :
  ∃ s, rtc (service_step (A := x86_64) (Km := kmem_ref []) (K := ex_kernel)
              (X := sunrpc_ref (H := x86_64))) ex_boot s ∧
    (∃ l, s_tab s = Some l ∧ length l = 1%nat) ∧
    (∃ T, server_rel s T) ∧ s_drefs s = [] ∧ s_files s = [] ∧ s_fs s = USER_DS.
Proof.
  eassert (service_step (A := x86_64) (Km := kmem_ref []) (K := ex_kernel)
    (X := sunrpc_ref (H := x86_64)) ex_boot _) as Hstep.
  { eapply (step_serve _ VSNFSPROC_GETROOT _ ex_boot_rqst 0); [reflexivity| |vm_compute; reflexivity].
    intros b ->%list_elem_of_singleton. split; [by vm_compute|set_solver]. }
  eexists. split; [eapply rtc_l; [exact Hstep|apply rtc_refl]|].
  split; [eexists; split; [reflexivity|reflexivity]|].
  eapply (reachable_well_formed (A := x86_64) (Km := kmem_ref []) (K := ex_kernel)
    (X := sunrpc_ref (H := x86_64)) ex_boot).
  - split_and!; [apply mem_of_wf; repeat constructor|done..].
  - eapply rtc_l; [exact Hstep|apply rtc_refl].
Defined.
