(* ===== verification/Dispatch.v ===== *)
(** * Dispatch: requests and replies on the wire

    The dispatcher from the bytes of a call to the bytes of its reply: what it
    answers to LOOKUP, GETROOT and NULL, to arguments it cannot decode, and
    when a procedure fails. *)
From Stdlib Require Import Strings.Byte.
From S2P Require Import Prelude Mem Frame CString Protocol Sunrpc Wire ServerXdr Handle VfsApi.
From S2P Require Import ServerState ServerProc ServerTable ServerSpec ServerRoot ServerSvc.

Section dispatch.
Context `{A : Arch} `{Km : Kmem} `{K : ServerKernel} `{KL : !ServerKernelLaws K}.
Context `{X : SunrpcXdr} `{XL : !SunrpcXdrLaws X}.

(** Where the reply to a request goes. *)
Definition reply_at (rqstp : svc_rqst) : ptr :=
  iov_base (rq_res_head rqstp) +p iov_len (rq_res_head rqstp).

(** The request once the status word has been reserved. *)
Definition status_reserved (rqstp : svc_rqst) : svc_rqst :=
  set_res_head rqstp (Kvec (iov_base (rq_res_head rqstp)) (iov_len (rq_res_head rqstp) + 4)).

Lemma dispatch_garbage proc rqstp statp s a r' :
  pc_decode proc rqstp (iov_base (rq_arg_head rqstp)) (pc_args0 proc) (s_mem s) =
    Done ((0, a, r'), s_mem s) →
  vsnfsd_dispatch proc rqstp statp s = Done ((1, r', rpc_garbage_args), s).
Proof.
  intros E. destruct s. unfold vsnfsd_dispatch. mem_step E. reflexivity.
Qed.

(** The status word of a reply, and the result after a status of zero. *)
Lemma dispatch_run proc rqstp statp s a r' err resp s1 :
  pc_decode proc rqstp (iov_base (rq_arg_head rqstp)) (pc_args0 proc) (s_mem s) =
    Done ((1, a, r'), s_mem s) →
  pc_func proc a (pc_res0 proc) s = Done ((err, resp), s1) →
  in_bounds (s_mem s1) (reply_at r') 4 →
  let s2 := set_mem (upd (s_mem s1) (reply_at r') (native32 err)) s1 in
  vsnfsd_dispatch proc rqstp statp s =
    if decide (err = 0) then
      ('(ok, rq) ← in_mem (pc_encode proc (status_reserved r') (reply_at r' +p 4) resp);
       if decide (ok = 0) then mret (1, rq, rpc_system_err) else mret (1, rq, statp)) s2
    else Done ((1, status_reserved r', statp), s2).
Proof.
  intros E1 E2 Hb s2. destruct s as [m0 t0 d0 fl0 fs0 rv0]. simpl in E1.
  unfold vsnfsd_dispatch. mem_step E1. cbv beta iota. rewrite (decide_False (P := 1 = 0)) by done. mstep E2.
  destruct s1 as [m t d fl fs rv]. simpl in Hb. unfold store32.
  mem_step store_bytes_spec; [rewrite zlen_native32; exact Hb|]. cbv beta iota. fold (reply_at r'). by case_decide.
Qed.

Lemma clean_has_bytes D s s1 p x :
  clean_but D s s1 → p_blk p ∉ D → has_bytes (s_mem s) p x → has_bytes (s_mem s1) p x.
Proof.
  intros Hc Hp Hh. unfold has_bytes, mem_block in *. rewrite (cl_frame _ _ _ Hc); [done|done|].
  by eapply has_bytes_live.
Qed.
Lemma clean_bounds D s s1 p n :
  clean_but D s s1 → p_blk p ∉ D → in_bounds (s_mem s) p n → in_bounds (s_mem s1) p n.
Proof.
  intros Hc Hp Hh. unfold in_bounds, mem_block in *. rewrite (cl_frame _ _ _ Hc); [done|done|].
  by eapply in_bounds_live.
Qed.

(** A reply that carries a handle. *)
Section handle_reply.
Context (proc : svc_procedure) (rqstp : svc_rqst) (statp : Z) (s : sstate).
Context (Hout : p_blk (reply_at rqstp) ∉ table_blocks s).
Context (Hlen : iov_len (rq_res_head rqstp) + 16 ≤ PAGE_SIZE).
Context (Hroom : in_bounds (s_mem s) (reply_at rqstp) 16).

(** Writing the reply after a clean run keeps the state right. *)
Lemma reply_written s1 T p x :
  clean s s1 → server_rel s1 T → p_blk p = p_blk (reply_at rqstp) → in_bounds (s_mem s1) p (zlen x) →
  let s2 := set_mem (upd (s_mem s1) p x) s1 in
  server_rel s2 T ∧ clean_but [p_blk (reply_at rqstp)] s s2.
Proof using A K KL Hlen Hout Hroom.
  intros Hc Hr Hp Hb s2. pose proof (touches_upd _ _ _ Hb) as Ht. rewrite Hp in Ht.
  eapply write_clean; [done|done|by eapply in_bounds_live|done|done].
Qed.

Lemma handle_reply a resp fh s1 T :
  pc_decode proc rqstp (iov_base (rq_arg_head rqstp)) (pc_args0 proc) (s_mem s) =
    Done ((1, a, rqstp), s_mem s) →
  pc_func proc a (pc_res0 proc) s = Done ((vsnfserr VSNFS_OK, resp), s1) →
  (∀ rq p, pc_encode proc rq p resp = vsnfssvc_encode_fhandle rq p fh) → fh_wf fh →
  server_rel s1 T → clean s s1 →
  ∃ s' rq', vsnfsd_dispatch proc rqstp statp s = Done ((1, rq', statp), s') ∧
    server_rel s' T ∧ clean_but [p_blk (reply_at rqstp)] s s' ∧
    has_bytes (s_mem s') (reply_at rqstp) (wire_reply 0 (wire_fh fh)) ∧
    iov_len (rq_res_head rq') = iov_len (rq_res_head rqstp) + 16 ∧
    rq_page_len rq' = rq_page_len rqstp.
Proof using A Km K KL X XL Hout Hlen Hroom.
  intros E1 E2 Henc Hfh Hrel Hc.
  pose proof (clean_bounds _ _ _ _ _ Hc (not_elem_of_nil _) Hroom) as B1. set (p := reply_at rqstp) in *.
  set (x := wire_reply 0 (wire_fh fh)).
  assert (zlen x = 16) as Hx by (unfold x, wire_reply; rewrite zlen_app, zlen_wire_fh; done).
  assert (in_bounds (s_mem s1) p (zlen x)) as Bx by by rewrite Hx.
  destruct (reply_written s1 T p x Hc Hrel eq_refl Bx) as [Hrel' Hcl'].
  eexists _, _. split; [|split_and!; [exact Hrel'|exact Hcl'|by apply has_bytes_upd| |]].
  - rewrite (dispatch_run _ _ _ _ _ _ _ _ _ E1 E2) by (fold p; solve_bounds). fold p.
    rewrite vsnfserr_OK, decide_True by done. rewrite Henc. destruct s1 as [m1 t d fl fs rv].
    unfold set_mem. simpl. simpl in B1, Bx.
    rewrite native32_0.
    mem_step encode_fhandle_spec; [done|solve_bounds|].
    rewrite ressize_check_spec by done. cbv beta iota zeta.
    rewrite (decide_True (P := _ ≤ PAGE_SIZE)) by (unfold p, reply_at; simpl; lia). cbv beta iota.
    rewrite decide_False by done.
    rewrite upd_upd_at; [reflexivity|done|]. by rewrite <-zlen_app.
  - unfold p, reply_at. simpl. lia.
  - done.
Qed.

(** A reply that is a status. *)
Lemma status_reply D a r' err resp s1 T :
  pc_decode proc rqstp (iov_base (rq_arg_head rqstp)) (pc_args0 proc) (s_mem s) =
    Done ((1, a, r'), s_mem s) →
  rq_res_head r' = rq_res_head rqstp → rq_page_len r' = rq_page_len rqstp →
  pc_func proc a (pc_res0 proc) s = Done ((err, resp), s1) → err ≠ 0 →
  server_rel s1 T → clean_but D s s1 → p_blk (reply_at rqstp) ∉ D →
  ∃ s' rq', vsnfsd_dispatch proc rqstp statp s = Done ((1, rq', statp), s') ∧
    server_rel s' T ∧ clean_but (p_blk (reply_at rqstp) :: D) s s' ∧
    has_bytes (s_mem s') (reply_at rqstp) (native32 err) ∧
    iov_len (rq_res_head rq') = iov_len (rq_res_head rqstp) + 4 ∧
    rq_page_len rq' = rq_page_len rqstp.
Proof using A Km K KL X XL Hout Hroom.
  intros E1 Hh Hpl E2 He Hrel Hc HD. pose proof (clean_bounds _ _ _ _ _ Hc HD Hroom) as B1.
  assert (in_bounds (s_mem s1) (reply_at rqstp) 4) as B4 by solve_bounds.
  rewrite <-(zlen_native32 err) in B4. pose proof (touches_upd _ _ _ B4) as Ht.
  destruct (write_clean D _ s s1 T _ Hc Hrel (in_bounds_live _ _ _ Hroom) Hout Ht) as [Hr' Hc'].
  assert (reply_at r' = reply_at rqstp) as Er by (unfold reply_at; by rewrite Hh).
  eexists _, _. split; [|split_and!; [exact Hr'|exact Hc'|by apply has_bytes_upd| |]].
  - rewrite zlen_native32 in B4.
    rewrite (dispatch_run _ _ _ _ _ _ _ _ _ E1 E2) by (by rewrite Er). rewrite Er.
    by rewrite decide_False.
  - simpl. by rewrite Hh.
  - exact Hpl.
Qed.
End handle_reply.

(** A procedure that faults. *)
Lemma dispatch_fault proc rqstp statp s a r' e :
  pc_decode proc rqstp (iov_base (rq_arg_head rqstp)) (pc_args0 proc) (s_mem s) =
    Done ((1, a, r'), s_mem s) →
  pc_func proc a (pc_res0 proc) s = Oops e → vsnfsd_dispatch proc rqstp statp s = Oops e.
Proof.
  intros E1 E2. destruct s as [m0 t0 d0 fl0 fs0 rv0]. simpl in E1.
  unfold vsnfsd_dispatch. mem_step E1. cbv beta iota. rewrite (decide_False (P := 1 = 0)) by done.
  by apply bind_Oops.
Qed.

Lemma reply_fh_wf resp i : fh_wf resp → fh_wf (reply_fh resp i).
Proof.
  intros [Hd Ht]. split; simpl.
  - unfold ino_data. rewrite zlen_snprintf_ld; [done|]. rewrite Hd. by vm_compute.
  - repeat case_match; done.
Qed.
Lemma fh_zero_wf : fh_wf fh_zero.
Proof. by_eval. Qed.

(** A request whose reply has room, in a block that is not the table's. *)
Record room_for_reply (s : sstate) (rqstp : svc_rqst) : Prop := RoomForReply {
  rr_out : p_blk (reply_at rqstp) ∉ table_blocks s;
  rr_len : iov_len (rq_res_head rqstp) + 16 ≤ PAGE_SIZE;
  rr_room : in_bounds (s_mem s) (reply_at rqstp) 16;
}.

(** The arguments of a request are the bytes [x]. *)
Definition args_are (s : sstate) (rqstp : svc_rqst) (x : list byte) : Prop :=
  has_bytes (s_mem s) (iov_base (rq_arg_head rqstp)) x ∧ zlen x ≤ iov_len (rq_arg_head rqstp).

Lemma args_within s rqstp x :
  args_are s rqstp x → within (rq_arg_head rqstp) (iov_base (rq_arg_head rqstp) +p zlen x).
Proof. intros [_ Hl]. unfold within. simpl. pose proof (zlen_nonneg x). lia. Qed.

(** The arguments of a LOOKUP, decoded. *)
Lemma lookup_decoded s rqstp fh name :
  fh_wf fh → filename_ok name → args_are s rqstp (wire_lookup fh name) →
  let a := VsnfsdLookupargs fh (iov_base (rq_arg_head rqstp) +p 16) (zlen name) in
  has_bytes (s_mem s) (dla_filename a) name ∧ (NUL ∉ name) ∧
  pc_decode svc_lookup rqstp (iov_base (rq_arg_head rqstp)) (pc_args0 svc_lookup) (s_mem s) =
    Done ((1, a, rqstp), s_mem s).
Proof.
  intros Hfh Hname Hargs a. pose proof (args_within _ _ _ Hargs) as Hw. destruct Hargs as [Hargs _].
  split_and!; [|apply Hname|].
  - unfold wire_lookup, xdr_opaque in Hargs. apply has_bytes_app in Hargs as [_ H].
    apply has_bytes_app in H as [_ H]. apply has_bytes_app in H as [H _].
    by rewrite zlen_wire_fh, zlen_be32, padd_padd in H by done.
  - simpl. unfold same_rqst. mstep decode_lookupargs_spec; [done..|]. done.
Qed.

Lemma lookup_dispatch s g rqstp statp fh name ino dir i :
  (∀ b, kmalloc_ok b = true) → server_rel s (Some g) → room_for_reply s rqstp →
  fh_wf fh → filename_ok name → args_are s rqstp (wire_lookup fh name) →
  fh_strtoul fh = Done ino → g !! ino = Some dir → dir ++ name ≠ [] →
  zlen (entry_path i (dir ++ name)) ≤ VSNFS_MAXPATHLEN → path_lookup (dir ++ name) = (0, Some i) →
  ∃ s' rq', vsnfsd_dispatch svc_lookup rqstp statp s = Done ((1, rq', statp), s') ∧
    server_rel s' (Some (remember g i (dir ++ name))) ∧
    clean_but [p_blk (reply_at rqstp)] s s' ∧
    has_bytes (s_mem s') (reply_at rqstp) (wire_reply 0 (wire_fh (reply_fh fh_zero i))) ∧
    iov_len (rq_res_head rq') = iov_len (rq_res_head rqstp) + 16 ∧
    rq_page_len rq' = rq_page_len rqstp.
Proof.
  intros Hok Hrel [Hout Hlen Hroom] Hfh Hname Hargs Hino Hg Hne Hfit Hpl.
  destruct (lookup_decoded s rqstp fh name Hfh Hname Hargs) as (Hn & Hz & Hdec).
  set (a := VsnfsdLookupargs _ _ _) in *.
  destruct (lookup_refines s g a ino dir name Hok Hrel (Hino : fh_strtoul (dla_fh a) = _) Hg Hn eq_refl Hz fh_zero i Hne Hfit Hpl)
    as (s1 & E1 & Hrel1 & Hc1).
  refine (handle_reply svc_lookup rqstp statp s Hout Hlen Hroom _ _ _ s1 _ Hdec E1 _ _ Hrel1 Hc1);
    [by intros|apply reply_fh_wf, fh_zero_wf].
Qed.

(** The requests that are not answered. *)
Lemma lookup_unanswered s g rqstp statp fh name ino dir :
  (∀ b, kmalloc_ok b = true) → server_rel s (Some g) → s_drefs s = [] →
  fh_wf fh → filename_ok name → args_are s rqstp (wire_lookup fh name) →
  fh_strtoul fh = Done ino → g !! ino = Some dir → dir ++ name ≠ [] →
  (∀ i, path_lookup (dir ++ name) = (0, Some i) →
     VSNFS_MAXPATHLEN < zlen (entry_path i (dir ++ name))) →
  ∃ e, vsnfsd_dispatch svc_lookup rqstp statp s = Oops e.
Proof.
  intros Hok Hrel Hd Hfh Hname Hargs Hino Hg Hne Hpl.
  destruct (lookup_decoded s rqstp fh name Hfh Hname Hargs) as (Hn & Hz & Hdec).
  set (a := VsnfsdLookupargs _ _ _) in *.
  destruct (path_lookup (dir ++ name)) as [ret o] eqn:Ep. destruct (decide (ret = 0)) as [->|Hret].
  - pose proof (path_lookup_ok (dir ++ name)) as Hsome. rewrite Ep in Hsome.
    destruct (Hsome eq_refl) as [i Ei]. simpl in Ei. subst o. exists OutOfBounds.
    eapply dispatch_fault; [exact Hdec|].
    exact (lookup_overflow s g a ino dir name Hok Hrel (Hino : fh_strtoul (dla_fh a) = _) Hg Hn eq_refl Hz fh_zero i Hne
             (Hpl i eq_refl) Ep).
  - destruct (lookup_unresolved s g a ino dir name Hok Hrel (Hino : fh_strtoul (dla_fh a) = _) Hg Hn eq_refl Hz fh_zero ret o Hne
      Ep Hret Hd) as (e & E & _).
    exists e. exact (dispatch_fault _ _ _ _ _ _ _ Hdec E).
Qed.

(** C5: A LOOKUP call as it arrives on the wire, for a name that resolves in a
    directory of the table, is answered with the status OK and the handle of
    what was found, and the lookup table then maps that inode to its path. *)
Theorem lookup_served s g rqstp statp fh name ino dir i :
  (∀ b, kmalloc_ok b = true) → server_rel s (Some g) → room_for_reply s rqstp →
  fh_wf fh → filename_ok name → args_are s rqstp (wire_lookup fh name) →
  fh_strtoul fh = Done ino → g !! ino = Some dir → dir ++ name ≠ [] →
  zlen dir + zlen name + 2 ≤ VSNFS_MAXPATHLEN + 1 → path_lookup (dir ++ name) = (0, Some i) →
  ∃ s' rq', vsnfsd_dispatch svc_lookup rqstp statp s = Done ((1, rq', statp), s') ∧
    server_rel s' (Some (remember g i (dir ++ name))) ∧
    clean_but [p_blk (reply_at rqstp)] s s' ∧
    has_bytes (s_mem s') (reply_at rqstp) (wire_reply 0 (wire_fh (reply_fh fh_zero i))) ∧
    iov_len (rq_res_head rq') = iov_len (rq_res_head rqstp) + 16.
Proof.
  intros Hok Hr Hroom Hf Hn Ha Hi Hg Hne Hz Hp.
  destruct (lookup_dispatch s g rqstp statp fh name ino dir i)
    as (s' & rq' & ? & ? & ? & ? & ? & _); try done; [by apply entry_path_fits|].
  by exists s', rq'.
Qed.

Lemma getroot_decoded s rqstp path :
  pathname_ok path → path ≠ [] → args_are s rqstp (wire_getroot path) →
  let p := iov_base (rq_arg_head rqstp) in
  let a := VsnfsdGetrootargs (p +p 4) (zlen path) in
  has_bytes (s_mem s) (p +p 4) path ∧ 0 < zlen path ≤ VSNFS_MAXPATHLEN ∧
  pc_decode svc_getroot rqstp p (pc_args0 svc_getroot) (s_mem s) = Done ((1, a, rqstp), s_mem s).
Proof.
  intros Hpath Hne Hargs p a. pose proof (args_within _ _ _ Hargs) as Hw. destruct Hargs as [Hargs _].
  split_and!.
  - unfold wire_getroot, xdr_opaque in Hargs. apply has_bytes_app in Hargs as [_ H].
    apply has_bytes_app in H as [H _]. by rewrite zlen_be32 in H.
  - destruct path; [done|]. zlen_facts. unfold zlen. simpl. lia.
  - apply Hpath.
  - simpl. unfold same_rqst. mstep decode_getrootargs_spec; [done..|]. done.
Qed.

Lemma getroot_dispatch s T rqstp statp path i :
  (∀ b, kmalloc_ok b = true) → server_rel s T → room_for_reply s rqstp →
  pathname_ok path → path ≠ [] → args_are s rqstp (wire_getroot path) →
  path_lookup (with_slash path) = (0, Some i) → S_ISREG (i_mode i) = false →
  ∃ s' rq', vsnfsd_dispatch svc_getroot rqstp statp s = Done ((1, rq', statp), s') ∧
    server_rel s' (Some {[i_ino i := with_slash path]}) ∧
    clean_but [p_blk (reply_at rqstp)] s s' ∧
    has_bytes (s_mem s') (reply_at rqstp) (wire_reply 0 (wire_fh (reply_fh fh_zero i))) ∧
    iov_len (rq_res_head rq') = iov_len (rq_res_head rqstp) + 16 ∧
    rq_page_len rq' = rq_page_len rqstp.
Proof.
  intros Hok Hrel [Hout Hlen Hroom] Hpath Hne Hargs Hpl Hreg.
  destruct (getroot_decoded s rqstp path Hpath Hne Hargs) as (Hn & Hz & Hdec).
  set (a := VsnfsdGetrootargs _ _) in *.
  destruct (getroot_refines s T a path Hok Hrel Hn eq_refl Hz ltac:(apply Hpath) fh_zero i Hpl Hreg)
    as (s1 & E1 & Hrel1 & Hc1).
  eapply (handle_reply svc_getroot); [done..|exact Hdec|exact E1|done| |done|done].
  apply reply_fh_wf, fh_zero_wf.
Qed.

Lemma negated_notdir : u32 (- vsnfserr VSNFSERR_NOTDIR) ≠ 0.
Proof. unfold vsnfserr, cpu_to_be32, htonl. by destruct little_endian; vm_compute. Qed.

(** GETROOT of a regular file: a status word, negated, and the table as it
    was. *)
Lemma getroot_file_dispatch s T rqstp statp path i :
  (∀ b, kmalloc_ok b = true) → server_rel s T → room_for_reply s rqstp →
  pathname_ok path → path ≠ [] → args_are s rqstp (wire_getroot path) →
  path_lookup (with_slash path) = (0, Some i) → S_ISREG (i_mode i) = true →
  ∃ s' rq', vsnfsd_dispatch svc_getroot rqstp statp s = Done ((1, rq', statp), s') ∧
    server_rel s' T ∧ clean_but [p_blk (reply_at rqstp)] s s' ∧
    has_bytes (s_mem s') (reply_at rqstp) (native32 (u32 (- vsnfserr VSNFSERR_NOTDIR))) ∧
    iov_len (rq_res_head rq') = iov_len (rq_res_head rqstp) + 4 ∧
    rq_page_len rq' = rq_page_len rqstp.
Proof.
  intros Hok Hrel [Hout Hlen Hroom] Hpath Hne Hargs Hpl Hreg.
  destruct (getroot_decoded s rqstp path Hpath Hne Hargs) as (Hn & Hz & Hdec).
  set (a := VsnfsdGetrootargs _ _) in *.
  destruct (getroot_regular_file s T a path Hok Hrel Hn eq_refl Hz ltac:(apply Hpath) fh_zero i Hpl Hreg)
    as (s1 & E1 & Hrel1 & Hc1 & _).
  eapply (status_reply svc_getroot rqstp statp s); [done..|exact Hdec|done|done|exact E1|apply negated_notdir|done|exact Hc1|set_solver].
Qed.

(** C6: A GETROOT call as it arrives on the wire, for a path that resolves to
    something other than a regular file, is answered with the status OK and its
    handle, and starts the table anew from that path. *)
Theorem getroot_served s T rqstp statp path i :
  (∀ b, kmalloc_ok b = true) → server_rel s T → room_for_reply s rqstp →
  pathname_ok path → path ≠ [] → args_are s rqstp (wire_getroot path) →
  path_lookup (with_slash path) = (0, Some i) → S_ISREG (i_mode i) = false →
  ∃ s' rq', vsnfsd_dispatch svc_getroot rqstp statp s = Done ((1, rq', statp), s') ∧
    server_rel s' (Some {[i_ino i := with_slash path]}) ∧
    clean_but [p_blk (reply_at rqstp)] s s' ∧
    has_bytes (s_mem s') (reply_at rqstp) (wire_reply 0 (wire_fh (reply_fh fh_zero i))) ∧
    iov_len (rq_res_head rq') = iov_len (rq_res_head rqstp) + 16.
Proof.
  intros. destruct (getroot_dispatch s T rqstp statp path i) as (s' & rq' & ? & ? & ? & ? & ? & _); try done.
  by exists s', rq'.
Qed.

(** C21: Arguments the decoder rejects (a name that is too long or contains a
    slash or a NUL, a path that is too long or contains a NUL) are answered
    with GARBAGE_ARGS before any procedure runs: nothing in the server changes,
    neither its table nor its memory. *)
Theorem bad_names_rejected s rqstp statp fh x :
  zlen x < 2 ^ 32 →
  (fh_wf fh → args_are s rqstp (wire_lookup fh x) → ¬ filename_ok x →
     vsnfsd_dispatch svc_lookup rqstp statp s = Done ((1, rqstp, rpc_garbage_args), s)) ∧
  (args_are s rqstp (wire_getroot x) → ¬ pathname_ok x →
     vsnfsd_dispatch svc_getroot rqstp statp s = Done ((1, rqstp, rpc_garbage_args), s)).
Proof.
  intros Hx. split.
  - intros Hfh [Hargs _] Hbad.
    destruct (decode_lookupargs_reject (s_mem s) rqstp _ (pc_args0 svc_lookup) fh x Hfh Hx Hargs Hbad)
      as [a E]. eapply dispatch_garbage. simpl. unfold same_rqst. mstep E. done.
  - intros [Hargs _] Hbad.
    destruct (decode_getrootargs_reject (s_mem s) rqstp _ (pc_args0 svc_getroot) x Hx Hargs Hbad)
      as [a E]. eapply dispatch_garbage. simpl. unfold same_rqst. mstep E. done.
Qed.

Lemma u32_incr n : u32 (s32 (s32 n + 1)) = u32 (n + 1).
Proof. solve_width. Qed.

(** NULL answers with the argument plus one, wrapped to 32 bits, and
    changes only the reply. *)
Theorem null_served s T rqstp statp n :
  server_rel s T → room_for_reply s rqstp → args_are s rqstp (wire_null n) →
  ∃ s' rq', vsnfsd_dispatch svc_null rqstp statp s = Done ((1, rq', statp), s') ∧
    server_rel s' T ∧ clean_but [p_blk (reply_at rqstp)] s s' ∧
    has_bytes (s_mem s') (reply_at rqstp) (wire_reply 0 (be32 (n + 1))).
Proof.
  intros Hrel [Hout Hlen Hroom] Hargs.
  pose proof (args_within _ _ _ Hargs) as Hw. destruct Hargs as [Hargs _].
  set (p := reply_at rqstp) in *. set (x := wire_reply 0 (be32 (n + 1))).
  assert (zlen x = 8) as Hx by done.
  assert (in_bounds (s_mem s) p (zlen x)) as Bx by (rewrite Hx; solve_bounds).
  assert (clean s s) as Hcc.
  { split; auto. }
  destruct (reply_written rqstp s Hout Hlen Hroom s T p x Hcc Hrel eq_refl Bx) as [Hrel' Hcl'].
  eexists _, _. split; [|split_and!; [exact Hrel'|exact Hcl'|by apply has_bytes_upd]].
  erewrite (dispatch_run svc_null); [| |reflexivity|fold p; solve_bounds].
  2:{ simpl. unfold same_rqst. mstep decode_nullargs_spec; [exact Hargs|exact Hw|]. done. }
  fold p. rewrite vsnfserr_OK, decide_True by done. destruct s as [m t d fl fs rv].
  unfold set_mem. simpl. simpl in Bx, Hroom.
  rewrite native32_0.
  mem_step encode_nullres_spec; [solve_bounds|].
  rewrite ressize_check_spec by done. cbv beta iota zeta.
  rewrite (decide_True (P := _ ≤ PAGE_SIZE)) by (unfold p, reply_at; simpl; lia).
  cbv beta iota. rewrite decide_False by done. rewrite upd_upd_at; [|done|done].
  by rewrite <-(be32_u32 (s32 (s32 n + 1))), u32_incr, be32_u32.
Qed.
End dispatch.

(** ** Examples: the example server with the bytes [w] as the arguments of a
    request, in block 20, and block 21 for the reply *)
Definition ex_wire_server (w : list byte) : sstate :=
  SState (mem_of [(10%positive, zeros 32); (11%positive, ex_dirpath ++ [NUL]);
                  (20%positive, w); (21%positive, zeros 64)])
    (Some [ex_node]) [] [] USER_DS 0.
Definition ex_rqst (w : list byte) : svc_rqst :=
  SvcRqst (Kvec (Ptr 20 0) (zlen w)) (Kvec (Ptr 21 0) 24) [] 0 0.

Lemma ex_wire_server_rel w : server_rel (ex_wire_server w) (Some ex_table).
Proof. apply ex_rel_of; [apply mem_of_wf; repeat constructor|split_and!; by_eval]. Qed.
Lemma ex_wire_room `{A : Arch} w : room_for_reply (ex_wire_server w) (ex_rqst w).
Proof.
  split; [by_eval| |].
  - pose proof PAGE_SIZE_range. simpl. lia.
  - unfold in_bounds. simpl. split; by vm_compute.
Qed.

Definition ex_lookup_wire : list byte := wire_lookup (dla_fh ex_lookup) ex_filename.

Lemma lookup_served_witness :
  ∃ s' rq', vsnfsd_dispatch (A := x86_64)
      (svc_lookup (A := x86_64) (Km := kmem_ref []) (K := ex_kernel) (X := sunrpc_ref (H := x86_64)))
      (ex_rqst ex_lookup_wire) 0 (ex_wire_server ex_lookup_wire) = Done ((1, rq', 0), s') ∧
    server_rel s' (Some (<[7 := ex_dirpath ++ ex_filename]> ex_table)) ∧
    clean_but [21%positive] (ex_wire_server ex_lookup_wire) s' ∧
    has_bytes (s_mem s') (Ptr 21 24)
      (wire_reply 0 (wire_fh (VsnfsFh [x37; x00; x00; x00; x00; x00; x00; x00] VSNFS_REG))) ∧
    iov_len (rq_res_head rq') = 40.
Proof.
  exact (lookup_served (A := x86_64) (Km := kmem_ref []) (K := ex_kernel)
    (X := sunrpc_ref (H := x86_64)) (ex_wire_server ex_lookup_wire) ex_table
    (ex_rqst ex_lookup_wire) 0 (dla_fh ex_lookup) ex_filename 2 ex_dirpath (InodeInfo 7 S_IFREG)
    ltac:(done) (ex_wire_server_rel _) (ex_wire_room (A := x86_64) _) ltac:(by_eval) ltac:(by_eval)
    ltac:(split; by_eval) ltac:(done) ltac:(done) ltac:(done) ltac:(by_eval) ltac:(done)).
Defined.

Lemma getroot_served_witness :
  let w := wire_getroot [x2f; x61] in
  ∃ s' rq', vsnfsd_dispatch (A := x86_64)
      (svc_getroot (A := x86_64) (Km := kmem_ref []) (K := ex_kernel) (X := sunrpc_ref (H := x86_64)))
      (ex_rqst w) 0 (ex_wire_server w) = Done ((1, rq', 0), s') ∧
    server_rel s' (Some {[2 := ex_dirpath]}) ∧
    clean_but [21%positive] (ex_wire_server w) s' ∧
    has_bytes (s_mem s') (Ptr 21 24)
      (wire_reply 0 (wire_fh (VsnfsFh [x32; x00; x00; x00; x00; x00; x00; x00] VSNFS_DIR))) ∧
    iov_len (rq_res_head rq') = 40.
Proof.
  intros w.
  exact (getroot_served (A := x86_64) (Km := kmem_ref []) (K := ex_kernel)
    (X := sunrpc_ref (H := x86_64)) (ex_wire_server w) (Some ex_table) (ex_rqst w) 0 [x2f; x61]
    (InodeInfo 2 S_IFDIR)
    ltac:(done) (ex_wire_server_rel _) (ex_wire_room (A := x86_64) _) ltac:(by_eval) ltac:(done)
    ltac:(split; by_eval) ltac:(done) ltac:(done)).
Defined.

Lemma bad_names_rejected_witness :
  let x := [x61; x2f] in let w := wire_lookup (dla_fh ex_lookup) x in
  vsnfsd_dispatch (A := x86_64)
    (svc_lookup (A := x86_64) (Km := kmem_ref []) (K := ex_kernel) (X := sunrpc_ref (H := x86_64)))
    (ex_rqst w) 0 (ex_wire_server w) =
    Done ((1, ex_rqst w, rpc_garbage_args (A := x86_64)), ex_wire_server w).
Proof.
  intros x w.
  exact (proj1 (bad_names_rejected (A := x86_64) (Km := kmem_ref []) (K := ex_kernel)
    (X := sunrpc_ref (H := x86_64)) (ex_wire_server w) (ex_rqst w) 0 (dla_fh ex_lookup) x
    ltac:(by_eval)) ltac:(by_eval) ltac:(split; by_eval) ltac:(by_eval)).
Defined.

Lemma null_served_witness :
  let w := wire_null 41 in
  ∃ s' rq', vsnfsd_dispatch (A := x86_64)
      (svc_null (A := x86_64) (X := sunrpc_ref (H := x86_64)))
      (ex_rqst w) 0 (ex_wire_server w) = Done ((1, rq', 0), s') ∧
    server_rel s' (Some ex_table) ∧ clean_but [21%positive] (ex_wire_server w) s' ∧
    has_bytes (s_mem s') (Ptr 21 24) (wire_reply 0 (be32 42)).
Proof.
  intros w.
  exact (null_served (A := x86_64) (K := ex_kernel) (X := sunrpc_ref (H := x86_64))
    (ex_wire_server w) (Some ex_table) (ex_rqst w) 0 41 (ex_wire_server_rel _)
    (ex_wire_room (A := x86_64) _) ltac:(split; by_eval)).
Defined.
