(* ===== verification/Status.v ===== *)
(** * Status: error numbers from the server to the client

    A host error becomes a status on the server ([vsnfserrno]), the status word
    of the reply, and an error number again on the client
    ([vsnfs_stat_to_errno]).  The machines may differ in byte order.  At the end
    the client's table is compared with the one it is meant to be. *)
From Stdlib Require Import Strings.Byte.
From S2P Require Import Prelude Mem CString Protocol Sunrpc Wire ClientXdr ServerXdr Handle.
From S2P Require Import VfsApi ServerState.

(** A status other than success is an error to the client. *)
Lemma status_is_error st :
  st ≠ VSNFS_OK → s32 (stat_code st) ≠ 0 ∧
  ∃ e, vsnfs_stat_to_errno (s32 (stat_code st)) = Done e ∧ e < 0.
Proof.
  intros Hst. destruct st; try done;
    (split; [by vm_compute|]); eexists; (split; [vm_compute; reflexivity|by vm_compute]).
Qed.

(** What the client makes of the status word of a reply. *)
Definition errno_of_status (bs : list byte) : outcome Z :=
  let status := s32 (val32 bs) in
  if decide (status ≠ 0) then vsnfs_stat_to_errno status else Done 0.

(** The client's decoders use it. *)
Lemma status_decoded `{A : Arch} `{X : SunrpcXdr} `{L : !SunrpcXdrLaws X}
    m req p fh0 bs e :
  length bs = 4%nat → has_bytes m p bs → errno_of_status bs = Done e → s32 (val32 bs) ≠ 0 →
  vsnfs_xdr_fh req p fh0 m = Done ((e, fh0), m) ∧ vsnfs_xdr_readdirres req p m = Done (e, m).
Proof.
  intros Hl Hh He Hne. unfold errno_of_status in He. rewrite decide_True in He by done.
  assert (has_bytes m p (be32 (val32 bs))) as Hh' by by rewrite be32_val32.
  split; [by eapply vsnfs_xdr_fh_err|by eapply vsnfs_xdr_readdirres_err].
Qed.

Section status.
Context `{A : Arch}.

(** The bytes of the status word the dispatcher stores. *)
Lemma status_word st : native32 (vsnfserr st) = be32 (stat_code st).
Proof. apply native32_htonl. Qed.

(** The errors that come through unchanged. *)
Definition faithful_errors : list Z :=
  [ENOENT; EIO; ENXIO; EEXIST; ENODEV; ENOTDIR; EISDIR; EINVAL; EFBIG; ENOSPC; EROFS; EMLINK;
   ENAMETOOLONG; ENOTEMPTY; ESTALE].

(** The statuses of the server's table, with the error each comes from. *)
Definition errno_table : list (vsnfs_stat * Z) :=
  [ (VSNFS_OK, 0); (VSNFSERR_PERM, EPERM); (VSNFSERR_NOENT, ENOENT); (VSNFSERR_IO, EIO);
    (VSNFSERR_NXIO, ENXIO); (VSNFSERR_ACCES, EACCES); (VSNFSERR_EXIST, EEXIST);
    (VSNFSERR_XDEV, EXDEV); (VSNFSERR_MLINK, EMLINK); (VSNFSERR_NODEV, ENODEV);
    (VSNFSERR_NOTDIR, ENOTDIR); (VSNFSERR_ISDIR, EISDIR); (VSNFSERR_INVAL, EINVAL);
    (VSNFSERR_FBIG, EFBIG); (VSNFSERR_NOSPC, ENOSPC); (VSNFSERR_ROFS, EROFS);
    (VSNFSERR_MLINK, EMLINK); (VSNFSERR_NAMETOOLONG, ENAMETOOLONG);
    (VSNFSERR_NOTEMPTY, ENOTEMPTY); (VSNFSERR_STALE, ESTALE); (VSNFSERR_JUKEBOX, ETIMEDOUT);
    (VSNFSERR_JUKEBOX, ERESTARTSYS); (VSNFSERR_IO, ETXTBSY); (VSNFSERR_NOTSUPP, EOPNOTSUPP);
    (VSNFSERR_TOOSMALL, ETOOSMALL) ].

Lemma vsnfs_errno_tbl_eq :
  vsnfs_errno_tbl = (λ x, (vsnfserr x.1, - x.2)) <$> errno_table.
Proof. done. Qed.

Lemma vsnfserrno_eq e :
  vsnfserrno (- e) =
    vsnfserr (default VSNFSERR_IO (fst <$> find (λ x, bool_decide (x.2 = e)) errno_table)).
Proof.
  unfold vsnfserrno. rewrite vsnfs_errno_tbl_eq. induction errno_table as [|[st er] t IH]; [done|].
  simpl. destruct (decide (er = e)) as [->|Hne].
  - by rewrite !bool_decide_eq_true_2.
  - rewrite !bool_decide_eq_false_2 by lia. exact IH.
Qed.

(** Every error has a status, and it is not that of success. *)
Lemma vsnfserrno_status e : e ≠ 0 → ∃ st, vsnfserrno e = vsnfserr st ∧ st ≠ VSNFS_OK.
Proof.
  intros He. replace e with (- - e) by lia. rewrite vsnfserrno_eq. eexists. split; [done|].
  destruct (find (λ x, bool_decide (x.2 = - e)) errno_table) as [[st er]|] eqn:Ef; [|done].
  apply find_some in Ef as [Hin Hb]. rewrite bool_decide_eq_true in Hb. cbn [fst snd] in *. subst er.
  assert (Forall (λ x, x.1 = VSNFS_OK → x.2 = 0) errno_table) as Hall by (repeat constructor; done).
  rewrite Forall_forall in Hall. apply list_elem_of_In in Hin. change (st ≠ VSNFS_OK). intros ->.
  specialize (Hall _ Hin eq_refl). cbn [snd] in Hall. lia.
Qed.

(** C27: Every host error number, through the server's table, the wire and the
    client's table, on machines of either byte order: success stays success,
    the fifteen errors of [faithful_errors] arrive as themselves, and every
    other error (EPERM and EACCES among them, which the client's table lacks)
    arrives as EIO. *)
Theorem errno_roundtrip e :
  errno_of_status (native32 (vsnfserrno (- e))) =
    Done (if decide (e = 0) then 0 else if decide (e ∈ faithful_errors) then - e else - EIO).
Proof.
  rewrite vsnfserrno_eq, status_word.
  set (ok st e := bool_decide (errno_of_status (be32 (stat_code st)) =
    Done (if decide (e = 0) then 0 else if decide (e ∈ faithful_errors) then - e else - EIO))).
  assert (Forall (λ x, ok x.1 x.2 = true) errno_table) as Hall by by_eval.
  destruct (find (λ x, bool_decide (x.2 = e)) errno_table) as [[st er]|] eqn:Ef; simpl.
  - apply find_some in Ef as [Hin He]. rewrite bool_decide_eq_true in He. simpl in He. subst er.
    rewrite Forall_forall in Hall. apply list_elem_of_In in Hin. specialize (Hall _ Hin).
    by apply bool_decide_eq_true in Hall.
  - assert (∀ er, er ∈ errno_table.*2 → er ≠ e) as Hne.
    { intros er ([st er'] & -> & Hin)%list_elem_of_fmap. simpl.
      eapply find_none in Ef; [|by apply list_elem_of_In]. by rewrite bool_decide_eq_false in Ef. }
    rewrite decide_False by (intros ->; apply (Hne 0); [by_eval|done]).
    rewrite decide_False; [by vm_compute|]. intros Hin. apply (Hne e); [|done].
    assert (Forall (λ x, x ∈ errno_table.*2) faithful_errors) as Hf by by_eval.
    rewrite Forall_forall in Hf. auto.
Qed.

(** Negating a value that is already in network byte order gives a status word
    the client has no entry for, on either kind of machine. *)
Lemma negated_status st :
  st = VSNFSERR_NOSPC ∨ st = VSNFSERR_NOTDIR →
  errno_of_status (native32 (u32 (- vsnfserr st))) = Done (- EIO).
Proof.
  unfold native32, vsnfserr, cpu_to_be32, htonl.
  intros [-> | ->]; destruct little_endian; by vm_compute.
Qed.
End status.

(** ** The client's table as it is meant

    Two entries of [vsnfs_errtbl] lack the comma between status and error, so
    that each is a subtraction, with the error 0.  This is the table with the
    commas. *)
Definition errtbl_meant : list (vsnfs_stat * Z) :=
  [ (VSNFS_OK, 0); (VSNFSERR_NOENT, - ENOENT); (VSNFSERR_IO, - EIO); (VSNFSERR_NXIO, - ENXIO);
    (VSNFSERR_EAGAIN, - EAGAIN); (VSNFSERR_EXIST, - EEXIST); (VSNFSERR_NODEV, - ENODEV);
    (VSNFSERR_NOTDIR, - ENOTDIR); (VSNFSERR_ISDIR, - EISDIR); (VSNFSERR_INVAL, - EINVAL);
    (VSNFSERR_FBIG, - EFBIG); (VSNFSERR_NOSPC, - ENOSPC); (VSNFSERR_ROFS, - EROFS);
    (VSNFSERR_MLINK, - EMLINK); (VSNFSERR_OPNOTSUPP, - EOPNOTSUPP);
    (VSNFSERR_NAMETOOLONG, - ENAMETOOLONG); (VSNFSERR_NOTEMPTY, - ENOTEMPTY);
    (VSNFSERR_DQUOT, - EDQUOT); (VSNFSERR_STALE, - ESTALE); (VSNFSERR_REMOTE, - EREMOTE);
    (VSNFSERR_BADHANDLE, - EBADHANDLE); (VSNFSERR_BAD_COOKIE, - EBADCOOKIE) ].
Definition errno_meant (status : Z) : Z :=
  default (- EIO) (snd <$> find (λ x, bool_decide (stat_code x.1 = status)) errtbl_meant).

(** The differences, which are statuses of nothing, and the statuses the two
    tables disagree on. *)
Definition errtbl_success : list Z :=
  [stat_code VSNFSERR_OPNOTSUPP - EOPNOTSUPP; stat_code VSNFSERR_BAD_COOKIE - EBADCOOKIE].
Definition errtbl_wrong : list Z :=
  stat_code VSNFSERR_OPNOTSUPP :: stat_code VSNFSERR_BAD_COOKIE :: errtbl_success.

Lemma find_miss {T} (f : T → bool) l : Forall (λ x, f x = false) l → find f l = None.
Proof. induction 1 as [|x l Hx _ IH]; [done|]. simpl. by rewrite Hx. Qed.
Lemma unlisted {T} (f : T → Z) l (codes : list Z) status :
  Forall (λ x, f x ∈ codes) l → status ∉ codes → find (λ x, bool_decide (f x = status)) l = None.
Proof.
  intros Hl Hs. apply find_miss. eapply Forall_impl; [exact Hl|].
  intros x Hx. simpl. apply bool_decide_eq_false_2. by intros <-.
Qed.

Lemma errtbl_compare status :
  status ≠ 0 →
  ∃ e, vsnfs_stat_to_errno status = Done e ∧
    (e = errno_meant status ↔ status ∉ errtbl_wrong) ∧ (e = 0 ↔ status ∈ errtbl_success).
Proof.
  intros H0. rewrite stat_to_errno_spec. eexists. split; [done|].
  set (codes := (stat_code <$> errtbl_meant.*1) ++ errtbl_success).
  destruct (decide (status ∈ codes)) as [Hin|Hout].
  - set (e z := default (- EIO) (snd <$> find (λ x, bool_decide (x.1 = z)) (take 22 vsnfs_errtbl))).
    assert (Forall (λ z, z = 0 ∨ (e z = errno_meant z ↔ z ∉ errtbl_wrong) ∧
      (e z = 0 ↔ z ∈ errtbl_success)) codes) as Hall by by_eval.
    rewrite Forall_forall in Hall. by destruct (Hall _ Hin).
  - assert (Forall (λ z, z ∈ codes) errtbl_wrong) as Hw by by_eval.
    rewrite (unlisted fst _ codes) by (done || by_eval). unfold errno_meant.
    rewrite (unlisted (λ x, stat_code x.1) _ codes) by (done || by_eval). simpl.
    rewrite Forall_forall in Hw. split; [split; [auto|done]|].
    split; [done|]. intros Hs. destruct Hout. apply elem_of_app. by right.
Qed.

(** C35: What the client makes of a status word is what its table is meant to
    say, for every word but four.  The statuses OPNOTSUPP and BAD_COOKIE, whose
    entries lack their comma, are unknown to it, and the two differences the
    entries denote instead, which are statuses of nothing, are taken for
    success: its decoder of handles then returns 0 and a handle that was never
    received.  No other word but OK counts as success. *)
Theorem errtbl_subtractions `{A : Arch} `{X : SunrpcXdr} `{L : !SunrpcXdrLaws X}
    m req p fh status :
  has_bytes m p (be32 status) → s32 status ≠ 0 →
  ∃ e, vsnfs_xdr_fh req p fh m = Done ((e, fh), m) ∧
    (e = errno_meant (s32 status) ↔ s32 status ∉ errtbl_wrong) ∧
    (e = 0 ↔ s32 status ∈ errtbl_success).
Proof.
  intros Hb H0. destruct (errtbl_compare _ H0) as (e & He & H1 & H2). exists e.
  split; [by eapply vsnfs_xdr_fh_err|by split].
Qed.

Definition ex_req : rpc_rqst :=
  RpcRqst (Kvec (Ptr 2 0) 0) 0 (XdrBuf (Kvec (Ptr 1 0) 0) None 0 0) 0.
(** The number 9480 is taken for success. *)
Lemma errtbl_subtractions_witness :
  ∃ e, vsnfs_xdr_fh (A := x86_64) (X := sunrpc_ref (H := x86_64)) ex_req (Ptr 1 0) fh_zero
      (mem_of [(1%positive, be32 9480)]) = Done ((e, fh_zero), mem_of [(1%positive, be32 9480)]) ∧
    (e = errno_meant (s32 9480) ↔ s32 9480 ∉ errtbl_wrong) ∧ (e = 0 ↔ s32 9480 ∈ errtbl_success).
Proof.
  exact (errtbl_subtractions (A := x86_64) (X := sunrpc_ref (H := x86_64))
    (mem_of [(1%positive, be32 9480)]) ex_req (Ptr 1 0) fh_zero 9480 ltac:(by_eval) ltac:(done)).
Defined.
