(* ===== verification/Listing.v ===== *)
(** * Listing: the entries a READDIR reply carries

    The specification of a listing: which entries of a directory fit
    ([walk]), and what is sent for them ([link]): each entry with the offset of
    the one after it, which the filler writes when that one comes along.
    [fill_all_spec] shows that the filler, with its pointer back to the previous
    entry's offset field, produces just that. *)
From Stdlib Require Import Strings.Byte.
From S2P Require Import Prelude Mem Frame CString Protocol Sunrpc Wire ServerXdr Handle VfsApi.
From S2P Require Import ServerState ServerProc ServerTable ServerSpec ServerFile ServerInv.

(** Why a listing ended: no more entries, or an entry that could not be sent;
    its offset goes into the entry before it, unless it is itself too big. *)
Inductive stop : Type :=
  | Complete
  | BadOffset
  | NoRoom (offset : Z)
  | BadIno (offset : Z).
#[export] Instance stop_eq_dec : EqDecision stop.
Proof. solve_decision. Defined.

Fixpoint walk (room : Z) (es : list dirent) : list dirent * stop :=
  match es with
  | [] => ([], Complete)
  | d :: es =>
      if decide (u32 (-1) < d_offset d) then ([], BadOffset) else
      if decide (room < entry_words d) then ([], NoRoom (d_offset d)) else
      if decide (u32 (-1) < d_ino d) then ([], BadIno (d_offset d)) else
      let '(l, st) := walk (room - entry_words d) es in (d :: l, st)
  end.

Definition next_offset (st : stop) : Z :=
  match st with NoRoom o | BadIno o => o | _ => u32 (-1) end.

Definition words (l : list dirent) : Z := foldr (λ d n, entry_words d + n) 0 l.

Lemma words_app l l' : words (l ++ l') = words l + words l'.
Proof. induction l as [|d l IH]; simpl; [done|]. lia. Qed.
Lemma words_nonneg l : 0 ≤ words l.
Proof. induction l as [|d l IH]; simpl; [done|]. pose proof (entry_words_pos d). lia. Qed.

(** The entries sent are the first ones of the directory, they fit, and the
    listing stops early only when something is wrong with the next one. *)
Lemma walk_prefix room es l st :
  walk room es = (l, st) →
  ∃ rest, es = l ++ rest ∧ (st = Complete ↔ rest = []) ∧ (0 ≤ room → words l ≤ room).
Proof.
  revert room l. induction es as [|d es IH]; intros room l; simpl.
  { intros [= <- <-]. by exists []. }
  case_decide; [|case_decide; [|case_decide]];
    try (intros [= <- <-]; eexists; split; [done|]; split; [by split|by intros]).
  destruct (walk _ es) as [l1 st1] eqn:E. intros [= <- <-].
  destruct (IH _ _ E) as (rest & -> & Hst & Hw). exists rest. split_and!; [done|done|].
  simpl. lia.
Qed.

Section link.
Context `{A : Arch} `{K : ServerKernel} `{KL : !ServerKernelLaws K}.

Definition set_next (e : wentry) (n : Z) : wentry := WEntry (we_ino e) (we_name e) (we_fh e) n.
Definition wentry_of (d : dirent) : wentry := entry_of (stack_junk (d_ino d)) d.

(** The entries with the offsets of their successors, [last] for the last. *)
Fixpoint link (l : list dirent) (last : Z) : list wentry :=
  match l with
  | [] => []
  | d :: l =>
      set_next (wentry_of d) (match l with [] => last | d' :: _ => d_offset d' end) :: link l last
  end.

Lemma link_snoc l d last :
  link (l ++ [d]) last = link l (d_offset d) ++ [set_next (wentry_of d) last].
Proof.
  induction l as [|d1 l IH]; [done|]. change ((d1 :: l) ++ [d]) with (d1 :: (l ++ [d])).
  cbn [link]. rewrite IH. by destruct l.
Qed.

Lemma wire_set_next e n : wire_entry (set_next e n) = wire_entry_head e ++ be32 n.
Proof. done. Qed.

Lemma link_split l :
  l ≠ [] → ∃ y, ∀ n, wire_entries (link l n) = y ++ be32 n.
Proof.
  intros Hl. destruct (exists_last Hl) as (l' & d & ->).
  exists (wire_entries (link l' (d_offset d)) ++ wire_entry_head (wentry_of d)). intros n.
  by rewrite link_snoc, wire_entries_app, wire_entries_singleton, wire_set_next, app_assoc.
Qed.

Lemma zlen_link l n : zlen (wire_entries (link l n)) = 4 * words l.
Proof.
  induction l as [|d l IH]; [done|]. cbn [link]. rewrite wire_entries_cons, zlen_app, IH.
  assert (zlen (wire_entry (set_next (wentry_of d) (match l with [] => n | d' :: _ => d_offset d' end)))
    = 4 * entry_words d) as ->; [|simpl; lia].
  rewrite <-(zlen_entry_of (stack_junk (d_ino d))) by apply stack_junk_len.
  unfold wire_entry. by rewrite !zlen_app.
Qed.

Lemma wentry_of_next d : set_next (wentry_of d) (u32 (-1)) = wentry_of d.
Proof. done. Qed.
End link.

(** ** The filler *)
Section filler.
Context `{A : Arch} `{K : ServerKernel} `{KL : !ServerKernelLaws K}.
Context `{X : SunrpcXdr} `{XL : !SunrpcXdrLaws X}.
Context (base : ptr).
Implicit Types (m : mem) (l : list dirent) (res : vsnfsd_readdirres).

(** The entries [l] are in the page, and there is room for [room] words. *)
Record filled m l res (room : Z) : Prop := Filled {
  fi_bytes : has_bytes m base (wire_entries (link l (u32 (-1))));
  fi_buffer : drdr_buffer res = base +p 4 * words l;
  fi_buflen : drdr_buflen res = room;
  fi_room : in_bounds m base (4 * (words l + room));
  fi_offset : drdr_offset res = if decide (l = []) then None else Some (base +p (4 * words l - 4));
  fi_err : drdr_err res = vsnfserr VSNFS_OK;
}.

Definition names_in m (es : list (ptr * dirent)) : Prop :=
  Forall (λ x, has_bytes m x.1 (d_name x.2) ∧ p_blk x.1 ≠ p_blk base ∧ 0 ≤ d_ino x.2) es.

Lemma names_touches m m' es : touches m (p_blk base) m' → names_in m es → names_in m' es.
Proof.
  intros Ht Hn. eapply Forall_impl; [exact Hn|]. intros [nm d] (H1 & H2 & H3). split_and!; [|done|done].
  by eapply touches_has_bytes.
Qed.

Lemma filled_patch m l res room off :
  filled m l res room → 0 ≤ room →
  has_bytes (patch_offset m res off) base (wire_entries (link l off)) ∧
  wrote (p_blk base) m (patch_offset m res off) ∧
  (∀ n, in_bounds m base n → in_bounds (patch_offset m res off) base n) ∧
  (∀ o, drdr_offset res = Some o → in_bounds m o 4 ∧ p_blk o = p_blk (drdr_buffer res)).
Proof.
  intros [H1 H2 H3 H4 H5 H6] Hr. unfold patch_offset. rewrite H5. case_decide as Hl.
  { subst l. split_and!; [done|by left|done|done]. }
  destruct (link_split l Hl) as [y Hy]. pose proof (zlen_link l 0) as Hz. rewrite Hy in *.
  rewrite zlen_app, zlen_be32 in Hz. apply has_bytes_app in H1 as [H1 _].
  assert (base +p (4 * words l - 4) = base +p zlen y) as Ho by (f_equal; lia). rewrite Ho.
  assert (in_bounds m (base +p zlen y) 4) as Hb.
  { pose proof (zlen_nonneg y). solve_bounds. }
  split_and!.
  - apply has_bytes_app. split; [|by apply has_bytes_upd].
    apply has_bytes_upd_disj; [done|right; simpl; zlen_lia|done].
  - right. by apply (touches_upd m (base +p zlen y)).
  - intros n Hn. by apply in_bounds_upd.
  - intros o [= <-]. rewrite H2. split; [done|done].
Qed.

Lemma entry_filler_run nm n off ino dt m res r res' m' :
  vsnfssvc_encode_entry (stack_junk ino) res nm n off ino dt m = Done ((r, res'), m') →
  entry_filler nm n off ino dt (m, res) = Done (r, (m', res')).
Proof. intros E. unfold entry_filler. by rewrite E. Qed.

(** An entry that fits. *)
Lemma fill_entry m l res room nm d :
  filled m l res room → has_bytes m nm (d_name d) → p_blk nm ≠ p_blk base → 0 ≤ d_ino d →
  d_offset d ≤ u32 (-1) → d_ino d ≤ u32 (-1) → entry_words d ≤ room →
  ∃ m' res', entry_filler nm (zlen (d_name d)) (d_offset d) (d_ino d) (d_type d) (m, res) =
               Done (0, (m', res')) ∧
    filled m' (l ++ [d]) res' (room - entry_words d) ∧ touches m (p_blk base) m'.
Proof.
  intros Hf Hn Hb Hi Ho Hi' Hw. pose proof (entry_words_pos d). pose proof (words_nonneg l).
  destruct (filled_patch m l res room (d_offset d) Hf ltac:(lia)) as (P1 & P2 & P3 & P4).
  destruct Hf as [H1 H2 H3 H4 H5 H6]. set (m1 := patch_offset m res (d_offset d)) in *.
  assert (p_blk (drdr_buffer res) = p_blk base) as Hpb by by rewrite H2.
  assert (in_bounds m (drdr_buffer res) (4 * entry_words d)) as Hin
    by (rewrite H2; solve_bounds).
  set (x := wire_entry (wentry_of d)). set (p := drdr_buffer res) in *.
  assert (zlen x = 4 * entry_words d) as Hx by apply zlen_entry_of, stack_junk_len.
  assert (in_bounds m1 p (zlen x)) as Hin1.
  { rewrite Hx, H2. pose proof (P3 _ H4). solve_bounds. }
  pose proof (touches_upd _ _ _ Hin1) as T2. rewrite Hpb in T2.
  eexists (upd m1 p x), _. split; [|split].
  - apply entry_filler_run, encode_entry_spec;
      [done|fold p; congruence|done|apply stack_junk_len|done| |lia|done].
    split; [lia|]. change (u32 (-1)) with (2 ^ 32 - 1) in Hi'. lia.
  - fold p. split; simpl.
    + rewrite link_snoc, wentry_of_next, wire_entries_app, wire_entries_singleton.
      apply has_bytes_app. rewrite zlen_link, <-H2. split; [|by apply has_bytes_upd].
      apply has_bytes_upd_disj; [done| |done]. rewrite H2, zlen_link. right. simpl. lia.
    + rewrite H2, words_app, padd_padd. simpl. f_equal. lia.
    + lia.
    + apply in_bounds_upd; [done|]. apply P3. rewrite words_app. simpl.
      by replace (words l + (entry_words d + 0) + (room - entry_words d)) with (words l + room) by lia.
    + rewrite decide_False by by destruct l. rewrite H2, words_app, padd_padd. simpl. do 2 f_equal. lia.
    + done.
  - destruct P2 as [->|T1]; [done|]. by eapply touches_trans.
Qed.

(** An entry that does not: what the offset before it is then. *)
Definition stop_err (st : stop) : Z :=
  match st with
  | Complete => vsnfserr VSNFS_OK
  | NoRoom _ => vsnfserr VSNFSERR_TOOSMALL
  | BadOffset | BadIno _ => vsnfserr VSNFSERR_FBIG
  end.
Definition stop_ret (st : stop) : Z := match st with Complete => 0 | _ => - EINVAL end.

(** The result of the filler's run over a directory. *)
Record listed m l st m' res' : Prop := Listed {
  ls_bytes : has_bytes m' base (wire_entries (link l (next_offset st)));
  ls_buffer : drdr_buffer res' = base +p 4 * words l;
  ls_err : drdr_err res' = stop_err st;
  ls_wrote : wrote (p_blk base) m m';
}.

Lemma fill_all_spec es l m res room :
  filled m l res room → names_in m es → 0 ≤ room →
  let '(l', st) := walk room es.*2 in
  ∃ m' res', fill_all es entry_filler (m, res) = Done (stop_ret st, (m', res')) ∧
             listed m (l ++ l') st m' res'.
Proof using A K KL X XL.
  revert l m res room. induction es as [|[nm d] es IH]; intros l m res room Hf Hn Hr; simpl.
  { exists m, res. split; [done|]. destruct Hf. rewrite app_nil_r. split; try done. by left. }
  apply Forall_cons in Hn as [(Hnm & Hnb & Hi) Hn]. simpl in Hnm, Hnb, Hi.
  destruct (filled_patch m l res room (d_offset d) Hf Hr) as (P1 & P2 & P3 & P4).
  pose proof Hf as [H1 H2 H3 H4 H5 H6].
  destruct (decide (u32 (-1) < d_offset d)) as [Ho|Ho].
  { exists m, (set_err res (vsnfserr VSNFSERR_FBIG)). split.
    - mstep entry_filler_run; [by apply encode_entry_offset_too_big|]. done.
    - rewrite app_nil_r. split; try done. by left. }
  destruct (decide (room < entry_words d)) as [Hw|Hw].
  { exists (patch_offset m res (d_offset d)), (set_err res (vsnfserr VSNFSERR_TOOSMALL)). split.
    - mstep entry_filler_run; [apply encode_entry_too_small; try done; lia|]. done.
    - rewrite app_nil_r. by split. }
  destruct (decide (u32 (-1) < d_ino d)) as [Hino|Hino].
  { exists (patch_offset m res (d_offset d)), (set_err res (vsnfserr VSNFSERR_FBIG)). split.
    - mstep entry_filler_run; [apply encode_entry_ino_too_big; try done; lia|]. done.
    - rewrite app_nil_r. by split. }
  destruct (fill_entry m l res room nm d) as (m1 & res1 & E1 & Hf1 & T1); [done..|lia|lia|lia|].
  specialize (IH (l ++ [d]) m1 res1 (room - entry_words d) Hf1 (names_touches _ _ _ T1 Hn) ltac:(lia)).
  simpl in IH. destruct (walk (room - entry_words d) _) as [l' st].
  destruct IH as (m' & res' & E & [G1 G2 G3 G4]). exists m', res'. split.
  - mstep E1. rewrite decide_False by auto. exact E.
  - rewrite <-app_assoc in *. split; try done. eapply wrote_trans; [|done]. by right.
Qed.
End filler.
