(* ===== verification/ReaddirSpec.v ===== *)
(** * ReaddirSpec: what READDIR answers

    From the bytes of a READDIR call to the page of entries: the entries that
    fit, linked by their offsets, the end marker, and whether the listing is
    whole. *)
From Stdlib Require Import Strings.Byte.
From S2P Require Import Prelude Mem Frame CString Protocol Sunrpc Wire ServerXdr Handle VfsApi.
From S2P Require Import ServerState ServerProc ServerTable ServerSpec ServerFile ServerInv.
From S2P Require Import ServerSvc Dispatch Status Listing.

(** The words left for entries in a reply of [count] bytes: the end marker
    takes two. *)
Definition room_of (count : Z) : Z := Z.max 0 (count / 4 - 2).

(** The bytes of a reply page. *)
Definition listing_bytes `{A : Arch} `{K : ServerKernel} (x : list dirent * stop) : list byte :=
  wire_listing (link x.1 (next_offset x.2)) (bool_decide (x.2 = Complete)).

Section readdir.
Context `{A : Arch} `{Km : Kmem} `{K : ServerKernel} `{KL : !ServerKernelLaws K}.
Context `{X : SunrpcXdr} `{XL : !SunrpcXdrLaws X}.

Lemma zlen_listing_bytes x : zlen (listing_bytes x) = 4 * words x.1 + 8.
Proof. unfold listing_bytes, wire_listing. by rewrite zlen_app, zlen_link, zlen_wire_end. Qed.

Lemma room_of_count count :
  0 ≤ count < 2 ^ 31 →
  (if decide (s32 (Z.shiftr count 2) - 2 < 0) then 0 else s32 (Z.shiftr count 2) - 2) =
    room_of count.
Proof.
  intros Hc. unfold room_of. rewrite Z.shiftr_div_pow2 by lia. change (2 ^ 2) with 4.
  rewrite s32_id by (unfold is_s32; Z.div_mod_to_equations; lia).
  case_decide; lia.
Qed.

Lemma clean_weaken D D' s s' : D ⊆ D' → clean_but D s s' → clean_but D' s s'.
Proof. intros Hs []. split; auto. Qed.

Lemma has_bytes_upd_nil m p : in_bounds m p 0 → has_bytes m p [].
Proof.
  intros Hb. pose proof (has_bytes_upd m p [] Hb) as H. by rewrite upd_nil in H.
Qed.

Section known.
Context (s : sstate) (g : table) (argp : vsnfsd_readdirargs) (ino : Z) (path : list byte).
Context (Hok : ∀ b, kmalloc_ok b = true) (Hrel : server_rel s (Some g)).
Context (Hino : fh_strtoul (drda_fh argp) = Done ino).
Context (Hcount : 0 ≤ drda_count argp < 2 ^ 31).
Let buf := drda_buffer argp.
Let room := room_of (drda_count argp).

(** The procedure around [vsnfsd_readdir]. *)
Lemma proc_readdir_run resp err res1 s1 :
  let res0 := VsnfsdReaddirres (drdr_count resp) (vsnfserr VSNFS_OK) buf room None in
  vsnfsd_readdir (drda_fh argp) res0 s = Done ((err, res1), s1) →
  let res' := if decide (err ≠ 0 ∧ drdr_err res1 = vsnfserr VSNFS_OK) then set_err res1 err else res1 in
  vsnfsd_proc_readdir argp resp s =
    Done ((err, VsnfsdReaddirres ((p_off (drdr_buffer res') - p_off buf) / 4) (drdr_err res')
             (drdr_buffer res') (drdr_buflen res') (drdr_offset res')), s1).
Proof using Hcount.
  intros res0 E. unfold vsnfsd_proc_readdir. cbv zeta.
  rewrite (room_of_count (drda_count argp)) by done. fold room buf res0. by mstep E.
Qed.

(** A directory that cannot be opened. *)
Lemma readdir_not_opened resp :
  ino = 0 ∨ (ino ≠ 0 ∧ g !! ino = Some path ∧ zlen path < VSNFS_MAXPATHLEN ∧
             ∃ e, filp_open path O_RDONLY = inl e) →
  ∃ st res' s', vsnfsd_proc_readdir argp resp s = Done ((vsnfserr st, res'), s') ∧
    st ≠ VSNFS_OK ∧ server_rel s' (Some g) ∧ clean s s'.
Proof using A Km K KL X XL Hok Hrel Hino Hcount.
  intros Hcase.
  assert (∃ st m', st ≠ VSNFS_OK ∧ scratch [] (s_mem s) m' ∧
    vsnfsd_open (drda_fh argp) O_RDONLY s = Done ((vsnfserr st, None), set_mem m' s))
    as (st & m' & Hst & S1 & E1).
  { destruct Hcase as [->|(H0 & Hg & Hz & e & Ho)].
    - destruct (vsnfsd_open_unknown s g (drda_fh argp) O_RDONLY 0) as (m' & ? & ?); eauto.
      by exists VSNFSERR_NOENT, m'.
    - destruct (vsnfsd_open_known s g (drda_fh argp) O_RDONLY ino path) as (m' & S1 & E); [done..|].
      rewrite Ho in E. by exists VSNFSERR_IO, m'. }
  destruct s as [m0 t d fl fs rv] eqn:Es. unfold set_mem in E1. simpl in *.
  destruct (scratch_server_rel m0 m' (Some g) t d fl fs rv rv S1 Hrel) as [Hrel' Hc].
  eexists st, _, _. split; [|split_and!; [done|exact Hrel'|exact Hc]].
  rewrite <-Es in E1 |- *. eapply proc_readdir_run. unfold vsnfsd_readdir. mstep E1.
  by rewrite decide_True by by rewrite vsnfserr_0.
Qed.

(** A path that does not fit into the buffer of [vsnfsd_open]. *)
Lemma readdir_too_long resp :
  ino ≠ 0 → g !! ino = Some path → VSNFS_MAXPATHLEN ≤ zlen path →
  vsnfsd_proc_readdir argp resp s = Oops OutOfBounds.
Proof using A Km K KL X XL Hok Hrel Hino.
  intros H0 Hg Hz. unfold vsnfsd_proc_readdir, vsnfsd_readdir. cbv zeta.
  apply bind_Oops, bind_Oops. by eapply vsnfsd_open_too_long.
Qed.

Section opened.
Context (f : Z) (H0 : ino ≠ 0) (Hg : g !! ino = Some path).
Context (Hlen : zlen path < VSNFS_MAXPATHLEN) (Hopen : filp_open path O_RDONLY = inr f).
Context (Hbuf : in_bounds (s_mem s) (drda_buffer argp) (Z.max 8 (drda_count argp))).
Context (Hout : p_blk (drda_buffer argp) ∉ table_blocks s).
Context (Hnames : names_in (drda_buffer argp) (s_mem s) (dir_entries f)).
Let sent := walk room (dir_entries f).*2.

(** A directory that is opened: its entries are written, and it is closed. *)
Lemma readdir_opened resp :
  let ret := readdir_result f (stop_ret sent.2) in
  ∃ s' res' err, vsnfsd_proc_readdir argp resp s = Done ((err, res'), s') ∧
    err = (if decide (ret < 0) then vsnfserrno ret else vsnfserr VSNFS_OK) ∧
    server_rel s' (Some g) ∧ clean_but [p_blk buf] s s' ∧
    (0 ≤ ret → has_bytes (s_mem s') buf (wire_entries (link sent.1 (next_offset sent.2))) ∧
       drdr_buffer res' = buf +p 4 * words sent.1 ∧ drdr_err res' = stop_err sent.2) ∧
    (∀ n, in_bounds (s_mem s) buf n → in_bounds (s_mem s') buf n).
Proof using A Km K KL X XL Hok Hrel Hino H0 Hg Hlen Hopen Hcount Hbuf Hout Hnames.
  intros ret.
  destruct (vsnfsd_open_known s g (drda_fh argp) O_RDONLY ino path)
    as (m1 & S1 & E1); [done..|]. rewrite Hopen in E1.
  set (res0 := VsnfsdReaddirres (drdr_count resp) (vsnfserr VSNFS_OK) buf room None).
  assert (0 ≤ room) as Hr by (unfold room, room_of; lia).
  assert (filled buf m1 [] res0 room) as Hf.
  { split; try done; simpl; [|by rewrite padd_0|].
    - apply (has_bytes_upd_nil m1 buf). eapply scratch_in_bounds; [done|].
      eapply in_bounds_mono; [|exact Hbuf]. lia.
    - eapply scratch_in_bounds; [done|]. eapply in_bounds_mono; [|exact Hbuf].
      unfold room, room_of. Z.div_mod_to_equations. lia. }
  assert (names_in buf m1 (dir_entries f)) as Hn1.
  { eapply Forall_impl; [exact Hnames|]. intros [nm d] (? & ? & ?). split_and!; [|done|done].
    by eapply scratch_has_bytes. }
  pose proof (fill_all_spec buf (dir_entries f) [] m1 res0 room Hf Hn1 Hr) as Hfill.
  fold sent in Hfill. unfold ret. clear ret. destruct sent as [l st]. simpl in *.
  destruct Hfill as (m2 & res2 & E2 & [B2 P2 Er2 W2]).
  set (s2 := SState m2 (s_tab s) (s_drefs s) (s_files s) (s_fs s) (s_reserved s)).
  assert (server_rel s2 (Some g) ∧ clean_but [p_blk buf] s s2) as [Hrel2 Hcl2].
  { unfold s2. clear Hino Hcount Hbuf Hnames E1. destruct s as [m0 t d fl fs rv]. simpl in *.
    destruct W2 as [->|T2]; [|by eapply touch_server_rel].
    destruct (scratch_server_rel m0 m1 (Some g) t d fl fs rv rv S1 Hrel) as [? Hc].
    split; [done|]. by eapply clean_weaken; [|exact Hc]; set_solver. }
  set (ret := readdir_result f (stop_ret st)).
  set (err := if decide (ret < 0) then vsnfserrno ret else vsnfserr VSNFS_OK).
  assert (vsnfsd_readdir (drda_fh argp) res0 s = Done ((err, res2), s2)) as E.
  { unfold vsnfsd_readdir. mstep E1. rewrite decide_False by (rewrite vsnfserr_OK; auto). mrun.
    rewrite vfs_readdir_spec. simpl s_mem. rewrite (bind_Done _ _ _ _ _ E2).
    mrun. mstep vsnfsd_close_spec; [done|]. done. }
  eexists s2, _, err. split; [exact (proc_readdir_run resp _ _ _ E)|].
  split_and!; [done|exact Hrel2|exact Hcl2| |].
  - intros Hret. unfold err. rewrite (decide_False (P := ret < 0)) by (unfold ret; lia). rewrite vsnfserr_OK.
    rewrite (decide_False (P := 0 ≠ 0 ∧ _)) by naive_solver. by split_and!.
  - intros n Hn. simpl in *. assert (in_bounds m1 buf n) by by eapply scratch_in_bounds.
    destruct W2 as [->|T2]; [done|]. by eapply touches_in_bounds.
Qed.
End opened.
End known.

Lemma store32_0 m p : in_bounds m p 4 → store32 p 0 m = Done (tt, upd m p (be32 0)).
Proof. intros Hb. unfold store32. rewrite native32_0. by apply store_bytes_spec. Qed.

Lemma encode_readdirres_spec m r p resp :
  p_blk p = p_blk (iov_base (rq_res_head r)) → in_bounds m (drdr_buffer resp) 8 →
  vsnfssvc_encode_readdirres r p resp m =
    Done ((1, set_page_len (xdr_ressize_check r p).2 (page_offset_of (drdr_buffer resp +p 8))),
          upd m (drdr_buffer resp)
            (wire_end (bool_decide (drdr_err resp = vsnfserr VSNFS_OK)))).
Proof.
  intros Hp Hb. unfold vsnfssvc_encode_readdirres.
  destruct (xdr_ressize_check r p) as [ok r']. cbv zeta iota beta. simpl snd.
  mstep store32_0; [solve_bounds|].
  mstep store32_htonl; [solve_bounds|]. merge_upd. unfold wire_end.
  by case_decide; [rewrite bool_decide_eq_true_2|rewrite bool_decide_eq_false_2].
Qed.

Lemma stop_err_ok st : bool_decide (stop_err st = vsnfserr VSNFS_OK) = bool_decide (st = Complete).
Proof.
  rewrite vsnfserr_OK. apply bool_decide_ext. destruct st; simpl; rewrite vsnfserr_0; by split.
Qed.

(** What is sent fits into the count. *)
Lemma listing_fits count es :
  4 * words (walk (room_of (Z.min count PAGE_SIZE)) es).1 + 8 ≤ Z.max 8 (Z.min count PAGE_SIZE).
Proof.
  set (sent := walk _ es). pose proof PAGE_SIZE_range.
  destruct (walk_prefix (room_of (Z.min count PAGE_SIZE)) es sent.1 sent.2)
    as (rest & _ & _ & Hfit); [by rewrite <-surjective_pairing|].
  specialize (Hfit ltac:(unfold room_of; lia)). unfold room_of in Hfit.
  Z.div_mod_to_equations. lia.
Qed.

(** The status and the end marker, written after the entries. *)
Lemma listing_written s s1 g rp pg x e :
  clean_but [p_blk pg] s s1 → server_rel s1 (Some g) →
  p_blk rp ∉ table_blocks s → p_blk pg ∉ table_blocks s → p_blk rp ≠ p_blk pg →
  live (s_mem s) (p_blk rp) → live (s_mem s) (p_blk pg) →
  in_bounds (s_mem s1) rp 4 → has_bytes (s_mem s1) pg x →
  in_bounds (s_mem s1) (pg +p zlen x) (zlen e) →
  let m2 := upd (s_mem s1) rp (be32 0) in
  let m3 := upd m2 (pg +p zlen x) e in
  in_bounds m2 (pg +p zlen x) (zlen e) ∧
  server_rel (set_mem m3 s1) (Some g) ∧ clean_but [p_blk pg; p_blk rp] s (set_mem m3 s1) ∧
  has_bytes m3 rp (be32 0) ∧ has_bytes m3 pg (x ++ e).
Proof.
  intros Hc Hr Hrt Hpt Hne Lr Lp Br Bx Be m2 m3.
  pose proof (touches_upd (s_mem s1) rp (be32 0) Br) as T2. fold m2 in T2.
  destruct (write_clean [p_blk pg] (p_blk rp) s s1 (Some g) m2 Hc Hr) as [Hr2 Hc2]; [done..|].
  pose proof (touches_in_bounds _ _ _ _ _ T2 Be) as Be2.
  pose proof (touches_upd m2 _ e Be2 : touches m2 (p_blk pg) m3) as T3.
  destruct (write_clean (p_blk rp :: [p_blk pg]) (p_blk pg) s (set_mem m2 s1) (Some g) m3 Hc2 Hr2)
    as [Hr3 Hc3]; [done|done|by destruct s1|].
  split_and!; [done|exact Hr3| | |].
  - eapply clean_weaken; [|exact Hc3]. intros b. rewrite !elem_of_cons. tauto.
  - eapply touches_has_bytes; [exact T3|done|]. by apply has_bytes_upd.
  - apply has_bytes_app. split; [|by apply has_bytes_upd].
    apply has_bytes_upd_disj; [done| |by eapply touches_has_bytes]. right. simpl. lia.
Qed.

(** A call, dispatched. *)
Lemma readdir_dispatch s g rqstp statp fh count pg ino path f :
  let sent := walk (room_of (Z.min count PAGE_SIZE)) (dir_entries f).*2 in
  (∀ b, kmalloc_ok b = true) → server_rel s (Some g) → room_for_reply s rqstp →
  fh_wf fh → is_u32 count → args_are s rqstp (wire_readdir fh count) →
  rq_respages rqstp !! rq_resused rqstp = Some pg → p_off pg = 0 →
  in_bounds (s_mem s) pg PAGE_SIZE → p_blk pg ∉ table_blocks s →
  p_blk pg ≠ p_blk (reply_at rqstp) →
  fh_strtoul fh = Done ino → ino ≠ 0 → g !! ino = Some path → zlen path < VSNFS_MAXPATHLEN →
  filp_open path O_RDONLY = inr f → names_in pg (s_mem s) (dir_entries f) →
  0 ≤ readdir_result f (stop_ret sent.2) →
  ∃ s' rq', vsnfsd_dispatch svc_readdir rqstp statp s = Done ((1, rq', statp), s') ∧
    server_rel s' (Some g) ∧ clean_but [p_blk pg; p_blk (reply_at rqstp)] s s' ∧
    has_bytes (s_mem s') (reply_at rqstp) (be32 0) ∧
    has_bytes (s_mem s') pg (listing_bytes sent) ∧
    iov_len (rq_res_head rq') = iov_len (rq_res_head rqstp) + 4 ∧
    rq_page_len rq' = zlen (listing_bytes sent) ∧
    zlen (listing_bytes sent) ≤ Z.max 8 (Z.min count PAGE_SIZE).
Proof.
  intros sent Hok Hrel [Hout Hlen Hroom] Hfh Hc Hargs Hpg Hp0 Hpin Hpt Hpr Hino H0 Hg Hpl Hopen
    Hnames Hret.
  pose proof PAGE_SIZE_range as HPS. unfold is_u32 in Hc.
  pose proof (args_within _ _ _ Hargs) as Hw. destruct Hargs as [Hargs _].
  unfold wire_readdir in Hw. rewrite zlen_app, zlen_wire_fh, zlen_be32 in Hw by done.
  set (argp := VsnfsdReaddirargs fh (Z.min count PAGE_SIZE) pg).
  destruct (readdir_opened s g argp ino path Hok Hrel Hino) with (f := f) (resp := pc_res0 svc_readdir)
    as (s1 & res1 & err & E1 & Herr & Hrel1 & Hc1 & Hlist & Hib);
    try done; [simpl; lia|simpl|].
  { eapply in_bounds_mono; [|exact Hpin]. lia. }
  destruct (Hlist Hret) as (B1 & P1 & Er1).
  change (walk (room_of (drda_count argp)) (dir_entries f).*2) with sent in Herr.
  rewrite decide_False in Herr by lia. subst err.
  change (walk (room_of (drda_count argp)) (dir_entries f).*2) with sent in B1, P1, Er1.
  change (drda_buffer argp) with pg in B1, P1, Hib.
  pose proof (listing_fits count (dir_entries f).*2 : 4 * words sent.1 + 8 ≤ _) as Hz.
  set (rq1 := set_resused rqstp (S (rq_resused rqstp))). set (rp := reply_at rqstp) in *.
  pose proof (words_nonneg sent.1) as Hwn. pose proof (zlen_link sent.1 (next_offset sent.2)) as Hzl.
  assert (p_blk rp ∉ [p_blk pg]) as Hnb by (intros Hin%list_elem_of_singleton; done).
  pose proof (clean_bounds _ _ _ _ _ Hc1 Hnb Hroom) as Rm1.
  assert (in_bounds (s_mem s1) rp 4) as Rm by solve_bounds.
  pose proof (Hib _ Hpin) as Pin1.
  set (e := wire_end (bool_decide (sent.2 = Complete))).
  destruct (listing_written s s1 g rp pg (wire_entries (link sent.1 (next_offset sent.2))) e)
    as (Bq & Hrel3 & Hc3 & Hb1 & Hb2); try done; [by eapply in_bounds_live|by eapply in_bounds_live| |].
  { rewrite Hzl. change (zlen e) with 8. solve_bounds. }
  rewrite Hzl in Bq, Hrel3, Hc3, Hb1, Hb2. change (zlen e) with 8 in Bq.
  assert (pc_decode svc_readdir rqstp (iov_base (rq_arg_head rqstp)) (pc_args0 svc_readdir) (s_mem s)
    = Done ((1, argp, rq1), s_mem s)) as Hdec by by apply decode_readdirargs_spec.
  pose proof (dispatch_run svc_readdir rqstp statp s argp rq1 _ res1 s1 Hdec E1 Rm) as D.
  cbv zeta in D. change (reply_at rq1) with rp in D.
  rewrite vsnfserr_OK, native32_0 in D. rewrite decide_True in D by done.
  eexists _, _. split; [|split_and!; [exact Hrel3|exact Hc3| | | | |]].
  - rewrite D. clear D. destruct s1 as [m1 t d fl fs rv]. unfold set_mem.
    cbn [s_mem s_tab s_drefs s_files s_fs s_reserved pc_encode svc_readdir].
    mem_step encode_readdirres_spec; [done|by rewrite P1|].
    rewrite P1, Er1, stop_err_ok. reflexivity.
  - simpl. exact Hb1.
  - simpl. exact Hb2.
  - cbn [rq_res_head set_page_len]. rewrite ressize_check_spec by done. simpl. lia.
  - cbn [rq_page_len set_page_len]. rewrite zlen_listing_bytes.
    rewrite page_offset_of_spec; simpl; lia.
  - rewrite zlen_listing_bytes. lia.
Qed.

(** A call that is answered with a status: the directory cannot be opened, or
    listing it fails. *)
Lemma readdir_refused s g rqstp statp fh count pg ino path :
  (∀ b, kmalloc_ok b = true) → server_rel s (Some g) → room_for_reply s rqstp →
  fh_wf fh → is_u32 count → args_are s rqstp (wire_readdir fh count) →
  rq_respages rqstp !! rq_resused rqstp = Some pg → p_off pg = 0 →
  in_bounds (s_mem s) pg PAGE_SIZE → p_blk pg ∉ table_blocks s →
  p_blk pg ≠ p_blk (reply_at rqstp) → fh_strtoul fh = Done ino →
  ino = 0 ∨ ino ≠ 0 ∧ g !! ino = Some path ∧ zlen path < VSNFS_MAXPATHLEN ∧
    match filp_open path O_RDONLY with
    | inl _ => True
    | inr f => names_in pg (s_mem s) (dir_entries f) ∧
        readdir_result f (stop_ret (walk (room_of (Z.min count PAGE_SIZE)) (dir_entries f).*2).2) < 0
    end →
  ∃ st s' rq', st ≠ VSNFS_OK ∧
    vsnfsd_dispatch svc_readdir rqstp statp s = Done ((1, rq', statp), s') ∧
    server_rel s' (Some g) ∧ s_drefs s' = s_drefs s ∧
    has_bytes (s_mem s') (reply_at rqstp) (be32 (stat_code st)) ∧
    iov_len (rq_res_head rq') = iov_len (rq_res_head rqstp) + 4 ∧
    rq_page_len rq' = rq_page_len rqstp.
Proof.
  intros Hok Hrel [Hout Hlen Hroom] Hfh Hc Hargs Hpg Hp0 Hpin Hpt Hpr Hino Hcase.
  pose proof PAGE_SIZE_range as HPS. unfold is_u32 in Hc.
  pose proof (args_within _ _ _ Hargs) as Hw. destruct Hargs as [Hargs _].
  unfold wire_readdir in Hw. rewrite zlen_app, zlen_wire_fh, zlen_be32 in Hw by done.
  set (argp := VsnfsdReaddirargs fh (Z.min count PAGE_SIZE) pg).
  set (rq1 := set_resused rqstp (S (rq_resused rqstp))).
  assert (pc_decode svc_readdir rqstp (iov_base (rq_arg_head rqstp)) (pc_args0 svc_readdir) (s_mem s)
    = Done ((1, argp, rq1), s_mem s)) as Hdec by by apply decode_readdirargs_spec.
  assert (0 ≤ drda_count argp < 2 ^ 31) as Hcount by (simpl; lia).
  assert (∃ st res' s1, vsnfsd_proc_readdir argp (pc_res0 svc_readdir) s = Done ((vsnfserr st, res'), s1) ∧
    st ≠ VSNFS_OK ∧ server_rel s1 (Some g) ∧ clean_but [p_blk pg] s s1) as (st & res' & s1 & E & Hst & Hr1 & Hc1).
  { destruct Hcase as [H0|(H0 & Hg & Hz & Hop)]; [|destruct (filp_open path O_RDONLY) as [e|f] eqn:Ho].
    1, 2: destruct (readdir_not_opened s g argp ino path Hok Hrel Hino Hcount (pc_res0 svc_readdir))
      as (st & res' & s1 & E & Hst & Hr1 & Hc1); [naive_solver|];
      exists st, res', s1; split_and!; try done; (eapply clean_weaken; [|exact Hc1]; set_solver).
    destruct Hop as [Hnames Hneg].
    destruct (readdir_opened s g argp ino path Hok Hrel Hino Hcount f H0 Hg Hz Ho) with (resp := pc_res0 svc_readdir)
      as (s1 & res' & err & E & Herr & Hr1 & Hc1 & _); try done.
    { eapply in_bounds_mono; [|exact Hpin]. simpl. lia. }
    change (drda_count argp) with (Z.min count PAGE_SIZE) in Herr.
    rewrite decide_True in Herr by done.
    destruct (vsnfserrno_status (readdir_result f
      (stop_ret (walk (room_of (Z.min count PAGE_SIZE)) (dir_entries f).*2).2))) as (st & Es & Hst); [lia|].
    exists st, res', s1. rewrite <-Es, <-Herr. by split_and!. }
  assert (p_blk (reply_at rqstp) ∉ [p_blk pg]) as Hnb by (intros Hin%list_elem_of_singleton; done).
  destruct (status_reply svc_readdir rqstp statp s Hout Hroom [p_blk pg] argp rq1 (vsnfserr st) res' s1 (Some g))
    as (s' & rq' & D & H1 & Hc2 & H2 & H3 & H4); try done; [by rewrite vsnfserr_0|].
  exists st, s', rq'. split_and!; try done; [apply Hc2|by rewrite <-status_word].
Qed.

Lemma readdir_unanswered s g rqstp statp fh count pg ino path :
  (∀ b, kmalloc_ok b = true) → server_rel s (Some g) →
  fh_wf fh → is_u32 count → args_are s rqstp (wire_readdir fh count) →
  rq_respages rqstp !! rq_resused rqstp = Some pg → fh_strtoul fh = Done ino → ino ≠ 0 →
  g !! ino = Some path → VSNFS_MAXPATHLEN ≤ zlen path →
  vsnfsd_dispatch svc_readdir rqstp statp s = Oops OutOfBounds.
Proof.
  intros Hok Hrel Hfh Hc Hargs Hpg Hino H0 Hg Hz.
  pose proof (args_within _ _ _ Hargs) as Hw. destruct Hargs as [Hargs _].
  unfold wire_readdir in Hw. rewrite zlen_app, zlen_wire_fh, zlen_be32 in Hw by done.
  eapply dispatch_fault; [by apply decode_readdirargs_spec|].
  exact (readdir_too_long s g (VsnfsdReaddirargs fh (Z.min count PAGE_SIZE) pg) ino path Hok Hrel
    Hino _ H0 Hg Hz).
Qed.

(** C7: READDIR of a directory of the table, as it arrives on the wire, answers
    OK, and the page holds the listing that the specification gives: the
    entries that fit into the byte count, in order, each with the offset of the
    next, then the end marker with the flag that says whether these were all.
    The reply is never longer than the count allows, nothing is written outside
    the page and the reply's head, and the directory has been closed. *)
Theorem readdir_served s g rqstp statp fh count pg ino path f :
  let sent := walk (room_of (Z.min count PAGE_SIZE)) (dir_entries f).*2 in
  (∀ b, kmalloc_ok b = true) → server_rel s (Some g) → room_for_reply s rqstp →
  fh_wf fh → is_u32 count → args_are s rqstp (wire_readdir fh count) →
  rq_respages rqstp !! rq_resused rqstp = Some pg → p_off pg = 0 →
  in_bounds (s_mem s) pg PAGE_SIZE → p_blk pg ∉ table_blocks s →
  p_blk pg ≠ p_blk (reply_at rqstp) →
  fh_strtoul fh = Done ino → ino ≠ 0 → g !! ino = Some path → zlen path < VSNFS_MAXPATHLEN →
  filp_open path O_RDONLY = inr f → names_in pg (s_mem s) (dir_entries f) →
  0 ≤ readdir_result f (stop_ret sent.2) →
  ∃ s' rq', vsnfsd_dispatch svc_readdir rqstp statp s = Done ((1, rq', statp), s') ∧
    server_rel s' (Some g) ∧ clean_but [p_blk pg; p_blk (reply_at rqstp)] s s' ∧
    has_bytes (s_mem s') (reply_at rqstp) (be32 0) ∧
    has_bytes (s_mem s') pg (listing_bytes sent) ∧
    rq_page_len rq' = zlen (listing_bytes sent) ∧
    zlen (listing_bytes sent) ≤ Z.max 8 (Z.min count PAGE_SIZE).
Proof.
  intros sent Hok Hrel Hroom Hfh Hc Hargs Hpg Hp0 Hpin Hpt Hpr Hino H0 Hg Hpl Hopen Hnames Hret.
  destruct (readdir_dispatch s g rqstp statp fh count pg ino path f)
    as (s' & rq' & E & H1 & H2 & H3 & H4 & _ & H5); try done. by exists s', rq'.
Qed.
End readdir.

(** ** An example: a directory with two entries *)
Definition ex_entries : list (ptr * dirent) :=
  [ (Ptr 30 0, Dirent [x62] 1 7 8); (Ptr 31 0, Dirent [x63; x63] 2 9 4) ].
Definition ex_dir_kernel : ServerKernel :=
  kernel_ref [KFile ex_dirpath (InodeInfo 2 S_IFDIR)] (λ _, ex_entries) (λ _, []).
Definition ex_readdir_wire : list byte := wire_readdir (dla_fh ex_lookup) 64.
Definition ex_dir_server : sstate :=
  SState (mem_of [(10%positive, zeros 32); (11%positive, ex_dirpath ++ [NUL]);
                  (20%positive, ex_readdir_wire); (21%positive, zeros 64);
                  (22%positive, zeros 4096); (30%positive, [x62]); (31%positive, [x63; x63])])
    (Some [ex_node]) [] [] USER_DS 0.
Definition ex_readdir_rqst : svc_rqst :=
  SvcRqst (Kvec (Ptr 20 0) 16) (Kvec (Ptr 21 0) 24) [Ptr 22 0] 0 0.

(** Sixty-four bytes have room for one of them. *)
Lemma readdir_served_witness :
  let sent := ([Dirent [x62] 1 7 8], NoRoom 2) in
  ∃ s' rq', vsnfsd_dispatch (A := x86_64)
      (svc_readdir (A := x86_64) (Km := kmem_ref []) (K := ex_dir_kernel)
         (X := sunrpc_ref (H := x86_64)))
      ex_readdir_rqst 0 ex_dir_server = Done ((1, rq', 0), s') ∧
    server_rel s' (Some ex_table) ∧ clean_but [22%positive; 21%positive] ex_dir_server s' ∧
    has_bytes (s_mem s') (Ptr 21 24) (be32 0) ∧
    has_bytes (s_mem s') (Ptr 22 0) (listing_bytes (A := x86_64) (K := ex_dir_kernel) sent) ∧
    rq_page_len rq' = zlen (listing_bytes (A := x86_64) (K := ex_dir_kernel) sent) ∧
    zlen (listing_bytes (A := x86_64) (K := ex_dir_kernel) sent) ≤ 64.
Proof.
  exact (readdir_served (A := x86_64) (Km := kmem_ref []) (K := ex_dir_kernel)
    (X := sunrpc_ref (H := x86_64)) ex_dir_server ex_table ex_readdir_rqst 0 (dla_fh ex_lookup) 64
    (Ptr 22 0) 2 ex_dirpath 2 ltac:(done)
    ltac:(apply ex_rel_of; [apply mem_of_wf; repeat constructor|split_and!; by_eval])
    ltac:(split; [by_eval|by_eval|by_eval]) ltac:(by_eval) ltac:(by_eval) ltac:(split; by_eval)
    ltac:(done) ltac:(done) ltac:(by_eval) ltac:(by_eval) ltac:(by_eval) ltac:(done) ltac:(done)
    ltac:(done) ltac:(by_eval) ltac:(done) ltac:(repeat constructor; by_eval) ltac:(by_eval)).
Defined.
