(* ===== verification/RpcApi.v ===== *)
(** * RpcApi: the interface to the kernel's RPC client

    [rpc_call_sync] belongs to the kernel.  It is a field of [RpcClient], and
    [RpcClientLaws] states how it is documented to use a procedure of the
    program: it sets up the buffers of the call, lets the procedure encode its
    arguments, sends them, receives the results into the reply buffer and the
    pages the encoder asked for, lets the procedure decode them, and releases
    its buffers.  What the other end answers is the field [exchange].
    [rpc_ref] implements the interface. *)
From Stdlib Require Import Strings.Byte.
From S2P Require Import Prelude Mem Frame CString Protocol Sunrpc.

(** A [struct rpc_procinfo]; [p_statidx] and [p_name] only serve statistics. *)
Record rpc_procinfo (Args Res : Type) : Type := RpcProcinfo {
  p_proc : Z;
  p_encode : rpc_rqst → ptr → Args → M mem (Z * rpc_rqst);
  p_decode : rpc_rqst → ptr → Res → M mem (Z * rpc_rqst * Res);
  p_arglen : Z;
  p_replen : Z;
}.
Arguments RpcProcinfo {Args Res}.
Arguments p_proc {Args Res}.
Arguments p_encode {Args Res}.
Arguments p_decode {Args Res}.
Arguments p_arglen {Args Res}.
Arguments p_replen {Args Res}.

Class RpcClient : Type := {
  (* what a client handle gets back for a procedure and its argument bytes: an
     error of the transport, or the bytes of the results *)
  exchange : Z → Z → list byte → Z + list byte;
  (* whether a call can be set up *)
  rpc_ready : Z → mem → bool;
  rpc_call_sync : ∀ Args Res, Z → rpc_procinfo Args Res → Args → Res → M mem (Z * Res);
}.
Arguments rpc_call_sync {_ Args Res}.

(** The bytes [w] are what the encoder put into the send buffer after [p]. *)
Definition sent (p : ptr) (req : rpc_rqst) (m : mem) (w : list byte) : Prop :=
  has_bytes m p w ∧ p_off p + zlen w = p_off (iov_base (rq_svec req)) + rq_slen req.

Section calls.
Context `{X : SunrpcXdr}.

(** Where a reply goes: without pages all of it into the head; with pages the
    head takes what is left of its length after the RPC header, the pages the
    rest. *)
Definition split_reply (req : rpc_rqst) (body : list byte) : list byte * list byte :=
  match xb_pages (rq_rcv_buf req) with
  | None => (body, [])
  | Some _ =>
      let n := Z.to_nat (iov_len (xb_head (rq_rcv_buf req))
                         - 4 * (RPC_REPHDRSIZE + rq_au_rslack req)) in
      (take n body, take (Z.to_nat (xb_page_len (rq_rcv_buf req))) (drop n body))
  end.
Definition recv_at (req : rpc_rqst) : option ptr :=
  (λ pg, pg +p xb_page_base (rq_rcv_buf req)) <$> xb_pages (rq_rcv_buf req).
Definition recv_pages (req : rpc_rqst) (pg : list byte) (m : mem) : mem :=
  match recv_at req with Some q => upd m q pg | None => m end.
Definition pages_fit (req : rpc_rqst) (pg : list byte) (m : mem) : Prop :=
  match recv_at req with Some q => in_bounds m q (zlen pg) | None => True end.

(** The call has been set up: [m0] is [m] with the call's blocks [B], and there
    is room for the arguments at [p]. *)
Record call_ready (B : list positive) (m m0 : mem) (arglen : Z) (req : rpc_rqst) (p : ptr)
    : Prop := CallReady {
  cr_scratch : scratch B m m0;
  cr_own : p_blk p ∈ B;
  cr_svec : p_blk p = p_blk (iov_base (rq_svec req));
  cr_room : in_bounds m0 p (4 * arglen);
  cr_header : 0 ≤ RPC_REPHDRSIZE + rq_au_rslack req < 2 ^ 16;
  cr_head_only : xb_pages (rq_rcv_buf req) = None;
}.

(** The reply has been received: [m2] is [m1] with the results at [q], in a
    block of the call, and in the pages. *)
Record reply_ready (B : list positive) (m1 m2 : mem) (replen : Z) (req : rpc_rqst)
    (hd pg : list byte) (q : ptr) : Prop := ReplyReady {
  rr_own : p_blk q ∈ B;
  rr_room : in_bounds m2 q (4 * replen);
  rr_head : has_bytes m2 q hd;
  rr_pages : agree B (recv_pages req pg m1) m2;
  rr_next : m_next m2 = m_next m1;
}.

(** The call has given back its blocks. *)
Record returned (B : list positive) (m m' : mem) : Prop := Returned {
  rt_own b : b ∈ B → m_blocks m' !! b = None;
  rt_agree : agree B m m';
  rt_next : (m_next m ≤ m_next m')%positive;
}.

(** What a call that was set up at [req], [p] returns. *)
Definition call_outcome `{R : RpcClient} {Args Res} (B : list positive) (clnt : Z)
    (info : rpc_procinfo Args Res) (args : Args) (res : Res) (m m0 : mem)
    (req : rpc_rqst) (p : ptr) : Prop :=
  ∀ req' m1 w,
    p_encode info req p args m0 = Done ((0, req'), m1) → touches m0 (p_blk p) m1 →
    sent p req' m1 w →
    match exchange clnt (p_proc info) w with
    | inl e => ∃ m', rpc_call_sync clnt info args res m = Done ((e, res), m') ∧ returned B m1 m'
    | inr body =>
        let '(hd, pg) := split_reply req' body in
        zlen hd ≤ 4 * p_replen info → pages_fit req' pg m1 →
        (∀ q, recv_at req' = Some q → p_blk q ∉ B) →
        ∃ q m2, reply_ready B m1 m2 (p_replen info) req' hd pg q ∧
          ∀ st req'' res' m3,
            p_decode info req' q res m2 = Done ((st, req'', res'), m3) →
            ∃ m', rpc_call_sync clnt info args res m = Done ((st, res'), m') ∧ returned B m3 m'
    end.
End calls.

Class RpcClientLaws `{X : SunrpcXdr} (R : RpcClient) : Prop := {
  exchange_err clnt proc w e : exchange clnt proc w = inl e → e < 0;
  rpc_not_ready {Args Res} clnt (info : rpc_procinfo Args Res) args res m :
    mem_wf m → rpc_ready clnt m = false →
    ∃ e m', e < 0 ∧ rpc_call_sync clnt info args res m = Done ((e, res), m') ∧ scratch [] m m';
  rpc_call_spec {Args Res} clnt (info : rpc_procinfo Args Res) args res m :
    mem_wf m → rpc_ready clnt m = true → 0 ≤ p_arglen info → 0 ≤ p_replen info →
    ∃ B m0 req p, call_ready B m m0 (p_arglen info) req p ∧
      call_outcome B clnt info args res m m0 req p;
}.

(** ** Framing of a call *)
Section framing.
Context `{X : SunrpcXdr}.
Implicit Types (m : mem) (B : list positive).

Lemma agree_upd B m p x : p_blk p ∈ B → in_bounds m p (zlen x) → agree B m (upd m p x).
Proof. intros. eapply agree_touches; [done|]. by apply touches_upd. Qed.

Lemma recv_pages_agree B req pg m m1 :
  agree B m m1 → (∀ r, recv_at req = Some r → p_blk r ∉ B) →
  agree B (recv_pages req pg m) (recv_pages req pg m1).
Proof.
  intros Ha Hr b Hb. unfold recv_pages. destruct (recv_at req) as [r|]; [|by apply Ha].
  specialize (Hr r eq_refl).
  pose proof (mem_block_upd m1 r pg (Ptr b 0)) as E1.
  pose proof (mem_block_upd m r pg (Ptr b 0)) as E2. unfold mem_block in *. simpl in *.
  rewrite E1, E2, (Ha b Hb). by rewrite (Ha _ Hr).
Qed.

Lemma recv_pages_next req pg m : m_next (recv_pages req pg m) = m_next m.
Proof. unfold recv_pages. destruct (recv_at req); by rewrite ?m_next_upd. Qed.
Lemma recv_pages_wf req pg m : mem_wf m → mem_wf (recv_pages req pg m).
Proof. unfold recv_pages. destruct (recv_at req); auto with vsnfs. Qed.

(** Memory after a call: what it was, with the pages received. *)
Lemma call_returns B m m0 m1 m2 m3 m' n req req' p pg :
  call_ready B m m0 n req p → touches m0 (p_blk p) m1 →
  (∀ r, recv_at req' = Some r → p_blk r ∉ B) →
  agree B (recv_pages req' pg m1) m2 → m_next m2 = m_next m1 →
  agree B m2 m3 → m_next m3 = m_next m2 → returned B m3 m' →
  scratch [] (recv_pages req' pg m) m'.
Proof.
  intros [Hs Ho _ _ _ _] Ht Hr A12 N2 A23 N3 [R1 R2 R3].
  assert (agree B m m1) as A01.
  { eapply agree_trans; [apply (sc_agree _ _ _ Hs)|]. by eapply agree_touches. }
  assert (m_next m ≤ m_next m')%positive as Hn.
  { pose proof (sc_next _ _ _ Hs). apply touches_next in Ht. lia. }
  pose proof (sc_old _ _ _ Hs) as Hwf.
  assert (agree [] (recv_pages req' pg m) m') as Ha.
  { intros b _. destruct (decide (b ∈ B)) as [Hb|Hb].
    - rewrite R1 by done. symmetry. destruct (_ !! b) eqn:E; [|done].
      assert (b < m_next m)%positive; [|apply (sc_fresh _ _ _ Hs) in Hb; lia].
      rewrite <-(recv_pages_next req' pg). apply (recv_pages_wf req' pg m Hwf). eauto.
    - rewrite R2, A23, A12 by done. by apply (recv_pages_agree B). }
  split; [by apply recv_pages_wf|set_solver|set_solver|done| |].
  - intros b Hb. rewrite (Ha b) in Hb by set_solver. apply recv_pages_wf in Hb; [|done].
    rewrite recv_pages_next in Hb. lia.
  - by rewrite recv_pages_next.
Qed.
End framing.

(** ** An implementation of the interface

    Two blocks per call, one to send from and one to receive into. *)
Section rpc_ref.
Context `{A : Arch}.

Definition call_blocks (m : mem) : list positive := [m_next m; Pos.succ (m_next m)].
Definition call_setup (m : mem) (arglen replen : Z) : mem :=
  Mem (<[m_next m := replicate (Z.to_nat (4 * arglen)) NUL]>
        (<[Pos.succ (m_next m) := replicate (Z.to_nat (4 * replen)) NUL]> (m_blocks m)))
      (Pos.succ (Pos.succ (m_next m))).
Definition call_return (m0 m : mem) : mem :=
  Mem (delete (m_next m0) (delete (Pos.succ (m_next m0)) (m_blocks m))) (m_next m).
Definition call_rqst (m : mem) : rpc_rqst :=
  RpcRqst (Kvec (Ptr (m_next m) 0) 0) 0 (XdrBuf (Kvec (Ptr (Pos.succ (m_next m)) 0) 0) None 0 0) 2.

Definition rpc_call_ref (exch : Z → Z → list byte → Z + list byte) {Args Res}
    (clnt : Z) (info : rpc_procinfo Args Res) (args : Args) (res : Res) : M mem (Z * Res) :=
  m ← get;
  let p := Ptr (m_next m) 0 in let q := Ptr (Pos.succ (m_next m)) 0 in
  put (call_setup m (p_arglen info) (p_replen info));;
  '(e, req) ← p_encode info (call_rqst m) p args;
  if decide (e ≠ 0) then modify (call_return m);; mret (e, res) else
  w ← load_bytes p (p_off (iov_base (rq_svec req)) + rq_slen req - p_off p);
  match exch clnt (p_proc info) w with
  | inl e => modify (call_return m);; mret (e, res)
  | inr body =>
      let '(hd, pg) := split_reply req body in
      store_bytes q hd;;
      match recv_at req with Some q => store_bytes q pg | None => mret tt end;;
      '(st, _, res) ← p_decode info req q res;
      modify (call_return m);; mret (st, res)
  end.
End rpc_ref.

Definition rpc_ref `{Arch} (exch : Z → Z → list byte → Z + list byte) : RpcClient := {|
  exchange := exch;
  rpc_ready _ _ := true;
  rpc_call_sync Args Res := rpc_call_ref exch;
|}.

Section rpc_ref_laws.
Context `{A : Arch}.
Implicit Types (m : mem).

Lemma elem_of_call_blocks m b : b ∈ call_blocks m ↔ b = m_next m ∨ b = Pos.succ (m_next m).
Proof. unfold call_blocks. set_solver. Qed.

Lemma call_return_returned m0 m : returned (call_blocks m0) m (call_return m0 m).
Proof.
  split; simpl; [| |lia].
  - intros b [-> | ->]%elem_of_call_blocks; [by rewrite lookup_delete_eq|].
    by rewrite lookup_delete_ne, lookup_delete_eq by lia.
  - intros b Hb. rewrite elem_of_call_blocks in Hb. simpl.
    by rewrite !lookup_delete_ne by naive_solver.
Qed.

Lemma call_setup_scratch m a r : mem_wf m → scratch (call_blocks m) m (call_setup m a r).
Proof.
  intros Hwf. split; simpl; [done| | | | |lia].
  - intros b [-> | ->]%elem_of_call_blocks; lia.
  - intros b Hin%elem_of_call_blocks. unfold live. simpl. rewrite !lookup_insert.
    destruct Hin as [-> | ->]; repeat case_decide; simplify_eq; eauto.
  - intros b Hnb. simpl. rewrite elem_of_call_blocks in Hnb.
    by rewrite !lookup_insert_ne by naive_solver.
  - intros b. simpl. rewrite !lookup_insert. intros Hs.
    repeat case_decide; try lia. apply Hwf in Hs. lia.
Qed.

Lemma call_setup_bounds m a r :
  0 ≤ a → 0 ≤ r →
  in_bounds (call_setup m a r) (Ptr (m_next m) 0) (4 * a) ∧
  in_bounds (call_setup m a r) (Ptr (Pos.succ (m_next m)) 0) (4 * r).
Proof.
  intros Ha Hr. unfold in_bounds, mem_block, call_setup. simpl.
  rewrite lookup_insert_eq, lookup_insert_ne, lookup_insert_eq by lia.
  rewrite !zlen_replicate. lia.
Qed.

Lemma recv_pages_store req pg m :
  pages_fit req pg m →
  (match recv_at req with Some q => store_bytes q pg | None => mret tt end : M mem unit) m =
    Done (tt, recv_pages req pg m).
Proof.
  unfold pages_fit, recv_pages. destruct (recv_at req); [|done]. apply store_bytes_spec.
Qed.

Lemma rpc_ref_outcome exch {Args Res} clnt (info : rpc_procinfo Args Res) args res m :
  0 ≤ p_arglen info → 0 ≤ p_replen info →
  call_outcome (R := rpc_ref exch) (call_blocks m) clnt info args res m
    (call_setup m (p_arglen info) (p_replen info)) (call_rqst m) (Ptr (m_next m) 0).
Proof.
  intros Ha Hr req' m1 w He Ht [Hw Hl]. simpl.
  set (p := Ptr (m_next m) 0) in *. set (q := Ptr (Pos.succ (m_next m)) 0).
  destruct (call_setup_bounds m (p_arglen info) (p_replen info) Ha Hr) as [_ Hq].
  apply (touches_in_bounds _ _ _ _ _ Ht) in Hq. fold q in Hq.
  assert (∀ m3 (r : Z * Res), (modify (call_return m);; mret r : M mem (Z * Res)) m3 =
    Done (r, call_return m m3)) as Hret by done.
  destruct (exch clnt (p_proc info) w) as [e|body] eqn:Ex.
  { eexists. split; [|apply call_return_returned]. unfold rpc_call_ref. mrun. fold p.
    mstep He. rewrite decide_False by auto. rewrite <-Hl.
    replace (p_off p + zlen w - p_off p) with (zlen w) by lia.
    mstep load_bytes_spec; [done|]. rewrite Ex. apply Hret. }
  destruct (split_reply req' body) as [hd pg] eqn:Es. intros Hh Hpf Hpb.
  assert (in_bounds m1 q (zlen hd)) as Hqh by (eapply in_bounds_mono; [|exact Hq]; zlen_lia).
  set (m2 := recv_pages req' pg (upd m1 q hd)).
  assert (pages_fit req' pg (upd m1 q hd)) as Hpf2.
  { revert Hpf. unfold pages_fit. destruct (recv_at req'); [|done]. by rewrite in_bounds_upd. }
  assert (∀ r n, in_bounds m1 r n → in_bounds m2 r n) as Hin.
  { intros r n Hrn. unfold m2, recv_pages in *. unfold pages_fit in Hpf2.
    destruct (recv_at req'); rewrite ?in_bounds_upd; auto. }
  assert (p_blk q ∈ call_blocks m) as Hqb by (apply elem_of_call_blocks; by right).
  assert (has_bytes m2 q hd) as Hhd.
  { unfold m2, recv_pages, pages_fit in *. destruct (recv_at req') as [r|] eqn:Er;
      [|by apply has_bytes_upd].
    apply has_bytes_upd_disj; [done| |by apply has_bytes_upd]. left. intros Heq.
    apply (Hpb r); [done|]. by rewrite Heq. }
  exists q, m2. split.
  - split; [done|auto|done| |].
    + apply recv_pages_agree; [by apply agree_upd|done].
    + unfold m2, recv_pages. destruct (recv_at req'); by rewrite ?m_next_upd.
  - intros st req'' res' m3 Hd. eexists. split; [|apply call_return_returned].
    unfold rpc_call_ref. mrun. fold p q.
    mstep He. rewrite decide_False by auto. rewrite <-Hl.
    replace (p_off p + zlen w - p_off p) with (zlen w) by lia.
    mstep load_bytes_spec; [done|]. rewrite Ex, Es.
    mstep store_bytes_spec; [done|]. mstep recv_pages_store; [done|].
    mstep Hd. apply Hret.
Qed.

Lemma rpc_ref_laws exch :
  (∀ clnt proc w e, exch clnt proc w = inl e → e < 0) → RpcClientLaws (rpc_ref exch).
Proof.
  intros He. split; [exact He|done|]. intros Args Res clnt info args res m Hwf _ Ha Hr.
  exists (call_blocks m), (call_setup m (p_arglen info) (p_replen info)), (call_rqst m),
    (Ptr (m_next m) 0).
  split; [|by apply rpc_ref_outcome]. split; [by apply call_setup_scratch| |done| |done|done].
  - apply elem_of_call_blocks. by left.
  - by apply call_setup_bounds.
Qed.
End rpc_ref_laws.
