(* ===== verification/ClientProc.v ===== *)
(** * ClientProc: the client's remote procedure calls ([vsnfsProc.c])

    The procedure table of [vsnfsXdr.c], the stubs that call through it, and
    the vector of protocol operations the rest of the client uses. *)
From Stdlib Require Import Strings.Byte.
From S2P Require Import Prelude Mem Frame CString Protocol Sunrpc Wire ClientXdr RpcApi.

(** The tables of operations, by name: the client compares and stores their
    addresses. *)
Inductive inode_operations : Type :=
  | vsnfs_dir_inode_operations
  | vsnfs_file_inode_operations
  | empty_iops.
Inductive dentry_operations : Type := vsnfs_dentry_operations.
#[export] Instance inode_operations_eq_dec : EqDecision inode_operations.
Proof. solve_decision. Defined.
#[export] Instance dentry_operations_eq_dec : EqDecision dentry_operations.
Proof. solve_decision. Defined.

(** A decoder that leaves the request alone. *)
Definition same_req {Res} (dec : rpc_rqst → ptr → Res → M mem (Z * Res))
    (req : rpc_rqst) (p : ptr) (res : Res) : M mem (Z * rpc_rqst * Res) :=
  '(e, res) ← dec req p res; mret (e, req, res).

Section client_procs.
Context `{A : Arch} `{X : SunrpcXdr}.

(** ** The procedure table *)
Definition PROC_NULL : rpc_procinfo vsnfs_nullargs vsnfs_nullres :=
  RpcProcinfo VSNFSPROC_NULL vsnfs_xdr_nullargs (same_req vsnfs_xdr_nullres)
    VSNFS_nullargs_sz VSNFS_nullres_sz.
Definition PROC_GETROOT : rpc_procinfo vsnfs_getrootargs vsnfs_fh :=
  RpcProcinfo VSNFSPROC_GETROOT vsnfs_xdr_getrootargs (same_req vsnfs_xdr_fh)
    VSNFS_getrootargs_sz VSNFS_fh_sz.
Definition PROC_LOOKUP : rpc_procinfo vsnfs_lookupargs vsnfs_fh :=
  RpcProcinfo VSNFSPROC_LOOKUP vsnfs_xdr_lookupargs (same_req vsnfs_xdr_fh)
    VSNFS_lookupargs_sz VSNFS_fh_sz.
Definition PROC_READ : rpc_procinfo vsnfs_readargs vsnfs_readres :=
  RpcProcinfo VSNFSPROC_READ vsnfs_xdr_readargs vsnfs_xdr_readres
    VSNFS_readargs_sz VSNFS_readres_sz.
Definition PROC_READDIR : rpc_procinfo vsnfs_readdirargs unit :=
  RpcProcinfo VSNFSPROC_READDIR vsnfs_xdr_readdirargs
    (same_req (λ req p u, e ← vsnfs_xdr_readdirres req p; mret (e, u)))
    VSNFS_readdirargs_sz VSNFS_readdirres_sz.

Record any_procinfo : Type := AnyProc {
  ap_args : Type;
  ap_res : Type;
  ap_info : rpc_procinfo ap_args ap_res;
}.
(** [vsnfs_procedures], indexed by procedure number; the gaps are zeroed. *)
Definition vsnfs_procedures : list (option any_procinfo) :=
  [ Some (AnyProc _ _ PROC_NULL); Some (AnyProc _ _ PROC_GETROOT); None;
    Some (AnyProc _ _ PROC_READ); None; None; None;
    Some (AnyProc _ _ PROC_READDIR); Some (AnyProc _ _ PROC_LOOKUP) ].
(** [vsnfs_version1]: its number and how many procedures it has. *)
Definition vsnfs_version1 : Z * Z := (1, zlen vsnfs_procedures).

(** ** The stubs

    [clnt] is [server->cl_rpcclient]. *)
Context `{R : RpcClient}.

(** [junk] is what the result structure on the stack held.  Returns the status
    and the value of [*output]. *)
Definition vsnfs_proc_null (clnt : Z) (input : Z) (output : Z) (junk : Z) : M mem (Z * Z) :=
  '(status, res) ← rpc_call_sync clnt PROC_NULL (VsnfsNullargs input) (VsnfsNullres junk);
  mret (status, if decide (status = 0) then nr_dummy res else output).

Definition vsnfs_proc_getroot (clnt : Z) (args : vsnfs_getrootargs) (fh : vsnfs_fh)
    : M mem (Z * vsnfs_fh) :=
  rpc_call_sync clnt PROC_GETROOT args fh.

Definition vsnfs_proc_lookup (clnt : Z) (args : vsnfs_lookupargs) (fh : vsnfs_fh)
    : M mem (Z * vsnfs_fh) :=
  rpc_call_sync clnt PROC_LOOKUP args fh.

(** [fh] is the handle [VSNFS_FH(dentry->d_inode)] points to. *)
Definition vsnfs_proc_readdir (clnt : Z) (fh : vsnfs_fh) (page : ptr) (count : Z) : M mem Z :=
  '(status, _) ← rpc_call_sync clnt PROC_READDIR (VsnfsReaddirargs fh count page) tt;
  mret status.

(** Returns the status and the value of [*pos]. *)
Definition vsnfs_proc_read (clnt : Z) (fh : vsnfs_fh) (page : ptr) (offset count : Z) (junk : Z)
    : M mem (Z * Z) :=
  '(status, resp) ←
    rpc_call_sync clnt PROC_READ (VsnfsReadargs fh (u32 offset) count page) (VsnfsReadres junk);
  mret (status, s32 (rr_count resp)).

(** ** The protocol vector *)
Record vsnfs_rpc_ops : Type := VsnfsRpcOps {
  op_version : Z;
  op_dentry_ops : dentry_operations;
  op_dir_inode_ops : inode_operations;
  op_file_inode_ops : inode_operations;
  op_nullproc : Z → Z → Z → Z → M mem (Z * Z);
  op_getroot : Z → vsnfs_getrootargs → vsnfs_fh → M mem (Z * vsnfs_fh);
  op_lookup : Z → vsnfs_lookupargs → vsnfs_fh → M mem (Z * vsnfs_fh);
  op_readdir : Z → vsnfs_fh → ptr → Z → M mem Z;
  op_read : Z → vsnfs_fh → ptr → Z → Z → Z → M mem (Z * Z);
  op_decode_dirent : ptr → vsnfs_entry → M mem ((Z + ptr) * vsnfs_entry);
}.
Definition vsnfs_clientops : vsnfs_rpc_ops := {|
  op_version := VSNFS_VERSION;
  op_dentry_ops := vsnfs_dentry_operations;
  op_dir_inode_ops := vsnfs_dir_inode_operations;
  op_file_inode_ops := vsnfs_file_inode_operations;
  op_nullproc := vsnfs_proc_null;
  op_getroot := vsnfs_proc_getroot;
  op_lookup := vsnfs_proc_lookup;
  op_readdir := vsnfs_proc_readdir;
  op_read := vsnfs_proc_read;
  op_decode_dirent := vsnfs_decode_dirent;
|}.
End client_procs.

(** ** What a call does *)
Section client_calls.
Context `{A : Arch} `{X : SunrpcXdr} `{XL : !SunrpcXdrLaws X}.
Context `{R : RpcClient} `{RL : !RpcClientLaws R}.
Implicit Types (m : mem) (w body hd pg : list byte) (clnt : Z).

(** The encoder of [info] writes [w] and asks for its results as [recv] says. *)
Definition encodes {Args Res} (info : rpc_procinfo Args Res) (args : Args) m w
    (recv : rpc_rqst → Prop) : Prop :=
  zlen w ≤ 4 * p_arglen info ∧
  ∀ B m0 req p, call_ready B m m0 (p_arglen info) req p →
    ∃ req', p_encode info req p args m0 = Done ((0, req'), upd m0 p w) ∧
      rq_svec req' = rq_svec (adjust_slen req (p +p zlen w)) ∧
      rq_slen req' = rq_slen (adjust_slen req (p +p zlen w)) ∧ recv req'.

(** The decoder of [info] turns the head [hd] of a reply into [st] and [res'],
    and writes at most to that head. *)
Definition decodes {Args Res} (info : rpc_procinfo Args Res) hd (st : Z) (res res' : Res) : Prop :=
  zlen hd ≤ 4 * p_replen info ∧
  ∀ m2 q req, has_bytes m2 q hd → in_bounds m2 q (4 * p_replen info) →
    ∃ req'' m3, p_decode info req q res m2 = Done ((st, req'', res'), m3) ∧
      agree [p_blk q] m2 m3 ∧ m_next m3 = m_next m2.

Lemma sent_adjusted m0 p req req' w :
  p_blk p = p_blk (iov_base (rq_svec req)) → in_bounds m0 p (zlen w) →
  rq_svec req' = rq_svec (adjust_slen req (p +p zlen w)) →
  rq_slen req' = rq_slen (adjust_slen req (p +p zlen w)) → sent p req' (upd m0 p w) w.
Proof.
  intros Hp Hb Hv Hl. split; [by apply has_bytes_upd|].
  rewrite Hv, Hl. erewrite adjust_slen_spec; [|done|done]. simpl. lia.
Qed.

(** A call the transport answers. *)
Lemma call_answered {Args Res} clnt (info : rpc_procinfo Args Res) args res m w body
    (recv : rpc_rqst → Prop) (page : option ptr) hd pg st res' :
  mem_wf m → rpc_ready clnt m = true → 0 ≤ p_arglen info → 0 ≤ p_replen info →
  encodes info args m w recv →
  (∀ req, recv req → recv_at req = page ∧ split_reply req body = (hd, pg)) →
  exchange clnt (p_proc info) w = inr body →
  decodes info hd st res res' →
  match page with Some q => in_bounds m q (zlen pg) | None => True end →
  ∃ m', rpc_call_sync clnt info args res m = Done ((st, res'), m') ∧
        scratch [] (match page with Some q => upd m q pg | None => m end) m'.
Proof.
  intros Hwf Hr Ha Hp [Hw Henc] Hrecv Hx [Hhd Hdec] Hpg.
  destruct (rpc_call_spec clnt info args res m Hwf Hr Ha Hp) as (B & m0 & req & p & Hc & Hout).
  pose proof Hc as [Hs Ho Hsv Hroom Hhdr Hnone].
  destruct (Henc _ _ _ _ Hc) as (req' & He & Hv & Hl & Hrq).
  apply Hrecv in Hrq as [Hat Hsplit].
  assert (in_bounds m0 p (zlen w)) as Hin.
  { eapply in_bounds_mono; [|exact Hroom]. zlen_lia. }
  pose proof (touches_upd _ _ _ Hin) as Ht.
  specialize (Hout _ _ w He Ht (sent_adjusted _ _ _ _ _ Hsv Hin Hv Hl)).
  rewrite Hx, Hsplit in Hout.
  assert (∀ r, recv_at req' = Some r → p_blk r ∉ B) as Hnb.
  { intros r Er. rewrite Er in Hat. subst page. eapply scratch_old; [exact Hs|].
    by eapply in_bounds_live. }
  destruct Hout as (q & m2 & [Q1 Q2 Q3 Q4 Q5] & Hout); [done| |done|].
  { unfold pages_fit. rewrite Hat. destruct page as [r|]; [|done].
    eapply touches_in_bounds; [exact Ht|]. by eapply scratch_in_bounds. }
  destruct (Hdec m2 q req' Q3 Q2) as (req'' & m3 & Ed & A3 & N3).
  destruct (Hout _ _ _ _ Ed) as (m' & Ecall & Hret). exists m'. split; [done|].
  replace (match page with Some q => upd m q pg | None => m end) with (recv_pages req' pg m)
    by (unfold recv_pages; by rewrite Hat; destruct page).
  eapply (call_returns B m m0 _ m2 m3);
    [exact Hc|exact Ht|done|exact Q4|done| |done|exact Hret].
  eapply agree_weaken; [|exact A3]. set_solver.
Qed.

(** A call the transport could not deliver. *)
Lemma call_failed {Args Res} clnt (info : rpc_procinfo Args Res) args res m w recv e :
  mem_wf m → rpc_ready clnt m = true → 0 ≤ p_arglen info → 0 ≤ p_replen info →
  encodes info args m w recv → exchange clnt (p_proc info) w = inl e →
  ∃ m', rpc_call_sync clnt info args res m = Done ((e, res), m') ∧ scratch [] m m'.
Proof.
  intros Hwf Hr Ha Hp [Hw Henc] Hx.
  destruct (rpc_call_spec clnt info args res m Hwf Hr Ha Hp) as (B & m0 & req & p & Hc & Hout).
  pose proof Hc as [Hs Ho Hsv Hroom Hhdr Hnone].
  destruct (Henc _ _ _ _ Hc) as (req' & He & Hv & Hl & _).
  assert (in_bounds m0 p (zlen w)) as Hin.
  { eapply in_bounds_mono; [|exact Hroom]. zlen_lia. }
  pose proof (touches_upd _ _ _ Hin) as Ht.
  specialize (Hout _ _ w He Ht (sent_adjusted _ _ _ _ _ Hsv Hin Hv Hl)). rewrite Hx in Hout.
  destruct Hout as (m' & E & Hret). exists m'. split; [done|].
  assert (∀ m, recv_pages req [] m = m) as Hno
    by (intros; unfold recv_pages, recv_at; by rewrite Hnone).
  rewrite <-(Hno m). eapply (call_returns B m m0 (upd m0 p w) (upd m0 p w) (upd m0 p w));
    [exact Hc|exact Ht| |rewrite Hno; apply agree_refl|done|apply agree_refl|done|exact Hret].
  unfold recv_at. by rewrite Hnone.
Qed.

(** ** The encoders and decoders, as calls use them *)
Definition head_only (req : rpc_rqst) : Prop := xb_pages (rq_rcv_buf req) = None.
Lemma head_only_split req body :
  head_only req → recv_at req = None ∧ split_reply req body = (body, []).
Proof. unfold head_only, recv_at, split_reply. by intros ->. Qed.

(** The status word goes to the head, the rest of the reply to the page. *)
Definition status_then_page (page : ptr) (count : Z) (req : rpc_rqst) : Prop :=
  recv_at req = Some page ∧
  ∀ body, split_reply req body = (take 4 body, take (Z.to_nat count) (drop 4 body)).

Lemma adjust_slen_rcv req p :
  rq_rcv_buf (adjust_slen req p) = rq_rcv_buf req.
Proof. unfold adjust_slen. by destruct (xdr_adjust_iovec _ _). Qed.

Lemma one_page_status req req' page count :
  0 ≤ RPC_REPHDRSIZE + rq_au_rslack req < 2 ^ 16 → is_u32 count →
  rq_au_rslack req' = rq_au_rslack req → rq_rcv_buf req' = one_page req page count →
  status_then_page page count req'.
Proof.
  intros Hh Hc Hs Hb. unfold status_then_page, recv_at, split_reply. rewrite Hb, Hs. simpl.
  rewrite padd_0, (u32_id count) by done. split; [done|]. intros body.
  rewrite Z.shiftl_mul_pow2 by lia. change (2 ^ 2) with 4. unfold VSNFS_readdirres_sz.
  rewrite u32_id by (unfold is_u32; lia).
  by replace (Z.to_nat _) with 4%nat by lia.
Qed.

Lemma call_room B m m0 n req p k :
  call_ready B m m0 n req p → 0 ≤ k ≤ 4 * n → in_bounds m0 p k.
Proof. intros [] Hk. by eapply in_bounds_mono. Qed.
Lemma call_old B m m0 n req p s x :
  call_ready B m m0 n req p → has_bytes m s x → has_bytes m0 s x ∧ p_blk s ≠ p_blk p.
Proof.
  intros [Hs Ho _ _ _ _] Hx. split; [by eapply scratch_has_bytes|]. intros Heq.
  eapply scratch_old; [exact Hs|by eapply has_bytes_live|]. by rewrite Heq.
Qed.

Lemma lookup_encodes m fh s name :
  fh_wf fh → has_bytes m s name → zlen name ≤ VSNFS_MAXNAMLEN →
  encodes PROC_LOOKUP (VsnfsLookupargs fh s (zlen name)) m (wire_lookup fh name) head_only.
Proof.
  intros Hf Hn Hl. unfold VSNFS_MAXNAMLEN in Hl. pose proof (zlen_nonneg name).
  assert (zlen (wire_lookup fh name) ≤ 4 * p_arglen PROC_LOOKUP) as Hz.
  { unfold wire_lookup. rewrite zlen_app, zlen_wire_fh, zlen_xdr_opaque by done.
    change (p_arglen PROC_LOOKUP) with 265. Z.div_mod_to_equations. lia. }
  split; [done|]. intros B m0 req p Hc. destruct (call_old _ _ _ _ _ _ _ _ Hc Hn) as [Hn0 Hne].
  eexists. split; [apply vsnfs_xdr_lookupargs_spec; try done|].
  - lia.
  - eapply call_room; [done|]. zlen_facts. lia.
  - split_and!; [done|done|]. unfold head_only. rewrite adjust_slen_rcv. by destruct Hc.
Qed.

Lemma getroot_encodes m s path :
  has_bytes m s path → zlen path ≤ VSNFS_MAXPATHLEN →
  encodes PROC_GETROOT (VsnfsGetrootargs s (zlen path)) m (wire_getroot path) head_only.
Proof.
  intros Hn Hl. unfold VSNFS_MAXPATHLEN in Hl. pose proof (zlen_nonneg path).
  assert (zlen (wire_getroot path) ≤ 4 * p_arglen PROC_GETROOT) as Hz.
  { unfold wire_getroot. rewrite zlen_xdr_opaque.
    change (p_arglen PROC_GETROOT) with 257. Z.div_mod_to_equations. lia. }
  split; [done|]. intros B m0 req p Hc. destruct (call_old _ _ _ _ _ _ _ _ Hc Hn) as [Hn0 Hne].
  eexists. split; [apply vsnfs_xdr_getrootargs_spec; try done|].
  - lia.
  - eapply call_room; [done|]. zlen_facts. lia.
  - split_and!; [done|done|]. unfold head_only. rewrite adjust_slen_rcv. by destruct Hc.
Qed.

Lemma readdir_encodes m fh count page :
  fh_wf fh → is_u32 count →
  encodes PROC_READDIR (VsnfsReaddirargs fh count page) m (wire_readdir fh count)
    (status_then_page page count).
Proof.
  intros Hf Hc. pose proof (zlen_wire_fh fh Hf) as Hw.
  assert (zlen (wire_readdir fh count) = 16) as Hz
    by (unfold wire_readdir; rewrite zlen_app, Hw; done).
  split; [by rewrite Hz|]. intros B m0 req p Hr. rewrite Hz.
  destruct (vsnfs_xdr_readdirargs_spec m0 req p fh count page Hf)
    as (req' & E & Hv & Hl & Hs & Hb); [by eapply call_room|].
  exists req'. split_and!; [done..|]. eapply one_page_status; try done. by destruct Hr.
Qed.

Lemma read_encodes m fh offset count page :
  fh_wf fh → is_u32 count →
  encodes PROC_READ (VsnfsReadargs fh offset count page) m (wire_read fh offset count)
    (status_then_page page count).
Proof.
  intros Hf Hc. pose proof (zlen_wire_fh fh Hf) as Hw.
  assert (zlen (wire_read fh offset count) = 20) as Hz
    by (unfold wire_read; rewrite !zlen_app, Hw; done).
  split; [by rewrite Hz|]. intros B m0 req p Hr. rewrite Hz.
  destruct (vsnfs_xdr_readargs_spec m0 req p fh offset count page Hf)
    as (req' & E & Hv & Hl & Hs & Hb); [by eapply call_room|].
  exists req'. split_and!; [done..|]. eapply one_page_status; try done. by destruct Hr.
Qed.

(** The procedures that return a handle. *)
Definition returns_fh {Args} (info : rpc_procinfo Args vsnfs_fh) : Prop :=
  p_decode info = same_req vsnfs_xdr_fh ∧ p_replen info = VSNFS_fh_sz.

Lemma fh_decodes {Args} (info : rpc_procinfo Args vsnfs_fh) fh0 fh :
  returns_fh info → fh_wf fh → decodes info (wire_reply 0 (wire_fh fh)) 0 fh0 fh.
Proof.
  intros [Hd Hl] Hf. unfold decodes. rewrite Hd, Hl. split.
  { unfold wire_reply. rewrite zlen_app, zlen_wire_fh, zlen_be32 by done. by vm_compute. }
  intros m2 q req Hh _. eexists _, m2. simpl. split; [|split; [apply agree_refl|done]].
  unfold same_req. mstep vsnfs_xdr_fh_spec; [done|done|]. done.
Qed.

(** A reply that is only a status. *)
Lemma fh_decodes_err {Args} (info : rpc_procinfo Args vsnfs_fh) fh0 st e :
  returns_fh info → s32 st ≠ 0 → vsnfs_stat_to_errno (s32 st) = Done e →
  decodes info (be32 st) e fh0 fh0.
Proof.
  intros [Hd Hl] Hs He. unfold decodes. rewrite Hd, Hl. split; [by vm_compute|].
  intros m2 q req Hh _. eexists _, m2. simpl. split; [|split; [apply agree_refl|done]].
  unfold same_req. mstep vsnfs_xdr_fh_err; [done..|]. done.
Qed.

Lemma readdir_decodes : decodes PROC_READDIR (be32 0) 0 tt tt.
Proof.
  split; [by vm_compute|].
  intros m2 q req Hh _. eexists _, m2. simpl. split; [|split; [apply agree_refl|done]].
  unfold same_req. mrun. mstep vsnfs_xdr_readdirres_spec; [done|]. done.
Qed.
Lemma readdir_decodes_err st e :
  s32 st ≠ 0 → vsnfs_stat_to_errno (s32 st) = Done e → decodes PROC_READDIR (be32 st) e tt tt.
Proof.
  intros Hs He. split; [by vm_compute|].
  intros m2 q req Hh _. eexists _, m2. simpl. split; [|split; [apply agree_refl|done]].
  unfold same_req. mrun. mstep vsnfs_xdr_readdirres_err; [done..|]. done.
Qed.

(** The result structure of a READ keeps what it held. *)
Lemma read_decodes c : decodes PROC_READ (be32 0) 0 (VsnfsReadres c) (VsnfsReadres c).
Proof.
  split; [by vm_compute|]. intros m2 q req Hh Hb. change (4 * p_replen PROC_READ) with 8 in Hb.
  eexists _, (upd m2 (q +p 4) (be32 c)). simpl. split; [|split].
  - unfold vsnfs_xdr_readres. mstep load32_spec; [done|].
    rewrite ntohl_native. change (s32 (u32 0)) with 0. case_lia.
    mstep store32_htonl; [solve_bounds|]. done.
  - apply agree_upd; [set_solver|]. solve_bounds.
  - by rewrite m_next_upd.
Qed.
End client_calls.

(** ** The stubs, on every outcome of a call *)
Section stubs.
Context `{A : Arch} `{X : SunrpcXdr} `{XL : !SunrpcXdrLaws X}.
Context `{R : RpcClient} `{RL : !RpcClientLaws R}.
Implicit Types (m : mem) (clnt : Z).

(** What a call for a handle returns, given what [exchange] does. *)
Inductive fh_answer (fh0 : vsnfs_fh) : Z + list byte → Z → vsnfs_fh → Prop :=
  | fh_answer_ok fh : fh_wf fh → fh_answer fh0 (inr (wire_reply 0 (wire_fh fh))) 0 fh
  | fh_answer_err st e : s32 st ≠ 0 → vsnfs_stat_to_errno (s32 st) = Done e →
      fh_answer fh0 (inr (be32 st)) e fh0
  | fh_answer_fail e : fh_answer fh0 (inl e) e fh0.

Lemma fh_call {Args} clnt (info : rpc_procinfo Args vsnfs_fh) args m w fh0 st fh' :
  mem_wf m → rpc_ready clnt m = true → returns_fh info → 0 ≤ p_arglen info →
  encodes info args m w head_only →
  fh_answer fh0 (exchange clnt (p_proc info) w) st fh' →
  ∃ m', rpc_call_sync clnt info args fh0 m = Done ((st, fh'), m') ∧ scratch [] m m'.
Proof.
  intros Hwf Hr Hi Hl He Ha. assert (0 ≤ p_replen info) by by destruct Hi as [_ ->].
  remember (exchange clnt _ _) as a eqn:Ex. symmetry in Ex.
  destruct Ha as [fh' Hf'|st e Hst Her|e].
  - eapply (call_answered clnt info args fh0 m w _ head_only None (wire_reply 0 (wire_fh fh')) []);
      try done; [intros; by apply head_only_split|by apply fh_decodes].
  - eapply (call_answered clnt info args fh0 m w _ head_only None (be32 st) []);
      try done; [intros; by apply head_only_split|by apply fh_decodes_err].
  - by eapply call_failed.
Qed.

Lemma vsnfs_proc_lookup_spec clnt m fh s name fh0 st fh' :
  mem_wf m → rpc_ready clnt m = true → fh_wf fh → has_bytes m s name →
  zlen name ≤ VSNFS_MAXNAMLEN →
  fh_answer fh0 (exchange clnt VSNFSPROC_LOOKUP (wire_lookup fh name)) st fh' →
  ∃ m', vsnfs_proc_lookup clnt (VsnfsLookupargs fh s (zlen name)) fh0 m = Done ((st, fh'), m') ∧
        scratch [] m m'.
Proof. intros. eapply fh_call; try done. by apply lookup_encodes. Qed.

Lemma vsnfs_proc_getroot_spec clnt m s path fh0 st fh' :
  mem_wf m → rpc_ready clnt m = true → has_bytes m s path → zlen path ≤ VSNFS_MAXPATHLEN →
  fh_answer fh0 (exchange clnt VSNFSPROC_GETROOT (wire_getroot path)) st fh' →
  ∃ m', vsnfs_proc_getroot clnt (VsnfsGetrootargs s (zlen path)) fh0 m = Done ((st, fh'), m') ∧
        scratch [] m m'.
Proof. intros. eapply fh_call; try done. by apply getroot_encodes. Qed.

Lemma vsnfs_proc_readdir_ok clnt m fh page count listing :
  mem_wf m → rpc_ready clnt m = true → fh_wf fh → is_u32 count →
  exchange clnt VSNFSPROC_READDIR (wire_readdir fh count) = inr (wire_reply 0 listing) →
  zlen listing ≤ count → in_bounds m page count →
  ∃ m', vsnfs_proc_readdir clnt fh page count m = Done (0, m') ∧
        scratch [] (upd m page listing) m'.
Proof.
  intros Hwf Hr Hf Hc Ex Hl Hb.
  destruct (call_answered clnt PROC_READDIR (VsnfsReaddirargs fh count page) tt m
    (wire_readdir fh count) (wire_reply 0 listing) (status_then_page page count) (Some page)
    (be32 0) listing 0 tt) as (m' & E & Hs); try done.
  - by apply readdir_encodes.
  - intros req [Hat Hsp]. split; [done|]. rewrite Hsp. unfold wire_reply.
    rewrite take_app_length', drop_app_length' by done. f_equal. apply take_ge.
    unfold zlen in Hl. lia.
  - by apply readdir_decodes.
  - eapply in_bounds_mono; [|done]. zlen_lia.
  - exists m'. split; [|done]. unfold vsnfs_proc_readdir. mstep E. done.
Qed.

Lemma vsnfs_proc_readdir_err clnt m fh page count st e :
  mem_wf m → rpc_ready clnt m = true → fh_wf fh → is_u32 count →
  exchange clnt VSNFSPROC_READDIR (wire_readdir fh count) = inr (be32 st) →
  s32 st ≠ 0 → vsnfs_stat_to_errno (s32 st) = Done e → in_bounds m page count →
  ∃ m', vsnfs_proc_readdir clnt fh page count m = Done (e, m') ∧ scratch [] (upd m page []) m'.
Proof.
  intros Hwf Hr Hf Hc Ex Hst He Hb.
  destruct (call_answered clnt PROC_READDIR (VsnfsReaddirargs fh count page) tt m
    (wire_readdir fh count) (be32 st) (status_then_page page count) (Some page)
    (be32 st) [] e tt) as (m' & E & Hs); try done.
  - by apply readdir_encodes.
  - intros req [Hat Hsp]. split; [done|]. rewrite Hsp. simpl. by rewrite firstn_nil.
  - by apply readdir_decodes_err.
  - eapply in_bounds_mono; [|done]. unfold is_u32 in Hc. zlen_lia.
  - exists m'. split; [|done]. unfold vsnfs_proc_readdir. mstep E. done.
Qed.

Lemma vsnfs_proc_readdir_fail clnt m fh page count e :
  mem_wf m → rpc_ready clnt m = true → fh_wf fh → is_u32 count →
  exchange clnt VSNFSPROC_READDIR (wire_readdir fh count) = inl e →
  ∃ m', vsnfs_proc_readdir clnt fh page count m = Done (e, m') ∧ scratch [] m m'.
Proof.
  intros Hwf Hr Hf Hc Ex.
  destruct (call_failed clnt PROC_READDIR (VsnfsReaddirargs fh count page) tt m
    (wire_readdir fh count) (status_then_page page count) e) as (m' & E & Hs); try done.
  - by apply readdir_encodes.
  - exists m'. split; [|done]. unfold vsnfs_proc_readdir. mstep E. done.
Qed.

(** C37: The client's READ does not return what the server read.  The reply is a
    count and that many bytes of data; the room for the head of the reply is
    that of READDIR, one word, so the count is received as the first four bytes
    of the page and the data are moved by four, losing their end when the file
    fills the page; and the length the caller is given is what the result
    structure on the stack happened to hold, since the decoder writes it to the
    reply instead of reading it. *)
Theorem client_read_shifted clnt m fh page offset count junk n data :
  mem_wf m → rpc_ready clnt m = true → fh_wf fh → is_u32 count → in_bounds m page count →
  exchange clnt VSNFSPROC_READ (wire_read fh (u32 offset) count) =
    inr (wire_reply 0 (be32 n ++ data)) →
  ∃ m', vsnfs_proc_read clnt fh page offset count junk m = Done ((0, s32 junk), m') ∧
    scratch [] (upd m page (take (Z.to_nat count) (be32 n ++ data))) m'.
Proof.
  intros Hwf Hr Hf Hc Hb Ex.
  destruct (call_answered clnt PROC_READ (VsnfsReadargs fh (u32 offset) count page) (VsnfsReadres junk) m
    (wire_read fh (u32 offset) count) (wire_reply 0 (be32 n ++ data)) (status_then_page page count)
    (Some page) (be32 0) (take (Z.to_nat count) (be32 n ++ data)) 0 (VsnfsReadres junk))
    as (m' & E & Hs); try done.
  - by apply read_encodes.
  - intros req [Hat Hsp]. split; [done|]. rewrite Hsp. unfold wire_reply.
    by rewrite take_app_length', drop_app_length' by done.
  - apply read_decodes.
  - eapply in_bounds_mono; [|exact Hb]. unfold is_u32 in Hc. unfold zlen. rewrite length_take. lia.
  - exists m'. split; [|done]. unfold vsnfs_proc_read. mstep E. done.
Qed.
End stubs.

(** A server that read two bytes; a stack that held 99. *)
Lemma client_read_shifted_witness :
  let R := rpc_ref (H := x86_64) (λ _ _ _, inr (wire_reply 0 (be32 2 ++ [x68; x69]))) in
  let m := mem_of [(10%positive, replicate 8 x2e)] in
  ∃ m', vsnfs_proc_read (A := x86_64) (X := sunrpc_ref (H := x86_64)) (R := R)
      1 fh_zero (Ptr 10 0) 0 8 99 m = Done ((0, 99), m') ∧
    scratch [] (upd m (Ptr 10 0) [x00; x00; x00; x02; x68; x69]) m'.
Proof.
  exact (client_read_shifted (A := x86_64) (X := sunrpc_ref (H := x86_64))
    (R := rpc_ref (H := x86_64) (λ _ _ _, inr (wire_reply 0 (be32 2 ++ [x68; x69]))))
    (RL := rpc_ref_laws (A := x86_64) (λ _ _ _, inr (wire_reply 0 (be32 2 ++ [x68; x69])))
             ltac:(by intros))
    1 (mem_of [(10%positive, replicate 8 x2e)]) fh_zero (Ptr 10 0) 0 8 99 2 [x68; x69]
    ltac:(apply mem_of_wf; repeat constructor) ltac:(done) ltac:(by_eval) ltac:(by_eval) ltac:(by_eval)
    ltac:(done)).
Defined.
