(* ===== verification/ClientState.v ===== *)
(** * ClientState: what the client module keeps

    The structures of [vsnfs.h] the client uses, its view of an inode and of a
    super block, and its state: kernel memory, the pages it has mapped, the
    inode cache, and the RPC clients it has made.  Handles live in memory, as a [struct vsnfs_fh]. *)
From Stdlib Require Import Strings.Byte.
From S2P Require Import Prelude Mem Frame CString Protocol Sunrpc Wire Handle ClientXdr.
From S2P Require Import RpcApi ClientProc.

Record sockaddr_in : Type := SockaddrIn { sin_family : Z; sin_port : Z; sin_addr : list byte }.

(** [struct vsnfs_server]; [sv_root_fh] is the address of its member
    [root_fh], [sv_self] that of the structure. *)
Record vsnfs_server : Type := VsnfsServer {
  cl_rpcclient : option Z;
  cl_rpc_ops : vsnfs_rpc_ops;
  cl_addr : sockaddr_in;
  cl_addrlen : Z;
  sv_flags : Z;
  sv_timeout : Z;
  sv_ip_addr : list byte;
  sv_server_port : Z;
  sv_mnt_path : option ptr;
  sv_root_fh : ptr;
  sv_self : ptr;
}.
Definition set_rpcclient (s : vsnfs_server) (x : option Z) : vsnfs_server :=
  VsnfsServer x (cl_rpc_ops s) (cl_addr s) (cl_addrlen s)
    (sv_flags s) (sv_timeout s) (sv_ip_addr s) (sv_server_port s) (sv_mnt_path s) (sv_root_fh s) (sv_self s).
Definition set_rpc_ops (s : vsnfs_server) (x : vsnfs_rpc_ops) : vsnfs_server :=
  VsnfsServer (cl_rpcclient s) x (cl_addr s) (cl_addrlen s)
    (sv_flags s) (sv_timeout s) (sv_ip_addr s) (sv_server_port s) (sv_mnt_path s) (sv_root_fh s) (sv_self s).
Definition set_addr (s : vsnfs_server) (x : sockaddr_in) : vsnfs_server :=
  VsnfsServer (cl_rpcclient s) (cl_rpc_ops s) x (cl_addrlen s)
    (sv_flags s) (sv_timeout s) (sv_ip_addr s) (sv_server_port s) (sv_mnt_path s) (sv_root_fh s) (sv_self s).
Definition set_addrlen (s : vsnfs_server) (x : Z) : vsnfs_server :=
  VsnfsServer (cl_rpcclient s) (cl_rpc_ops s) (cl_addr s) x
    (sv_flags s) (sv_timeout s) (sv_ip_addr s) (sv_server_port s) (sv_mnt_path s) (sv_root_fh s) (sv_self s).
Definition set_timeout (s : vsnfs_server) (x : Z) : vsnfs_server :=
  VsnfsServer (cl_rpcclient s) (cl_rpc_ops s) (cl_addr s) (cl_addrlen s)
    (sv_flags s) x (sv_ip_addr s) (sv_server_port s) (sv_mnt_path s) (sv_root_fh s) (sv_self s).
Definition set_ip_addr (s : vsnfs_server) (x : list byte) : vsnfs_server :=
  VsnfsServer (cl_rpcclient s) (cl_rpc_ops s) (cl_addr s) (cl_addrlen s)
    (sv_flags s) (sv_timeout s) x (sv_server_port s) (sv_mnt_path s) (sv_root_fh s) (sv_self s).
Definition set_server_port (s : vsnfs_server) (x : Z) : vsnfs_server :=
  VsnfsServer (cl_rpcclient s) (cl_rpc_ops s) (cl_addr s) (cl_addrlen s)
    (sv_flags s) (sv_timeout s) (sv_ip_addr s) x (sv_mnt_path s) (sv_root_fh s) (sv_self s).
Definition set_mnt_path (s : vsnfs_server) (x : option ptr) : vsnfs_server :=
  VsnfsServer (cl_rpcclient s) (cl_rpc_ops s) (cl_addr s) (cl_addrlen s)
    (sv_flags s) (sv_timeout s) (sv_ip_addr s) (sv_server_port s) x (sv_root_fh s) (sv_self s).

(** Tables of file operations, by name. *)
Inductive file_operations : Type :=
  | vsnfs_dir_operations
  | vsnfs_file_operations
  | empty_fops.
#[export] Instance file_operations_eq_dec : EqDecision file_operations.
Proof. solve_decision. Defined.

(** A [struct inode], as far as the client looks at it; [ci_new] is the flag
    [I_NEW] of [i_state], with the lock it stands for. *)
Record cinode : Type := CInode {
  ci_count : Z;
  ci_new : bool;
  ci_ino : Z;
  ci_flags : Z;
  ci_op : inode_operations;
  ci_fop : file_operations;
  ci_mode : Z;
  ci_size : Z;
  ci_nlink : Z;
  ci_uid : Z;
  ci_gid : Z;
  ci_private : option ptr;
}.

Inductive super_operations : Type := vsnfs_sops.

(** A [struct super_block]; a root dentry is named by its inode's number. *)
Record super_block : Type := SuperBlock {
  s_fs_info : option vsnfs_server;
  s_dev : Z;
  s_blocksize_bits : Z;
  s_blocksize : Z;
  s_magic : Z;
  s_id : list byte;
  s_maxbytes : Z;
  s_op : option super_operations;
  s_root : option Z;
  s_flags : Z;
}.
(** A super block of which only the private information is set. *)
Definition bare_super (server : option vsnfs_server) : super_block :=
  SuperBlock server 0 0 0 0 [] 0 None None 0.

Record cstate : Type := CState {
  c_mem : mem;
  c_kmaps : list positive;
  c_icache : gmap Z cinode;
  c_clnts : list Z;   (* the RPC clients made and not shut down *)
}.
Definition set_cmem (m : mem) (c : cstate) : cstate := CState m (c_kmaps c) (c_icache c) (c_clnts c).
Definition set_kmaps (l : list positive) (c : cstate) : cstate :=
  CState (c_mem c) l (c_icache c) (c_clnts c).
Definition set_icache (i : gmap Z cinode) (c : cstate) : cstate :=
  CState (c_mem c) (c_kmaps c) i (c_clnts c).
Definition set_clnts (l : list Z) (c : cstate) : cstate :=
  CState (c_mem c) (c_kmaps c) (c_icache c) l.
Definition in_cmem {T} (f : M mem T) : M cstate T := zoom c_mem set_cmem f.

(** ** The inline accessors of [vsnfs.h] *)
Definition VSNFS_SB (s : super_block) : M cstate vsnfs_server := deref (s_fs_info s).
Definition VSNFS_FH (inode : cinode) : M cstate ptr := deref (ci_private inode).
Definition VSNFS_CLIENT (sb : super_block) : M cstate Z :=
  server ← VSNFS_SB sb; deref (cl_rpcclient server).
Definition VSNFS_PROTO (sb : super_block) : M cstate vsnfs_rpc_ops :=
  server ← VSNFS_SB sb; mret (cl_rpc_ops server).

(** ** Handles in memory *)
Section handles.
Context `{A : Arch}.

Definition load_fh (p : ptr) : M mem vsnfs_fh :=
  data ← load_bytes p VSNFS_FHSIZE;
  t ← load32 (p +p VSNFS_FHSIZE);
  mret (VsnfsFh data (s32 t)).
Definition store_fh (p : ptr) (fh : vsnfs_fh) : M mem unit := store_bytes p (fh_bytes fh).

Lemma zlen_fh_bytes fh : fh_wf fh → zlen (fh_bytes fh) = 12.
Proof. intros [Hd _]. unfold fh_bytes. by rewrite zlen_app, Hd, zlen_native32. Qed.

Lemma load_fh_spec m p fh : fh_wf fh → has_bytes m p (fh_bytes fh) → load_fh p m = Done (fh, m).
Proof.
  intros [Hd Ht] [H1 H2]%has_bytes_app. unfold load_fh. rewrite <-Hd.
  mstep load_bytes_spec; [done|]. unfold load32. change 4 with (zlen (be32 0)).
  replace (zlen (be32 0)) with (zlen (native32 (fh_type fh))) by by rewrite zlen_native32.
  mstep load_bytes_spec; [done|]. rewrite native_val32_native, s32_u32, s32_id by done.
  by destruct fh.
Qed.
End handles.

(** ** Pages *)
Section pages.
Context `{A : Arch} `{Km : Kmem}.

Definition alloc_page : M cstate (option ptr) := in_cmem (kmalloc PAGE_SIZE).
Definition kmap (page : ptr) : M cstate ptr :=
  modify (λ c, set_kmaps (p_blk page :: c_kmaps c) c);; mret page.
Definition kunmap (page : ptr) : M cstate unit :=
  modify (λ c, set_kmaps (filter (.≠ p_blk page) (c_kmaps c)) c).
(** The last reference to the page. *)
Definition page_cache_release (page : ptr) : M cstate unit := in_cmem (kfree (Some page)).
End pages.

Lemma in_cmem_Done {T} (f : M mem T) c r m :
  f (c_mem c) = Done (r, m) → in_cmem f c = Done (r, set_cmem m c).
Proof. apply zoom_Done. Qed.
Lemma set_cmem_id c : set_cmem (c_mem c) c = c.
Proof. by destruct c. Qed.


(** ** A directory of a mounted file system *)
Section mounted.
Context `{A : Arch} `{X : SunrpcXdr} `{R : RpcClient}.
Implicit Types (c : cstate).

(** The directory [inode] of a mounted file system: its super block names an
    RPC client that works, and its private data are the handle [fh]. *)
Record dir_of (sb : super_block) (inode : cinode) (clnt : Z) (fh : vsnfs_fh) c : Prop := DirOf {
  do_server : ∃ server, s_fs_info sb = Some server ∧ cl_rpcclient server = Some clnt ∧
                        cl_rpc_ops server = vsnfs_clientops;
  do_private : ∃ p, ci_private inode = Some p ∧ has_bytes (c_mem c) p (fh_bytes fh);
  do_fh : fh_wf fh;
  do_mem : mem_wf (c_mem c);
  do_kmaps b : b ∈ c_kmaps c → live (c_mem c) b;
  do_ready m : rpc_ready clnt m = true;
}.

Lemma VSNFS_PROTO_spec sb inode clnt fh c c' :
  dir_of sb inode clnt fh c → VSNFS_PROTO sb c' = Done (vsnfs_clientops, c').
Proof. intros [(sv & H1 & H2 & H3) _ _ _ _ _]. unfold VSNFS_PROTO, VSNFS_SB. by rewrite H1, <-H3. Qed.
Lemma VSNFS_CLIENT_spec sb inode clnt fh c c' :
  dir_of sb inode clnt fh c → VSNFS_CLIENT sb c' = Done (clnt, c').
Proof.
  intros [(sv & H1 & H2 & H3) _ _ _ _ _]. unfold VSNFS_CLIENT, VSNFS_SB. rewrite H1. mrun.
  by rewrite H2.
Qed.

(** It stays one when memory only grows. *)
Lemma dir_of_scratch sb inode clnt fh c m B :
  dir_of sb inode clnt fh c → scratch B (c_mem c) m → dir_of sb inode clnt fh (set_cmem m c).
Proof.
  intros [H1 (p & H2 & H3) H4 H5 H6 H7] Hs. split; simpl; try done.
  - exists p. split; [done|]. by eapply scratch_has_bytes.
  - by apply Hs.
  - intros b Hb%H6. eapply scratch_live; eauto.
Qed.
End mounted.
