(* ===== verification/ClientDirSpec.v ===== *)
(** * ClientDirSpec: what reading a directory gives the caller

    A reply page that holds a listing is handed to the caller's [filldir] entry
    by entry; what is left behind when the listing is not whole or the caller's
    buffer is full; and that the loop ends whatever the page holds. *)
From Stdlib Require Import Strings.Byte.
From S2P Require Import Prelude Mem Frame CString Protocol Sunrpc Wire Handle ClientXdr.
From S2P Require Import RpcApi ClientProc ClientState VfsApi ClientDir.

(** ** The specification *)
Section spec.
Context `{A : Arch} {U : Type} (deliver : U → list byte * Z * Z * Z → Z * U).

(** What the filler is called with for an entry. *)
Definition dargs (e : wentry) : list byte * Z * Z * Z :=
  (we_name e, we_next e, we_ino e, u32 (fh_type (we_fh e))).

(** The caller's buffer after a listing, what is returned, and whether the end
    of the directory was seen. *)
Fixpoint fill_run (u : U) (es : list wentry) (eof : bool) : Z * U * bool :=
  match es with
  | [] => (- EBADCOOKIE, u, false)
  | e :: es =>
      let '(r, u) := deliver u (dargs e) in
      if decide (r < 0) then (r, u, false) else
      if decide (es = [] ∧ eof = true) then (r, u, true) else fill_run u es eof
  end.

(** All entries in turn, for a caller that accepts them. *)
Definition deliver_all (u : U) (es : list wentry) : U :=
  foldl (λ u e, (deliver u (dargs e)).2) u es.
Fixpoint accepts (u : U) (es : list wentry) : Prop :=
  match es with
  | [] => True
  | e :: es => 0 ≤ (deliver u (dargs e)).1 ∧ accepts (deliver u (dargs e)).2 es
  end.

Lemma fill_run_all u es :
  accepts u es → es ≠ [] → ∃ r, 0 ≤ r ∧ fill_run u es true = (r, deliver_all u es, true).
Proof.
  revert u. induction es as [|e es IH]; [done|]. intros u [Hr Ha] _. simpl in *.
  destruct (deliver u (dargs e)) as [r u'] eqn:E. simpl in *. rewrite decide_False by lia.
  destruct es as [|e' es]; [by exists r; rewrite decide_True by done|].
  rewrite decide_False by naive_solver. by apply IH.
Qed.

Lemma fill_run_cut u es :
  accepts u es → fill_run u es false = (- EBADCOOKIE, deliver_all u es, false).
Proof.
  revert u. induction es as [|e es IH]; [done|]. intros u [Hr Ha]. simpl in *.
  destruct (deliver u (dargs e)) as [r u'] eqn:E. simpl in *. rewrite decide_False by lia.
  rewrite decide_False by naive_solver. by apply IH.
Qed.

Definition entry_ok (e : wentry) : Prop :=
  fh_wf (we_fh e) ∧ zlen (we_name e) < 2 ^ 31 ∧ is_u32 (we_ino e) ∧ is_u32 (we_next e).
#[export] Instance entry_ok_dec e : Decision (entry_ok e).
Proof. unfold entry_ok. apply _. Defined.

(** The two words after an entry. *)
Lemma listing_ahead es eof :
  ∃ w0 w1 rest, wire_listing es eof = be32 w0 ++ be32 w1 ++ rest ∧
    eof_flag w0 w1 = if decide (es = [] ∧ eof = true) then 1 else 0.
Proof.
  destruct es as [|e es].
  - exists 0, (Z.b2z eof), []. split; [by rewrite app_nil_r|].
    destruct eof; by vm_compute.
  - exists 1, (we_ino e), (drop 8 (wire_listing (e :: es) eof)). split; [done|].
    rewrite decide_False by naive_solver. done.
Qed.

Lemma wire_listing_cons e es eof :
  wire_listing (e :: es) eof = wire_entry e ++ wire_listing es eof.
Proof. unfold wire_listing. by rewrite wire_entries_cons, <-app_assoc. Qed.

(** A page has room for so many entries. *)
Lemma listing_entries es eof :
  Forall entry_ok es → 28 * Z.of_nat (length es) + 8 ≤ zlen (wire_listing es eof).
Proof.
  induction 1 as [|e es (Hf & _) _ IH]; [by vm_compute|].
  rewrite wire_listing_cons, zlen_app, zlen_wire_entry by done. simpl length.
  assert (0 ≤ (zlen (we_name e) + 3) / 4) by (apply Z.div_pos; zlen_lia). lia.
Qed.
End spec.

(** ** The loop *)
Section loop.
Context `{A : Arch} `{Km : Kmem} `{X : SunrpcXdr} `{XL : !SunrpcXdrLaws X}.
Context {U : Type} (filldir_fn : filldir (cstate * U)) (deliver : U → list byte * Z * Z * Z → Z * U).
Context `{FL : !FilldirLaws filldir_fn deliver}.
Implicit Types (c : cstate) (u : U) (desc : vsnfs_readdir_descriptor).

Lemma in_client_Done {T} (f : M cstate T) c u r c' :
  f c = Done (r, c') → in_client f (c, u) = Done (r, (c', u)).
Proof. intros E. unfold in_client. by rewrite (zoom_Done _ _ _ _ r c'). Qed.
Lemma ulong_u32 z : is_u32 z → ulong z = z.
Proof.
  intros Hz. unfold ulong. apply Z.mod_small. unfold is_u32 in Hz.
  assert (2 ^ 32 ≤ 2 ^ long_bits); [|lia].
  apply Z.pow_le_mono_r; [lia|]. by destruct long_bits_ok as [-> | ->].
Qed.

Lemma dir_decode_entry c u desc p e w0 w1 :
  rd_decode desc = vsnfs_decode_dirent → rd_ptr desc = Some p → entry_ok e →
  has_bytes (c_mem c) p (wire_entry e ++ be32 w0 ++ be32 w1) →
  in_client (dir_decode desc) (c, u) =
    Done ((0, set_rd_ptr (set_rd_entry desc
                (VsnfsEntry (we_ino e) (we_next e) (p +p 12) (zlen (we_name e))
                   (eof_flag w0 w1) (we_fh e))) (Some (p +p zlen (wire_entry e)))), (c, u)).
Proof.
  intros Hd Hp (Hf & Hn & Hi & Ho) Hh. apply in_client_Done. unfold dir_decode. rewrite Hp, Hd. mrun.
  mstep in_cmem_Done; [apply vsnfs_decode_dirent_spec; try done; lia|].
  by rewrite set_cmem_id.
Qed.

Lemma dir_decode_end c u desc p :
  rd_decode desc = vsnfs_decode_dirent → rd_ptr desc = Some p →
  has_bytes (c_mem c) p (be32 0) →
  ∃ desc', in_client (dir_decode desc) (c, u) = Done ((- EBADCOOKIE, desc'), (c, u)) ∧
    rd_page desc' = rd_page desc.
Proof.
  intros Hd Hp Hh. eexists. split; [|shelve].
  apply in_client_Done. unfold dir_decode. rewrite Hp, Hd. mrun.
  mstep in_cmem_Done; [by apply vsnfs_decode_dirent_end|].
  rewrite set_cmem_id. reflexivity.
  Unshelve. done.
Qed.

Lemma entry_name_bytes m p e y :
  has_bytes m p (wire_entry e ++ y) → has_bytes m (p +p 12) (we_name e).
Proof.
  intros Hh. unfold wire_entry, wire_entry_head, xdr_opaque in Hh. rewrite <-!app_assoc in Hh.
  repeat (let Hx := fresh "B" in apply has_bytes_app in Hh as [Hx Hh]).
  rewrite !zlen_be32 in *. use_bytes.
Qed.

(** The loop on a listing delivers its entries as the specification says. *)
Lemma fill_loop_spec es eof c u fuel desc file p :
  rd_decode desc = vsnfs_decode_dirent → rd_ptr desc = Some p →
  has_bytes (c_mem c) p (wire_listing es eof) → Forall entry_ok es → (length es < fuel)%nat →
  let '(r, u', b) := fill_run deliver u es eof in
  ∃ desc', fill_loop filldir_fn fuel desc file (c, u) =
      Done ((r, b, desc', if b then set_pos file 4096 else file), (c, u')) ∧
    rd_page desc' = rd_page desc.
Proof using XL FL.
  revert u fuel desc p. induction es as [|e es IH]; intros u fuel desc p Hd Hp Hh Hok Hfuel;
    destruct fuel as [|fuel]; try (simpl in Hfuel; lia); simpl fill_run.
  { change (wire_listing [] eof) with (be32 0 ++ be32 (Z.b2z eof)) in Hh.
    apply has_bytes_app in Hh as [Hh _].
    destruct (dir_decode_end c u desc p Hd Hp Hh) as (desc' & E & Hpg).
    exists desc'. split; [|done]. simpl fill_loop. by mstep E. }
  apply Forall_cons in Hok as [He Hok]. rewrite wire_listing_cons in Hh.
  destruct (listing_ahead es eof) as (w0 & w1 & rest & Hl & Heof).
  pose proof (entry_name_bytes _ _ _ _ Hh) as Hnm.
  pose proof Hh as [H1 H2]%has_bytes_app.
  assert (has_bytes (c_mem c) p (wire_entry e ++ be32 w0 ++ be32 w1)) as Hent.
  { rewrite Hl in H2. rewrite !app_assoc in H2. apply has_bytes_app in H2 as [H2 _].
    by apply has_bytes_app. }
  pose proof (dir_decode_entry c u desc p e w0 w1 Hd Hp He Hent) as Edec.
  set (desc1 := set_rd_ptr _ _) in Edec.
  destruct He as (Hf & Hn & Hi & Ho).
  pose proof (filldir_reads c u (p +p 12) (we_name e) (we_next e) (we_ino e)
    (u32 (fh_type (we_fh e))) Hnm Hn) as Efill. fold (dargs e) in Efill.
  destruct (deliver u (dargs e)) as [r u'] eqn:Edel. simpl in Efill.
  specialize (IH u' fuel desc1 (p +p zlen (wire_entry e)) Hd eq_refl H2 Hok ltac:(simpl in Hfuel; lia)).
  assert (∀ k, fill_loop filldir_fn (S fuel) desc file (c, u) = k ↔
    (if decide (r < 0) then mret (r, false, desc1, file) else
     if decide (eof_flag w0 w1 = 1) then mret (r, true, desc1, set_pos file 4096)
     else fill_loop filldir_fn fuel desc1 file) (c, u') = k) as Hstep.
  { intros k. simpl fill_loop. erewrite (bind_Done _ _ (c, u)) by exact Edec. cbv beta iota zeta.
    rewrite decide_False by lia. simpl. rewrite ulong_u32 by done.
    rewrite s32_id by (split; zlen_facts; lia).
    by rewrite (bind_Done _ _ _ _ _ Efill). }
  rewrite Heof in Hstep.
  destruct (decide (r < 0)) as [Hr|Hr].
  { exists desc1. rewrite Hstep. done. }
  destruct (decide (es = [] ∧ eof = true)) as [Hend|Hend].
  { exists desc1. rewrite Hstep. done. }
  destruct (fill_run deliver u' es eof) as [[r1 u1] b]. destruct IH as (desc' & E & Hpg).
  exists desc'. rewrite Hstep. split; [exact E|done].
Qed.
End loop.

(** ** Reading a directory *)
Section readdir.
Context `{A : Arch} `{Km : Kmem} `{X : SunrpcXdr} `{XL : !SunrpcXdrLaws X}.
Context `{R : RpcClient} `{RL : !RpcClientLaws R}.
Context {U : Type} (filldir_fn : filldir (cstate * U)) (deliver : U → list byte * Z * Z * Z → Z * U).
Context `{FL : !FilldirLaws filldir_fn deliver}.
Implicit Types (c : cstate) (u : U).

Lemma filter_kmaps (l : list positive) b : b ∉ l → filter (.≠ b) (b :: l) = l.
Proof.
  intros Hb. rewrite filter_cons_False by auto. induction l as [|x l IH]; [done|].
  rewrite filter_cons_True by set_solver. f_equal. apply IH. set_solver.
Qed.

Lemma kmap_page_fresh sb inode clnt fh c : dir_of sb inode clnt fh c → m_next (c_mem c) ∉ c_kmaps c.
Proof. intros [_ _ _ Hwf Hk _] Hs%Hk%Hwf. lia. Qed.

Lemma page_received m m2 x :
  let page := Ptr (m_next m) 0 in
  mem_wf m → in_bounds (alloc m PAGE_SIZE) page (zlen x) →
  scratch [] (upd (alloc m PAGE_SIZE) page x) m2 → scratch [p_blk page] m m2.
Proof.
  intros page Hwf Hb Hs. eapply scratch_trans; [|exact Hs].
  eapply (scratch_touches _ _ _ (p_blk page)); [apply list_elem_of_here|by apply touches_upd|].
  by apply (scratch_alloc []), scratch_refl.
Qed.

Section page.
Context (sb : super_block) (file : cfile) (clnt : Z) (fh : vsnfs_fh) (c : cstate) (u : U).
Context (Hok : ∀ b, kmalloc_ok b = true) (Hdir : dir_of sb (f_inode file) clnt fh c).
Let page : ptr := Ptr (m_next (c_mem c)) 0.

(** What is left behind: nothing, or the page, still mapped. *)
Definition page_freed (c' : cstate) : Prop :=
  scratch [] (c_mem c) (c_mem c') ∧ c_kmaps c' = c_kmaps c ∧ c_icache c' = c_icache c.
Definition page_leaked (c' : cstate) : Prop :=
  scratch [p_blk page] (c_mem c) (c_mem c') ∧ c_kmaps c' = p_blk page :: c_kmaps c ∧
  c_icache c' = c_icache c.

Lemma listing_fuel es eof :
  Forall entry_ok es → zlen (wire_listing es eof) ≤ PAGE_SIZE → (length es < fill_fuel)%nat.
Proof.
  intros Hes Hl. pose proof (listing_entries es eof Hes). unfold fill_fuel.
  assert (Z.of_nat (length es) ≤ PAGE_SIZE / 28) by (apply Z.div_le_lower_bound; lia). lia.
Qed.

(** The page [page], with a listing in it, has been mapped. *)
Lemma do_filldir_spec m2 es eof desc :
  scratch [p_blk page] (c_mem c) m2 → has_bytes m2 page (wire_listing es eof) →
  rd_decode desc = vsnfs_decode_dirent → rd_ptr desc = Some page → rd_page desc = Some page →
  Forall entry_ok es → zlen (wire_listing es eof) ≤ PAGE_SIZE →
  let '(r, u', b) := fill_run deliver u es eof in
  ∃ desc2 c3, vsnfs_do_filldir filldir_fn desc file
        (CState m2 (p_blk page :: c_kmaps c) (c_icache c) (c_clnts c), u) =
      Done ((r, desc2, if b then set_pos file 4096 else file), (c3, u')) ∧
    if b then page_freed c3 else page_leaked c3.
Proof using XL RL FL Km Hok Hdir.
  intros Sp Hpb Hdec Hptr Hpage Hes Hlen. set (c2 := CState _ _ _ _).
  pose proof (kmap_page_fresh _ _ _ _ _ Hdir) as Hfresh.
  pose proof (fill_loop_spec filldir_fn deliver es eof c2 u fill_fuel desc file page Hdec Hptr
    Hpb Hes (listing_fuel es eof Hes Hlen)) as Hloop.
  destruct (fill_run deliver u es eof) as [[r u'] b].
  destruct Hloop as (desc' & Eloop & Hpd). rewrite Hpage in Hpd.
  unfold vsnfs_do_filldir. destruct b.
  - eexists _, _. split.
    + mstep Eloop. mstep in_client_Done; [|done].
      unfold dir_page_release. rewrite Hpd. simpl. mrun. unfold kunmap. mrun.
      mstep in_cmem_Done; [apply kfree_spec; [apply (sc_live _ _ _ Sp); set_solver|done]|]. done.
    + unfold page_freed. simpl. rewrite filter_kmaps by done. split_and!; [|done|done].
      apply (scratch_release [] _ m2 (p_blk page)); [set_solver|exact Sp].
  - eexists _, _. split; [by mstep Eloop|]. by split.
Qed.

Lemma client_readdir_run es eof junk :
  f_pos file = 0 →
  exchange clnt VSNFSPROC_READDIR (wire_readdir fh PAGE_SIZE) =
    inr (wire_reply 0 (wire_listing es eof)) →
  zlen (wire_listing es eof) ≤ PAGE_SIZE → Forall entry_ok es →
  let '(r, u', b) := fill_run deliver u es eof in
  ∃ c', vsnfs_readdir filldir_fn sb file junk (c, u) =
      Done ((if decide (0 < r) then 0 else r, if b then set_pos file 4096 else file), (c', u')) ∧
    if b then page_freed c' else page_leaked c'.
Proof using XL RL FL Hok Hdir.
  intros Hpos Hx Hlen Hes. pose proof PAGE_SIZE_range as HPS.
  destruct (do_private _ _ _ _ _ Hdir) as (fhp & Hpriv & Hfhb).
  pose proof (do_fh _ _ _ _ _ Hdir) as Hfh. pose proof (do_mem _ _ _ _ _ Hdir) as Hwf.
  set (m1 := alloc (c_mem c) PAGE_SIZE).
  assert (in_bounds m1 page PAGE_SIZE) as Hpg by (apply in_bounds_alloc_new; lia).
  assert (in_bounds m1 page (zlen (wire_listing es eof))) as Hpl
    by (eapply in_bounds_mono; [|exact Hpg]; zlen_lia).
  destruct (vsnfs_proc_readdir_ok clnt m1 fh page PAGE_SIZE (wire_listing es eof))
    as (m2 & Erpc & S2); try done; [by apply mem_wf_alloc|apply (do_ready _ _ _ _ _ Hdir)|split; lia|].
  pose proof (page_received (c_mem c) m2 _ Hwf Hpl S2) as Sp.
  assert (has_bytes m2 page (wire_listing es eof)) as Hpb
    by (eapply scratch_has_bytes; [exact S2|by apply has_bytes_upd]).
  set (e0 := VsnfsEntry (e_ino junk) (e_offset junk) (e_name junk) (e_len junk) 0 (e_fh junk)).
  pose proof (do_filldir_spec m2 es eof (ReaddirDesc (Some page) 0 (Some page) 0 e0 vsnfs_decode_dirent 0)
    Sp Hpb eq_refl eq_refl eq_refl Hes Hlen) as Hfill.
  destruct (fill_run deliver u es eof) as [[r u'] b].
  destruct Hfill as (desc2 & c3 & Efill & Hleft). exists c3. split; [|exact Hleft].
  unfold vsnfs_readdir, simple_readdir. rewrite (decide_False (P := f_pos file ≠ 0)) by auto.
  mstep in_client_Done; [by eapply VSNFS_PROTO_spec|]. rewrite Hpos.
  mstep in_client_Done; [eapply in_cmem_Done, kmalloc_Some; apply Hok|].
  mstep in_client_Done; [by eapply VSNFS_PROTO_spec|].
  mstep in_client_Done; [by eapply VSNFS_CLIENT_spec|].
  unfold VSNFS_FH. rewrite Hpriv. mstep in_client_Done; [done|].
  mstep in_client_Done; [eapply in_cmem_Done, load_fh_spec; [done|by apply has_bytes_alloc]|].
  mstep in_client_Done; [eapply in_cmem_Done, Erpc|].
  rewrite decide_False by lia. mstep in_client_Done; [done|]. mstep Efill.
  repeat case_decide; try done; lia.
Qed.

(** A call that fails: the error is returned and the page is lost. *)
Lemma readdir_failed_run e m2 junk :
  f_pos file = 0 → e < 0 →
  vsnfs_proc_readdir clnt fh page PAGE_SIZE (alloc (c_mem c) PAGE_SIZE) = Done (e, m2) →
  vsnfs_readdir filldir_fn sb file junk (c, u) = Done ((e, file), (set_cmem m2 c, u)).
Proof using Hok Hdir.
  intros Hpos He Erpc. destruct (do_private _ _ _ _ _ Hdir) as (fhp & Hpriv & Hfhb).
  pose proof (do_fh _ _ _ _ _ Hdir) as Hfh. pose proof (do_mem _ _ _ _ _ Hdir) as Hwf.
  unfold vsnfs_readdir, simple_readdir. rewrite (decide_False (P := f_pos file ≠ 0)) by auto.
  mstep in_client_Done; [by eapply VSNFS_PROTO_spec|]. rewrite Hpos.
  mstep in_client_Done; [eapply in_cmem_Done, kmalloc_Some; apply Hok|].
  mstep in_client_Done; [by eapply VSNFS_PROTO_spec|].
  mstep in_client_Done; [by eapply VSNFS_CLIENT_spec|].
  unfold VSNFS_FH. rewrite Hpriv. mstep in_client_Done; [done|].
  mstep in_client_Done; [eapply in_cmem_Done, load_fh_spec; [done|by apply has_bytes_alloc]|].
  mstep in_client_Done; [eapply in_cmem_Done, Erpc|].
  rewrite decide_True by lia. mrun. by rewrite decide_True by lia.
Qed.
End page.

(** C8: Reading a directory whose listing the server sent whole hands every
    entry to the caller's filler, each once and in the order of the page, with
    the name's own bytes, marks the file as read to its end, and returns zero;
    the reply page is unmapped and freed and nothing else has changed. *)
Theorem client_readdir_lists sb file clnt fh c u es junk :
  (∀ b, kmalloc_ok b = true) → dir_of sb (f_inode file) clnt fh c → f_pos file = 0 →
  exchange clnt VSNFSPROC_READDIR (wire_readdir fh PAGE_SIZE) =
    inr (wire_reply 0 (wire_listing es true)) →
  zlen (wire_listing es true) ≤ PAGE_SIZE → Forall entry_ok es →
  es ≠ [] → accepts deliver u es →
  ∃ c', vsnfs_readdir filldir_fn sb file junk (c, u) =
      Done ((0, set_pos file 4096), (c', deliver_all deliver u es)) ∧ page_freed c c'.
Proof.
  intros Hok Hd Hp Hx Hl He Hne Ha.
  pose proof (client_readdir_run sb file clnt fh c u Hok Hd es true junk Hp Hx Hl He) as H.
  destruct (fill_run_all deliver u es Ha Hne) as (r & Hr & Erun). rewrite Erun in H.
  destruct H as (c' & E & Hc). exists c'. split; [|done]. rewrite E.
  case_decide; repeat f_equal; lia.
Qed.

(** C36: A listing that is cut short, or empty, does not end the loop by itself:
    the caller has been given every entry of the page, but then the end marker
    is taken for an entry, the call fails with EBADCOOKIE, the file position
    stays at the start, and the reply page stays allocated and mapped. *)
Theorem client_readdir_incomplete sb file clnt fh c u es eof junk :
  (∀ b, kmalloc_ok b = true) → dir_of sb (f_inode file) clnt fh c → f_pos file = 0 →
  exchange clnt VSNFSPROC_READDIR (wire_readdir fh PAGE_SIZE) =
    inr (wire_reply 0 (wire_listing es eof)) →
  zlen (wire_listing es eof) ≤ PAGE_SIZE → Forall entry_ok es →
  eof = false ∨ es = [] → accepts deliver u es →
  ∃ c', vsnfs_readdir filldir_fn sb file junk (c, u) =
      Done ((- EBADCOOKIE, file), (c', deliver_all deliver u es)) ∧ page_leaked c c'.
Proof.
  intros Hok Hd Hp Hx Hl He Hcut Ha.
  pose proof (client_readdir_run sb file clnt fh c u Hok Hd es eof junk Hp Hx Hl He) as H.
  assert (fill_run deliver u es eof = (- EBADCOOKIE, deliver_all deliver u es, false)) as Erun.
  { destruct Hcut as [-> | ->]; [by apply fill_run_cut|done]. }
  rewrite Erun in H. by destruct H as (c' & E & Hc); exists c'.
Qed.
End readdir.

(** ** Termination *)
Section termination.
Context `{A : Arch} `{Km : Kmem} `{X : SunrpcXdr} `{XL : !SunrpcXdrLaws X}.
Context {U : Type} (filldir_fn : filldir (cstate * U)) (deliver : U → list byte * Z * Z * Z → Z * U).
Context `{FL : !FilldirLaws filldir_fn deliver}.
Implicit Types (c : cstate) (u : U) (desc : vsnfs_readdir_descriptor).

(** [ends f s Q]: [f] started in [s] does not run out of fuel, and [Q] holds
    when it returns. *)
Definition ends {S T} (f : M S T) (s : S) (Q : T → S → Prop) : Prop :=
  match f s with Done (a, s') => Q a s' | Oops e => e ≠ OutOfFuel end.

Lemma ends_bind {S T V} (f : M S T) (k : T → M S V) s P Q :
  ends f s P → (∀ a s', P a s' → ends (k a) s' Q) → ends (f ≫= k) s Q.
Proof.
  unfold ends, mbind, M_bind. destruct (f s) as [[a s']|e]; [|done]. intros HP Hk. by apply Hk.
Qed.
Lemma ends_ret {S T} (a : T) (s : S) (Q : T → S → Prop) : Q a s → ends (mret a) s Q.
Proof. done. Qed.
Lemma ends_zoom {S T V} (g : S → T) (p : T → S → S) (f : M T V) s (Q : V → S → Prop) :
  ends f (g s) (λ a t, Q a (p t s)) → ends (zoom g p f) s Q.
Proof. unfold ends, zoom. by destruct (f (g s)) as [[]|]. Qed.

Lemma ends_load m p n : ends (load_bytes p n) m (λ _ m', m' = m ∧ in_bounds m p n).
Proof.
  unfold ends, load_bytes, in_bounds. destruct (mem_block m p) as [b|]; [|done].
  destruct (slice b (p_off p) n) eqn:E; [|done]. split; [done|].
  unfold slice in E. by case_decide.
Qed.
Lemma ends_load32 m p : ends (load32 p) m (λ _ m', m' = m ∧ in_bounds m p 4).
Proof. unfold load32. eapply ends_bind; [apply ends_load|]. intros x m' H. by apply ends_ret. Qed.
Lemma ends_lift {S T} (o : outcome T) (s : S) :
  o ≠ Oops OutOfFuel → ends (lift_outcome o) s (λ _ s', s' = s).
Proof. unfold ends, lift_outcome. destruct o; [done|]. by intros H ->. Qed.

(** An entry takes at least seven words, and one more is read after it. *)
Lemma decode_dirent_ends m p ent :
  ends (vsnfs_decode_dirent p ent) m (λ r m', m' = m ∧
    match r.1 with
    | inl e => e < 0
    | inr q => p_blk q = p_blk p ∧ p_off p + 28 ≤ p_off q ∧ in_bounds m q 4
    end).
Proof.
  unfold vsnfs_decode_dirent. eapply ends_bind; [apply ends_load32|]. intros w ? [-> _]. cbv zeta.
  case_decide; [by apply ends_ret|].
  eapply ends_bind; [apply ends_load32|]. intros ino ? [-> _].
  eapply ends_bind; [apply ends_load32|]. intros len ? [-> _].
  unfold xdr_decode_fhandle. rewrite quadlen_FHSIZE.
  eapply ends_bind.
  { eapply ends_bind; [apply ends_load|]. intros data ? [-> _]. cbv zeta.
    eapply ends_bind; [apply ends_load32|]. intros t ? [-> _].
    apply (ends_ret _ _ (λ r s, s = m ∧ r.1 = p +w 1 +w 1 +w 1 +w XDR_QUADLEN (ntohl len) +w 2 +w 1)).
    done. }
  intros [q fh] ? [-> Hq]. simpl in Hq. subst q.
  eapply ends_bind; [apply ends_load32|]. intros off ? [-> _].
  eapply ends_bind; [apply ends_load32|]. intros w0 ? [-> Hw0].
  eapply (ends_bind _ _ _ (λ _ s, s = m)).
  { case_decide; [|by apply ends_ret].
    eapply ends_bind; [apply ends_load32|]. intros w1 ? [-> _]. by apply ends_ret. }
  intros eof ? ->. apply ends_ret. split; [done|]. simpl.
  pose proof (quadlen_nonneg (ntohl len)). split_and!; [done|simpl; lia|done].
Qed.

Lemma fill_loop_ends fuel c u desc file p blk :
  rd_decode desc = vsnfs_decode_dirent → rd_ptr desc = Some p →
  mem_block (c_mem c) p = Some blk → 0 ≤ zlen blk - p_off p < 28 * Z.of_nat fuel →
  ends (fill_loop filldir_fn fuel desc file) (c, u) (λ _ _, True).
Proof using XL FL.
  revert u desc p. induction fuel as [|fuel IH]; intros u desc p Hd Hp Hb Hf; [lia|].
  cbn [fill_loop]. eapply (ends_bind _ _ _ (λ r s, s = (c, u) ∧ rd_decode r.2 = rd_decode desc ∧
    (0 ≤ r.1 → ∃ q, rd_ptr r.2 = Some q ∧ p_blk q = p_blk p ∧ p_off p + 28 ≤ p_off q ∧
                    in_bounds (c_mem c) q 4))).
  { apply ends_zoom. simpl. unfold dir_decode. rewrite Hp, Hd. mrun.
    unfold deref. mrun.
    eapply ends_bind; [by apply (ends_ret _ _ (λ a s, a = p ∧ s = c))|]. intros ? ? [-> ->].
    eapply (ends_bind _ _ _ (λ r s, s = c ∧ match r.1 with
      | inl e => e < 0
      | inr q => p_blk q = p_blk p ∧ p_off p + 28 ≤ p_off q ∧ in_bounds (c_mem c) q 4 end)).
    { apply ends_zoom. unfold ends. pose proof (decode_dirent_ends (c_mem c) p (rd_entry desc)) as H.
      unfold ends in H. destruct (vsnfs_decode_dirent _ _ _) as [[]|]; [|done].
      destruct H as [-> H]. by rewrite set_cmem_id. }
    intros [r ent] ? [-> Hr]. destruct r as [e|q]; simpl in Hr; apply ends_ret; simpl;
      (split_and!; [done|done|]); [lia|eauto]. }
  intros [status desc1] ? (-> & Hd1 & Hq). simpl in Hd1, Hq. cbv zeta.
  case_decide; [by apply ends_ret|].
  destruct (Hq ltac:(lia)) as (q & Hq1 & Hqb & Hqo & Hqin).
  eapply (ends_bind _ _ _ (λ _ s, ∃ u', s = (c, u'))).
  { unfold ends. edestruct (filldir_total (FilldirLaws := FL)) as [(r & u' & ->)|(f & -> & Hne)]; eauto. }
  intros res ? [u' ->]. repeat (case_decide; [by apply ends_ret|]).
  apply (IH u' desc1 q); [by rewrite Hd1|done| |].
  - unfold mem_block in *. by rewrite Hqb.
  - unfold in_bounds, mem_block in *. rewrite Hqb, Hb in Hqin. lia.
Qed.

(** C14: The loop that hands out the entries ends for every content of the reply
    page, whatever the server sent: one turn per 28 bytes of a page and one
    more are enough.  (It may still run off the page, which is a fault.) *)
Theorem do_filldir_terminates c u desc file page blk :
  rd_decode desc = vsnfs_decode_dirent → rd_ptr desc = Some page → p_off page = 0 →
  mem_block (c_mem c) page = Some blk → zlen blk = PAGE_SIZE →
  vsnfs_do_filldir filldir_fn desc file (c, u) ≠ Oops OutOfFuel.
Proof using XL FL.
  intros Hd Hp Ho Hb Hl. pose proof PAGE_SIZE_range as HPS.
  assert (ends (vsnfs_do_filldir filldir_fn desc file) (c, u) (λ _ _, True)) as H.
  2: { unfold ends in H. destruct (vsnfs_do_filldir _ _ _ _) as [|f]; congruence. }
  unfold vsnfs_do_filldir. eapply ends_bind.
  - eapply fill_loop_ends; [done..|]. rewrite Ho, Hl. unfold fill_fuel.
    pose proof (Z.div_pos PAGE_SIZE 28). Z.div_mod_to_equations. lia.
  - intros [[[r b] desc1] file1] s _. destruct b; [|by apply ends_ret].
    eapply (ends_bind _ _ _ (λ _ _, True)); [|by intros; apply ends_ret].
    unfold in_client, dir_page_release. apply ends_zoom. unfold ends, deref.
    destruct (rd_page desc1) as [pg|]; [|done]. mrun. unfold kunmap. mrun.
    unfold page_cache_release, in_cmem, zoom, kfree, mbind, M_bind. simpl. by repeat case_match; simplify_eq.
Qed.

(** C38: An entry that claims a name longer than the page makes the client read
    outside the page: the length the server sends is not checked. *)
Theorem hostile_entry_faults c u desc file page blk ino len :
  rd_decode desc = vsnfs_decode_dirent → rd_ptr desc = Some page → p_off page = 0 →
  mem_block (c_mem c) page = Some blk → zlen blk = PAGE_SIZE →
  has_bytes (c_mem c) page (be32 1 ++ be32 ino ++ be32 len) → PAGE_SIZE ≤ len < 2 ^ 32 - 3 →
  vsnfs_do_filldir filldir_fn desc file (c, u) = Oops OutOfBounds.
Proof using XL.
  intros Hd Hp Ho Hb Hl Hh Hlen. pose proof PAGE_SIZE_range as HPS.
  repeat (let Hx := fresh "B" in apply has_bytes_app in Hh as [Hx Hh]). rewrite !zlen_be32 in *.
  assert (vsnfs_decode_dirent page (rd_entry desc) (c_mem c) = Oops OutOfBounds) as E.
  { unfold vsnfs_decode_dirent. mstep load32_spec; [use_bytes|].
    rewrite decide_False by by rewrite native_be32_0.
    mstep load32_spec; [use_bytes|]. mstep load32_spec; [use_bytes|].
    rewrite !ntohl_native, (u32_id len), quadlen_spec by (unfold is_u32; lia).
    unfold xdr_decode_fhandle. mrun. apply bind_Oops, load_bytes_oob.
    - unfold mem_block in *. simpl. rewrite Hb. eauto.
    - unfold in_bounds, mem_block in *. simpl. rewrite Hb, Hl. unfold VSNFS_FHSIZE.
      Z.div_mod_to_equations. lia. }
  unfold vsnfs_do_filldir, fill_fuel. cbn [fill_loop]. apply bind_Oops, bind_Oops.
  unfold in_client. apply zoom_Oops. unfold dir_decode. simpl. rewrite Hp, Hd. simpl. mrun.
  apply bind_Oops, zoom_Oops, E.
Qed.
End termination.

(** ** Examples: a client on x86-64 *)
Definition ex_exchange (reply : list byte) : Z → Z → list byte → Z + list byte := λ _ _ _, inr reply.
Definition ex_rpc (reply : list byte) : RpcClient := rpc_ref (H := x86_64) (ex_exchange reply).
Lemma ex_rpc_laws reply : RpcClientLaws (X := sunrpc_ref (H := x86_64)) (ex_rpc reply).
Proof. by apply (rpc_ref_laws (A := x86_64)). Qed.

Definition ex_entry (ino : Z) (name : list byte) (next : Z) : wentry :=
  WEntry ino name (VsnfsFh [x37; x00; x00; x00; x00; x00; x00; x00] 8) next.
Definition ex_es : list wentry := [ex_entry 7 [x62] 2; ex_entry 9 [x63; x63] (u32 (-1))].
Definition ex_dirfh : vsnfs_fh := VsnfsFh [x32; x00; x00; x00; x00; x00; x00; x00] VSNFS_DIR.
Definition ex_inode : cinode :=
  CInode 1 false 2 0 vsnfs_dir_inode_operations vsnfs_dir_operations 0 0 2 0 0 (Some (Ptr 10 0)).
Definition ex_file : cfile := CFile 0 ex_inode.
Definition ex_client : cstate :=
  CState (mem_of [(10%positive, fh_bytes (A := x86_64) ex_dirfh)]) [] ∅ [].
Definition ex_sb (reply : list byte) : super_block :=
  bare_super (Some (VsnfsServer (Some 1)
    (vsnfs_clientops (A := x86_64) (X := sunrpc_ref (H := x86_64)) (R := ex_rpc reply))
    (SockaddrIn 0 0 []) 0 0 0 [] 0 None (Ptr 10 0) (Ptr 10 0))).
Definition ex_junk : vsnfs_entry := VsnfsEntry 0 0 (Ptr 1 0) 0 0 fh_zero.

Lemma ex_dir_of reply :
  dir_of (A := x86_64) (X := sunrpc_ref (H := x86_64)) (R := ex_rpc reply)
    (ex_sb reply) ex_inode 1 ex_dirfh ex_client.
Proof.
  split; [by eexists|exists (Ptr 10 0); split; [done|by_eval]|by_eval| |by intros b Hb; inversion Hb|done].
  apply mem_of_wf. repeat constructor.
Qed.

Lemma client_readdir_lists_witness :
  let reply := wire_reply 0 (wire_listing ex_es true) in
  ∃ c', vsnfs_readdir (A := x86_64) (Km := kmem_ref []) (filldir_ref 10) (ex_sb reply) ex_file
      ex_junk (ex_client, []) =
      Done ((0, set_pos ex_file 4096),
            (c', [([x62], 2, 7, 8); ([x63; x63], u32 (-1), 9, 8)])) ∧
    page_freed ex_client c'.
Proof.
  exact (client_readdir_lists (A := x86_64) (Km := kmem_ref []) (X := sunrpc_ref (H := x86_64))
    (R := ex_rpc (wire_reply 0 (wire_listing ex_es true)))
    (RL := ex_rpc_laws _) (filldir_ref 10) (deliver_ref 10) (ex_sb _) ex_file 1 ex_dirfh
    ex_client [] ex_es ex_junk ltac:(done) (ex_dir_of _) ltac:(done) ltac:(reflexivity)
    ltac:(by_eval) ltac:(repeat constructor; by_eval) ltac:(done) ltac:(by vm_compute)).
Defined.

Lemma client_readdir_incomplete_witness :
  let reply := wire_reply 0 (wire_listing ex_es false) in
  ∃ c', vsnfs_readdir (A := x86_64) (Km := kmem_ref []) (filldir_ref 10) (ex_sb reply) ex_file
      ex_junk (ex_client, []) =
      Done ((- EBADCOOKIE, ex_file),
            (c', [([x62], 2, 7, 8); ([x63; x63], u32 (-1), 9, 8)])) ∧
    page_leaked ex_client c'.
Proof.
  exact (client_readdir_incomplete (A := x86_64) (Km := kmem_ref []) (X := sunrpc_ref (H := x86_64))
    (R := ex_rpc (wire_reply 0 (wire_listing ex_es false)))
    (RL := ex_rpc_laws _) (filldir_ref 10) (deliver_ref 10) (ex_sb _) ex_file 1 ex_dirfh
    ex_client [] ex_es false ex_junk ltac:(done) (ex_dir_of _) ltac:(done) ltac:(reflexivity)
    ltac:(by_eval) ltac:(repeat constructor; by_eval) ltac:(by left) ltac:(by vm_compute)).
Defined.

Definition ex_page (x : list byte) : cstate :=
  CState (mem_of [(20%positive, x ++ zeros (4096 - length x))]) [] ∅ [].
Definition ex_desc : vsnfs_readdir_descriptor :=
  ReaddirDesc (Some (Ptr 20 0)) 0 (Some (Ptr 20 0)) 0 ex_junk
    (vsnfs_decode_dirent (A := x86_64) (X := sunrpc_ref (H := x86_64))) 0.

Lemma do_filldir_terminates_witness :
  vsnfs_do_filldir (A := x86_64) (filldir_ref 10) ex_desc ex_file
    (ex_page (be32 1 ++ be32 7 ++ be32 0), []) ≠ Oops OutOfFuel.
Proof.
  exact (do_filldir_terminates (A := x86_64) (X := sunrpc_ref (H := x86_64))
    (filldir_ref 10) (deliver_ref 10) (ex_page (be32 1 ++ be32 7 ++ be32 0)) [] ex_desc ex_file
    (Ptr 20 0) ((be32 1 ++ be32 7 ++ be32 0) ++ zeros 4084) eq_refl eq_refl eq_refl
    eq_refl ltac:(by vm_compute)).
Defined.

Lemma hostile_entry_faults_witness :
  vsnfs_do_filldir (A := x86_64) (filldir_ref 10) ex_desc ex_file
    (ex_page (be32 1 ++ be32 7 ++ be32 5000), []) = Oops OutOfBounds.
Proof.
  exact (hostile_entry_faults (A := x86_64) (X := sunrpc_ref (H := x86_64))
    (filldir_ref 10) (ex_page (be32 1 ++ be32 7 ++ be32 5000)) [] ex_desc ex_file (Ptr 20 0)
    ((be32 1 ++ be32 7 ++ be32 5000) ++ zeros 4084) 7 5000 eq_refl eq_refl eq_refl
    eq_refl ltac:(by vm_compute) ltac:(by_eval) ltac:(by vm_compute)).
Defined.
