(* ===== verification/ClientInode.v ===== *)
(** * ClientInode: looking up names on the client ([vsnfsClient.c], [vsnfsDir.c])

    From a name to an inode: [vsnfs_do_lookup] asks the server for a handle,
    [vsnfs_fhget] turns a handle into an inode of the VFS's cache, and
    [vsnfs_lookup] ties the result to a dentry.  The cache itself, and binding
    dentries, belong to the kernel: [ClientVfs]. *)
From Stdlib Require Import Strings.Byte.
From S2P Require Import Prelude Mem Frame CString Protocol Sunrpc Wire Handle ClientXdr.
From S2P Require Import RpcApi ClientProc ClientState VfsApi.

(** ** The VFS, as the client uses it *)
Definition set_count (i : cinode) (n : Z) : cinode :=
  CInode n (ci_new i) (ci_ino i) (ci_flags i) (ci_op i) (ci_fop i) (ci_mode i) (ci_size i)
    (ci_nlink i) (ci_uid i) (ci_gid i) (ci_private i).
Definition set_new (i : cinode) (b : bool) : cinode :=
  CInode (ci_count i) b (ci_ino i) (ci_flags i) (ci_op i) (ci_fop i) (ci_mode i) (ci_size i)
    (ci_nlink i) (ci_uid i) (ci_gid i) (ci_private i).

(** The inode number [h] of the mounted file system is now [i]. *)
Definition put_inode (h : Z) (i : cinode) (c : cstate) : cstate :=
  set_icache (<[h := i]> (c_icache c)) c.
(** A load through an inode pointer; inodes are named by their number. *)
Definition get_inode (h : Z) : M cstate cinode := λ c,
  match c_icache c !! h with Some i => Done (i, c) | None => Oops UseAfterFree end.

Class ClientVfs : Type := {
  (* whether an inode can be allocated, and what a new one holds *)
  inode_memory : cstate → bool;
  fresh_inode : Z → cinode;
  iget_locked : Z → M cstate (option Z);
  unlock_new_inode : Z → M cstate unit;
  iput : Z → M cstate unit;
  (* binds a dentry: an error, or the inode the dentry then has *)
  d_materialise_unique : option Z → M cstate (Z + option Z);
}.

Class ClientVfsLaws (V : ClientVfs) : Prop := {
  fresh_inode_spec h :
    ci_new (fresh_inode h) = true ∧ ci_count (fresh_inode h) = 1 ∧ ci_private (fresh_inode h) = None;
  iget_found c h i :
    c_icache c !! h = Some i → ci_new i = false →
    iget_locked h c = Done (Some h, put_inode h (set_count i (ci_count i + 1)) c);
  iget_new c h :
    c_icache c !! h = None → inode_memory c = true →
    iget_locked h c = Done (Some h, put_inode h (fresh_inode h) c);
  iget_nomem c h :
    c_icache c !! h = None → inode_memory c = false → iget_locked h c = Done (None, c);
  unlock_new_inode_spec c h i :
    c_icache c !! h = Some i → unlock_new_inode h c = Done (tt, put_inode h (set_new i false) c);
  iput_dec c h i :
    c_icache c !! h = Some i → 1 < ci_count i →
    iput h c = Done (tt, put_inode h (set_count i (ci_count i - 1)) c);
  (* the last reference: the inode is evicted or stays cached without any *)
  iput_last c h i :
    c_icache c !! h = Some i → ci_count i = 1 →
    iput h c = Done (tt, set_icache (delete h (c_icache c)) c) ∨
    iput h c = Done (tt, put_inode h (set_count i 0) c);
  materialise_spec o c :
    ∃ r, d_materialise_unique o c = Done (r, c) ∧ (r = inr o ∨ ∃ e, r = inl e ∧ e < 0);
}.

(** An implementation: there is memory for inodes or there is none, inodes are
    evicted at once, and every dentry can be bound. *)
Definition vfs_of (memory : bool) : ClientVfs := {|
  inode_memory _ := memory;
  fresh_inode h := CInode 1 true h 0 empty_iops empty_fops 0 0 1 0 0 None;
  iget_locked h c :=
    match c_icache c !! h with
    | Some i => Done (Some h, put_inode h (set_count i (ci_count i + 1)) c)
    | None =>
        if memory
        then Done (Some h, put_inode h (CInode 1 true h 0 empty_iops empty_fops 0 0 1 0 0 None) c)
        else Done (None, c)
    end;
  unlock_new_inode h c :=
    match c_icache c !! h with
    | Some i => Done (tt, put_inode h (set_new i false) c)
    | None => Oops UseAfterFree
    end;
  iput h c :=
    match c_icache c !! h with
    | Some i =>
        Done (tt, if decide (1 < ci_count i) then put_inode h (set_count i (ci_count i - 1)) c
                  else set_icache (delete h (c_icache c)) c)
    | None => Oops UseAfterFree
    end;
  d_materialise_unique o c := Done (inr o, c);
|}.
#[export] Instance vfs_of_laws memory : ClientVfsLaws (vfs_of memory).
Proof.
  split; simpl; try done.
  - by intros c h i -> _.
  - by intros c h -> ->.
  - by intros c h -> ->.
  - by intros c h i ->.
  - intros c h i -> Hi. by rewrite decide_True.
  - intros c h i -> Hi. left. by rewrite decide_False by lia.
  - eauto.
Qed.

Definition vfs_ref : ClientVfs := vfs_of true.
#[export] Instance vfs_ref_laws : ClientVfsLaws vfs_ref := vfs_of_laws true.

Definition S_IRWXUGO : Z := 511.      (* 00777 *)
Definition S_IALLUGO : Z := 4095.     (* 07777 *)
Definition S_NOATIME : Z := 2.
Definition S_NOCMTIME : Z := 128.

(** A [struct dentry]: its name and its operations. *)
Record cdentry : Type := CDentry { d_nm : ptr; d_len : Z; d_op : option dentry_operations }.
Definition set_d_op (d : cdentry) (o : option dentry_operations) : cdentry :=
  CDentry (d_nm d) (d_len d) o.

Section client_inode.
Context `{A : Arch} `{Km : Kmem} `{X : SunrpcXdr} `{V : ClientVfs}.

(** The members [vsnfs_fhget] sets before it looks at the type. *)
Definition init_inode (i : cinode) (hash : Z) (op : inode_operations) : cinode :=
  CInode (ci_count i) (ci_new i) hash (Z.lor (ci_flags i) (Z.lor S_NOATIME S_NOCMTIME)) op
    (ci_fop i) (ci_mode i) (ci_size i) (ci_nlink i) (ci_uid i) (ci_gid i) (ci_private i).
Definition init_reg (i : cinode) : cinode :=
  CInode (ci_count i) (ci_new i) (ci_ino i) (ci_flags i) (ci_op i) vsnfs_file_operations
    (Z.lor S_IFREG S_IRWXUGO) VSNFS_MAXDATA (ci_nlink i) (ci_uid i) (ci_gid i) (ci_private i).
Definition init_dir (i : cinode) (op : inode_operations) : cinode :=
  CInode (ci_count i) (ci_new i) (ci_ino i) (ci_flags i) op vsnfs_dir_operations
    (Z.lor S_IFDIR S_IALLUGO) VSNFS_DIRSIZE 2 (ci_uid i) (ci_gid i) (ci_private i).
Definition init_owner (i : cinode) (fh : ptr) : cinode :=
  CInode (ci_count i) (ci_new i) (ci_ino i) (ci_flags i) (ci_op i) (ci_fop i) (ci_mode i)
    (ci_size i) (ci_nlink i) 0 0 (Some fh).

Definition store_inode (h : Z) (i : cinode) : M cstate unit := modify (put_inode h i).

(** The result is an error or an inode.  An inode of another type is put again,
    but its pointer is returned all the same. *)
Definition vsnfs_fhget (sb : super_block) (fhp : ptr) : M cstate (Z + Z) :=
  fh ← in_cmem (load_fh fhp);
  hash ← lift_outcome (fh_strtoul fh);
  r ← iget_locked hash;
  match r with
  | None => mret (inl (- ENOMEM))
  | Some inode =>
      i ← get_inode inode;
      if ci_new i then
        ops ← VSNFS_PROTO sb;
        let i := init_inode i hash (op_file_inode_ops ops) in
        if decide (fh_type fh = VSNFS_REG) then
          store_inode inode (init_owner (init_reg i) fhp);;
          unlock_new_inode inode;; mret (inr inode)
        else if decide (fh_type fh = VSNFS_DIR) then
          store_inode inode (init_owner (init_dir i (op_dir_inode_ops ops)) fhp);;
          unlock_new_inode inode;; mret (inr inode)
        else
          store_inode inode i;;
          unlock_new_inode inode;;
          iput inode;;
          mret (inr inode)
      else mret (inr inode)
  end.

Definition sizeof_client_lookupargs : Z := c_struct [c_fh; c_ptr; c_int].

(** [name] and [len] are those of the [struct qstr]; the handle found is
    written to [fh], which the caller may pass as NULL. *)
Definition vsnfs_do_lookup (sb : super_block) (dir : cinode) (name : ptr) (len : Z)
    (fh : option ptr) : M cstate Z :=
  match s_fs_info sb with
  | None => oops BugOn
  | Some server =>
      argp ← in_cmem (kmalloc sizeof_client_lookupargs);
      match argp with
      | None => in_cmem (kfree None);; mret (- ENOMEM)
      | Some argp =>
          match ci_private dir with
          | None => oops BugOn
          | Some private =>
              dirfh ← in_cmem (load_fh private);
              let args := VsnfsLookupargs dirfh name len in
              clnt ← deref (cl_rpcclient server);
              fh0 ← match fh with Some p => in_cmem (load_fh p) | None => mret fh_zero end;
              '(ret, fh1) ← in_cmem (op_lookup (cl_rpc_ops server) clnt args fh0);
              match fh with
              | Some p => in_cmem (store_fh p fh1)
              | None => if decide (ret = 0) then oops NullDeref else mret tt
              end;;
              let ret := if decide (ret = 0) then ret else - stat_code VSNFSERR_REMOTE in
              in_cmem (kfree (Some argp));;
              mret ret
          end
      end
  end.

(** The result is an error or the inode the returned dentry is bound to, if
    any, and what [dentry] then is. *)
Definition vsnfs_lookup (sb : super_block) (dir : cinode) (dentry : cdentry)
    : M cstate ((Z + option Z) * cdentry) :=
  newfh ← in_cmem (kmalloc sizeof_vsnfs_fh);
  if decide (VSNFS_MAXNAMLEN < d_len dentry) then mret (inl (- ENAMETOOLONG), dentry) else
  ops ← VSNFS_PROTO sb;
  let dentry := set_d_op dentry (Some (op_dentry_ops ops)) in
  ret ← vsnfs_do_lookup sb dir (d_nm dentry) (d_len dentry) newfh;
  if decide (ret = - ENOENT) then r ← d_materialise_unique None; mret (r, dentry) else
  if decide (ret < 0) then mret (inl ret, dentry) else
  newfh ← deref newfh;
  inode ← vsnfs_fhget sb newfh;
  match inode with
  | inl _ => mret (inl (- EINVAL), dentry)
  | inr inode => r ← d_materialise_unique (Some inode); mret (r, dentry)
  end.
End client_inode.
