(* ===== verification/ClientInodeSpec.v ===== *)
(** * ClientInodeSpec: what looking up a name gives

    The inode cache holds, for every inode number, an inode whose attributes
    are those of the handle it was made from ([icache_ok]); a successful lookup
    adds one or takes another reference, a failed one leaves the cache alone. *)
From Stdlib Require Import Strings.Byte.
From S2P Require Import Prelude Mem Frame CString Protocol Sunrpc Wire Handle ClientXdr.
From S2P Require Import RpcApi ClientProc ClientState VfsApi ClientInode.

(** ** The invariant of the cache *)
Section invariant.
Context `{A : Arch}.

Inductive inode_attrs (t : Z) (i : cinode) : Prop :=
  | attrs_reg : t = VSNFS_REG → ci_op i = vsnfs_file_inode_operations →
      ci_fop i = vsnfs_file_operations → ci_mode i = Z.lor S_IFREG S_IRWXUGO →
      ci_size i = VSNFS_MAXDATA → inode_attrs t i
  | attrs_dir : t = VSNFS_DIR → ci_op i = vsnfs_dir_inode_operations →
      ci_fop i = vsnfs_dir_operations → ci_mode i = Z.lor S_IFDIR S_IALLUGO →
      ci_size i = VSNFS_DIRSIZE → ci_nlink i = 2 → inode_attrs t i.

Definition handle_at (m : mem) (p : ptr) (h t : Z) : Prop :=
  ∃ fh, fh_wf fh ∧ has_bytes m p (fh_bytes fh) ∧ fh_strtoul fh = Done h ∧ fh_type fh = t.

Record inode_ok (m : mem) (h : Z) (i : cinode) : Prop := InodeOk {
  io_ino : ci_ino i = h;
  io_new : ci_new i = false;
  io_count : 0 ≤ ci_count i;
  io_owner : ci_uid i = 0 ∧ ci_gid i = 0;
  io_handle : ∃ p t, ci_private i = Some p ∧ handle_at m p h t ∧ inode_attrs t i;
}.
Definition icache_ok (c : cstate) : Prop := map_Forall (inode_ok (c_mem c)) (c_icache c).

Lemma handle_at_scratch B m m' p h t : scratch B m m' → handle_at m p h t → handle_at m' p h t.
Proof. intros Hs (fh & ? & ? & ? & ?). exists fh. split_and!; try done. by eapply scratch_has_bytes. Qed.
Lemma inode_ok_scratch B m m' h i : scratch B m m' → inode_ok m h i → inode_ok m' h i.
Proof.
  intros Hs [? ? ? ? (p & t & ? & ? & ?)]. split; try done. exists p, t. split_and!; try done.
  by eapply handle_at_scratch.
Qed.
Lemma icache_ok_scratch B c m : scratch B (c_mem c) m → icache_ok c → icache_ok (set_cmem m c).
Proof. intros Hs Hc h i Hi. eapply inode_ok_scratch; [exact Hs|]. by apply Hc. Qed.
Lemma icache_ok_put h i c : inode_ok (c_mem c) h i → icache_ok c → icache_ok (put_inode h i c).
Proof. intros Hi Hc. by apply map_Forall_insert_2. Qed.
Lemma inode_ok_count m h i n : 0 ≤ n → inode_ok m h i → inode_ok m h (set_count i n).
Proof.
  intros Hn [? ? ? ? (p & t & ? & ? & Ha)]. split; try done. exists p, t. split_and!; try done.
  destruct Ha; [by left|by right].
Qed.
End invariant.

(** ** From a handle to an inode *)
Section fhget.
Context `{A : Arch} `{X : SunrpcXdr} `{R : RpcClient} `{V : ClientVfs} `{VL : !ClientVfsLaws V}.
Implicit Types (c : cstate) (fh : vsnfs_fh).

(** The inode [vsnfs_fhget] makes for a new number. *)
Definition made (h : Z) (fh : vsnfs_fh) (p : ptr) : cinode :=
  let i := init_inode (fresh_inode h) h vsnfs_file_inode_operations in
  set_new (init_owner (if decide (fh_type fh = VSNFS_REG) then init_reg i
                       else init_dir i vsnfs_dir_inode_operations) p) false.
Definition reg_or_dir fh : Prop := fh_type fh = VSNFS_REG ∨ fh_type fh = VSNFS_DIR.

Lemma made_ok m h fh p :
  fh_wf fh → has_bytes m p (fh_bytes fh) → fh_strtoul fh = Done h → reg_or_dir fh →
  inode_ok m h (made h fh p) ∧ ci_count (made h fh p) = 1.
Proof.
  intros Hf Hb Hh Ht. destruct (fresh_inode_spec h) as (Hn & Hc & _). unfold made.
  assert (handle_at m p h (fh_type fh)) as Hat by (exists fh; done).
  case_decide as Hr; (split; [split; simpl; try done; try lia|done]);
    exists p, (fh_type fh); (split_and!; [done|done|]); [by left|].
  destruct Ht as [|Ht]; [done|]. by right.
Qed.

Lemma made_attrs h fh p : reg_or_dir fh → inode_attrs (fh_type fh) (made h fh p).
Proof. unfold made. intros [Ht|Ht]; rewrite Ht; [by left|by right]. Qed.
Lemma made_private h fh p : ci_private (made h fh p) = Some p.
Proof. unfold made. by destruct (decide (fh_type fh = VSNFS_REG)). Qed.

Section run.
Context (sb : super_block) (c : cstate) (p : ptr) (fh : vsnfs_fh) (h : Z).
Context (Hwf : fh_wf fh) (Hb : has_bytes (c_mem c) p (fh_bytes fh)) (Hh : fh_strtoul fh = Done h).
Context (Hops : ∀ c', VSNFS_PROTO sb c' = Done (vsnfs_clientops, c')).

Lemma fhget_start :
  vsnfs_fhget sb p c =
    (r ← iget_locked h;
     match r with
     | None => mret (inl (- ENOMEM))
     | Some inode =>
         i ← get_inode inode;
         if ci_new i then
           ops ← VSNFS_PROTO sb;
           let i := init_inode i h (op_file_inode_ops ops) in
           if decide (fh_type fh = VSNFS_REG) then
             store_inode inode (init_owner (init_reg i) p);;
             unlock_new_inode inode;; mret (inr inode)
           else if decide (fh_type fh = VSNFS_DIR) then
             store_inode inode (init_owner (init_dir i (op_dir_inode_ops ops)) p);;
             unlock_new_inode inode;; mret (inr inode)
           else
             store_inode inode i;; unlock_new_inode inode;; iput inode;; mret (inr inode)
         else mret (inr inode)
     end) c.
Proof using Hwf Hb Hh.
  unfold vsnfs_fhget. mstep in_cmem_Done; [by apply load_fh_spec|]. rewrite set_cmem_id.
  rewrite Hh. mrun. done.
Qed.

Lemma get_put i c' : get_inode h (put_inode h i c') = Done (i, put_inode h i c').
Proof. unfold get_inode. simpl. by rewrite lookup_insert_eq. Qed.
Lemma put_put i j c' : put_inode h i (put_inode h j c') = put_inode h i c'.
Proof. unfold put_inode. destruct c'. simpl. by rewrite insert_insert_eq. Qed.

Lemma fhget_found i :
  c_icache c !! h = Some i → ci_new i = false →
  vsnfs_fhget sb p c = Done (inr h, put_inode h (set_count i (ci_count i + 1)) c).
Proof using Hwf Hb Hh VL.
  intros Hi Hn. rewrite fhget_start. mstep iget_found; [done..|]. mstep get_put.
  simpl. by rewrite Hn.
Qed.

Lemma fhget_new :
  c_icache c !! h = None → inode_memory c = true → reg_or_dir fh →
  vsnfs_fhget sb p c = Done (inr h, put_inode h (made h fh p) c).
Proof using Hwf Hb Hh Hops VL.
  intros Hi Hm Ht. destruct (fresh_inode_spec h) as (Hn & _).
  rewrite fhget_start. mstep iget_new; [done..|]. mstep get_put. rewrite Hn.
  mstep Hops. unfold store_inode, made. cbv zeta. simpl op_file_inode_ops. simpl op_dir_inode_ops.
  destruct (decide (fh_type fh = VSNFS_REG)) as [Hr|Hr].
  - mrun. rewrite put_put.
    mstep unlock_new_inode_spec; [apply lookup_insert_eq|]. by rewrite put_put.
  - destruct Ht as [?|Ht]; [done|]. rewrite decide_True by done. mrun. rewrite put_put.
    mstep unlock_new_inode_spec; [apply lookup_insert_eq|]. by rewrite put_put.
Qed.

Lemma fhget_nomem :
  c_icache c !! h = None → inode_memory c = false → vsnfs_fhget sb p c = Done (inl (- ENOMEM), c).
Proof using Hwf Hb Hh VL. intros Hi Hm. rewrite fhget_start. by mstep iget_nomem; [done..|]. Qed.

(** Another type: the inode is returned although its reference is gone. *)
Lemma fhget_other :
  c_icache c !! h = None → inode_memory c = true → ¬ reg_or_dir fh →
  ∃ ic, vsnfs_fhget sb p c = Done (inr h, set_icache ic c) ∧
    (ic !! h = None ∨ ∃ i, ic !! h = Some i ∧ ci_count i = 0 ∧ ci_private i = None).
Proof using Hwf Hb Hh Hops VL.
  intros Hi Hm Ht. destruct (fresh_inode_spec h) as (Hn & Hc & Hpr). unfold reg_or_dir in Ht.
  set (i1 := set_new (init_inode (fresh_inode h) h vsnfs_file_inode_operations) false).
  assert (∀ s', iput h (put_inode h i1 c) = Done (tt, s') →
    vsnfs_fhget sb p c = Done (inr h, s')) as Hrun.
  { intros s' Hp. rewrite fhget_start. mstep iget_new; [done..|]. mstep get_put. rewrite Hn.
    mstep Hops. cbv zeta. rewrite !decide_False by naive_solver. unfold store_inode. mrun.
    rewrite put_put. mstep unlock_new_inode_spec; [apply lookup_insert_eq|]. rewrite put_put.
    mstep Hp. done. }
  destruct (iput_last (put_inode h i1 c) h i1) as [E|E];
    [apply lookup_insert_eq|exact Hc| |]; apply Hrun in E; simpl in E.
  - exists (delete h (<[h:=i1]> (c_icache c))). split; [rewrite E; by destruct c|].
    left. apply lookup_delete_eq.
  - exists (<[h:=set_count i1 0]> (c_icache c)). rewrite put_put in E. split; [done|].
    right. eexists. split; [apply lookup_insert_eq|done].
Qed.
End run.
End fhget.

(** ** Asking the server *)
Section do_lookup.
Context `{A : Arch} `{Km : Kmem} `{X : SunrpcXdr} `{XL : !SunrpcXdrLaws X}.
Context `{R : RpcClient} `{RL : !RpcClientLaws R}.
Implicit Types (c : cstate) (fh : vsnfs_fh) (m : mem).

(** What [vsnfs_do_lookup] makes of the result of the call. *)
Definition lookup_status (st : Z) : Z := if decide (st = 0) then 0 else - stat_code VSNFSERR_REMOTE.

(** Any twelve bytes are a handle. *)
Lemma load_fh_any m p :
  in_bounds m p 12 → ∃ fh, fh_wf fh ∧ has_bytes m p (fh_bytes fh) ∧ load_fh p m = Done (fh, m).
Proof.
  intros (x & _ & Hx & Hh)%load_bytes_in_bounds.
  set (d := take 8 x). set (w := drop 8 x).
  assert (length w = 4%nat) as Hw by (unfold w; rewrite length_drop; unfold zlen in Hx; lia).
  assert (x = fh_bytes (VsnfsFh d (s32 (native_val32 w)))) as Hxe.
  { unfold fh_bytes. simpl. rewrite <-(take_drop 8 x) at 1. f_equal. fold w. by rewrite native32_val. }
  assert (fh_wf (VsnfsFh d (s32 (native_val32 w)))) as Hwf.
  { split; [|apply s32_range]. unfold d, zlen, VSNFS_FHSIZE in *. simpl. rewrite length_take. lia. }
  exists (VsnfsFh d (s32 (native_val32 w))). rewrite <-Hxe. split_and!; [done|done|].
  apply load_fh_spec; [done|]. by rewrite <-Hxe.
Qed.

Lemma sizeof_client_lookupargs_pos : 0 ≤ sizeof_client_lookupargs.
Proof.
  unfold sizeof_client_lookupargs, c_fh, c_ptr. destruct long_bits_ok as [-> | ->]; by vm_compute.
Qed.

Lemma do_lookup_spec sb dir clnt dirfh c nm name p fh0 st fh' :
  (∀ b, kmalloc_ok b = true) → dir_of sb dir clnt dirfh c →
  has_bytes (c_mem c) nm name → zlen name ≤ VSNFS_MAXNAMLEN →
  fh_wf fh0 → has_bytes (c_mem c) p (fh_bytes fh0) → fh_wf fh' →
  fh_answer fh0 (exchange clnt VSNFSPROC_LOOKUP (wire_lookup dirfh name)) st fh' →
  ∃ m', vsnfs_do_lookup sb dir nm (zlen name) (Some p) c = Done (lookup_status st, set_cmem m' c) ∧
        scratch [] (upd (c_mem c) p (fh_bytes fh')) m'.
Proof.
  intros Hok Hd Hnm Hl Hf0 Hp Hf' Ha. pose proof (do_mem _ _ _ _ _ Hd) as Hwf.
  pose proof (do_fh _ _ _ _ _ Hd) as Hdf.
  destruct (do_server _ _ _ _ _ Hd) as (server & Hs & Hcl & Hops).
  destruct (do_private _ _ _ _ _ Hd) as (pr & Hpr & Hprb).
  set (m := c_mem c) in *. set (m1 := alloc m sizeof_client_lookupargs).
  pose proof (scratch_alloc [] m m sizeof_client_lookupargs (scratch_refl m Hwf)) as S1. fold m1 in S1.
  assert (in_bounds m p (zlen (fh_bytes fh'))) as Hpb.
  { rewrite zlen_fh_bytes by done. rewrite <-(zlen_fh_bytes fh0) by done. by apply has_bytes_in_bounds. }
  destruct (vsnfs_proc_lookup_spec clnt m1 dirfh nm name fh0 st fh') as (m2 & Ecall & S2);
    [by apply mem_wf_alloc|apply (do_ready _ _ _ _ _ Hd)|done|by eapply scratch_has_bytes|done|done|].
  pose proof (scratch_trans _ _ _ _ S1 S2) as S12.
  pose proof (scratch_upd _ _ _ p (fh_bytes fh') S12 Hpb) as S3.
  pose proof (scratch_release [] _ _ (m_next m) (not_elem_of_nil _) S3) as S4.
  eexists. split; [|exact S4]. unfold vsnfs_do_lookup. rewrite Hs.
  mstep in_cmem_Done; [apply kmalloc_Some, Hok|]. rewrite Hpr.
  mstep in_cmem_Done; [apply load_fh_spec; [done|exact (scratch_has_bytes _ _ _ _ _ S1 Hprb)]|].
  rewrite Hcl, Hops. mrun.
  mstep in_cmem_Done; [apply load_fh_spec; [exact Hf0|exact (scratch_has_bytes _ _ _ _ _ S1 Hp)]|].
  mstep in_cmem_Done; [exact Ecall|].
  mstep in_cmem_Done; [apply store_bytes_spec; exact (scratch_in_bounds _ _ _ _ _ S12 Hpb)|].
  mstep in_cmem_Done; [apply kfree_spec; [apply (sc_live _ _ _ S3); set_solver|done]|].
  by unfold lookup_status; case_decide; subst.
Qed.
End do_lookup.

(** ** Looking up a name *)
Section lookup.
Context `{A : Arch} `{Km : Kmem} `{X : SunrpcXdr} `{XL : !SunrpcXdrLaws X}.
Context `{R : RpcClient} `{RL : !RpcClientLaws R} `{V : ClientVfs} `{VL : !ClientVfsLaws V}.
Implicit Types (c : cstate) (fh : vsnfs_fh) (m : mem).

(** [r] is what the kernel, in [c], makes of binding a dentry to inode [h]: that
    inode, or the error with which it refuses. *)
Definition bound_to c (h : Z) (r : Z + option Z) : Prop :=
  d_materialise_unique (Some h) c = Done (r, c) ∧ (r = inr (Some h) ∨ ∃ e, r = inl e ∧ e < 0).

(** The handle [vsnfs_lookup] allocates. *)
Definition newfh_of c : ptr := Ptr (m_next (c_mem c)) 0.

Lemma lookup_asked sb dir clnt dirfh c nm name st (P : vsnfs_fh → Prop) :
  (∀ b, kmalloc_ok b = true) → dir_of sb dir clnt dirfh c →
  has_bytes (c_mem c) nm name → zlen name ≤ VSNFS_MAXNAMLEN →
  (∀ fh0, fh_wf fh0 → ∃ fh, fh_wf fh ∧ P fh ∧
     fh_answer fh0 (exchange clnt VSNFSPROC_LOOKUP (wire_lookup dirfh name)) st fh) →
  ∃ m' fh, vsnfs_do_lookup sb dir nm (zlen name) (Some (newfh_of c))
      (set_cmem (alloc (c_mem c) sizeof_vsnfs_fh) c) = Done (lookup_status st, set_cmem m' c) ∧
    scratch [p_blk (newfh_of c)] (c_mem c) m' ∧ has_bytes m' (newfh_of c) (fh_bytes fh) ∧
    fh_wf fh ∧ P fh.
Proof.
  intros Hok Hd Hnm Hl Hans. pose proof (do_mem _ _ _ _ _ Hd) as Hwf.
  set (m := c_mem c) in *. set (m0 := alloc m sizeof_vsnfs_fh). set (q := newfh_of c).
  pose proof (scratch_alloc [] m m sizeof_vsnfs_fh (scratch_refl m Hwf)) as S0. fold m0 in S0.
  assert (in_bounds m0 q 12) as Hq by (apply in_bounds_alloc_new; by vm_compute).
  destruct (load_fh_any m0 q Hq) as (fh0 & Hf0 & Hb0 & _).
  destruct (Hans fh0 Hf0) as (fh & Hf & HP & Ha).
  destruct (do_lookup_spec sb dir clnt dirfh (set_cmem m0 c) nm name q fh0 st fh)
    as (m' & E & S1); try done;
    [by eapply dir_of_scratch|exact (scratch_has_bytes _ _ _ _ _ S0 Hnm)|]. simpl in S1.
  assert (in_bounds m0 q (zlen (fh_bytes fh))) as Hqf by by rewrite zlen_fh_bytes.
  exists m', fh. split_and!; [done| | |done|done].
  - eapply scratch_trans; [|exact S1].
    eapply (scratch_touches _ _ _ (p_blk q)); [set_solver|by apply touches_upd|exact S0].
  - eapply scratch_has_bytes; [exact S1|]. by apply has_bytes_upd.
Qed.

(** What is done with the answer. *)
Lemma lookup_start sb dir clnt dirfh c dentry (name : list byte) ret c1 :
  (∀ b, kmalloc_ok b = true) → dir_of sb dir clnt dirfh c →
  d_len dentry = zlen name → zlen name ≤ VSNFS_MAXNAMLEN →
  vsnfs_do_lookup sb dir (d_nm dentry) (zlen name) (Some (newfh_of c))
    (set_cmem (alloc (c_mem c) sizeof_vsnfs_fh) c) = Done (ret, c1) →
  let dentry' := set_d_op dentry (Some vsnfs_dentry_operations) in
  vsnfs_lookup sb dir dentry c =
    (if decide (ret = - ENOENT) then r ← d_materialise_unique None; mret (r, dentry') else
     if decide (ret < 0) then mret (inl ret, dentry') else
     inode ← vsnfs_fhget sb (newfh_of c);
     match inode with
     | inl _ => mret (inl (- EINVAL), dentry')
     | inr inode => r ← d_materialise_unique (Some inode); mret (r, dentry')
     end) c1.
Proof.
  intros Hok Hd Hlen Hl E dentry'. unfold vsnfs_lookup.
  mstep in_cmem_Done; [apply kmalloc_Some, Hok|]. rewrite decide_False by (rewrite Hlen; lia).
  mstep VSNFS_PROTO_spec; [exact Hd|]. simpl d_nm. simpl d_len. rewrite Hlen. by mstep E.
Qed.

(** A name the server knows. *)
Lemma lookup_found_run sb dir clnt dirfh c dentry name fh h :
  (∀ b, kmalloc_ok b = true) → dir_of sb dir clnt dirfh c → icache_ok c →
  has_bytes (c_mem c) (d_nm dentry) name → d_len dentry = zlen name →
  zlen name ≤ VSNFS_MAXNAMLEN →
  exchange clnt VSNFSPROC_LOOKUP (wire_lookup dirfh name) = inr (wire_reply 0 (wire_fh fh)) →
  fh_wf fh → reg_or_dir fh → fh_strtoul fh = Done h → (∀ c, inode_memory c = true) →
  ∃ r c' i', vsnfs_lookup sb dir dentry c =
      Done ((r, set_d_op dentry (Some vsnfs_dentry_operations)), c') ∧
    bound_to c' h r ∧
    scratch [p_blk (newfh_of c)] (c_mem c) (c_mem c') ∧
    c_kmaps c' = c_kmaps c ∧ c_icache c' = <[h := i']> (c_icache c) ∧ icache_ok c' ∧
    match c_icache c !! h with
    | Some i => i' = set_count i (ci_count i + 1)
    | None => i' = made h fh (newfh_of c) ∧ has_bytes (c_mem c') (newfh_of c) (fh_bytes fh)
    end.
Proof.
  intros Hok Hd Hic Hnm Hlen Hl Hx Hf Ht Hh Hmem.
  destruct (lookup_asked sb dir clnt dirfh c (d_nm dentry) name 0 (λ f, f = fh))
    as (m' & fh' & E & Hs & Hb & _ & ->); try done.
  { intros fh0 _. exists fh. split_and!; [done|done|]. rewrite Hx. by constructor. }
  assert (∀ c', VSNFS_PROTO sb c' = Done (vsnfs_clientops, c')) as Hops
    by (intros; by eapply VSNFS_PROTO_spec).
  set (c1 := set_cmem m' c) in *. pose proof (icache_ok_scratch _ c m' Hs Hic : icache_ok c1) as Hic1.
  assert (∃ i', vsnfs_fhget sb (newfh_of c) c1 = Done (inr h, put_inode h i' c1) ∧
    inode_ok m' h i' ∧ match c_icache c !! h with
    | Some i => i' = set_count i (ci_count i + 1)
    | None => i' = made h fh (newfh_of c) ∧ has_bytes m' (newfh_of c) (fh_bytes fh) end) as (i' & Eg & Hi' & Hm).
  { destruct (c_icache c !! h) as [i|] eqn:Ei.
    - pose proof (Hic1 h i Ei) as Hi. pose proof (io_count _ _ _ Hi).
      exists (set_count i (ci_count i + 1)). split_and!; [|apply inode_ok_count; [lia|done]|done].
      apply (fhget_found sb c1 (newfh_of c) fh h); try done. by destruct Hi.
    - exists (made h fh (newfh_of c)).
      destruct (made_ok m' h fh (newfh_of c)) as [Hi Hc]; try done.
      split_and!; [by apply fhget_new|done|done|done]. }
  destruct (materialise_spec (Some h) (put_inode h i' c1)) as (r & Er & Hr).
  exists r, (put_inode h i' c1), i'. split_and!; try done; [|by apply icache_ok_put].
  rewrite (lookup_start _ _ _ _ _ _ _ _ _ Hok Hd Hlen Hl E), !decide_False by (by vm_compute).
  mstep Eg. mstep Er. done.
Qed.

(** C9: Looking up a name the server knows: the result is what the kernel makes
    of binding the dentry to the inode whose number the server's handle spells,
    which is that inode unless the kernel refuses, and then its error.  If that inode was in the cache it
    has one more reference, otherwise it is new, with one, with the attributes
    of a regular file or a directory as the handle's type says, and keeps the
    handle.  All other inodes, and the invariant of the cache, are as they
    were; the only block allocated is the handle. *)
Theorem client_lookup_found sb dir clnt dirfh c dentry name fh h :
  (∀ b, kmalloc_ok b = true) → dir_of sb dir clnt dirfh c → icache_ok c →
  has_bytes (c_mem c) (d_nm dentry) name → d_len dentry = zlen name →
  zlen name ≤ VSNFS_MAXNAMLEN →
  exchange clnt VSNFSPROC_LOOKUP (wire_lookup dirfh name) = inr (wire_reply 0 (wire_fh fh)) →
  fh_wf fh → reg_or_dir fh → fh_strtoul fh = Done h → (∀ c, inode_memory c = true) →
  ∃ r c' i', vsnfs_lookup sb dir dentry c =
      Done ((r, set_d_op dentry (Some vsnfs_dentry_operations)), c') ∧
    bound_to c' h r ∧
    scratch [p_blk (newfh_of c)] (c_mem c) (c_mem c') ∧
    c_icache c' = <[h := i']> (c_icache c) ∧ icache_ok c' ∧
    match c_icache c !! h with
    | Some i => i' = set_count i (ci_count i + 1)
    | None => inode_attrs (fh_type fh) i' ∧ ci_count i' = 1 ∧ ci_private i' = Some (newfh_of c)
    end.
Proof.
  intros Hok Hd Hic Hnm Hlen Hl Hx Hf Ht Hh Hmem.
  destruct (lookup_found_run sb dir clnt dirfh c dentry name fh h)
    as (r & c' & i' & E & Hr & Hs & _ & Hic' & Hok' & Hm); try done.
  exists r, c', i'. split_and!; try done. destruct (c_icache c !! h); [done|].
  destruct Hm as [-> Hb].
  split_and!; [by apply made_attrs|by eapply made_ok|apply made_private].
Qed.

(** A lookup that fails. *)
Lemma lookup_failed_run sb dir clnt dirfh c dentry name st :
  (∀ b, kmalloc_ok b = true) → dir_of sb dir clnt dirfh c → icache_ok c →
  has_bytes (c_mem c) (d_nm dentry) name → d_len dentry = zlen name →
  zlen name ≤ VSNFS_MAXNAMLEN →
  (exchange clnt VSNFSPROC_LOOKUP (wire_lookup dirfh name) = inr (be32 st) ∧ s32 st ≠ 0 ∧
     vsnfs_stat_to_errno (s32 st) ≠ Done 0 ∨
   ∃ e, exchange clnt VSNFSPROC_LOOKUP (wire_lookup dirfh name) = inl e) →
  ∃ c', vsnfs_lookup sb dir dentry c =
      Done ((inl (- stat_code VSNFSERR_REMOTE), set_d_op dentry (Some vsnfs_dentry_operations)), c') ∧
    scratch [p_blk (newfh_of c)] (c_mem c) (c_mem c') ∧
    c_kmaps c' = c_kmaps c ∧ c_icache c' = c_icache c ∧ icache_ok c'.
Proof.
  intros Hok Hd Hic Hnm Hlen Hl Hx.
  assert (∃ e, e ≠ 0 ∧ ∀ fh0,
    fh_answer fh0 (exchange clnt VSNFSPROC_LOOKUP (wire_lookup dirfh name)) e fh0) as (e & He & Hans).
  { destruct Hx as [(Hx & Hs & Hne)|[e Hx]]; rewrite Hx.
    - destruct (stat_to_errno_total (s32 st)) as [e He]. exists e.
      split; [congruence|]. intros fh0. by econstructor.
    - exists e. split; [|constructor]. intros ->. apply exchange_err in Hx. lia. }
  destruct (lookup_asked sb dir clnt dirfh c (d_nm dentry) name e (λ _, True))
    as (m' & fh' & E & Hs & _); try done.
  { intros fh0 Hf0. by exists fh0. }
  exists (set_cmem m' c). split_and!; [|done|done|done|by eapply icache_ok_scratch].
  rewrite (lookup_start _ _ _ _ _ _ _ _ _ Hok Hd Hlen Hl E).
  unfold lookup_status. rewrite (decide_False (P := e = 0)) by done.
  rewrite decide_False by (by vm_compute). by rewrite decide_True by (by vm_compute).
Qed.

(** C15: A lookup that fails, whatever the status the server answers or the
    error of the transport, yields the one error REMOTE and leaves the cache
    alone; ENOENT is never among the results of [vsnfs_do_lookup], so a missing
    name is not cached as a negative dentry.  The handle stays allocated. *)
Theorem client_lookup_failed sb dir clnt dirfh c dentry name st :
  (∀ b, kmalloc_ok b = true) → dir_of sb dir clnt dirfh c → icache_ok c →
  has_bytes (c_mem c) (d_nm dentry) name → d_len dentry = zlen name →
  zlen name ≤ VSNFS_MAXNAMLEN →
  (exchange clnt VSNFSPROC_LOOKUP (wire_lookup dirfh name) = inr (be32 st) ∧ s32 st ≠ 0 ∧
     vsnfs_stat_to_errno (s32 st) ≠ Done 0 ∨
   ∃ e, exchange clnt VSNFSPROC_LOOKUP (wire_lookup dirfh name) = inl e) →
  ∃ c', vsnfs_lookup sb dir dentry c =
      Done ((inl (- stat_code VSNFSERR_REMOTE), set_d_op dentry (Some vsnfs_dentry_operations)), c') ∧
    scratch [p_blk (newfh_of c)] (c_mem c) (c_mem c') ∧
    c_icache c' = c_icache c ∧ icache_ok c'.
Proof.
  intros Hok Hd Hic Hnm Hlen Hl Hx.
  destruct (lookup_failed_run sb dir clnt dirfh c dentry name st) as (c' & E & Hs & _ & Hrest);
    try done. by exists c'.
Qed.

(** When the server's handle has a type other than file or directory, the
    lookup succeeds with an inode that nobody holds a reference to: the cache
    has dropped it, or keeps it without a reference and without a handle. *)
Theorem client_lookup_other_type sb dir clnt dirfh c dentry name fh h :
  (∀ b, kmalloc_ok b = true) → dir_of sb dir clnt dirfh c →
  has_bytes (c_mem c) (d_nm dentry) name → d_len dentry = zlen name →
  zlen name ≤ VSNFS_MAXNAMLEN →
  exchange clnt VSNFSPROC_LOOKUP (wire_lookup dirfh name) = inr (wire_reply 0 (wire_fh fh)) →
  fh_wf fh → ¬ reg_or_dir fh → fh_strtoul fh = Done h → (∀ c, inode_memory c = true) →
  c_icache c !! h = None →
  ∃ r c', vsnfs_lookup sb dir dentry c =
      Done ((r, set_d_op dentry (Some vsnfs_dentry_operations)), c') ∧
    bound_to c' h r ∧
    (c_icache c' !! h = None ∨
     ∃ i, c_icache c' !! h = Some i ∧ ci_count i = 0 ∧ ci_private i = None).
Proof.
  intros Hok Hd Hnm Hlen Hl Hx Hf Ht Hh Hmem Hnone.
  destruct (lookup_asked sb dir clnt dirfh c (d_nm dentry) name 0 (λ f, f = fh))
    as (m' & fh' & E & Hs & Hb & _ & ->); try done.
  { intros fh0 _. exists fh. split_and!; [done|done|]. rewrite Hx. by constructor. }
  assert (∀ c', VSNFS_PROTO sb c' = Done (vsnfs_clientops, c')) as Hops
    by (intros; by eapply VSNFS_PROTO_spec).
  destruct (fhget_other sb (set_cmem m' c) (newfh_of c) fh h Hf Hb Hh Hops Hnone (Hmem _) Ht)
    as (ic & Eg & Hic).
  destruct (materialise_spec (Some h) (set_icache ic (set_cmem m' c))) as (r & Er & Hr).
  exists r, (set_icache ic (set_cmem m' c)). split_and!; [|done|done].
  rewrite (lookup_start _ _ _ _ _ _ _ _ _ Hok Hd Hlen Hl E), !decide_False by (by vm_compute).
  mstep Eg. mstep Er. done.
Qed.
End lookup.

(** ** Examples: a client on x86-64, looking up [a] *)
Definition ex_reply_rpc (a : Z + list byte) : RpcClient := rpc_ref (H := x86_64) (λ _ _ _, a).
Lemma ex_reply_laws a :
  match a with inl e => e < 0 | inr _ => True end →
  RpcClientLaws (X := sunrpc_ref (H := x86_64)) (ex_reply_rpc a).
Proof. intros Ha. apply (rpc_ref_laws (A := x86_64)). by intros _ _ _ e ->. Qed.

Definition ex_pdirfh : vsnfs_fh := VsnfsFh [x32; x00; x00; x00; x00; x00; x00; x00] VSNFS_DIR.
Definition ex_pdir : cinode :=
  CInode 1 false 2 130 vsnfs_dir_inode_operations vsnfs_dir_operations (Z.lor S_IFDIR S_IALLUGO)
    VSNFS_DIRSIZE 2 0 0 (Some (Ptr 10 0)).
Definition ex_cl : cstate :=
  CState (mem_of [(10%positive, fh_bytes (A := x86_64) ex_pdirfh); (11%positive, [x61])]) []
    {[ 2 := ex_pdir ]} [].
Definition ex_dentry : cdentry := CDentry (Ptr 11 0) 1 None.
Definition ex_fs (a : Z + list byte) : super_block :=
  bare_super (Some (VsnfsServer (Some 1)
    (vsnfs_clientops (A := x86_64) (X := sunrpc_ref (H := x86_64)) (R := ex_reply_rpc a))
    (SockaddrIn 0 0 []) 0 0 0 [] 0 None (Ptr 10 0) (Ptr 10 0))).

Lemma ex_cl_dir a :
  dir_of (A := x86_64) (X := sunrpc_ref (H := x86_64)) (R := ex_reply_rpc a)
    (ex_fs a) ex_pdir 1 ex_pdirfh ex_cl.
Proof.
  split; [by eexists|exists (Ptr 10 0); split; [done|by_eval]|by_eval| |by intros b Hb; inversion Hb|done].
  apply mem_of_wf. repeat constructor.
Qed.
Lemma ex_cl_ok : icache_ok (A := x86_64) ex_cl.
Proof.
  apply map_Forall_singleton. split; try done. exists (Ptr 10 0), VSNFS_DIR. split_and!; [done| |].
  - exists ex_pdirfh. split_and!; [by_eval|by_eval|done|done].
  - by right.
Qed.

Definition ex_found (t : Z) : vsnfs_fh := VsnfsFh [x37; x00; x00; x00; x00; x00; x00; x00] t.
Definition ex_answer (t : Z) : Z + list byte := inr (wire_reply 0 (wire_fh (ex_found t))).

Lemma client_lookup_found_witness :
  let a := ex_answer VSNFS_REG in
  ∃ r c' i', vsnfs_lookup (A := x86_64) (Km := kmem_ref []) (V := vfs_ref)
      (ex_fs a) ex_pdir ex_dentry ex_cl =
      Done ((r, set_d_op ex_dentry (Some vsnfs_dentry_operations)), c') ∧
    bound_to (V := vfs_ref) c' 7 r ∧
    scratch [100%positive] (c_mem ex_cl) (c_mem c') ∧
    c_icache c' = <[7 := i']> (c_icache ex_cl) ∧ icache_ok (A := x86_64) c' ∧
    inode_attrs VSNFS_REG i' ∧ ci_count i' = 1 ∧ ci_private i' = Some (Ptr 100 0).
Proof.
  exact (client_lookup_found (A := x86_64) (Km := kmem_ref []) (X := sunrpc_ref (H := x86_64))
    (R := ex_reply_rpc (ex_answer VSNFS_REG)) (RL := ex_reply_laws (ex_answer VSNFS_REG) I) (V := vfs_ref)
    (ex_fs _) ex_pdir 1 ex_pdirfh ex_cl ex_dentry [x61] (ex_found VSNFS_REG) 7
    ltac:(done) (ex_cl_dir _) ex_cl_ok ltac:(by_eval) ltac:(done) ltac:(by_eval) ltac:(done)
    ltac:(by_eval) ltac:(by left) ltac:(done) ltac:(done)).
Defined.

(** The server answers that there is no such name. *)
Lemma client_lookup_failed_witness :
  let a := inr (be32 (stat_code VSNFSERR_NOENT)) in
  ∃ c', vsnfs_lookup (A := x86_64) (Km := kmem_ref []) (V := vfs_ref)
      (ex_fs a) ex_pdir ex_dentry ex_cl =
      Done ((inl (- stat_code VSNFSERR_REMOTE),
             set_d_op ex_dentry (Some vsnfs_dentry_operations)), c') ∧
    scratch [100%positive] (c_mem ex_cl) (c_mem c') ∧
    c_icache c' = c_icache ex_cl ∧ icache_ok (A := x86_64) c'.
Proof.
  exact (client_lookup_failed (A := x86_64) (Km := kmem_ref []) (X := sunrpc_ref (H := x86_64))
    (R := ex_reply_rpc (inr (be32 (stat_code VSNFSERR_NOENT))))
    (RL := ex_reply_laws (inr (be32 (stat_code VSNFSERR_NOENT))) I)
    (V := vfs_ref) (ex_fs _) ex_pdir 1 ex_pdirfh ex_cl ex_dentry [x61] (stat_code VSNFSERR_NOENT)
    ltac:(done) (ex_cl_dir _) ex_cl_ok ltac:(by_eval) ltac:(done) ltac:(by_eval)
    ltac:(left; split_and!; [done|by_eval|by_eval])).
Defined.

Lemma client_lookup_other_type_witness :
  let a := ex_answer VSNFS_OTHER in
  ∃ r c', vsnfs_lookup (A := x86_64) (Km := kmem_ref []) (V := vfs_ref)
      (ex_fs a) ex_pdir ex_dentry ex_cl =
      Done ((r, set_d_op ex_dentry (Some vsnfs_dentry_operations)), c') ∧
    bound_to (V := vfs_ref) c' 7 r ∧
    (c_icache c' !! 7 = None ∨
     ∃ i, c_icache c' !! 7 = Some i ∧ ci_count i = 0 ∧ ci_private i = None).
Proof.
  exact (client_lookup_other_type (A := x86_64) (Km := kmem_ref []) (X := sunrpc_ref (H := x86_64))
    (R := ex_reply_rpc (ex_answer VSNFS_OTHER)) (RL := ex_reply_laws (ex_answer VSNFS_OTHER) I) (V := vfs_ref)
    (ex_fs _) ex_pdir 1 ex_pdirfh ex_cl ex_dentry [x61] (ex_found VSNFS_OTHER) 7
    ltac:(done) (ex_cl_dir _) ltac:(by_eval) ltac:(done) ltac:(by_eval) ltac:(done)
    ltac:(by_eval) ltac:(by intros []) ltac:(done) ltac:(done) ltac:(done)).
Defined.
