(* ===== verification/ClientMount.v ===== *)
(** * ClientMount: the mount data ([vsnfsMount.c])

    Parsing of the device name, [host:path], and of the comma-separated
    options.  The kernel's option matcher and its conversion of addresses are
    the interface [MountApi]. *)
From Stdlib Require Import Strings.Byte.
From S2P Require Import Prelude Mem Frame CString Protocol Sunrpc Wire ClientXdr.
From S2P Require Import RpcApi ClientProc ClientState.

Abbreviation COLON := x3a.
Abbreviation COMMA := x2c.

(** ** Strings *)
(** Where the first [c] is in [s]. *)
Fixpoint strchr (c : byte) (s : list byte) : option nat :=
  match s with
  | [] => None
  | b :: s => if decide (b = c) then Some 0%nat else S <$> strchr c s
  end.

(** [strsep(&stringp, delim)] for a delimiter of one character: the token and
    what [stringp] then is. *)
Definition strsep (delim : byte) (sp : option ptr) : M mem (option ptr * option ptr) :=
  match sp with
  | None => mret (None, None)
  | Some p =>
      s ← load_cstr p;
      match strchr delim s with
      | Some k =>
          store_bytes (p +p Z.of_nat k) [NUL];;
          mret (Some p, Some (p +p (Z.of_nat k + 1)))
      | None => mret (Some p, None)
      end
  end.

(** [kstrndup(s, len)], for a string of that length. *)
Definition kstrndup `{Kmem} (s : list byte) : M mem (option ptr) :=
  r ← kmalloc (zlen s + 1);
  match r with
  | None => mret None
  | Some p => store_bytes p (s ++ [NUL]);; mret (Some p)
  end.

Definition htons `{Arch} (z : Z) : Z :=
  if little_endian then Z.lor (Z.shiftl (Z.land z 255) 8) (Z.land (Z.shiftr z 8) 255) else u16 z.

(** ** The option matcher and addresses *)
Inductive vsnfs_opt : Type := vsnfs_opt_port | vsnfs_opt_timeout | vsnfs_opt_err.
#[export] Instance vsnfs_opt_eq_dec : EqDecision vsnfs_opt.
Proof. solve_decision. Defined.

Definition str_port : list byte := [x70; x6f; x72; x74; x3d].                        (* port= *)
Definition str_timeout : list byte := [x74; x69; x6d; x65; x6f; x75; x74; x3d].      (* timeout= *)
(** The pattern ["%u"], after a prefix. *)
Definition pat_u (prefix : list byte) : list byte := prefix ++ [x25; x75].
Definition tokens : list (vsnfs_opt * option (list byte)) :=
  [ (vsnfs_opt_port, Some (pat_u str_port)); (vsnfs_opt_timeout, Some (pat_u str_timeout));
    (vsnfs_opt_err, None) ].

Definition AF_INET : Z := 2.
Definition AF_INET6 : Z := 10.
Definition sizeof_sockaddr_in : Z := 16.
Definition IP_ADDR_SIZE : Z := 16.

Class MountApi : Type := {
  (* the token a string matches, and where its first argument starts *)
  match_token : list byte → list (vsnfs_opt * option (list byte)) → vsnfs_opt * Z;
  (* what is returned, and the address when it was one *)
  in4_pton : list byte → Z * option (list byte);
  in6_pton : list byte → Z * option (list byte);
}.

Class MountApiLaws (P : MountApi) : Prop := {
  (* a prefix and a decimal number that is not zero *)
  match_number o prefix ds b ds' :
    (o, Some (pat_u prefix)) ∈ tokens → Forall is_digit ds → ds = b :: ds' → 49 ≤ byte_val b ≤ 57 →
    match_token (prefix ++ ds) tokens = (o, zlen prefix);
  match_no_number o prefix s :
    (o, Some (pat_u prefix)) ∈ tokens → (∀ b, head s = Some b → xdigit b = None) →
    (match_token (prefix ++ s) tokens).1 = vsnfs_opt_err;
  match_none s :
    ¬ str_port `prefix_of` s → ¬ str_timeout `prefix_of` s → (match_token s tokens).1 = vsnfs_opt_err;
  in4_pton_spec s :
    (in4_pton s).1 = if decide (is_Some (in4_pton s).2) then 1 else 0;
}.

Section mount.
Context `{A : Arch} `{Km : Kmem} `{P : MountApi}.

(** Returns the result and what [dst] then is. *)
Definition vsnfs_inet_pton (address_family : Z) (cp dst : list byte) : Z * list byte :=
  let '(ret, addr) :=
    if decide (address_family = AF_INET) then in4_pton cp
    else if decide (address_family = AF_INET6) then in6_pton cp
    else (0, None) in
  (if decide (0 < ret) then 1 else ret, default dst addr).

(** [strncpy(server->ip_addr, host, len); server->ip_addr[len] = 0], for a host
    of [len] characters. *)
Definition copy_host (server : vsnfs_server) (host : list byte) : outcome vsnfs_server :=
  if decide (zlen host + 1 ≤ IP_ADDR_SIZE)
  then Done (set_ip_addr server (splice (sv_ip_addr server) 0 (host ++ [NUL])))
  else Oops OutOfBounds.

Definition vsnfs_parse_mntpath (dev_name : ptr) (server : vsnfs_server) : M mem (Z * vsnfs_server) :=
  name ← load_cstr dev_name;
  match strchr COLON name with
  | None => mret (- stat_code VSNFSERR_INVAL, server)
  | Some colon =>
      if decide (VSNFS_MAXNAMLEN < Z.of_nat colon)
      then mret (- stat_code VSNFSERR_NAMETOOLONG, server) else
      server ← lift_outcome (copy_host server (take colon name));
      let path := drop (S colon) name in
      if decide (VSNFS_MAXPATHLEN < zlen path)
      then mret (- stat_code VSNFSERR_NAMETOOLONG, server) else
      p ← kstrndup path;
      let server := set_mnt_path server p in
      match p with
      | None => mret (- ENOMEM, server)
      | Some _ => mret (0, server)
      end
  end.

(** One option. *)
Definition parse_option (p : ptr) (server : vsnfs_server) : M mem vsnfs_server :=
  s ← load_cstr p;
  let '(token, from) := match_token s tokens in
  match token with
  | vsnfs_opt_port =>
      num ← load_cstr (p +p from);
      '(v, _) ← lift_outcome (simple_strtol (num ++ [NUL]));
      let server := set_server_port server (s32 v) in
      let a := cl_addr server in
      mret (set_addr server (SockaddrIn (sin_family a) (htons (sv_server_port server)) (sin_addr a)))
  | vsnfs_opt_timeout =>
      num ← load_cstr (p +p from);
      '(v, _) ← lift_outcome (simple_strtol (num ++ [NUL]));
      mret (set_timeout server (s32 v))
  | vsnfs_opt_err => mret server
  end.

(** The loop over the options; each turn takes a character of the string, or is
    the last. *)
Fixpoint parse_options (fuel : nat) (raw_data : option ptr) (server : vsnfs_server)
    : M mem vsnfs_server :=
  match fuel with
  | O => oops OutOfFuel
  | S fuel =>
      '(p, raw_data) ← strsep COMMA raw_data;
      match p with
      | None => mret server
      | Some p =>
          b ← load_bytes p 1;
          if decide (b = [NUL]) then parse_options fuel raw_data server else
          server ← parse_option p server;
          parse_options fuel raw_data server
      end
  end.

Definition options_fuel (raw_data : option ptr) : M mem nat :=
  match raw_data with
  | None => mret 1%nat
  | Some p => s ← load_cstr p; mret (S (S (length s)))
  end.

Definition vsnfs_parse_mount_options (raw_data : option ptr) (dev_name : ptr)
    (server : vsnfs_server) : M mem (Z * vsnfs_server) :=
  let server := set_server_port server VSNFS_PORT in
  let server := set_timeout server VSNFS_TIMEOUT in
  '(rc, server) ← vsnfs_parse_mntpath dev_name server;
  if decide (rc ≠ 0) then mret (rc, server) else
  let host := default (sv_ip_addr server) (c_string (sv_ip_addr server)) in
  let '(rc, addr) := vsnfs_inet_pton AF_INET host (sin_addr (cl_addr server)) in
  let server := set_addr server (SockaddrIn AF_INET (htons VSNFS_PORT) addr) in
  if decide (rc < 0) then mret (rc, server) else
  let server := set_addrlen server sizeof_sockaddr_in in
  fuel ← options_fuel raw_data;
  server ← parse_options fuel raw_data server;
  mret (rc, server).
End mount.
