(* ===== verification/ClientMountSpec.v ===== *)
(** * ClientMountSpec: the mount data, parsed

    The options a user writes are the options the client sees
    ([mount_options_parsed]); which device names are accepted, and which write
    past the address buffer. *)
From Stdlib Require Import Strings.Byte.
From S2P Require Import Prelude Mem Frame CString Protocol Sunrpc Wire Handle ClientXdr.
From S2P Require Import RpcApi ClientProc ClientState ClientMount.

(** ** The options, as a user writes them *)
Inductive mopt : Type :=
  | OPort (n : Z)
  | OTimeout (n : Z)
  | OOther (s : list byte).

Definition render (o : mopt) : list byte :=
  match o with
  | OPort n => str_port ++ fmt_ld n
  | OTimeout n => str_timeout ++ fmt_ld n
  | OOther s => s
  end.
(** The options, separated by commas. *)
Fixpoint render_all (os : list mopt) : list byte :=
  match os with
  | [] => []
  | [o] => render o
  | o :: os => render o ++ COMMA :: render_all os
  end.

Definition mopt_ok (o : mopt) : Prop :=
  match o with
  | OPort n | OTimeout n => 0 < n < 2 ^ 31
  | OOther s => (NUL ∉ s) ∧ (COMMA ∉ s) ∧ ¬ str_port `prefix_of` s ∧ ¬ str_timeout `prefix_of` s
  end.
#[export] Instance mopt_ok_dec o : Decision (mopt_ok o).
Proof. destruct o; apply _. Defined.

(** What an option does. *)
Definition apply_opt `{A : Arch} (s : vsnfs_server) (o : mopt) : vsnfs_server :=
  match o with
  | OPort n =>
      set_addr (set_server_port s n)
        (SockaddrIn (sin_family (cl_addr s)) (htons n) (sin_addr (cl_addr s)))
  | OTimeout n => set_timeout s n
  | OOther _ => s
  end.

Section strings.
Implicit Types (s : list byte) (c : byte).

Lemma strchr_None c s : c ∉ s → strchr c s = None.
Proof. induction s as [|b s IH]; simpl; [done|]. intros Hn. rewrite decide_False by set_solver. by rewrite IH by set_solver. Qed.
Lemma strchr_app c s r : c ∉ s → strchr c (s ++ c :: r) = Some (length s).
Proof.
  induction s as [|b s IH]; simpl; intros Hn; [by rewrite decide_True|].
  rewrite decide_False by set_solver. by rewrite IH by set_solver.
Qed.

Lemma digit_plain n : 0 ≤ n → (NUL ∉ fmt_ld n) ∧ (COMMA ∉ fmt_ld n).
Proof.
  intros Hn. destruct (fmt_ld_spec n Hn) as (Hd & _). rewrite Forall_forall in Hd.
  split; intros Hin%Hd; unfold is_digit in Hin; vm_compute in Hin; naive_solver.
Qed.

Lemma render_plain o : mopt_ok o → (NUL ∉ render o) ∧ (COMMA ∉ render o).
Proof.
  destruct o as [n|n|s]; cbn [render mopt_ok]; [| |naive_solver]; intros Hn;
    destruct (digit_plain n) as [H1 H2]; try lia; rewrite !not_elem_of_app;
    (split_and!; [by_eval|done|by_eval|done]).
Qed.
Lemma render_all_cons o os :
  render_all (o :: os) = render o ++ match os with [] => [] | _ => COMMA :: render_all os end.
Proof. destruct os; simpl; by rewrite ?app_nil_r. Qed.
Lemma render_all_plain os : Forall mopt_ok os → NUL ∉ render_all os.
Proof.
  induction 1 as [|o os Ho _ IH]; [set_solver|]. rewrite render_all_cons, not_elem_of_app.
  split; [by apply render_plain|]. destruct os; set_solver.
Qed.
Lemma render_all_length os : (length os ≤ S (length (render_all os)))%nat.
Proof.
  induction os as [|o os IH]; [simpl; lia|]. rewrite render_all_cons, length_app.
  destruct os; simpl in *; lia.
Qed.
End strings.

Section options.
Context `{A : Arch} `{Km : Kmem} `{P : MountApi} `{PL : !MountApiLaws P}.
Implicit Types (m : mem) (p : ptr) (server : vsnfs_server).

Lemma strtol_dec n : 0 < n < 2 ^ 31 → simple_strtol (fmt_ld n ++ [NUL]) = Done (n, [NUL]).
Proof.
  intros Hn. destruct (fmt_ld_spec n) as (Hd & Hv & Hf & _); [lia|].
  destruct (Hf ltac:(lia)) as (b & r & Hb & Hbr).
  assert (2 ^ 31 ≤ 2 ^ (long_bits - 1) ∧ 2 ^ 31 < 2 ^ long_bits) as [H1 H2]
    by (by destruct long_bits_ok as [-> | ->]).
  assert (simple_strtoul (fmt_ld n ++ [NUL]) = Done (n, [NUL])) as E.
  { rewrite <-Hv at 2. apply simple_strtoul_dec; [done|eauto|rewrite Hv; lia|apply number_end_NUL]. }
  unfold simple_strtol. rewrite Hb in *. simpl in *.
  destruct b; try (rewrite E; simpl; rewrite slong_id by lia; done).
  exfalso. vm_compute in Hbr. naive_solver.
Qed.

Lemma parse_number m p server o prefix n :
  (o, Some (pat_u prefix)) ∈ tokens → 0 < n < 2 ^ 31 → NUL ∉ prefix →
  has_bytes m p ((prefix ++ fmt_ld n) ++ [NUL]) →
  load_cstr p m = Done (prefix ++ fmt_ld n, m) ∧
  match_token (prefix ++ fmt_ld n) tokens = (o, zlen prefix) ∧
  load_cstr (p +p zlen prefix) m = Done (fmt_ld n, m).
Proof using PL.
  intros Ho Hn Hp Hh. destruct (digit_plain n) as [Hz _]; [lia|]. split_and!.
  - apply load_cstr_spec; [|done]. rewrite not_elem_of_app. done.
  - destruct (fmt_ld_spec n) as (Hd & _ & Hf & _); [lia|].
    destruct (Hf ltac:(lia)) as (b & r & Hb & Hbr). by eapply match_number.
  - rewrite <-app_assoc in Hh. apply has_bytes_app in Hh as [_ Hh]. by apply load_cstr_spec.
Qed.

Lemma parse_option_spec m p server o :
  mopt_ok o → has_bytes m p (render o ++ [NUL]) →
  parse_option p server m = Done (apply_opt server o, m).
Proof using PL.
  intros Ho Hh. unfold parse_option. destruct o as [n|n|s]; simpl in Ho, Hh.
  - destruct (parse_number m p server vsnfs_opt_port str_port n) as (E1 & E2 & E3);
      [set_solver|done|by_eval|done|].
    mstep E1. rewrite E2. mstep E3. rewrite strtol_dec by done. mrun.
    rewrite s32_id by (split; lia). done.
  - destruct (parse_number m p server vsnfs_opt_timeout str_timeout n) as (E1 & E2 & E3);
      [set_solver|done|by_eval|done|].
    mstep E1. rewrite E2. mstep E3. rewrite strtol_dec by done. mrun.
    rewrite s32_id by (split; lia). done.
  - destruct Ho as (Hz & _ & H1 & H2). mstep load_cstr_spec; [done|done|].
    pose proof (match_none s H1 H2) as E. destruct (match_token s tokens) as [t from].
    simpl in E. by subst t.
Qed.

Lemma first_byte m p s :
  has_bytes m p (s ++ [NUL]) →
  load_bytes p 1 m = Done ([default NUL (head s)], m).
Proof.
  intros Hh. destruct s as [|b s]; simpl in *.
  - by apply (load_bytes_spec m p [NUL]).
  - apply (has_bytes_app m p [b]) in Hh as [Hh _]. by apply (load_bytes_spec m p [b]).
Qed.

(** One token of the loop. *)
Lemma parse_token m p raw server o fuel :
  mopt_ok o → has_bytes m p (render o ++ [NUL]) →
  (b ← load_bytes p 1;
   if decide (b = [NUL]) then parse_options fuel raw server
   else server ← parse_option p server; parse_options fuel raw server) m =
  parse_options fuel raw (apply_opt server o) m.
Proof using PL.
  intros Ho Hh. mstep first_byte; [exact Hh|].
  destruct (render_plain o Ho) as [Hz _].
  destruct (render o) as [|b s] eqn:Er; simpl.
  - by destruct o as [n|n|s]; try discriminate Er.
  - rewrite decide_False by (intros [= ->]; set_solver). mstep parse_option_spec; [done|by rewrite Er|]. done.
Qed.

Lemma parse_options_spec os fuel m p server :
  Forall mopt_ok os → (length os < fuel)%nat → os ≠ [] →
  has_bytes m p (render_all os ++ [NUL]) →
  ∃ m', parse_options fuel (Some p) server m = Done (foldl apply_opt server os, m') ∧
        (m' = m ∨ touches m (p_blk p) m').
Proof using PL.
  revert fuel m p server. induction os as [|o os IH]; intros fuel m p server Hok Hf Hne Hh; [done|].
  apply Forall_cons in Hok as [Ho Hok]. destruct fuel as [|fuel]; [simpl in Hf; lia|].
  destruct (render_plain o Ho) as [Hz Hc]. rewrite render_all_cons in Hh. cbn [parse_options strsep].
  destruct os as [|o' os].
  { rewrite app_nil_r in Hh. exists m. split; [|by left].
    mstep load_cstr_spec; [exact Hz|exact Hh|]. rewrite strchr_None by done. mrun.
    rewrite (parse_token m p _ server o) by done. destruct fuel; [simpl in Hf; lia|done]. }
  set (rest := o' :: os) in *.
  change (match rest with [] => _ | _ => _ end) with (COMMA :: render_all rest) in Hh.
  rewrite <-app_assoc in Hh. pose proof Hh as [H1 H2]%has_bytes_app.
  change ((COMMA :: render_all rest) ++ [NUL]) with ([COMMA] ++ (render_all rest ++ [NUL])) in H2.
  apply has_bytes_app in H2 as [H2 H3]. set (q := p +p zlen (render o)) in *.
  set (m1 := upd m q [NUL]). assert (in_bounds m q (zlen [NUL])) as Hq by by apply (has_bytes_in_bounds m q [COMMA]).
  assert (has_bytes m1 p (render o ++ [NUL])) as T1.
  { apply has_bytes_app. split; [|by apply has_bytes_upd].
    apply has_bytes_upd_disj; [done| |done]. right. simpl. lia. }
  assert (has_bytes m1 (q +p 1) (render_all rest ++ [NUL])) as T2.
  { apply has_bytes_upd_disj; [done| |done]. right. simpl. unfold zlen. simpl. lia. }
  destruct (IH fuel m1 (q +p 1) (apply_opt server o) Hok ltac:(simpl in *; lia) ltac:(done) T2)
    as (m' & E & Hm). exists m'. split.
  - mstep load_cstr_spec; [|rewrite <-app_assoc; exact Hh|].
    { apply not_elem_of_app. split; [done|]. apply not_elem_of_cons. split; [done|].
      by apply render_all_plain. }
    rewrite strchr_app by done. fold (zlen (render o)). fold q.
    mstep store_bytes_spec; [exact Hq|]. fold m1.
    rewrite (parse_token m1 p _ server o) by done.
    replace (p +p (zlen (render o) + 1)) with (q +p 1) by (unfold q; by rewrite padd_padd). exact E.
  - right. pose proof (touches_upd m q [NUL] Hq) as Ht. fold m1 in Ht.
    destruct Hm as [->|Hm]; [done|]. by eapply touches_trans.
Qed.
End options.

(** ** The device name *)
Section mntpath.
Context `{A : Arch} `{Km : Kmem} `{P : MountApi} `{PL : !MountApiLaws P}.
Implicit Types (m : mem) (p : ptr) (server : vsnfs_server) (host path : list byte).

Lemma parse_mntpath_start m dev host path server :
  NUL ∉ host ++ path → COLON ∉ host → has_bytes m dev ((host ++ COLON :: path) ++ [NUL]) →
  vsnfs_parse_mntpath dev server m =
    (if decide (VSNFS_MAXNAMLEN < zlen host) then mret (- stat_code VSNFSERR_NAMETOOLONG, server) else
     server ← lift_outcome (copy_host server host);
     if decide (VSNFS_MAXPATHLEN < zlen path)
     then mret (- stat_code VSNFSERR_NAMETOOLONG, server) else
     p ← kstrndup path;
     match p with
     | None => mret (- ENOMEM, set_mnt_path server p)
     | Some _ => mret (0, set_mnt_path server p)
     end) m.
Proof.
  intros Hz Hc Hh. apply not_elem_of_app in Hz as [Hz1 Hz2].
  unfold vsnfs_parse_mntpath. mstep load_cstr_spec; [|exact Hh|].
  { rewrite not_elem_of_app, not_elem_of_cons. done. }
  rewrite strchr_app by done. fold (zlen host).
  replace (S (length host)) with (length (host ++ [COLON])) by (rewrite length_app; simpl; lia).
  change (host ++ COLON :: path) with (host ++ [COLON] ++ path).
  rewrite take_app_length. by rewrite app_assoc, drop_app_length.
Qed.

Lemma dup_bounds m s :
  in_bounds (alloc m (zlen s + 1)) (Ptr (m_next m) 0) (zlen (s ++ [NUL])).
Proof.
  rewrite zlen_app. change (zlen [NUL]) with 1. apply in_bounds_alloc_new; zlen_facts; lia.
Qed.

Lemma kstrndup_ok m s :
  kmalloc_ok (m_next m) = true →
  kstrndup s m = Done (Some (Ptr (m_next m) 0), upd (alloc m (zlen s + 1)) (Ptr (m_next m) 0) (s ++ [NUL])).
Proof.
  intros Hk. unfold kstrndup. mstep kmalloc_Some; [done|].
  by mstep store_bytes_spec; [apply dup_bounds|].
Qed.

(** The server structure after the device name. *)
Definition named server host p : vsnfs_server :=
  set_mnt_path (set_ip_addr server (splice (sv_ip_addr server) 0 (host ++ [NUL]))) (Some p).

Lemma parse_mntpath_ok m dev host path server :
  kmalloc_ok (m_next m) = true → NUL ∉ host ++ path → COLON ∉ host →
  has_bytes m dev ((host ++ COLON :: path) ++ [NUL]) →
  zlen host < IP_ADDR_SIZE → zlen path ≤ VSNFS_MAXPATHLEN →
  vsnfs_parse_mntpath dev server m =
    Done ((0, named server host (Ptr (m_next m) 0)),
          upd (alloc m (zlen path + 1)) (Ptr (m_next m) 0) (path ++ [NUL])).
Proof.
  intros Hk Hz Hc Hh Hl Hp. rewrite (parse_mntpath_start m dev host path) by done.
  unfold copy_host, IP_ADDR_SIZE, VSNFS_MAXNAMLEN in *.
  rewrite decide_False by lia. rewrite decide_True by lia. mrun. rewrite decide_False by lia.
  by mstep kstrndup_ok.
Qed.

(** C39: The host part of a device name is held against the limit of file names,
    255, not against the sixteen bytes of the buffer it is copied to: from 16
    characters on the copy writes outside the buffer.  Longer hosts, and paths
    of more than 1024 characters, are refused, and so is a name without a
    colon. *)
Theorem mntpath_bounds m dev host path server :
  NUL ∉ host ++ path → COLON ∉ host →
  (has_bytes m dev (host ++ [NUL]) →
     vsnfs_parse_mntpath dev server m = Done ((- stat_code VSNFSERR_INVAL, server), m)) ∧
  (has_bytes m dev ((host ++ COLON :: path) ++ [NUL]) →
     (VSNFS_MAXNAMLEN < zlen host →
        vsnfs_parse_mntpath dev server m = Done ((- stat_code VSNFSERR_NAMETOOLONG, server), m)) ∧
     (IP_ADDR_SIZE ≤ zlen host ≤ VSNFS_MAXNAMLEN →
        vsnfs_parse_mntpath dev server m = Oops OutOfBounds) ∧
     (zlen host < IP_ADDR_SIZE → VSNFS_MAXPATHLEN < zlen path →
        ∃ server', vsnfs_parse_mntpath dev server m =
          Done ((- stat_code VSNFSERR_NAMETOOLONG, server'), m))).
Proof.
  intros Hz Hc. split.
  { intros Hh. unfold vsnfs_parse_mntpath.
    mstep load_cstr_spec; [by apply not_elem_of_app in Hz as [? _]|exact Hh|].
    by rewrite strchr_None. }
  intros Hh. pose proof (parse_mntpath_start m dev host path server Hz Hc Hh) as E.
  unfold copy_host, IP_ADDR_SIZE, VSNFS_MAXNAMLEN in *. split_and!.
  - intros Hl. rewrite E. by rewrite decide_True.
  - intros Hl. rewrite E, decide_False, decide_False by lia. done.
  - intros Hl Hp. eexists. rewrite E, decide_False, decide_True by lia. mrun.
    by rewrite decide_True.
Qed.

(** ** All of the mount data *)
(** The structure after the device name and before the options. *)
Definition addressed server host p : vsnfs_server :=
  let s := named (set_timeout (set_server_port server VSNFS_PORT) VSNFS_TIMEOUT) host p in
  set_addrlen (set_addr s (SockaddrIn AF_INET (htons VSNFS_PORT)
                             (default (sin_addr (cl_addr server)) (in4_pton host).2)))
    sizeof_sockaddr_in.

Lemma named_host server host p :
  NUL ∉ host → zlen (sv_ip_addr server) = IP_ADDR_SIZE → zlen host < IP_ADDR_SIZE →
  c_string (sv_ip_addr (named server host p)) = Some host.
Proof.
  intros Hz Hi Hh. simpl. unfold splice. rewrite take_0. simpl app. rewrite <-app_assoc.
  by apply c_string_app.
Qed.

Lemma parse_raw m raw server os :
  Forall mopt_ok os →
  match raw with
  | Some p => has_bytes m p (render_all os ++ [NUL])
  | None => os = []
  end →
  ∃ m', (fuel ← options_fuel raw; parse_options fuel raw server) m =
      Done (foldl apply_opt server os, m') ∧
    (m' = m ∨ ∃ p, raw = Some p ∧ touches m (p_blk p) m').
Proof using PL.
  intros Hok Hraw. destruct raw as [p|]; [|subst os; exists m; by eauto].
  unfold options_fuel. pose proof (render_all_plain os Hok) as Hz.
  assert (∀ k, (fuel ← (s ← load_cstr p; mret (S (S (length s)))); parse_options fuel (Some p) server) m = k ↔
    parse_options (S (S (length (render_all os)))) (Some p) server m = k) as Hs.
  { intros k. rewrite bind_assoc. erewrite bind_Done; [|by apply load_cstr_spec]. done. }
  destruct (decide (os = [])) as [->|Hne].
  { exists m. split; [|by left]. apply Hs. cbn [parse_options strsep render_all length].
    mstep load_cstr_spec; [exact Hz|exact Hraw|]. rewrite strchr_None by apply not_elem_of_nil. mrun.
    mstep first_byte; [exact Hraw|]. done. }
  destruct (parse_options_spec os (S (S (length (render_all os)))) m p server) as (m' & E & Hm);
    [done| |done|done|].
  { pose proof (render_all_length os). lia. }
  exists m'. split; [by apply Hs|]. naive_solver.
Qed.

(** Memory after the loop over the options: their string has been cut. *)
Definition options_split m (raw : option ptr) mr : Prop :=
  mr = m ∨ ∃ q, raw = Some q ∧ touches m (p_blk q) mr.

Lemma parse_mount_options_spec m dev raw host path os server :
  kmalloc_ok (m_next m) = true → mem_wf m →
  NUL ∉ host ++ path → COLON ∉ host → has_bytes m dev ((host ++ COLON :: path) ++ [NUL]) →
  zlen host < IP_ADDR_SIZE → zlen path ≤ VSNFS_MAXPATHLEN → zlen (sv_ip_addr server) = IP_ADDR_SIZE →
  Forall mopt_ok os →
  match raw with
  | Some p => has_bytes m p (render_all os ++ [NUL])
  | None => os = []
  end →
  let p := Ptr (m_next m) 0 in
  ∃ m', vsnfs_parse_mount_options raw dev server m =
      Done (((in4_pton host).1, foldl apply_opt (addressed server host p) os), m') ∧
    has_bytes m' p (path ++ [NUL]) ∧
    ∃ mr, options_split m raw mr ∧ scratch [p_blk p] mr m'.
Proof using PL.
  intros Hk Hwf Hz Hc Hh Hl Hp Hip Hok Hraw p.
  set (m1 := upd (alloc m (zlen path + 1)) p (path ++ [NUL])).
  assert (in_bounds (alloc m (zlen path + 1)) p (zlen (path ++ [NUL]))) as Hb by apply dup_bounds.
  assert (scratch [p_blk p] m m1) as S1.
  { eapply (scratch_touches _ _ _ (p_blk p)); [set_solver|by apply touches_upd|].
    by apply (scratch_alloc []), scratch_refl. }
  destruct (parse_raw m1 raw (addressed server host p) os Hok) as (m' & E & Hm).
  { destruct raw as [q|]; [|done]. by eapply scratch_has_bytes. }
  exists m'. assert ((in4_pton host).1 = 0 ∨ (in4_pton host).1 = 1) as Hrc.
  { rewrite in4_pton_spec. case_decide; auto. }
  split_and!.
  - unfold vsnfs_parse_mount_options. cbv zeta. mstep parse_mntpath_ok; [done..|].
    rewrite decide_False by auto. fold p.
    set (s1 := named _ host p). assert (c_string (sv_ip_addr s1) = Some host) as ->.
    { apply named_host; [by apply not_elem_of_app in Hz as [? _]|done|done]. }
    unfold vsnfs_inet_pton. rewrite decide_True by done.
    change (default _ (Some host)) with host.
    destruct (in4_pton host) as [rc addr] eqn:Ei. simpl in Hrc. cbv beta iota.
    replace (if decide (0 < rc) then 1 else rc) with rc by (case_decide; lia).
    rewrite decide_False by lia.
    assert (set_addrlen (set_addr s1 (SockaddrIn AF_INET (htons VSNFS_PORT)
      (default (sin_addr (cl_addr s1)) addr))) sizeof_sockaddr_in = addressed server host p) as ->.
    { unfold addressed. by rewrite Ei. }
    rewrite <-bind_assoc. rewrite (bind_Done _ _ _ _ _ E). done.
  - assert (has_bytes m1 p (path ++ [NUL])) as H1 by by apply has_bytes_upd.
    destruct Hm as [->|(q & -> & Ht)]; [done|]. eapply touches_has_bytes; [exact Ht| |done].
    intros Heq. eapply (scratch_old _ _ _ (p_blk q) S1); [by eapply has_bytes_live|].
    rewrite <-Heq. set_solver.
  - destruct Hm as [->|(q & -> & Ht)]; [exists m; split; [by left|done]|].
    destruct (scratch_touch_old _ _ _ _ _ S1 (has_bytes_live _ _ _ Hraw) Ht) as (mr & H1 & H2).
    exists mr. split; [right; eauto|done].
Qed.

(** The last port, and the last timeout, of the options. *)
Definition last_port (os : list mopt) : Z :=
  foldl (λ n o, match o with OPort n => n | _ => n end) VSNFS_PORT os.
Definition last_timeout (os : list mopt) : Z :=
  foldl (λ n o, match o with OTimeout n => n | _ => n end) VSNFS_TIMEOUT os.

(** What the options leave alone. *)
Lemma apply_opts_same server os :
  let s := foldl apply_opt server os in
  cl_rpcclient s = cl_rpcclient server ∧ cl_rpc_ops s = cl_rpc_ops server ∧
  cl_addrlen s = cl_addrlen server ∧ sv_ip_addr s = sv_ip_addr server ∧
  sv_mnt_path s = sv_mnt_path server ∧ sv_root_fh s = sv_root_fh server ∧ sv_self s = sv_self server.
Proof.
  revert server. induction os as [|o os IH]; intros server; [done|]. simpl.
  destruct (IH (apply_opt server o)) as (-> & -> & -> & -> & -> & -> & ->). by destruct o.
Qed.
Lemma apply_opts_values server os port timeout :
  sv_server_port server = port → sv_timeout server = timeout →
  sin_port (cl_addr server) = htons port →
  let s := foldl apply_opt server os in
  let port' := foldl (λ n o, match o with OPort n => n | _ => n end) port os in
  sv_server_port s = port' ∧
  sv_timeout s = foldl (λ n o, match o with OTimeout n => n | _ => n end) timeout os ∧
  cl_addr s = SockaddrIn (sin_family (cl_addr server)) (htons port') (sin_addr (cl_addr server)).
Proof.
  revert server port timeout. induction os as [|o os IH]; intros server port timeout H1 H2 H3; simpl.
  - split_and!; [done|done|]. rewrite <-H3. by destruct (cl_addr server).
  - destruct o as [n|n|s]; simpl; [edestruct (IH (apply_opt server (OPort n))) as (E1 & E2 & E3)
      |edestruct (IH (apply_opt server (OTimeout n))) as (E1 & E2 & E3)|by apply IH]; try done.
Qed.

(** C13: Mount data [host:path] with options, printed as a user writes them,
    parse to what was printed: the path is copied, the address is that of the
    host, and the options take effect in order, so that the last port and the
    last timeout count and unknown options do nothing; without options the
    defaults stand.  The result is 1, or 0 when the host is not an address,
    and both are successes to the caller. *)
Theorem mount_options_parsed m dev raw host path os server :
  kmalloc_ok (m_next m) = true → mem_wf m →
  NUL ∉ host ++ path → COLON ∉ host → has_bytes m dev ((host ++ COLON :: path) ++ [NUL]) →
  zlen host < IP_ADDR_SIZE → zlen path ≤ VSNFS_MAXPATHLEN → zlen (sv_ip_addr server) = IP_ADDR_SIZE →
  Forall mopt_ok os →
  match raw with
  | Some p => has_bytes m p (render_all os ++ [NUL])
  | None => os = []
  end →
  ∃ m' s' p, vsnfs_parse_mount_options raw dev server m =
      Done ((if decide (is_Some (in4_pton host).2) then 1 else 0, s'), m') ∧
    sv_server_port s' = last_port os ∧ sv_timeout s' = last_timeout os ∧
    cl_addr s' = SockaddrIn AF_INET (htons (last_port os))
                   (default (sin_addr (cl_addr server)) (in4_pton host).2) ∧
    c_string (sv_ip_addr s') = Some host ∧
    sv_mnt_path s' = Some p ∧ has_bytes m' p (path ++ [NUL]) ∧
    ∃ mr, options_split m raw mr ∧ scratch [p_blk p] mr m'.
Proof using PL.
  intros Hk Hwf Hz Hc Hh Hl Hp Hip Hok Hraw.
  destruct (parse_mount_options_spec m dev raw host path os server) as (m' & E & Hb & Ha);
    [done..|].
  set (p := Ptr (m_next m) 0) in *.
  destruct (apply_opts_same (addressed server host p) os) as (_ & _ & _ & Eip & Emp & _).
  destruct (apply_opts_values (addressed server host p) os VSNFS_PORT VSNFS_TIMEOUT)
    as (E1 & E2 & E3); [done..|].
  exists m', (foldl apply_opt (addressed server host p) os), p.
  rewrite <-in4_pton_spec, Eip, Emp. split_and!; try done.
  apply (named_host _ host p); [by apply not_elem_of_app in Hz as [? _]|done|done].
Qed.
End mntpath.

(** ** An implementation of the interface *)
Fixpoint match_ref (s : list byte) (tbl : list (vsnfs_opt * option (list byte))) : vsnfs_opt * Z :=
  match tbl with
  | (o, Some pat) :: tbl =>
      let pre := take (length pat - 2) pat in
      let num := drop (length pre) s in
      if decide (take (length pre) s = pre ∧ num ≠ [] ∧ Forall is_digit num) then (o, zlen pre)
      else match_ref s tbl
  | (o, None) :: _ => (o, 0)
  | [] => (vsnfs_opt_err, 0)
  end.
(** Only the address of the local host is known. *)
Definition localhost : list byte := [x31; x32; x37; x2e; x30; x2e; x30; x2e; x31].   (* 127.0.0.1 *)
Definition mount_ref : MountApi := {|
  match_token := match_ref;
  in4_pton s := if decide (s = localhost) then (1, Some [x7f; x00; x00; x01]) else (0, None);
  in6_pton _ := (0, None);
|}.

Lemma tokens_inv o prefix :
  (o, Some (pat_u prefix)) ∈ tokens →
  (o = vsnfs_opt_port ∧ prefix = str_port) ∨ (o = vsnfs_opt_timeout ∧ prefix = str_timeout).
Proof.
  unfold tokens. rewrite !elem_of_cons. intros [[= -> H]|[[= -> H]|[H|H]]]; [| |done|set_solver];
    [left|right]; (split; [done|]); unfold pat_u in H; by apply app_inv_tail in H.
Qed.

(** The two patterns, tried in turn. *)
Definition numbered (pre s : list byte) : Prop :=
  let num := drop (length pre) s in
  take (length pre) s = pre ∧ num ≠ [] ∧ Forall is_digit num.
#[export] Instance is_digit_dec b : Decision (is_digit b).
Proof. unfold is_digit. apply _. Defined.
#[export] Instance numbered_dec pre s : Decision (numbered pre s).
Proof. unfold numbered. apply _. Defined.
Lemma match_ref_tokens s :
  match_ref s tokens =
    if decide (numbered str_port s) then (vsnfs_opt_port, 5)
    else if decide (numbered str_timeout s) then (vsnfs_opt_timeout, 8) else (vsnfs_opt_err, 0).
Proof.
  unfold tokens, pat_u. cbn [match_ref str_port str_timeout app length Nat.sub take].
  change [x70; x6f; x72; x74; x3d] with str_port.
  change [x74; x69; x6d; x65; x6f; x75; x74; x3d] with str_timeout.
  unfold numbered. repeat case_decide; tauto || done.
Qed.
Lemma numbered_app pre s : numbered pre (pre ++ s) ↔ s ≠ [] ∧ Forall is_digit s.
Proof. unfold numbered. rewrite take_app_length, drop_app_length. naive_solver. Qed.

#[export] Instance mount_ref_laws : MountApiLaws mount_ref.
Proof.
  split; cbn [match_token in4_pton mount_ref].
  - intros o prefix ds b ds' Ho Hd -> Hb. rewrite match_ref_tokens.
    destruct (tokens_inv o prefix Ho) as [[-> ->]|[-> ->]].
    + by rewrite decide_True by (by apply numbered_app).
    + rewrite decide_False by (by intros [? _]). by rewrite decide_True by (by apply numbered_app).
  - intros o prefix s Ho Hs. rewrite match_ref_tokens.
    assert (¬ (s ≠ [] ∧ Forall is_digit s)) as Hn.
    { intros [Hne Hd]. destruct s as [|b s]; [done|]. apply Forall_cons in Hd as [Hb _].
      pose proof (xdigit_digit b Hb) as E.
      by rewrite (Hs b eq_refl) in E. }
    destruct (tokens_inv o prefix Ho) as [[-> ->]|[-> ->]].
    + rewrite decide_False by (by rewrite numbered_app).
      by rewrite decide_False by (by intros [? _]).
    + rewrite decide_False by (by intros [? _]).
      by rewrite decide_False by (by rewrite numbered_app).
  - intros s H1 H2. rewrite match_ref_tokens.
    assert (∀ pre, ¬ pre `prefix_of` s → ¬ numbered pre s) as Hn.
    { intros pre Hp [Ht _]. apply Hp. exists (drop (length pre) s).
      rewrite <-Ht at 1. by rewrite take_drop. }
    by rewrite !decide_False by auto.
  - intros s. by destruct (decide (s = localhost)).
Qed.

(** ** Examples *)
Definition ex_options : list mopt := [OPort 2049; OOther [x72; x6f]; OTimeout 30; OPort 6790].
Definition ex_server0 `{A : Arch} `{X : SunrpcXdr} `{R : RpcClient} : vsnfs_server :=
  VsnfsServer None vsnfs_clientops (SockaddrIn 0 0 [x00; x00; x00; x00]) 0 0 0 (zeros 16) 0 None
    (Ptr 10 80) (Ptr 10 0).
Definition ex_srv : vsnfs_server :=
  ex_server0 (A := x86_64) (X := sunrpc_ref (H := x86_64)) (R := rpc_ref (H := x86_64) (λ _ _ _, inl (-5))).
Definition ex_srvpath : list byte := [x2f; x73; x72; x76].                                (* /srv *)
Definition ex_mount_mem : mem :=
  mem_of [(11%positive, (localhost ++ COLON :: ex_srvpath) ++ [NUL]);
          (12%positive, render_all ex_options ++ [NUL])].

Lemma mount_options_parsed_witness :
  ∃ m' s' p, vsnfs_parse_mount_options (A := x86_64) (Km := kmem_ref []) (P := mount_ref)
      (Some (Ptr 12 0)) (Ptr 11 0) ex_srv ex_mount_mem = Done ((1, s'), m') ∧
    sv_server_port s' = 6790 ∧ sv_timeout s' = 30 ∧
    cl_addr s' = SockaddrIn AF_INET (htons (H := x86_64) 6790) [x7f; x00; x00; x01] ∧
    c_string (sv_ip_addr s') = Some localhost ∧
    sv_mnt_path s' = Some p ∧ has_bytes m' p (ex_srvpath ++ [NUL]) ∧
    ∃ mr, options_split ex_mount_mem (Some (Ptr 12 0)) mr ∧ scratch [p_blk p] mr m'.
Proof.
  exact (mount_options_parsed (A := x86_64) (Km := kmem_ref []) (P := mount_ref)
    ex_mount_mem (Ptr 11 0) (Some (Ptr 12 0)) localhost ex_srvpath ex_options ex_srv
    ltac:(done) ltac:(apply mem_of_wf; repeat constructor) ltac:(by_eval) ltac:(by_eval)
    ltac:(by_eval) ltac:(by_eval) ltac:(by_eval) ltac:(by_eval) ltac:(by_eval) ltac:(by_eval)).
Defined.

(** A host name of sixteen characters. *)
Lemma mntpath_bounds_witness :
  let m := mem_of [(11%positive, (replicate 16 x61 ++ COLON :: ex_srvpath) ++ [NUL])] in
  vsnfs_parse_mntpath (Km := kmem_ref []) (Ptr 11 0) ex_srv m = Oops OutOfBounds.
Proof.
  exact (proj1 (proj2 (proj2 (mntpath_bounds (Km := kmem_ref [])
    (mem_of [(11%positive, (replicate 16 x61 ++ COLON :: ex_srvpath) ++ [NUL])]) (Ptr 11 0)
    (replicate 16 x61) ex_srvpath ex_srv ltac:(by_eval) ltac:(by_eval)) ltac:(by_eval)))
    ltac:(by_eval)).
Defined.
