(* ===== verification/ClientSuper.v ===== *)
(** * ClientSuper: mounting and unmounting ([vsnfsClient.c], [module.c])

    [vsnfs_get_sb] reads the mount data, creates the RPC client, asks the
    server for the root, gets a super block and makes the root inode and its
    dentries; [vsnfs_kill_sb] undoes it.  The kernel's part, from [sget] to
    [kill_anon_super], is the interface [SuperApi]. *)
From Stdlib Require Import Strings.Byte.
From S2P Require Import Prelude Mem Frame CString Protocol Sunrpc Wire Handle ClientXdr.
From S2P Require Import RpcApi ClientProc ClientState VfsApi ClientInode ClientMount.

(** ** The server structure in memory *)
Section layout.
Context `{A : Arch}.
(** The members before [root_fh]: two pointers, the address, its length, two
    integers, [ip_addr], the port and the path. *)
Definition server_fields : list (Z * Z) :=
  [c_ptr; c_ptr; (sizeof_sockaddr_in, 4); c_ptr; c_int; c_int; (IP_ADDR_SIZE, 1); c_int; c_ptr].
Definition sizeof_vsnfs_server : Z := c_struct (server_fields ++ [c_fh]).
Definition offset_root_fh : Z :=
  round_up (foldl (λ off f, round_up off f.2 + f.1) 0 server_fields) 4.
End layout.

(** ** The RPC program *)
Record rpc_create_args : Type := RpcCreateArgs {
  rc_protocol : Z;
  rc_address : sockaddr_in;
  rc_addrsize : Z;
  rc_servername : list byte;
  rc_program : Z;
  rc_version : Z;
  rc_authflavor : Z;
  rc_flags : Z;
}.
Definition IPPROTO_TCP : Z := 6.
Definition RPC_AUTH_NULL : Z := 0.
Definition RPC_CLNT_CREATE_NOPING : Z := 16.
(** [vsnfs_version]: which versions there are. *)
Definition vsnfs_version `{A : Arch} `{X : SunrpcXdr} : list (option (Z * Z)) :=
  [None; Some vsnfs_version1].
(** [vsnfs_program]: its number and how many versions it has room for. *)
Definition vsnfs_program `{A : Arch} `{X : SunrpcXdr} : Z * Z :=
  (VSNFS_PROGRAM, zlen vsnfs_version).

Definition VSNFS_FILE_IO_SIZE : Z := 4096.
Definition VSNFS_FILE_BSIZE_BITS : Z := 12.
Definition MS_ACTIVE : Z := 2 ^ 30.
Definition MAX_LFS_FILESIZE `{Arch} : Z :=
  if decide (long_bits = 32) then PAGE_SIZE * 2 ^ 31 - 1 else 2 ^ 63 - 1.
Definition MAJOR (dev : Z) : Z := Z.shiftr dev 20.
Definition MINOR (dev : Z) : Z := Z.land dev (2 ^ 20 - 1).
Definition S_ID_SIZE : Z := 32.

(** ["%x"]. *)
Definition xdigit_of (d : Z) : byte := if decide (d < 10) then digit d else byte_of (87 + d).
Fixpoint xdigits (fuel : nat) (n : Z) : list byte :=
  match fuel with
  | O => []
  | S f => if decide (n < 16) then [xdigit_of n] else xdigits f (n / 16) ++ [xdigit_of (n mod 16)]
  end.
Definition fmt_x (n : Z) : list byte := xdigits 8 n.

(** A root dentry: its inode and its operations. *)
Record root_dentry : Type := RootDentry { rd_ino : Z; rd_op : option dentry_operations }.
#[export] Instance root_dentry_eq_dec : EqDecision root_dentry.
Proof. solve_decision. Defined.

Class SuperApi : Type := {
  (* what connecting comes to: an error, or an RPC client *)
  rpc_connects : rpc_create_args → Z + Z;
  rpc_create : rpc_create_args → M cstate (Z + Z);
  (* ends the calls under way *)
  rpc_killall_tasks : Z → M cstate unit;
  (* a new super block, set up by the function given *)
  sget : (super_block → M cstate (Z * super_block)) → M cstate (Z + option super_block);
  fresh_super : super_block;
  super_memory : cstate → bool;
  set_anon_super : super_block → Z * super_block;
  d_alloc_root : Z → M cstate (option Z);
  d_obtain_alias : Z → M cstate (Z + option root_dentry);
  kill_anon_super : super_block → M cstate unit;
  register_filesystem : Z;
  unregister_filesystem : Z;
}.

(** What is made stays until [rpc_shutdown_client]. *)
Definition add_clnt (r : Z + Z) (c : cstate) : cstate :=
  match r with inl _ => c | inr clnt => set_clnts (clnt :: c_clnts c) c end.

Class SuperApiLaws (S : SuperApi) : Prop := {
  rpc_create_spec a c : rpc_create a c = Done (rpc_connects a, add_clnt (rpc_connects a) c);
  fresh_super_spec : fresh_super = bare_super None;
  set_anon_super_spec s : ∃ e dev,
    set_anon_super s = (e, SuperBlock (s_fs_info s) dev (s_blocksize_bits s) (s_blocksize s)
      (s_magic s) (s_id s) (s_maxbytes s) (s_op s) (s_root s) (s_flags s)) ∧ e ≤ 0;
  sget_ok set c :
    super_memory c = true →
    sget set c = ('(e, sb) ← set fresh_super;
                  mret (if decide (e = 0) then inr (Some sb) else inl e)) c;
  sget_nomem set c : super_memory c = false → sget set c = Done (inl (- ENOMEM), c);
  (* the dentry takes over the reference; when there is no memory it stays *)
  d_alloc_root_spec h c :
    d_alloc_root h c = Done (Some h, c) ∨ d_alloc_root h c = Done (None, c);
  (* likewise, and a failure gives the reference up *)
  d_obtain_alias_spec h c :
    d_obtain_alias h c = Done (inr (Some (RootDentry h None)), c) ∨
    ∃ e c', d_obtain_alias h c = Done (inl e, c') ∧ e < 0;
  (* the dentries go, and with them the inodes *)
  rpc_killall_tasks_spec clnt c : rpc_killall_tasks clnt c = Done (tt, c);
  kill_anon_super_spec sb c : kill_anon_super sb c = Done (tt, set_icache ∅ c);
}.

(** An implementation: one RPC client for every address, or an error; one
    device; dentries that are never short. *)
Definition super_ref (rpc : Z + Z) : SuperApi := {|
  rpc_connects _ := rpc;
  rpc_create _ := modify (add_clnt rpc);; mret rpc;
  rpc_killall_tasks _ := mret tt;
  sget set := '(e, sb) ← set (bare_super None);
              mret (if decide (e = 0) then inr (Some sb) else inl e);
  fresh_super := bare_super None;
  super_memory _ := true;
  set_anon_super s := (0, SuperBlock (s_fs_info s) 21 (s_blocksize_bits s) (s_blocksize s)
      (s_magic s) (s_id s) (s_maxbytes s) (s_op s) (s_root s) (s_flags s));
  d_alloc_root h := mret (Some h);
  d_obtain_alias h := mret (inr (Some (RootDentry h None)));
  kill_anon_super _ := modify (set_icache ∅);
  register_filesystem := 0;
  unregister_filesystem := 0;
|}.
#[export] Instance super_ref_laws rpc : SuperApiLaws (super_ref rpc).
Proof. split; try done; [eexists _, _; split; [done|lia]|by left..]. Qed.

Section super.
Context `{A : Arch} `{Km : Kmem} `{X : SunrpcXdr} `{R : RpcClient} `{V : ClientVfs}.
Context `{P : MountApi} `{S : SuperApi}.

Definition vsnfs_create_rpcclient (server : vsnfs_server) : M cstate (Z * vsnfs_server) :=
  path ← deref (sv_mnt_path server);
  s ← in_cmem (load_cstr path);
  let argp := VsnfsGetrootargs path (zlen s) in
  let args := RpcCreateArgs IPPROTO_TCP (cl_addr server) (cl_addrlen server) (sv_ip_addr server)
                vsnfs_program.1 (op_version (cl_rpc_ops server)) RPC_AUTH_NULL
                RPC_CLNT_CREATE_NOPING in
  clnt ← rpc_create args;
  match clnt with
  | inl e => in_cmem (kfree None);; mret (e, server)
  | inr clnt =>
      let server := set_rpcclient server (Some clnt) in
      resp ← in_cmem (kmalloc sizeof_vsnfs_fh);
      match resp with
      | None => in_cmem (kfree None);; mret (- ENOMEM, server)
      | Some resp =>
          fh0 ← in_cmem (load_fh resp);
          '(ret, fh) ← in_cmem (op_getroot (cl_rpc_ops server) clnt argp fh0);
          in_cmem (store_fh resp fh);;
          if decide (ret = 0) then
            fh ← in_cmem (load_fh resp);
            in_cmem (store_fh (sv_root_fh server) fh);;
            in_cmem (kfree (Some resp));;
            mret (ret, server)
          else
            in_cmem (kfree (Some resp));;
            mret (- stat_code VSNFSERR_REMOTE, server)
      end
  end.

Definition vsnfs_umount_begin (sb : super_block) : M cstate unit :=
  server ← VSNFS_SB sb;
  match cl_rpcclient server with
  | Some rpc => rpc_killall_tasks rpc
  | None => mret tt
  end.

Definition vsnfs_write_inode (inode sync : Z) : M cstate Z := mret (- EOPNOTSUPP).
Definition vsnfs_clear_inode (inode : Z) : M cstate unit := mret tt.

Definition VSNFSClientInit : Z := register_filesystem.
Definition VSNFSClientCleanup : Z := unregister_filesystem.
(** [module.c]; the messages aside. *)
Definition vsnfs_init : Z := let ret := VSNFSClientInit in ret.
Definition vsnfs_cleanup : unit := let ret := VSNFSClientCleanup in tt.

Definition vsnfs_fill_super (sb : super_block) : super_block :=
  SuperBlock (s_fs_info sb) (s_dev sb) VSNFS_FILE_BSIZE_BITS VSNFS_FILE_IO_SIZE VSNFS_SB_MAGIC
    (take (Z.to_nat (S_ID_SIZE - 1)) (fmt_x (MAJOR (s_dev sb)) ++ x3a :: fmt_x (MINOR (s_dev sb))))
    MAX_LFS_FILESIZE (Some vsnfs_sops) (s_root sb) (s_flags sb).

Definition vsnfs_set_super (s : super_block) (server : vsnfs_server) : M cstate (Z * super_block) :=
  let s := SuperBlock (Some server) (s_dev s) (s_blocksize_bits s) (s_blocksize s) (s_magic s)
             (s_id s) (s_maxbytes s) (s_op s) (s_root s) (s_flags s) in
  mret (set_anon_super s).

(** The structure [kzalloc] gives, with its operations set. *)
Definition new_server (p : ptr) : vsnfs_server :=
  VsnfsServer None vsnfs_clientops (SockaddrIn 0 0 [NUL; NUL; NUL; NUL]) 0 0 0
    (replicate (Z.to_nat IP_ADDR_SIZE) NUL) 0 None (p +p offset_root_fh) p.

Definition vsnfs_init_server (server : ptr) (dev_name : ptr) (raw_data : option ptr)
    : M cstate (Z * vsnfs_server) :=
  in_cmem (vsnfs_parse_mount_options raw_data dev_name (new_server server)).

Definition vsnfs_superblock_set_dummy_root (sb : super_block) (inode : Z)
    : M cstate (Z * super_block) :=
  match s_root sb with
  | None =>
      root ← d_alloc_root inode;
      let sb := SuperBlock (s_fs_info sb) (s_dev sb) (s_blocksize_bits sb) (s_blocksize sb)
                  (s_magic sb) (s_id sb) (s_maxbytes sb) (s_op sb) root (s_flags sb) in
      match root with
      | None => iput inode;; mret (- ENOMEM, sb)
      | Some _ =>
          i ← get_inode inode;
          store_inode inode (set_count i (ci_count i + 1));;
          mret (0, sb)
      end
  | Some _ => mret (0, sb)
  end.

(** The result is an error or the dentry, and what the super block then is. *)
Definition vsnfs_get_root (sb : super_block) (mntfh : ptr)
    : M cstate ((Z + option root_dentry) * super_block) :=
  server ← VSNFS_SB sb;
  r ← vsnfs_fhget sb mntfh;
  match r with
  | inl e => mret (inl e, sb)
  | inr rootinode =>
      '(ret, sb) ← vsnfs_superblock_set_dummy_root sb rootinode;
      if decide (ret ≠ 0) then mret (inl ret, sb) else
      mntroot ← d_obtain_alias rootinode;
      match mntroot with
      | inl e => mret (inl e, sb)
      | inr None => oops NullDeref
      | inr (Some d) =>
          mret (inr (Some (RootDentry (rd_ino d)
            (match rd_op d with
             | None => Some (op_dentry_ops (cl_rpc_ops server))
             | o => o
             end))), sb)
      end
  end.

(** [dput] of a NULL dentry does nothing; of an error it is a fault. *)
Definition dput_result (r : Z + option root_dentry) : M cstate unit :=
  match r with inl _ => oops NullDeref | inr _ => mret tt end.

(** The parts of [vsnfs_get_sb]; their result is that of the function, and the
    super block and root dentry put into the mount.  From the root on: *)
Definition get_sb_root (s : super_block) (mntfh : ptr) : M cstate (Z * option (super_block * root_dentry)) :=
  '(mntroot, s) ← vsnfs_get_root s mntfh;
  match mntroot with
  | inr (Some d) =>
      let s := SuperBlock (s_fs_info s) (s_dev s) (s_blocksize_bits s) (s_blocksize s)
                 (s_magic s) (s_id s) (s_maxbytes s) (s_op s) (s_root s)
                 (Z.lor (s_flags s) MS_ACTIVE) in
      mret (0, Some (s, d))
  | inr None => dput_result mntroot;; mret (0, None)
  | inl e => dput_result mntroot;; mret (e, None)
  end.
(** ... and from the RPC client on. *)
Definition get_sb_server (server : vsnfs_server) : M cstate (Z * option (super_block * root_dentry)) :=
  '(ret, server) ← vsnfs_create_rpcclient server;
  if decide (ret < 0) then mret (ret, None) else
  s ← sget (λ s, vsnfs_set_super s server);
  match s with
  | inl e => in_cmem (kfree (Some (sv_self server)));; mret (e, None)
  | inr None => in_cmem (kfree (Some (sv_self server)));; mret (0, None)
  | inr (Some s) =>
      let s := match s_root s with None => vsnfs_fill_super s | Some _ => s end in
      get_sb_root s (sv_root_fh server)
  end.

Definition vsnfs_get_sb (dev_name : ptr) (raw_data : option ptr)
    : M cstate (Z * option (super_block * root_dentry)) :=
  server ← in_cmem (kmalloc sizeof_vsnfs_server);
  match server with
  | None => oops NullDeref   (* vsnfs_init_server writes to it *)
  | Some p =>
      in_cmem (store_bytes p (replicate (Z.to_nat sizeof_vsnfs_server) NUL));;
      '(ret, server) ← vsnfs_init_server p dev_name raw_data;
      if decide (ret < 0) then mret (ret, None) else get_sb_server server
  end.

Definition vsnfs_kill_sb (s : super_block) : M cstate unit :=
  server ← VSNFS_SB s;
  kill_anon_super s;;
  in_cmem (kfree (Some (sv_self server))).
End super.
