(* ===== verification/ClientSuperSpec.v ===== *)
(** * ClientSuperSpec: what mounting and unmounting do

    A successful mount leaves a root inode that satisfies what reading and
    looking up in a directory need ([dir_of]) and a cache that satisfies its
    invariant; unmounting gives everything back but the copy of the path and the
    RPC client. *)
From Stdlib Require Import Strings.Byte.
From S2P Require Import Prelude Mem Frame CString Protocol Sunrpc Wire Handle ClientXdr.
From S2P Require Import RpcApi ClientProc ClientState VfsApi ClientInode ClientInodeSpec.
From S2P Require Import ClientMount ClientMountSpec ClientSuper.

Section rpcclient.
Context `{A : Arch} `{Km : Kmem} `{X : SunrpcXdr} `{XL : !SunrpcXdrLaws X}.
Context `{R : RpcClient} `{RL : !RpcClientLaws R} `{S : SuperApi} `{SL : !SuperApiLaws S}.
Implicit Types (c : cstate) (m : mem) (server : vsnfs_server) (fh : vsnfs_fh).

(** A new handle buffer, filled in by a call, copied and freed. *)
Lemma handle_call_memory m m5 q fh :
  mem_wf m → in_bounds m q 12 → fh_wf fh →
  let resp := Ptr (m_next m) 0 in
  scratch [] (alloc m sizeof_vsnfs_fh) m5 →
  in_bounds m5 resp (zlen (fh_bytes fh)) ∧
  in_bounds (upd m5 resp (fh_bytes fh)) q (zlen (fh_bytes fh)) ∧
  live (upd (upd m5 resp (fh_bytes fh)) q (fh_bytes fh)) (m_next m) ∧
  scratch [] (upd m q (fh_bytes fh))
    (release (upd (upd m5 resp (fh_bytes fh)) q (fh_bytes fh)) resp).
Proof.
  intros Hwf Hq Hf resp S5. rewrite <-(zlen_fh_bytes fh) in Hq by done.
  pose proof (scratch_alloc [] m m sizeof_vsnfs_fh (scratch_refl m Hwf)) as S4.
  assert (in_bounds (alloc m sizeof_vsnfs_fh) resp (zlen (fh_bytes fh))) as B4.
  { rewrite zlen_fh_bytes by done. apply in_bounds_alloc_new; by vm_compute. }
  pose proof (scratch_in_bounds _ _ _ _ _ S5 B4) as B5.
  pose proof (scratch_trans _ _ _ _ S4 S5) as S45.
  pose proof (scratch_touches _ _ _ (p_blk resp) _ (list_elem_of_here _ _)
    (touches_upd _ _ _ B5) S45) as S6.
  pose proof (scratch_upd _ _ _ q (fh_bytes fh) S6 Hq) as S7.
  split_and!; [done|exact (scratch_in_bounds _ _ _ _ _ S6 Hq)| |].
  - apply (sc_live _ _ _ S7), list_elem_of_here.
  - exact (scratch_release [] _ _ (m_next m) (not_elem_of_nil _) S7).
Qed.

Lemma refused_call_memory m m5 fh0 :
  mem_wf m → fh_wf fh0 →
  let resp := Ptr (m_next m) 0 in
  scratch [] (alloc m sizeof_vsnfs_fh) m5 →
  in_bounds m5 resp (zlen (fh_bytes fh0)) ∧ live (upd m5 resp (fh_bytes fh0)) (m_next m) ∧
  scratch [] m (release (upd m5 resp (fh_bytes fh0)) resp).
Proof.
  intros Hwf Hf resp S5.
  pose proof (scratch_alloc [] m m sizeof_vsnfs_fh (scratch_refl m Hwf)) as S4.
  assert (in_bounds (alloc m sizeof_vsnfs_fh) resp (zlen (fh_bytes fh0))) as B4.
  { rewrite zlen_fh_bytes by done. apply in_bounds_alloc_new; by vm_compute. }
  pose proof (scratch_in_bounds _ _ _ _ _ S5 B4) as B5.
  pose proof (scratch_touches _ _ _ (p_blk resp) _ (list_elem_of_here _ _)
    (touches_upd _ _ _ B5) (scratch_trans _ _ _ _ S4 S5)) as S6.
  split_and!; [done|apply (sc_live _ _ _ S6), list_elem_of_here|].
  exact (scratch_release [] _ _ (m_next m) (not_elem_of_nil _) S6).
Qed.

(** What the client asks [rpc_create] for. *)
Definition args_of server : rpc_create_args :=
  RpcCreateArgs IPPROTO_TCP (cl_addr server) (cl_addrlen server) (sv_ip_addr server)
    VSNFS_PROGRAM 1 RPC_AUTH_NULL RPC_CLNT_CREATE_NOPING.
Lemma args_of_spec server :
  cl_rpc_ops server = vsnfs_clientops →
  RpcCreateArgs IPPROTO_TCP (cl_addr server) (cl_addrlen server) (sv_ip_addr server)
    vsnfs_program.1 (op_version (cl_rpc_ops server)) RPC_AUTH_NULL RPC_CLNT_CREATE_NOPING
  = args_of server.
Proof. by intros ->. Qed.

Lemma create_rpcclient_ok c server pp path clnt fh :
  (∀ b, kmalloc_ok b = true) → mem_wf (c_mem c) → (∀ m, rpc_ready clnt m = true) →
  sv_mnt_path server = Some pp → has_bytes (c_mem c) pp (path ++ [NUL]) → NUL ∉ path →
  zlen path ≤ VSNFS_MAXPATHLEN → cl_rpc_ops server = vsnfs_clientops →
  rpc_connects (args_of server) = inr clnt → in_bounds (c_mem c) (sv_root_fh server) 12 →
  exchange clnt VSNFSPROC_GETROOT (wire_getroot path) = inr (wire_reply 0 (wire_fh fh)) → fh_wf fh →
  ∃ m', vsnfs_create_rpcclient server c =
      Done ((0, set_rpcclient server (Some clnt)), set_cmem m' (add_clnt (inr clnt) c)) ∧
    scratch [] (upd (c_mem c) (sv_root_fh server) (fh_bytes fh)) m'.
Proof.
  intros Hok Hwf Hrdy Hmp Hpb Hz Hl Hops Hrc Hq Hx Hf. set (m := c_mem c) in *.
  set (m4 := alloc m sizeof_vsnfs_fh). set (resp := Ptr (m_next m) 0).
  pose proof (scratch_alloc [] m m sizeof_vsnfs_fh (scratch_refl m Hwf)) as S4. fold m4 in S4.
  destruct (load_fh_any m4 resp) as (fh0 & _ & _ & E0);
    [apply in_bounds_alloc_new; by vm_compute|].
  pose proof Hpb as [Hpp _]%has_bytes_app.
  destruct (vsnfs_proc_getroot_spec clnt m4 pp path fh0 0 fh) as (m5 & Ecall & S5);
    [by apply mem_wf_alloc|done|exact (scratch_has_bytes _ _ _ _ _ S4 Hpp)|done|
     rewrite Hx; by constructor|].
  destruct (handle_call_memory m m5 (sv_root_fh server) fh Hwf Hq Hf S5) as (B5 & B6 & L7 & S8).
  fold resp in B5, B6, L7, S8. eexists. split; [|exact S8].
  unfold vsnfs_create_rpcclient. rewrite Hmp. mrun. mstep in_cmem_Done; [by apply load_cstr_spec|].
  rewrite set_cmem_id. rewrite (args_of_spec server Hops). mstep rpc_create_spec. rewrite Hrc. mstep in_cmem_Done; [apply kmalloc_Some, Hok|]. fold m m4 resp.
  mstep in_cmem_Done; [exact E0|]. simpl cl_rpc_ops. rewrite Hops.
  mstep in_cmem_Done; [exact Ecall|]. mstep in_cmem_Done; [apply store_bytes_spec; exact B5|].
  rewrite decide_True by done.
  mstep in_cmem_Done; [apply load_fh_spec; [exact Hf|by apply has_bytes_upd]|].
  mstep in_cmem_Done; [apply store_bytes_spec; exact B6|].
  mstep in_cmem_Done; [apply kfree_spec; [exact L7|done]|]. done.
Qed.

(** A reply that is a failure: of the transport, or a status of the server. *)
Inductive refusal : Z + list byte → Prop :=
  | refused_fail e : e ≠ 0 → refusal (inl e)
  | refused_status st e : s32 st ≠ 0 → vsnfs_stat_to_errno (s32 st) = Done e → e ≠ 0 →
      refusal (inr (be32 st)).

Lemma create_rpcclient_refused c server pp path clnt :
  (∀ b, kmalloc_ok b = true) → mem_wf (c_mem c) → (∀ m, rpc_ready clnt m = true) →
  sv_mnt_path server = Some pp → has_bytes (c_mem c) pp (path ++ [NUL]) → NUL ∉ path →
  zlen path ≤ VSNFS_MAXPATHLEN → cl_rpc_ops server = vsnfs_clientops →
  rpc_connects (args_of server) = inr clnt →
  refusal (exchange clnt VSNFSPROC_GETROOT (wire_getroot path)) →
  ∃ m', vsnfs_create_rpcclient server c =
      Done ((- stat_code VSNFSERR_REMOTE, set_rpcclient server (Some clnt)),
            set_cmem m' (add_clnt (inr clnt) c)) ∧
    scratch [] (c_mem c) m'.
Proof.
  intros Hok Hwf Hrdy Hmp Hpb Hz Hl Hops Hrc Hx. set (m := c_mem c) in *.
  set (m4 := alloc m sizeof_vsnfs_fh). set (resp := Ptr (m_next m) 0).
  pose proof (scratch_alloc [] m m sizeof_vsnfs_fh (scratch_refl m Hwf)) as S4. fold m4 in S4.
  destruct (load_fh_any m4 resp) as (fh0 & Hf0 & _ & E0);
    [apply in_bounds_alloc_new; by vm_compute|].
  pose proof Hpb as [Hpp _]%has_bytes_app.
  assert (∃ e, e ≠ 0 ∧ fh_answer fh0 (exchange clnt VSNFSPROC_GETROOT (wire_getroot path)) e fh0)
    as (e & He & Ha) by (destruct Hx; eexists; (split; [done|by econstructor])).
  destruct (vsnfs_proc_getroot_spec clnt m4 pp path fh0 e fh0) as (m5 & Ecall & S5);
    [by apply mem_wf_alloc|done|exact (scratch_has_bytes _ _ _ _ _ S4 Hpp)|done|exact Ha|].
  destruct (refused_call_memory m m5 fh0 Hwf Hf0 S5) as (B5 & L6 & S6).
  fold resp in B5, L6, S6. eexists. split; [|exact S6].
  unfold vsnfs_create_rpcclient. rewrite Hmp. mrun. mstep in_cmem_Done; [by apply load_cstr_spec|].
  rewrite set_cmem_id. rewrite (args_of_spec server Hops). mstep rpc_create_spec. rewrite Hrc.
  mstep in_cmem_Done; [apply kmalloc_Some, Hok|]. fold m m4 resp.
  mstep in_cmem_Done; [exact E0|]. simpl cl_rpc_ops. rewrite Hops.
  mstep in_cmem_Done; [exact Ecall|]. mstep in_cmem_Done; [apply store_bytes_spec; exact B5|].
  rewrite decide_False by done.
  mstep in_cmem_Done; [apply kfree_spec; [exact L6|done]|]. done.
Qed.

Lemma create_rpcclient_nonet c server pp path e :
  sv_mnt_path server = Some pp → has_bytes (c_mem c) pp (path ++ [NUL]) → NUL ∉ path →
  cl_rpc_ops server = vsnfs_clientops → rpc_connects (args_of server) = inl e →
  vsnfs_create_rpcclient server c = Done ((e, server), c).
Proof.
  intros Hmp Hpb Hz Hops Hrc. unfold vsnfs_create_rpcclient. rewrite Hmp. mrun.
  mstep in_cmem_Done; [by apply load_cstr_spec|].
  rewrite set_cmem_id. rewrite (args_of_spec server Hops). mstep rpc_create_spec. rewrite Hrc.
  by mstep in_cmem_Done; [done|]; rewrite ?set_cmem_id.
Qed.
End rpcclient.

(** ** The root *)
Section root.
Context `{A : Arch} `{X : SunrpcXdr} `{R : RpcClient} `{V : ClientVfs} `{VL : !ClientVfsLaws V}.
Context `{S : SuperApi} `{SL : !SuperApiLaws S}.
Implicit Types (c : cstate) (server : vsnfs_server) (fh : vsnfs_fh) (sb : super_block).

Definition with_root sb (h : Z) : super_block :=
  SuperBlock (s_fs_info sb) (s_dev sb) (s_blocksize_bits sb) (s_blocksize sb) (s_magic sb)
    (s_id sb) (s_maxbytes sb) (s_op sb) (Some h) (s_flags sb).

Lemma get_root_ok sb server c fh h :
  s_fs_info sb = Some server → cl_rpc_ops server = vsnfs_clientops → s_root sb = None →
  fh_wf fh → has_bytes (c_mem c) (sv_root_fh server) (fh_bytes fh) → fh_strtoul fh = Done h →
  reg_or_dir fh → c_icache c !! h = None → inode_memory c = true →
  (∀ c, d_alloc_root h c = Done (Some h, c)) →
  (∀ c, d_obtain_alias h c = Done (inr (Some (RootDentry h None)), c)) →
  vsnfs_get_root sb (sv_root_fh server) c =
    Done ((inr (Some (RootDentry h (Some vsnfs_dentry_operations))), with_root sb h),
          put_inode h (set_count (made h fh (sv_root_fh server)) 2) c).
Proof.
  intros Hs Hops Hr Hf Hb Hh Ht Hi Hm Hda Hoa. unfold vsnfs_get_root, VSNFS_SB. rewrite Hs.
  destruct (made_ok (c_mem c) h fh (sv_root_fh server)) as [_ Hc]; [done..|].
  assert (∀ c', VSNFS_PROTO sb c' = Done (vsnfs_clientops, c')) as Hp.
  { intros c'. unfold VSNFS_PROTO, VSNFS_SB. rewrite Hs. mrun. by rewrite Hops. }
  mstep fhget_new; [exact Hf|exact Hb|done|done|done|done|done|].
  unfold vsnfs_superblock_set_dummy_root. rewrite Hr. mstep Hda. mstep get_put.
  unfold store_inode. mrun. rewrite put_put, Hc. rewrite decide_False by auto.
  mstep Hoa. simpl. rewrite Hops. done.
Qed.
End root.

(** ** Mounting *)
Section mount.
Context `{A : Arch} `{Km : Kmem} `{X : SunrpcXdr} `{XL : !SunrpcXdrLaws X}.
Context `{R : RpcClient} `{RL : !RpcClientLaws R} `{V : ClientVfs} `{VL : !ClientVfsLaws V}.
Context `{P : MountApi} `{PL : !MountApiLaws P} `{S : SuperApi} `{SL : !SuperApiLaws S}.
Implicit Types (c : cstate) (server : vsnfs_server) (fh : vsnfs_fh) (sb : super_block).

Lemma root_fh_fits : 0 ≤ offset_root_fh ∧ offset_root_fh + 12 ≤ sizeof_vsnfs_server.
Proof.
  unfold offset_root_fh, sizeof_vsnfs_server, server_fields, c_ptr.
  destruct long_bits_ok as [-> | ->]; by vm_compute.
Qed.

(** What a user asks to mount: [dev] and [raw] hold [host:path] and options. *)
Record mount_data (m : mem) (dev : ptr) (raw : option ptr) host path os : Prop := MountData {
  md_plain : NUL ∉ host ++ path;
  md_host : COLON ∉ host;
  md_dev : has_bytes m dev ((host ++ COLON :: path) ++ [NUL]);
  md_host_len : zlen host < IP_ADDR_SIZE;
  md_path_len : zlen path ≤ VSNFS_MAXPATHLEN;
  md_options : Forall mopt_ok os;
  md_raw : match raw with
           | Some p => has_bytes m p (render_all os ++ [NUL])
           | None => os = []
           end;
}.

(** The address and the program those data stand for. *)
Definition connect_args (host : list byte) (os : list mopt) : rpc_create_args :=
  RpcCreateArgs IPPROTO_TCP
    (SockaddrIn AF_INET (htons (last_port os)) (default [NUL; NUL; NUL; NUL] (in4_pton host).2))
    sizeof_sockaddr_in (host ++ replicate (Z.to_nat IP_ADDR_SIZE - length host) NUL)
    VSNFS_PROGRAM 1 RPC_AUTH_NULL RPC_CLNT_CREATE_NOPING.

(** The kernel has memory, and an RPC client [clnt] for that address. *)
Record net_ready (host : list byte) (os : list mopt) (clnt : Z) : Prop := NetReady {
  nr_kmalloc b : kmalloc_ok b = true;
  nr_rpc : rpc_connects (connect_args host os) = inr clnt;
  nr_ready m : rpc_ready clnt m = true;
}.
(** It has a super block, and an inode and dentries for the root. *)
Record super_ready : Prop := SuperReady {
  sr_super c : super_memory c = true;
  sr_anon s : (set_anon_super s).1 = 0;
}.
Record root_ready (h : Z) : Prop := RootReady {
  rr_inode c : inode_memory c = true;
  rr_root c : d_alloc_root h c = Done (Some h, c);
  rr_alias c : d_obtain_alias h c = Done (inr (Some (RootDentry h None)), c);
}.

Lemma mount_data_scratch B m m' dev raw host path os :
  scratch B m m' → mount_data m dev raw host path os → mount_data m' dev raw host path os.
Proof.
  intros Hs []. split; try done; [by eapply scratch_has_bytes|].
  destruct raw; [by eapply scratch_has_bytes|done].
Qed.

Lemma options_split_live m raw mr b : options_split m raw mr → live mr b ↔ live m b.
Proof. intros [->|(q & _ & Ht)]; [done|]. by apply (live_touches m (p_blk q) mr). Qed.

(** The blocks of the server structure and of the path, of a mount in [m]. *)
Definition server_of m : ptr := Ptr (m_next m) 0.
Definition path_of m : ptr := Ptr (Pos.succ (m_next m)) 0.

(** The mount data are read into a structure at [p], which was just allocated. *)
Lemma init_server_ok c dev raw host path os :
  let p := server_of (c_mem c) in
  let m1 := upd (alloc (c_mem c) sizeof_vsnfs_server) p (replicate (Z.to_nat sizeof_vsnfs_server) NUL) in
  let pp := path_of (c_mem c) in
  (∀ b, kmalloc_ok b = true) → mem_wf (c_mem c) → mount_data (c_mem c) dev raw host path os →
  ∃ mr m3, vsnfs_init_server p dev raw (set_cmem m1 c) =
      Done (((in4_pton host).1, foldl apply_opt (addressed (new_server p) host pp) os), set_cmem m3 c) ∧
    options_split (c_mem c) raw mr ∧ scratch [p_blk pp; p_blk p] mr m3 ∧
    has_bytes m3 pp (path ++ [NUL]) ∧ in_bounds m3 (p +p offset_root_fh) 12.
Proof.
  intros p m1 pp Hok Hwf Hmd. destruct root_fh_fits as [Ho1 Ho2]. set (m := c_mem c) in *.
  assert (in_bounds (alloc m sizeof_vsnfs_server) p
    (zlen (replicate (Z.to_nat sizeof_vsnfs_server) NUL))) as B1.
  { rewrite zlen_replicate. apply in_bounds_alloc_new; lia. }
  pose proof (scratch_alloc [] m m sizeof_vsnfs_server (scratch_refl m Hwf)) as S0.
  pose proof (scratch_touches _ _ _ (p_blk p) _ (list_elem_of_here _ _) (touches_upd _ _ _ B1) S0) as S1.
  fold m1 in S1. destruct (mount_data_scratch _ _ _ _ _ _ _ _ S1 Hmd) as [D1 D2 D3 D4 D5 D6 D7].
  assert (m_next m1 = Pos.succ (m_next m)) as Hn by (unfold m1; by rewrite m_next_upd).
  destruct (parse_mount_options_spec m1 dev raw host path os (new_server p))
    as (m3 & E & Hpb & mr1 & Hsp & S3); try done; [by apply S1|]. rewrite Hn in *.
  assert (∃ mr, options_split m raw mr ∧ scratch [m_next m] mr mr1) as (mr & Hmr & S2).
  { destruct Hsp as [->|(q & -> & Ht)]; [exists m; split; [by left|exact S1]|].
    assert (live m (p_blk q)) as Hlive.
    { destruct Hmd as [_ _ _ _ _ _ Hraw]. eapply has_bytes_live, Hraw. }
    destruct (scratch_touch_old _ m m1 (p_blk q) mr1 S1 Hlive Ht) as (mr & H1 & H2).
    exists mr. split; [right; eauto|done]. }
  exists mr, m3. split_and!; [|done|by apply (scratch_app [_] [_] _ _ _ S2 S3)|done|].
  - exact (in_cmem_Done _ (set_cmem m1 c) _ m3 E).
  - eapply scratch_in_bounds; [exact S3|].
    assert (in_bounds m1 (p +p offset_root_fh) 12) as Hb.
    { apply in_bounds_upd; [done|]. eapply in_bounds_sub; [lia|lia| |exact B1].
      rewrite zlen_replicate. lia. }
    destruct Hsp as [->|(q & _ & Ht)]; [done|]. by eapply touches_in_bounds.
Qed.

Lemma mounted_args p host path_p os :
  zlen host < IP_ADDR_SIZE →
  args_of (foldl apply_opt (addressed (new_server p) host path_p) os) = connect_args host os.
Proof.
  intros Hl. set (s := addressed (new_server p) host path_p).
  destruct (apply_opts_same s os) as (_ & _ & E3 & E4 & _).
  destruct (apply_opts_values s os VSNFS_PORT VSNFS_TIMEOUT) as (_ & _ & E5); [done..|].
  unfold args_of, connect_args. rewrite E3, E4, E5. f_equal.
  change (sv_ip_addr s) with (splice (replicate (Z.to_nat IP_ADDR_SIZE) NUL) 0 (host ++ [NUL])).
  unfold splice. rewrite take_0, app_nil_l, <-app_assoc, drop_replicate. f_equal.
  change [NUL] with (replicate 1 NUL). rewrite <-replicate_add, length_app. f_equal.
  rewrite length_replicate. unfold zlen, IP_ADDR_SIZE in *. lia.
Qed.

(** The super block of a mount on device [dv]. *)
Definition mounted_super server (dv h : Z) : super_block :=
  let s := vsnfs_fill_super (SuperBlock (Some server) dv 0 0 0 [] 0 None None 0) in
  SuperBlock (s_fs_info s) (s_dev s) (s_blocksize_bits s) (s_blocksize s) (s_magic s) (s_id s)
    (s_maxbytes s) (s_op s) (Some h) MS_ACTIVE.

Lemma sget_mount c server :
  super_ready →
  ∃ dv, sget (λ s, vsnfs_set_super s server) c =
    Done (inr (Some (SuperBlock (Some server) dv 0 0 0 [] 0 None None 0)), c).
Proof.
  intros [Hm Ha]. rewrite sget_ok by done. unfold vsnfs_set_super. rewrite fresh_super_spec. simpl.
  set (s := SuperBlock _ _ _ _ _ _ _ _ _ _).
  destruct (set_anon_super_spec s) as (e & dv & E & _). specialize (Ha s). rewrite E in Ha |- *.
  simpl in Ha. subst e. by exists dv.
Qed.

(** The root's inode, with one reference for each of its two dentries. *)
Definition root_inode m fh h : cinode := set_count (made h fh (server_of m +p offset_root_fh)) 2.

Section get_sb.
Context (c : cstate) (dev : ptr) (raw : option ptr) (host path : list byte) (os : list mopt).
Context (clnt : Z) (fh : vsnfs_fh) (h : Z).
Hypothesis Hkm : ∀ b, kmalloc_ok b = true.
Hypothesis Hwf : mem_wf (c_mem c).
Hypothesis Hmd : mount_data (c_mem c) dev raw host path os.

Let p := server_of (c_mem c).
Let pp := path_of (c_mem c).
Let zeroed := upd (alloc (c_mem c) sizeof_vsnfs_server) p
                (replicate (Z.to_nat sizeof_vsnfs_server) NUL).

(** The server structure before the RPC client is created. *)
Record configured (sv : vsnfs_server) (m3 mr : mem) : Prop := Configured {
  cf_run : vsnfs_init_server p dev raw (set_cmem zeroed c) =
             Done (((in4_pton host).1, sv), set_cmem m3 c);
  cf_ops : cl_rpc_ops sv = vsnfs_clientops;
  cf_self : sv_self sv = p;
  cf_root : sv_root_fh sv = p +p offset_root_fh;
  cf_path : sv_mnt_path sv = Some pp;
  cf_args : args_of sv = connect_args host os;
  cf_split : options_split (c_mem c) raw mr;
  cf_mem : scratch [p_blk p; p_blk pp] mr m3;
  cf_copy : has_bytes m3 pp (path ++ [NUL]);
  cf_fits : in_bounds m3 (p +p offset_root_fh) 12;
}.

Lemma configured_exists : ∃ sv m3 mr, configured sv m3 mr.
Proof using Hkm Hwf Hmd PL.
  destruct (init_server_ok c dev raw host path os) as (mr & m3 & E1 & Hmr & S3 & Hpb & Hq); [done..|].
  fold p pp in E1, S3, Hpb, Hq. fold zeroed in E1.
  destruct (apply_opts_same (addressed (new_server p) host pp) os) as (_ & O2 & _ & _ & O5 & O6 & O7).
  eexists _, m3, mr. split; try done; [apply mounted_args, Hmd|].
  eapply (scratch_equiv [p_blk pp; p_blk p]); [intros b; rewrite !elem_of_cons; tauto|done].
Qed.

Lemma path_plain : NUL ∉ path.
Proof using Hmd. by pose proof (proj1 (not_elem_of_app _ _ _) (md_plain _ _ _ _ _ _ Hmd)) as [_ ?]. Qed.

(** A mount up to the RPC client. *)
Lemma get_sb_start sv m3 mr :
  configured sv m3 mr → vsnfs_get_sb dev raw c = get_sb_server sv (set_cmem m3 c).
Proof using Hkm PL.
  intros Hc. destruct root_fh_fits as [Ho1 Ho2]. unfold vsnfs_get_sb.
  mstep in_cmem_Done; [apply kmalloc_Some, Hkm|].
  mstep in_cmem_Done.
  { apply store_bytes_spec. rewrite zlen_replicate. apply in_bounds_alloc_new; lia. }
  mstep (cf_run _ _ _ Hc). rewrite decide_False by (rewrite in4_pton_spec; case_decide; simpl; lia).
  done.
Qed.

Section connected.
Context (sv : vsnfs_server) (m3 mr : mem).
Hypothesis Hcf : configured sv m3 mr.

(** The root's handle is in the structure. *)
Lemma connected :
  net_ready host os clnt → fh_wf fh →
  exchange clnt VSNFSPROC_GETROOT (wire_getroot path) = inr (wire_reply 0 (wire_fh fh)) →
  ∃ m4, vsnfs_create_rpcclient sv (set_cmem m3 c) =
      Done ((0, set_rpcclient sv (Some clnt)), set_cmem m4 (add_clnt (inr clnt) c)) ∧
    scratch [p_blk p; p_blk pp] mr m4 ∧
    has_bytes m4 pp (path ++ [NUL]) ∧ has_bytes m4 (p +p offset_root_fh) (fh_bytes fh).
Proof using Hkm Hcf Hmd XL RL SL.
  intros Hn Hf Hx. destruct Hcf as [_ O1 O2 O3 O4 O5 _ S3 Hpb Hq].
  destruct (create_rpcclient_ok (set_cmem m3 c) sv pp path clnt fh) as (m4 & E2 & S4);
    rewrite ?O3, ?O5; try done; try apply Hn; try apply S3; try apply Hmd; [apply path_plain|].
  rewrite O3 in S4. simpl in S4. rewrite <-(zlen_fh_bytes fh Hf) in Hq.
  pose proof (touches_upd _ _ _ Hq) as Htc. exists m4. split_and!.
  - done.
  - eapply scratch_trans; [|exact S4].
    eapply scratch_touches; [|exact Htc|exact S3]. apply list_elem_of_here.
  - eapply scratch_has_bytes; [exact S4|]. eapply touches_has_bytes; [exact Htc| |done].
    simpl. lia.
  - eapply scratch_has_bytes; [exact S4|]. by apply has_bytes_upd.
Qed.
End connected.

Section root.
Hypothesis Hn : net_ready host os clnt.
Hypothesis Hs : super_ready.
Hypothesis Hcache : c_icache c = ∅.
Hypothesis Hx : exchange clnt VSNFSPROC_GETROOT (wire_getroot path) = inr (wire_reply 0 (wire_fh fh)).
Hypothesis Hf : fh_wf fh.
Hypothesis Hh : fh_strtoul fh = Done h.

(** A mount up to the root's inode. *)
Lemma get_sb_server_start :
  ∃ server dv mr m',
    vsnfs_get_sb dev raw c =
      get_sb_root (vsnfs_fill_super (SuperBlock (Some server) dv 0 0 0 [] 0 None None 0))
        (sv_root_fh server) (set_cmem m' (add_clnt (inr clnt) c)) ∧
    (cl_rpcclient server = Some clnt ∧ cl_rpc_ops server = vsnfs_clientops ∧ sv_self server = p ∧
     sv_root_fh server = p +p offset_root_fh) ∧
    options_split (c_mem c) raw mr ∧ scratch [p_blk p; p_blk pp] mr m' ∧
    has_bytes m' pp (path ++ [NUL]) ∧ has_bytes m' (p +p offset_root_fh) (fh_bytes fh).
Proof using Hkm Hwf Hmd Hn Hs Hx Hf XL RL PL SL.
  destruct configured_exists as (sv & m3 & mr & Hcf).
  destruct (connected sv m3 mr Hcf Hn Hf Hx) as (m4 & E2 & S4 & Hp & Hr).
  set (server := set_rpcclient sv (Some clnt)) in *.
  destruct (sget_mount (set_cmem m4 (add_clnt (inr clnt) c)) server Hs) as [dv E3].
  exists server, dv, mr, m4. split; [|by split_and!; try apply Hcf].
  rewrite (get_sb_start _ _ _ Hcf). unfold get_sb_server.
  mstep E2. rewrite decide_False by lia. mstep E3. done.
Qed.

Lemma get_sb_run :
  reg_or_dir fh → root_ready h →
  ∃ server dv mr m',
    vsnfs_get_sb dev raw c =
      Done ((0, Some (mounted_super server dv h, RootDentry h (Some vsnfs_dentry_operations))),
            put_inode h (root_inode (c_mem c) fh h) (set_cmem m' (add_clnt (inr clnt) c))) ∧
    (cl_rpcclient server = Some clnt ∧ cl_rpc_ops server = vsnfs_clientops ∧ sv_self server = p) ∧
    options_split (c_mem c) raw mr ∧ scratch [p_blk p; p_blk pp] mr m' ∧
    has_bytes m' pp (path ++ [NUL]) ∧ has_bytes m' (p +p offset_root_fh) (fh_bytes fh).
Proof using Hkm Hwf Hmd Hn Hs Hcache Hx Hf Hh XL RL PL SL VL.
  intros Ht Hr.
  destruct get_sb_server_start as (server & dv & mr & m' & E & (O1 & O2 & O3 & O4) & Hmr & S4 & Hp & Hb).
  exists server, dv, mr, m'. split; [|done]. rewrite E. unfold get_sb_root.
  mstep get_root_ok; try done; try apply Hr; [by rewrite O4|simpl; by rewrite Hcache|].
  rewrite O4. done.
Qed.
End root.
End get_sb.

Lemma mount_run c dev raw host path os clnt fh h :
  net_ready host os clnt → super_ready → root_ready h →
  mem_wf (c_mem c) → (∀ b, b ∈ c_kmaps c → live (c_mem c) b) → c_icache c = ∅ →
  mount_data (c_mem c) dev raw host path os →
  exchange clnt VSNFSPROC_GETROOT (wire_getroot path) = inr (wire_reply 0 (wire_fh fh)) →
  fh_wf fh → reg_or_dir fh → fh_strtoul fh = Done h →
  ∃ sb c' i mr,
    vsnfs_get_sb dev raw c = Done ((0, Some (sb, RootDentry h (Some vsnfs_dentry_operations))), c') ∧
    s_root sb = Some h ∧ s_flags sb = MS_ACTIVE ∧ s_magic sb = VSNFS_SB_MAGIC ∧
    s_op sb = Some vsnfs_sops ∧
    c_icache c' = {[h := i]} ∧ ci_count i = 2 ∧ dir_of sb i clnt fh c' ∧ icache_ok c' ∧
    c_clnts c' = clnt :: c_clnts c ∧ options_split (c_mem c) raw mr ∧
    scratch [p_blk (server_of (c_mem c)); p_blk (path_of (c_mem c))] mr (c_mem c').
Proof using XL RL VL PL SL.
  intros Hn Hs Hr Hwf Hkm Hi Hmd Hx Hf Ht Hh.
  destruct (get_sb_run c dev raw host path os clnt fh h) as
    (server & dv & mr & m' & E & (O1 & O2 & O3) & Hmr & S4 & Hp & Hb); try done; [apply Hn|].
  eexists _, _, (root_inode (c_mem c) fh h), mr. split; [exact E|]. split_and!; try done.
  - simpl. by rewrite Hi.
  - split; try done; [by exists server|eexists; split; [|exact Hb]| apply S4| |apply Hn].
    + unfold root_inode, made. by destruct (decide (fh_type fh = VSNFS_REG)).
    + intros b Hbk. apply (scratch_live _ _ _ _ S4). left. by apply (options_split_live _ _ _ _ Hmr), Hkm.
  - apply icache_ok_put; [|intros h' i' Hi'; simpl in Hi'; by rewrite Hi in Hi'].
    apply inode_ok_count; [done|]. by apply made_ok.
Qed.

(** C11: A mount of [host:path] connects to the host's address and the last port
    of the options, asks for the root of the path, and ends with an active
    super block whose root is the inode the handle spells; that inode, held by
    the two root dentries, is the whole inode cache, which satisfies its
    invariant, and it is a directory that can be read and searched.  Of memory
    there is the server structure and the copy of the path, and nothing else,
    and there is one RPC client more. *)
Theorem mount_ok c dev raw host path os clnt fh h :
  net_ready host os clnt → super_ready → root_ready h →
  mem_wf (c_mem c) → (∀ b, b ∈ c_kmaps c → live (c_mem c) b) → c_icache c = ∅ →
  mount_data (c_mem c) dev raw host path os →
  exchange clnt VSNFSPROC_GETROOT (wire_getroot path) = inr (wire_reply 0 (wire_fh fh)) →
  fh_wf fh → reg_or_dir fh → fh_strtoul fh = Done h →
  ∃ sb c' i mr,
    vsnfs_get_sb dev raw c = Done ((0, Some (sb, RootDentry h (Some vsnfs_dentry_operations))), c') ∧
    s_root sb = Some h ∧ s_flags sb = MS_ACTIVE ∧ s_magic sb = VSNFS_SB_MAGIC ∧
    s_op sb = Some vsnfs_sops ∧
    c_icache c' = {[h := i]} ∧ ci_count i = 2 ∧ dir_of sb i clnt fh c' ∧ icache_ok c' ∧
    c_clnts c' = clnt :: c_clnts c ∧ options_split (c_mem c) raw mr ∧
    scratch [p_blk (server_of (c_mem c)); p_blk (path_of (c_mem c))] mr (c_mem c').
Proof using XL RL VL PL SL. apply mount_run. Qed.

(** C12: Unmounting what was mounted empties the inode cache and frees the
    server structure, so that two things are left of the mount, the copy of the
    path and the RPC client, which is not shut down; both are lost. *)
Theorem mount_unmount c dev raw host path os clnt fh h :
  net_ready host os clnt → super_ready → root_ready h →
  mem_wf (c_mem c) → c_icache c = ∅ → mount_data (c_mem c) dev raw host path os →
  exchange clnt VSNFSPROC_GETROOT (wire_getroot path) = inr (wire_reply 0 (wire_fh fh)) →
  fh_wf fh → reg_or_dir fh → fh_strtoul fh = Done h →
  ∃ sb d c' c'' mr,
    vsnfs_get_sb dev raw c = Done ((0, Some (sb, d)), c') ∧
    vsnfs_kill_sb sb c' = Done (tt, c'') ∧
    c_icache c'' = ∅ ∧ c_kmaps c'' = c_kmaps c ∧ c_clnts c'' = clnt :: c_clnts c ∧
    options_split (c_mem c) raw mr ∧
    scratch [p_blk (path_of (c_mem c))] mr (c_mem c'') ∧
    has_bytes (c_mem c'') (path_of (c_mem c)) (path ++ [NUL]).
Proof using XL RL VL PL SL.
  intros Hn Hs Hr Hwf Hi Hmd Hx Hf Ht Hh.
  destruct (get_sb_run c dev raw host path os clnt fh h) as
    (server & dv & mr & m' & E & (O1 & O2 & O3) & Hmr & S4 & Hp & Hb); try done; [apply Hn|].
  assert (p_blk (server_of (c_mem c)) ∉ [p_blk (path_of (c_mem c))]) as Hne.
  { intros Hin%list_elem_of_singleton. simpl in Hin. lia. }
  eexists _, _, _, (set_icache ∅ (set_cmem (release m' (server_of (c_mem c))) (add_clnt (inr clnt) c))), mr.
  split; [exact E|]. split_and!; try done.
  - unfold vsnfs_kill_sb, VSNFS_SB. simpl s_fs_info. mrun. mstep kill_anon_super_spec.
    rewrite O3. etrans; [apply in_cmem_Done, kfree_spec; [apply S4, list_elem_of_here|done]|done].
  - exact (scratch_release _ _ _ _ Hne S4).
  - unfold has_bytes. simpl c_mem. rewrite mem_block_release_ne by (simpl; lia). exact Hp.
Qed.

(** C16: When no RPC client can be made for the address the mount ends in that
    error, and when the server refuses the path or cannot be reached it ends in
    the one error REMOTE.  Either way nothing is mounted and the inode cache
    stays empty, but the server structure and the copy of the path are lost, and
    with them, when the server refuses, the RPC client. *)
Theorem mount_refused c dev raw host path os :
  (∀ b, kmalloc_ok b = true) → mem_wf (c_mem c) → mount_data (c_mem c) dev raw host path os →
  let lost m' := ∃ mr, options_split (c_mem c) raw mr ∧
    scratch [p_blk (server_of (c_mem c)); p_blk (path_of (c_mem c))] mr m' in
  (∀ e, e < 0 → rpc_connects (connect_args host os) = inl e →
     ∃ m', vsnfs_get_sb dev raw c = Done ((e, None), set_cmem m' c) ∧ lost m') ∧
  (∀ clnt, net_ready host os clnt →
     refusal (exchange clnt VSNFSPROC_GETROOT (wire_getroot path)) →
     ∃ m', vsnfs_get_sb dev raw c =
         Done ((- stat_code VSNFSERR_REMOTE, None), set_cmem m' (add_clnt (inr clnt) c)) ∧
       lost m').
Proof using XL RL PL SL.
  intros Hok Hwf Hmd lost.
  destruct (configured_exists c dev raw host path os) as (sv & m3 & mr & Hcf); [done..|].
  pose proof Hcf as [_ O1 O2 O3 O4 O5 Hsp S3 Hpb Hq].
  assert (NUL ∉ path) as Hz by by eapply path_plain.
  rewrite (get_sb_start c dev raw host path os Hok _ _ _ Hcf). unfold get_sb_server. split.
  - intros e He Hrc. exists m3. split; [|by exists mr].
    mstep create_rpcclient_nonet; [exact O4|exact Hpb|done|done|by rewrite O5|].
    by rewrite decide_True.
  - intros clnt Hn Hx.
    destruct (create_rpcclient_refused (set_cmem m3 c) sv (path_of (c_mem c)) path clnt)
      as (m4 & E & S4); rewrite ?O5; try done; try apply Hn; try apply S3; try apply Hmd.
    exists m4. split; [|exists mr; split; [done|by eapply scratch_trans]].
    mstep E. done.
Qed.

(** C40: Two shortages end in a fault instead of an error: without memory for
    the server structure the NULL that [kzalloc] returns is written to, since
    the code tests it for an error pointer; without memory for the root's inode
    [dput] is given an error pointer. *)
Theorem mount_faults c dev raw host path os clnt fh h :
  (kmalloc_ok (m_next (c_mem c)) = false → vsnfs_get_sb dev raw c = Oops NullDeref) ∧
  (net_ready host os clnt → super_ready → (∀ c, inode_memory c = false) →
   mem_wf (c_mem c) → c_icache c = ∅ → mount_data (c_mem c) dev raw host path os →
   exchange clnt VSNFSPROC_GETROOT (wire_getroot path) = inr (wire_reply 0 (wire_fh fh)) →
   fh_wf fh → fh_strtoul fh = Done h →
   vsnfs_get_sb dev raw c = Oops NullDeref).
Proof using XL RL VL PL SL.
  split.
  { intros Hk. unfold vsnfs_get_sb. by mstep in_cmem_Done; [by apply kmalloc_None|]. }
  intros Hn Hs Hm Hwf Hi Hmd Hx Hf Hh.
  destruct (get_sb_server_start c dev raw host path os clnt fh) as
    (server & dv & mr & m' & E & (O1 & O2 & O3 & O4) & Hmr & S4 & Hp & Hb); try done; [apply Hn|].
  rewrite E. unfold get_sb_root, vsnfs_get_root, VSNFS_SB. simpl s_fs_info.
  rewrite bind_assoc. mrun.
  mstep fhget_nomem; [exact Hf|rewrite O4; exact Hb|done|simpl; by rewrite Hi|done|]. done.
Qed.
End mount.

(** ** Examples *)
Definition ex_rootfh : vsnfs_fh := VsnfsFh [x32; x00; x00; x00; x00; x00; x00; x00] VSNFS_DIR.
Definition ex_root_answer : Z + list byte := inr (wire_reply 0 (wire_fh ex_rootfh)).
Definition ex_fresh : cstate := CState ex_mount_mem [] ∅ [].

Lemma ex_mount_data :
  mount_data (c_mem ex_fresh) (Ptr 11 0) (Some (Ptr 12 0)) localhost ex_srvpath ex_options.
Proof. split; by_eval. Qed.
Lemma ex_mount_wf : mem_wf (c_mem ex_fresh).
Proof. apply mem_of_wf. repeat constructor. Qed.
Lemma ex_net_ready a :
  net_ready (A := x86_64) (Km := kmem_ref []) (R := ex_reply_rpc a) (P := mount_ref)
    (S := super_ref (inr 1)) localhost ex_options 1.
Proof. by split. Qed.
Lemma ex_super_ready : super_ready (S := super_ref (inr 1)).
Proof. by split. Qed.
Lemma ex_root_ready : root_ready (V := vfs_ref) (S := super_ref (inr 1)) 2.
Proof. by split. Qed.

(** [get_sb] of the examples: [a] answers GETROOT, [rpc] is what [rpc_create]
    returns, and there is memory for inodes or there is none. *)
Definition ex_get_sb (a : Z + list byte) (rpc : Z + Z) (memory : bool) (fail : list positive) :=
  vsnfs_get_sb (A := x86_64) (Km := kmem_ref fail) (X := sunrpc_ref (H := x86_64))
    (R := ex_reply_rpc a) (V := vfs_of memory) (P := mount_ref) (S := super_ref rpc)
    (Ptr 11 0) (Some (Ptr 12 0)) ex_fresh.

Lemma mount_ok_witness :
  ∃ sb c' i mr,
    ex_get_sb ex_root_answer (inr 1) true [] =
      Done ((0, Some (sb, RootDentry 2 (Some vsnfs_dentry_operations))), c') ∧
    s_root sb = Some 2 ∧ s_flags sb = MS_ACTIVE ∧ s_magic sb = VSNFS_SB_MAGIC ∧
    s_op sb = Some vsnfs_sops ∧
    c_icache c' = {[2 := i]} ∧ ci_count i = 2 ∧
    dir_of (A := x86_64) (X := sunrpc_ref (H := x86_64)) (R := ex_reply_rpc ex_root_answer)
      sb i 1 ex_rootfh c' ∧ icache_ok (A := x86_64) c' ∧
    c_clnts c' = [1] ∧ options_split ex_mount_mem (Some (Ptr 12 0)) mr ∧
    scratch [100%positive; 101%positive] mr (c_mem c').
Proof.
  exact (mount_ok (A := x86_64) (Km := kmem_ref []) (X := sunrpc_ref (H := x86_64))
    (R := ex_reply_rpc ex_root_answer) (RL := ex_reply_laws ex_root_answer I) (V := vfs_ref)
    (P := mount_ref) (S := super_ref (inr 1))
    ex_fresh (Ptr 11 0) (Some (Ptr 12 0)) localhost ex_srvpath ex_options 1 ex_rootfh 2
    (ex_net_ready _) ex_super_ready ex_root_ready ex_mount_wf
    (λ b Hb, False_ind _ (not_elem_of_nil b Hb)) ltac:(done) ex_mount_data ltac:(done)
    ltac:(by_eval) ltac:(by right) ltac:(done)).
Defined.

Lemma mount_unmount_witness :
  ∃ sb d c' c'' mr,
    ex_get_sb ex_root_answer (inr 1) true [] = Done ((0, Some (sb, d)), c') ∧
    vsnfs_kill_sb (S := super_ref (inr 1)) sb c' = Done (tt, c'') ∧
    c_icache c'' = ∅ ∧ c_kmaps c'' = [] ∧ c_clnts c'' = [1] ∧
    options_split ex_mount_mem (Some (Ptr 12 0)) mr ∧
    scratch [101%positive] mr (c_mem c'') ∧ has_bytes (c_mem c'') (Ptr 101 0) (ex_srvpath ++ [NUL]).
Proof.
  exact (mount_unmount (A := x86_64) (Km := kmem_ref []) (X := sunrpc_ref (H := x86_64))
    (R := ex_reply_rpc ex_root_answer) (RL := ex_reply_laws ex_root_answer I) (V := vfs_ref)
    (P := mount_ref) (S := super_ref (inr 1))
    ex_fresh (Ptr 11 0) (Some (Ptr 12 0)) localhost ex_srvpath ex_options 1 ex_rootfh 2
    (ex_net_ready _) ex_super_ready ex_root_ready ex_mount_wf ltac:(done) ex_mount_data ltac:(done)
    ltac:(by_eval) ltac:(by right) ltac:(done)).
Defined.

(** The connection is refused; the server answers that it is no directory. *)
Lemma mount_refused_witness :
  let lost m' := ∃ mr, options_split ex_mount_mem (Some (Ptr 12 0)) mr ∧
    scratch [100%positive; 101%positive] mr m' in
  (∃ m', ex_get_sb ex_root_answer (inl (-111)) true [] = Done ((-111, None), set_cmem m' ex_fresh) ∧
     lost m') ∧
  (∃ m', ex_get_sb (inr (be32 (stat_code VSNFSERR_NOTDIR))) (inr 1) true [] =
       Done ((- stat_code VSNFSERR_REMOTE, None), set_cmem m' (add_clnt (inr 1) ex_fresh)) ∧
     lost m').
Proof.
  split.
  - refine (proj1 (mount_refused (A := x86_64) (Km := kmem_ref []) (X := sunrpc_ref (H := x86_64))
      (R := ex_reply_rpc ex_root_answer) (RL := ex_reply_laws ex_root_answer I) (V := vfs_ref)
      (P := mount_ref) (S := super_ref (inl (-111)))
      ex_fresh (Ptr 11 0) (Some (Ptr 12 0)) localhost ex_srvpath ex_options
      ltac:(done) ex_mount_wf ex_mount_data) (-111) _ _); done.
  - refine (proj2 (mount_refused (A := x86_64) (Km := kmem_ref []) (X := sunrpc_ref (H := x86_64))
      (R := ex_reply_rpc (inr (be32 (stat_code VSNFSERR_NOTDIR))))
      (RL := ex_reply_laws (inr (be32 (stat_code VSNFSERR_NOTDIR))) I) (V := vfs_ref)
      (P := mount_ref) (S := super_ref (inr 1))
      ex_fresh (Ptr 11 0) (Some (Ptr 12 0)) localhost ex_srvpath ex_options
      ltac:(done) ex_mount_wf ex_mount_data) 1 (ex_net_ready _) _).
    apply (refused_status _ (-20)); by vm_compute.
Defined.

Lemma mount_faults_witness :
  ex_get_sb ex_root_answer (inr 1) true [100%positive] = Oops NullDeref ∧
  ex_get_sb ex_root_answer (inr 1) false [] = Oops NullDeref.
Proof.
  split.
  - exact (proj1 (mount_faults (A := x86_64) (Km := kmem_ref [100%positive])
      (X := sunrpc_ref (H := x86_64))
      (R := ex_reply_rpc ex_root_answer) (RL := ex_reply_laws ex_root_answer I) (V := vfs_of true)
      (P := mount_ref) (S := super_ref (inr 1))
      ex_fresh (Ptr 11 0) (Some (Ptr 12 0)) localhost ex_srvpath ex_options 1 ex_rootfh 2)
      ltac:(done)).
  - exact (proj2 (mount_faults (A := x86_64) (Km := kmem_ref []) (X := sunrpc_ref (H := x86_64))
      (R := ex_reply_rpc ex_root_answer) (RL := ex_reply_laws ex_root_answer I) (V := vfs_of false)
      (P := mount_ref) (S := super_ref (inr 1))
      ex_fresh (Ptr 11 0) (Some (Ptr 12 0)) localhost ex_srvpath ex_options 1 ex_rootfh 2)
      (ex_net_ready _) ex_super_ready ltac:(done) ex_mount_wf ltac:(done) ex_mount_data ltac:(done)
      ltac:(by_eval) ltac:(done)).
Defined.
