(* ===== verification/ClientOps.v ===== *)
(** * ClientOps: the operation tables of the client ([vsnfsDir.c], [vsnfsFile.c])

    The tables the kernel calls the client through, with the operations that
    are not implemented yet and answer so, and those of files and dentries.
    [generic_read_dir], which a directory's table names, is the kernel's.  The
    records have the entries some table of the module sets; where a table has
    none the kernel acts by itself (it sets attributes, for one, on the inode
    alone), without the module, and that is not modelled. *)
From Stdlib Require Import Strings.Byte.
From S2P Require Import Prelude Mem Frame CString Protocol Sunrpc Wire Handle ClientXdr.
From S2P Require Import RpcApi ClientProc ClientState VfsApi ClientInode ClientDir ClientMount ClientSuper.

Class GenericVfs : Type := {
  generic_read_dir : cfile → ptr → Z → M cstate Z;
}.

Section ops.
Context `{A : Arch} `{Km : Kmem} `{X : SunrpcXdr} `{R : RpcClient} `{V : ClientVfs}.
Context `{P : SuperApi} `{G : GenericVfs}.

(** ** Directories *)
Definition vsnfs_opendir (inode : cinode) : M cstate Z := mret 0.
Definition vsnfs_create (dir : cinode) (dentry : cdentry) (mode : Z) : M cstate Z :=
  mret (- EOPNOTSUPP).
Definition vsnfs_mkdir (dir : cinode) (dentry : cdentry) (mode : Z) : M cstate Z :=
  mret (- EOPNOTSUPP).
Definition vsnfs_rmdir (dir : cinode) (dentry : cdentry) : M cstate Z := mret (- EOPNOTSUPP).
Definition vsnfs_permission (inode : cinode) (mask : Z) : M cstate Z := mret 0.
Definition vsnfs_lookup_revalidate (dentry : cdentry) : M cstate Z := mret (- EOPNOTSUPP).
Definition vsnfs_dentry_delete (dentry : cdentry) : M cstate Z := mret (- EOPNOTSUPP).
Definition vsnfs_dentry_iput (dentry : cdentry) (inode : Z) : M cstate unit := iput inode.

(** ** Files *)
Definition vsnfs_file_open (inode : cinode) : M cstate Z := mret (- EOPNOTSUPP).
Definition vsnfs_file_read (file : cfile) (buf : ptr) (count : Z) : M cstate Z :=
  let result := 0 in mret result.
Definition vsnfs_file_write (file : cfile) (buf : ptr) (count : Z) : M cstate Z :=
  mret (- EOPNOTSUPP).

(** ** The tables *)
Record fops : Type := Fops {
  fo_read : option (cfile → ptr → Z → M cstate Z);
  fo_write : option (cfile → ptr → Z → M cstate Z);
  fo_open : option (cinode → M cstate Z);
  fo_readdir : option (∀ U, filldir (cstate * U) → super_block → cfile → vsnfs_entry →
                       M (cstate * U) (Z * cfile));
}.
(** The operations of directories and of files. *)
Definition dir_fops : fops :=
  Fops (Some generic_read_dir) None (Some vsnfs_opendir)
    (Some (λ U (f : filldir (cstate * U)), vsnfs_readdir f)).
Definition file_fops : fops :=
  Fops (Some vsnfs_file_read) (Some vsnfs_file_write) (Some vsnfs_file_open) None.
Definition file_table (o : file_operations) : fops :=
  match o with
  | vsnfs_dir_operations => dir_fops
  | vsnfs_file_operations => file_fops
  | empty_fops => Fops None None None None
  end.

Record iops : Type := Iops {
  io_create : option (cinode → cdentry → Z → M cstate Z);
  io_lookup : option (super_block → cinode → cdentry → M cstate ((Z + option Z) * cdentry));
  io_mkdir : option (cinode → cdentry → Z → M cstate Z);
  io_rmdir : option (cinode → cdentry → M cstate Z);
  io_permission : option (cinode → Z → M cstate Z);
}.
Definition dir_iops : iops :=
  Iops (Some vsnfs_create) (Some vsnfs_lookup) (Some vsnfs_mkdir) (Some vsnfs_rmdir)
    (Some vsnfs_permission).
Definition file_iops : iops := Iops None None None None (Some vsnfs_permission).
Definition inode_table (o : inode_operations) : iops :=
  match o with
  | vsnfs_dir_inode_operations => dir_iops
  | vsnfs_file_inode_operations => file_iops
  | empty_iops => Iops None None None None None
  end.

Record dops : Type := Dops {
  d_revalidate : cdentry → M cstate Z;
  d_delete : cdentry → M cstate Z;
  d_iput : cdentry → Z → M cstate unit;
}.
Definition dentry_table (o : dentry_operations) : dops :=
  Dops vsnfs_lookup_revalidate vsnfs_dentry_delete vsnfs_dentry_iput.

Record sops : Type := Sops {
  so_write_inode : Z → Z → M cstate Z;
  so_clear_inode : Z → M cstate unit;
  so_umount_begin : super_block → M cstate unit;
}.
Definition super_table (o : super_operations) : sops :=
  Sops vsnfs_write_inode vsnfs_clear_inode vsnfs_umount_begin.
End ops.
