(* ===== verification/ClientRun.v ===== *)
(** * ClientRun: a mounted client, call after call

    [client_call] are the calls the kernel can make of a mounted file system:
    through the tables of an inode of the cache, of its dentries and of its
    super block.  Against a server that answers as the protocol says every
    call of every sequence returns, and the invariant [client_ok] holds after
    each. *)
From Stdlib Require Import Strings.Byte.
From S2P Require Import Prelude Mem Frame CString Protocol Sunrpc Wire Handle ClientXdr.
From S2P Require Import RpcApi ClientProc ClientState VfsApi ClientInode ClientInodeSpec.
From S2P Require Import ClientDir ClientDirSpec ClientMount ClientMountSpec ClientSuper ClientSuperSpec.
From S2P Require Import ClientOps.

Class GenericVfsLaws (G : GenericVfs) : Prop := {
  generic_read_dir_spec file buf n c : ∃ e, generic_read_dir file buf n c = Done (e, c) ∧ e < 0;
}.
Definition generic_ref : GenericVfs := {| generic_read_dir _ _ _ := mret (- EISDIR) |}.
#[export] Instance generic_ref_laws : GenericVfsLaws generic_ref.
Proof. split. by eexists. Qed.

Section run.
Context `{A : Arch} `{Km : Kmem} `{X : SunrpcXdr} `{XL : !SunrpcXdrLaws X}.
Context `{R : RpcClient} `{RL : !RpcClientLaws R} `{V : ClientVfs} `{VL : !ClientVfsLaws V}.
Context `{S : SuperApi} `{SL : !SuperApiLaws S} `{G : GenericVfs} `{GL : !GenericVfsLaws G}.
Context {U : Type} (filldir_fn : filldir (cstate * U)) (deliver : U → list byte * Z * Z * Z → Z * U).
Context `{FL : !FilldirLaws filldir_fn deliver}.
Implicit Types (c : cstate) (u : U) (sb : super_block) (fh : vsnfs_fh).

(** The calls possible in [c] that ask the server nothing. *)
Inductive local_call sb c : M (cstate * U) unit → Prop :=
  | call_open h i f :
      c_icache c !! h = Some i → fo_open (file_table (ci_fop i)) = Some f →
      local_call sb c (in_client (f i);; mret tt)
  | call_read h i f pos buf n :
      c_icache c !! h = Some i → fo_read (file_table (ci_fop i)) = Some f →
      local_call sb c (in_client (f (CFile pos i) buf n);; mret tt)
  | call_write h i f pos buf n :
      c_icache c !! h = Some i → fo_write (file_table (ci_fop i)) = Some f →
      local_call sb c (in_client (f (CFile pos i) buf n);; mret tt)
  | call_create h i f d mode :
      c_icache c !! h = Some i → io_create (inode_table (ci_op i)) = Some f →
      local_call sb c (in_client (f i d mode);; mret tt)
  | call_mkdir h i f d mode :
      c_icache c !! h = Some i → io_mkdir (inode_table (ci_op i)) = Some f →
      local_call sb c (in_client (f i d mode);; mret tt)
  | call_rmdir h i f d :
      c_icache c !! h = Some i → io_rmdir (inode_table (ci_op i)) = Some f →
      local_call sb c (in_client (f i d);; mret tt)
  | call_permission h i f mask :
      c_icache c !! h = Some i → io_permission (inode_table (ci_op i)) = Some f →
      local_call sb c (in_client (f i mask);; mret tt)
  | call_revalidate d o :
      d_op d = Some o → local_call sb c (in_client (d_revalidate (dentry_table o) d);; mret tt)
  | call_delete d o :
      d_op d = Some o → local_call sb c (in_client (d_delete (dentry_table o) d);; mret tt)
  | call_iput h i d o :
      d_op d = Some o → c_icache c !! h = Some i → 1 ≤ ci_count i →
      local_call sb c (in_client (d_iput (dentry_table o) d h))
  | call_write_inode h i o sync :
      s_op sb = Some o → c_icache c !! h = Some i →
      local_call sb c (in_client (so_write_inode (super_table o) h sync);; mret tt)
  | call_clear_inode h i o :
      s_op sb = Some o → c_icache c !! h = Some i →
      local_call sb c (in_client (so_clear_inode (super_table o) h))
  | call_umount_begin o :
      s_op sb = Some o → local_call sb c (in_client (so_umount_begin (super_table o) sb)).

(** The calls possible in [c]. *)
Inductive client_call sb c : M (cstate * U) unit → Prop :=
  | call_local prog : local_call sb c prog → client_call sb c prog
  | call_readdir h i f pos junk :
      c_icache c !! h = Some i → fo_readdir (file_table (ci_fop i)) = Some f →
      client_call sb c (f U filldir_fn sb (CFile pos i) junk;; mret tt)
  | call_lookup h i f d name :
      c_icache c !! h = Some i → io_lookup (inode_table (ci_op i)) = Some f →
      has_bytes (c_mem c) (d_nm d) name → d_len d = zlen name →
      client_call sb c (in_client (f sb i d);; mret tt).

(** What holds between calls. *)
Record client_ok sb (clnt : Z) c : Prop := ClientOk {
  co_server : ∃ server, s_fs_info sb = Some server ∧ cl_rpcclient server = Some clnt ∧
                        cl_rpc_ops server = vsnfs_clientops;
  co_mem : mem_wf (c_mem c);
  co_kmaps b : b ∈ c_kmaps c → live (c_mem c) b;
  co_ready m : rpc_ready clnt m = true;
  co_icache : icache_ok c;
}.

(** Replies as the protocol has them. *)
Definition lookup_answer (a : Z + list byte) : Prop :=
  refusal a ∨ ∃ fh h, a = inr (wire_reply 0 (wire_fh fh)) ∧ fh_wf fh ∧ reg_or_dir fh ∧
                      fh_strtoul fh = Done h.
Inductive readdir_reply : Z + list byte → Prop :=
  | readdir_entries es eof : zlen (wire_listing es eof) ≤ PAGE_SIZE → Forall entry_ok es →
      readdir_reply (inr (wire_reply 0 (wire_listing es eof)))
  | readdir_status st e : s32 st ≠ 0 → vsnfs_stat_to_errno (s32 st) = Done e → e < 0 →
      readdir_reply (inr (be32 st))
  | readdir_failed e : readdir_reply (inl e).
Record server_answers (clnt : Z) : Prop := ServerAnswers {
  sa_lookup fh name : fh_wf fh → zlen name ≤ VSNFS_MAXNAMLEN →
    lookup_answer (exchange clnt VSNFSPROC_LOOKUP (wire_lookup fh name));
  sa_readdir fh : fh_wf fh →
    readdir_reply (exchange clnt VSNFSPROC_READDIR (wire_readdir fh PAGE_SIZE));
}.

Lemma client_ok_mem sb clnt c c' B :
  client_ok sb clnt c → scratch B (c_mem c) (c_mem c') → c_icache c' = c_icache c →
  (∀ b, b ∈ c_kmaps c' → b ∈ c_kmaps c ∨ b ∈ B) → client_ok sb clnt c'.
Proof.
  intros [Hs Hm Hk Hr Hi] Hsc Hc Hks. split; [done|apply Hsc| |done|].
  - intros b [Hb|Hb]%Hks; [|by apply Hsc]. apply (scratch_live _ _ _ _ Hsc). auto.
  - intros h i Hh. rewrite Hc in Hh. eapply inode_ok_scratch; [exact Hsc|]. by apply Hi.
Qed.

(** A directory of the cache. *)
Lemma client_dir sb clnt c h i :
  client_ok sb clnt c → c_icache c !! h = Some i →
  ∃ fh, fh_wf fh ∧ dir_of sb i clnt fh c.
Proof.
  intros [Hs Hm Hk Hr Hi] Hh. destruct (Hi h i Hh) as [_ _ _ _ (p & t & Hp & (fh & Hf & Hb & _) & _)].
  exists fh. split; [done|]. split; try done. by exists p.
Qed.

(** A call that leaves the inodes and their handles as they were. *)
Definition inodes_kept c c' : Prop :=
  c_icache c' = c_icache c ∧ ∃ B, scratch B (c_mem c) (c_mem c').

Section calls.
Context (sb : super_block) (clnt : Z).
Hypothesis Hkm : ∀ b, kmalloc_ok b = true.

(** A name that is too long is refused without a request. *)
Lemma lookup_long_call c i d :
  client_ok sb clnt c → VSNFS_MAXNAMLEN < d_len d →
  ∃ r c', vsnfs_lookup sb i d c = Done (r, c') ∧ client_ok sb clnt c' ∧ inodes_kept c c'.
Proof using Hkm.
  intros Hc Hl.
  assert (scratch [m_next (c_mem c)] (c_mem c) (alloc (c_mem c) sizeof_vsnfs_fh)) as Hs
    by apply (scratch_alloc []), scratch_refl, Hc.
  eexists _, (set_cmem (alloc (c_mem c) sizeof_vsnfs_fh) c). split_and!.
  - unfold vsnfs_lookup. mstep in_cmem_Done; [apply kmalloc_Some, Hkm|]. by rewrite decide_True.
  - eapply client_ok_mem; [exact Hc|exact Hs|done|auto].
  - split; [done|]. by eexists.
Qed.

(** The server or the transport refuses. *)
Lemma lookup_refused_call c i fh d name :
  client_ok sb clnt c → dir_of sb i clnt fh c →
  has_bytes (c_mem c) (d_nm d) name → d_len d = zlen name → zlen name ≤ VSNFS_MAXNAMLEN →
  refusal (exchange clnt VSNFSPROC_LOOKUP (wire_lookup fh name)) →
  ∃ r c', vsnfs_lookup sb i d c = Done (r, c') ∧ client_ok sb clnt c' ∧ inodes_kept c c'.
Proof using XL RL VL Hkm.
  intros Hc Hd Hnm Hlen Hl Hr.
  assert (∃ st, exchange clnt VSNFSPROC_LOOKUP (wire_lookup fh name) = inr (be32 st) ∧
    s32 st ≠ 0 ∧ vsnfs_stat_to_errno (s32 st) ≠ Done 0 ∨
    ∃ e, exchange clnt VSNFSPROC_LOOKUP (wire_lookup fh name) = inl e) as [st Hx].
  { destruct Hr as [e|st e H1 H2 H3]; [exists 0; eauto|]. exists st. left. split_and!; congruence. }
  destruct (lookup_failed_run sb i clnt fh c d name st) as (c' & E & Hs & Hk & Hic & Hok);
    try done; [apply Hc|].
  eexists _, c'. split_and!; [exact E| |by split; [|eexists]]. eapply client_ok_mem; [exact Hc|exact Hs|done|].
  rewrite Hk. auto.
Qed.

(** Not at the start, a directory has nothing more. *)
Lemma readdir_done_call c u i pos junk :
  pos ≠ 0 → vsnfs_readdir filldir_fn sb (CFile pos i) junk (c, u) = Done ((0, CFile pos i), (c, u)).
Proof using. intros Hp. unfold vsnfs_readdir. by rewrite decide_True. Qed.

(** A listing, a status or the failure of the call is received. *)
Lemma readdir_received c u i fh junk :
  client_ok sb clnt c → dir_of sb i clnt fh c →
  readdir_reply (exchange clnt VSNFSPROC_READDIR (wire_readdir fh PAGE_SIZE)) →
  ∃ r c' u', vsnfs_readdir filldir_fn sb (CFile 0 i) junk (c, u) = Done (r, (c', u')) ∧
    client_ok sb clnt c' ∧ inodes_kept c c'.
Proof using XL RL FL Hkm.
  intros Hc Hd. pose proof (do_fh _ _ _ _ _ Hd) as Hf.
  pose proof PAGE_SIZE_range as HPS. set (page := Ptr (m_next (c_mem c)) 0).
  assert (in_bounds (alloc (c_mem c) PAGE_SIZE) page PAGE_SIZE) as Hb
    by (apply in_bounds_alloc_new; lia).
  pose proof (mem_wf_alloc (c_mem c) PAGE_SIZE (co_mem _ _ _ Hc)) as Hwf.
  assert (∀ e m2, e < 0 →
    vsnfs_proc_readdir clnt fh page PAGE_SIZE (alloc (c_mem c) PAGE_SIZE) = Done (e, m2) →
    scratch [p_blk page] (c_mem c) m2 →
    ∃ r c' u', vsnfs_readdir filldir_fn sb (CFile 0 i) junk (c, u) = Done (r, (c', u')) ∧
      client_ok sb clnt c' ∧ inodes_kept c c') as Hfail.
  { intros e m2 He E Hs. eexists _, _, _. split_and!; [by eapply readdir_failed_run| |by split; [|eexists]].
    eapply client_ok_mem; [exact Hc|exact Hs|done|auto]. }
  assert (is_u32 PAGE_SIZE) as HPS' by (split; lia).
  remember (exchange clnt VSNFSPROC_READDIR (wire_readdir fh PAGE_SIZE)) as a eqn:Hx.
  intros Hr. symmetry in Hx. destruct Hr as [es eof Hlen Hes|st e Hst Her He|e].
  - pose proof (client_readdir_run filldir_fn deliver sb (CFile 0 i) clnt fh c u Hkm Hd es eof junk
      eq_refl Hx Hlen Hes) as Hrun.
    destruct (fill_run deliver u es eof) as [[r u'] b]. destruct Hrun as (c' & E & Hpage).
    eexists _, c', u'. split; [exact E|].
    destruct b; destruct Hpage as (Hs & Hk & Hic); (split; [|by split; [|eexists]]);
      (eapply client_ok_mem; [exact Hc|exact Hs|done|]); rewrite Hk; [auto|].
    intros b [->|Hb']%elem_of_cons; [right; apply list_elem_of_here|auto].
  - destruct (vsnfs_proc_readdir_err clnt (alloc (c_mem c) PAGE_SIZE) fh page PAGE_SIZE st e)
      as (m2 & E & Hs); try done; [apply Hc|].
    eapply Hfail; [done|exact E|]. eapply page_received; [apply Hc| |exact Hs].
    eapply in_bounds_mono; [|exact Hb]. zlen_lia.
  - destruct (vsnfs_proc_readdir_fail clnt (alloc (c_mem c) PAGE_SIZE) fh page PAGE_SIZE e)
      as (m2 & E & Hs); try done; [apply Hc|].
    eapply Hfail; [by eapply exchange_err|exact E|]. eapply scratch_trans; [|exact Hs].
    apply (scratch_alloc []), scratch_refl, Hc.
Qed.

Lemma iput_call c h i :
  client_ok sb clnt c → c_icache c !! h = Some i → 1 ≤ ci_count i →
  ∃ c', iput h c = Done (tt, c') ∧ client_ok sb clnt c'.
Proof using VL.
  intros Hc Hi Hn. pose proof (co_icache _ _ _ Hc h i Hi) as Hok.
  assert (∀ n, 0 ≤ n → client_ok sb clnt (put_inode h (set_count i n) c)) as Hput.
  { intros n Hn'. destruct Hc as [? ? ? ? Hic]. split; try done.
    apply icache_ok_put; [by apply inode_ok_count|done]. }
  destruct (decide (1 < ci_count i)) as [Hlt|Hlt].
  - eexists. split; [by apply iput_dec|]. apply Hput. lia.
  - destruct (iput_last c h i Hi ltac:(lia)) as [E|E]; (eexists; split; [exact E|]); [|by apply Hput].
    destruct Hc as [? ? ? ? Hic]. split; try done. intros h' i' Hh. simpl in Hh. apply lookup_delete_Some in Hh as [_ Hh]. by apply Hic.
Qed.

(** What a call that asks the server nothing does to the inodes: at most drop
    a reference. *)
Definition local_effect c c' : Prop :=
  c' = c ∨ ∃ h i, c_icache c !! h = Some i ∧ 1 ≤ ci_count i ∧ iput h c = Done (tt, c').

(** A call that looks at nothing but its arguments. *)
Lemma constant_call {T} (f : M cstate T) c u r :
  client_ok sb clnt c → f c = Done (r, c) →
  ∃ c' u', (in_client f;; mret tt) (c, u) = Done (tt, (c', u')) ∧ client_ok sb clnt c' ∧
    local_effect c c'.
Proof using.
  intros Hc E. exists c, u. split; [|by split; [|left]]. by mstep in_client_Done; [exact E|].
Qed.

Lemma local_call_returns c u prog :
  client_ok sb clnt c → local_call sb c prog →
  ∃ c' u', prog (c, u) = Done (tt, (c', u')) ∧ client_ok sb clnt c' ∧ local_effect c c'.
Proof using RL VL SL GL.
  intros Hc Hcall. destruct Hcall as
    [h i f Hi Ho|h i f pos buf n Hi Ho|h i f pos buf n Hi Ho|h i f d mode Hi Ho
    |h i f d mode Hi Ho|h i f d Hi Ho|h i f mask Hi Ho|d o Hd|d o Hd
    |h i d o Hd Hi Hn|h i o sync Ho Hi|h i o Ho Hi|o Ho].
  1, 4, 5, 6, 7: destruct (ci_fop i), (ci_op i); try discriminate Ho; injection Ho as <-;
    by eapply constant_call.
  - destruct (ci_fop i); try discriminate Ho; injection Ho as <-; [|by eapply constant_call].
    destruct (generic_read_dir_spec (CFile pos i) buf n c) as (e & E & _). by eapply constant_call.
  - destruct (ci_fop i); try discriminate Ho; injection Ho as <-. by eapply constant_call.
  - by eapply constant_call.
  - by eapply constant_call.
  - destruct (iput_call c h i Hc Hi Hn) as (c' & E & Hc'). exists c', u. split_and!; [|done|].
    + exact (in_client_Done _ _ _ _ _ E).
    + right. by exists h, i.
  - by eapply constant_call.
  - exists c, u. split; [done|]. by split; [|left].
  - exists c, u. split; [|by split; [|left]]. apply (in_client_Done _ _ _ _ c). simpl.
    destruct (co_server _ _ _ Hc) as (server & Es & Ec & _).
    unfold vsnfs_umount_begin, VSNFS_SB. rewrite Es. mrun. rewrite Ec. apply rpc_killall_tasks_spec.
Qed.

Hypothesis Him : ∀ c, inode_memory c = true.
Hypothesis Hsa : server_answers clnt.

Lemma lookup_call c h i d name :
  client_ok sb clnt c → c_icache c !! h = Some i →
  has_bytes (c_mem c) (d_nm d) name → d_len d = zlen name →
  ∃ r c', vsnfs_lookup sb i d c = Done (r, c') ∧ client_ok sb clnt c'.
Proof using XL RL VL Hkm Him Hsa.
  intros Hc Hi Hnm Hlen. destruct (client_dir _ _ _ _ _ Hc Hi) as (fh & Hf & Hd).
  destruct (decide (VSNFS_MAXNAMLEN < zlen name)) as [Hl|Hl].
  { destruct (lookup_long_call c i d) as (r & c' & E & Hc' & _); [done|by rewrite Hlen|]. eauto. }
  destruct (sa_lookup _ Hsa fh name) as [Hr|(fh' & h' & Hx & Hf' & Ht & Hh)]; [done|lia| |].
  { destruct (lookup_refused_call c i fh d name) as (r & c' & E & Hc' & _); try done; [lia|]. eauto. }
  destruct (lookup_found_run sb i clnt fh c d name fh' h') as
    (r & c' & i' & E & _ & Hs & Hk & Hic & Hok & _); try done; [apply Hc|lia|].
  eexists _, c'. split; [exact E|]. destruct Hc as [Hsv Hm Hkl Hrd _]. split; try done; [apply Hs|].
  intros b Hb. rewrite Hk in Hb. apply (scratch_live _ _ _ _ Hs). auto.
Qed.

Lemma client_call_returns c u prog :
  client_ok sb clnt c → client_call sb c prog →
  ∃ c' u', prog (c, u) = Done (tt, (c', u')) ∧ client_ok sb clnt c'.
Proof using All.
  intros Hc Hcall. destruct Hcall as [prog Hl|h i f pos junk Hi Ho|h i f d name Hi Ho Hn Hl].
  - destruct (local_call_returns c u prog Hc Hl) as (c' & u' & E & Hc' & _). eauto.
  - destruct (ci_fop i); try discriminate Ho. injection Ho as <-.
    destruct (decide (pos = 0)) as [->|Hp].
    + destruct (client_dir _ _ _ _ _ Hc Hi) as (fh & Hf & Hd).
      destruct (readdir_received c u i fh junk Hc Hd (sa_readdir _ Hsa fh Hf))
        as (r & c' & u' & E & Hc' & _). exists c', u'. split; [|done]. by mstep E.
    + exists c, u. split; [|done]. by mstep (readdir_done_call c u i pos junk Hp).
  - destruct (ci_op i); try discriminate Ho. injection Ho as <-.
    destruct (lookup_call c h i d name Hc Hi Hn Hl) as (r & c' & E & Hc').
    exists c', u. split; [|done]. by mstep in_client_Done; [exact E|].
Qed.
End calls.

(** The states a sequence of calls leads to. *)
Inductive client_reach sb : cstate * U → cstate * U → Prop :=
  | reach_none s : client_reach sb s s
  | reach_call s c u prog s' :
      client_reach sb s (c, u) → client_call sb c prog → prog (c, u) = Done (tt, s') →
      client_reach sb s s'.

(** C10: Against a server whose answers are those of the protocol, with memory to
    be had, the client never faults: in every state that any sequence of calls
    leads to from a mounted file system, lookups, listings, the unimplemented
    operations and the dropping of inodes alike, the invariant holds and every
    call the kernel can make next returns. *)
Theorem client_runs_safe sb clnt c u c' u' :
  (∀ b, kmalloc_ok b = true) → (∀ c, inode_memory c = true) → server_answers clnt →
  client_ok sb clnt c → client_reach sb (c, u) (c', u') →
  client_ok sb clnt c' ∧
  ∀ prog, client_call sb c' prog → ∃ s, prog (c', u') = Done (tt, s).
Proof using All.
  intros Hkm Him Hsa Hc Hr.
  assert (client_ok sb clnt c') as Hc'.
  { remember (c, u) as s0 eqn:E0. remember (c', u') as s1 eqn:E1. revert c' u' E1.
    induction Hr as [s|s c1 u1 prog s' Hr IH Hcall Hrun]; intros c' u' ->.
    - by injection E0 as -> ->.
    - specialize (IH E0 c1 u1 eq_refl).
      destruct (client_call_returns sb clnt Hkm Him Hsa c1 u1 prog IH Hcall) as (c2 & u2 & E & Hok).
      rewrite E in Hrun. by injection Hrun as -> ->. }
  split; [done|]. intros prog Hcall.
  destruct (client_call_returns sb clnt Hkm Him Hsa c' u' prog Hc' Hcall) as (c2 & u2 & E & _). eauto.
Qed.

End run.

(** ** Examples *)
(** A server that finds every name, as inode 7, and lists two entries. *)
Definition ex_serves : Z → Z → list byte → Z + list byte := λ _ proc _,
  if decide (proc = VSNFSPROC_LOOKUP) then ex_answer VSNFS_REG
  else inr (wire_reply 0 (wire_listing ex_es true)).
Definition ex_serving : RpcClient := rpc_ref (H := x86_64) ex_serves.
Lemma ex_serving_laws : RpcClientLaws (X := sunrpc_ref (H := x86_64)) ex_serving.
Proof.
  apply (rpc_ref_laws (A := x86_64)). intros clnt proc w e. unfold ex_serves. by case_decide.
Qed.
Definition ex_served_fs : super_block :=
  bare_super (Some (VsnfsServer (Some 1)
    (vsnfs_clientops (A := x86_64) (X := sunrpc_ref (H := x86_64)) (R := ex_serving))
    (SockaddrIn 0 0 []) 0 0 0 [] 0 None (Ptr 10 0) (Ptr 10 0))).

Lemma ex_server_answers : server_answers (A := x86_64) (R := ex_serving) 1.
Proof.
  split.
  - intros fh name _ _. right. exists (ex_found VSNFS_REG), 7. split_and!; [done|by_eval|by left|done].
  - intros fh _. apply (readdir_entries (A := x86_64)); [by_eval|repeat constructor; by_eval].
Qed.
Lemma ex_client_ok :
  client_ok (A := x86_64) (X := sunrpc_ref (H := x86_64)) (R := ex_serving) ex_served_fs 1 ex_cl.
Proof.
  split; [by eexists| |by intros b Hb; inversion Hb|done|exact ex_cl_ok].
  apply mem_of_wf. repeat constructor.
Qed.

(** The state after a lookup. *)
Definition ex_run_lookup := vsnfs_lookup (A := x86_64) (Km := kmem_ref []) (V := vfs_ref)
    ex_served_fs ex_pdir ex_dentry.
Definition ex_looked_up : cstate :=
  match ex_run_lookup ex_cl with Done (_, c) => c | Oops _ => ex_cl end.
Definition ex_call c := client_call (A := x86_64) (Km := kmem_ref []) (V := vfs_ref) (S := super_ref (inr 1)) (G := generic_ref) (filldir_ref 10)
  ex_served_fs c.

Lemma ex_lookup_reach :
  client_reach (A := x86_64) (Km := kmem_ref []) (V := vfs_ref) (S := super_ref (inr 1)) (G := generic_ref)
    (filldir_ref 10) ex_served_fs (ex_cl, []) (ex_looked_up, []).
Proof.
  eapply reach_call; [apply reach_none| |].
  - by eapply (call_lookup _ _ _ 2 ex_pdir _ ex_dentry [x61]).
  - by vm_compute.
Qed.

Lemma client_runs_safe_witness :
  client_ok (A := x86_64) (X := sunrpc_ref (H := x86_64)) (R := ex_serving)
    ex_served_fs 1 ex_looked_up ∧
  ∀ prog, ex_call ex_looked_up prog → ∃ s, prog (ex_looked_up, []) = Done (tt, s).
Proof.
  exact (client_runs_safe (A := x86_64) (Km := kmem_ref []) (X := sunrpc_ref (H := x86_64))
    (R := ex_serving) (RL := ex_serving_laws) (V := vfs_ref) (S := super_ref (inr 1))
    (G := generic_ref) (filldir_ref 10) (deliver_ref 10) ex_served_fs 1 ex_cl [] ex_looked_up []
    ltac:(done) ltac:(done) ex_server_answers ex_client_ok ex_lookup_reach).
Defined.
