(* ===== verification/System.v ===== *)
(** * System: client and server together

    A call of the client, the request it sends dispatched by the server, and
    the reply taken back.  The two may run on different machines ([Ac], [As]).
    [delivered] is what the transport does: the bytes of the request arrive,
    and what the server answers is what the call receives.  [system_ok] is the
    invariant across the two: the server's table has a path for every inode
    the client knows, and its paths resolve to the inodes they are kept for.
    [lookup_answer_inv] and [readdir_answer_inv] list all the answers there are. *)
From Stdlib Require Import Strings.Byte.
From S2P Require Import Prelude Mem Frame CString Protocol Sunrpc Wire Handle Status VfsApi.
From S2P Require Import ServerXdr ServerState ServerProc ServerTable ServerSpec ServerSvc Dispatch.
From S2P Require Import Listing ReaddirSpec.
From S2P Require Import ClientXdr RpcApi ClientProc ClientState ClientInode ClientInodeSpec.
From S2P Require Import ClientDir ClientDirSpec ClientMount ClientMountSpec ClientSuper ClientSuperSpec.
From S2P Require Import ClientOps ClientRun.

(** ** The server's side of a call *)
Section server_side.
Context `{A : Arch} `{Km : Kmem} `{K : ServerKernel} `{KL : !ServerKernelLaws K}.
Context `{X : SunrpcXdr} `{XL : !SunrpcXdrLaws X}.
Implicit Types (s : sstate) (g : table) (fh : vsnfs_fh).

Definition rpc_success : Z := 0.
Lemma garbage_not_success : rpc_garbage_args ≠ rpc_success.
Proof. unfold rpc_garbage_args, cpu_to_be32, rpc_success. by rewrite htonl_0_iff. Qed.

(** The server's program has the procedure, under the numbers of a call, and
    accepts the caller. *)
Definition offers (prog vers proc : Z) (rqstp : svc_rqst) (pc : svc_procedure) : Prop :=
  pg_prog vsnfsd_program = prog ∧ vers < pg_nvers vsnfsd_program ∧
  (∃ v, pg_vers vsnfsd_program !! Z.to_nat vers = Some (Some v) ∧ vs_vers v = vers ∧
        proc < vs_nproc v ∧ vs_proc v proc = Some pc) ∧
  pg_authenticate vsnfsd_program rqstp = SVC_OK.
Lemma offers_known proc rqstp pc :
  proc < VSNFS_NRPROCS → svc_proc proc = Some pc →
  offers VSNFS_PROGRAM VSNFS_VERSION proc rqstp pc.
Proof. intros Hn Hp. split_and!; try done. by exists vsnfsd_version1. Qed.
Lemma offers_det prog vers proc rqstp pc pc' :
  offers prog vers proc rqstp pc → offers prog vers proc rqstp pc' → pc = pc'.
Proof.
  intros (_ & _ & (v & Ev & _ & _ & Ep) & _) (_ & _ & (v' & Ev' & _ & _ & Ep') & _).
  rewrite Ev in Ev'. injection Ev' as <-. rewrite Ep in Ep'. by injection Ep'.
Qed.

(** The reply: the head after what was in it, and the bytes of the page. *)
Definition reply_bytes (rqstp rq' : svc_rqst) s' (reply : list byte) : Prop :=
  ∃ head pages, reply = head ++ pages ∧
    has_bytes (s_mem s') (reply_at rqstp) head ∧
    iov_len (rq_res_head rq') = iov_len (rq_res_head rqstp) + zlen head ∧
    zlen pages = rq_page_len rq' ∧
    (pages = [] ∨ ∃ pg, rq_respages rqstp !! rq_resused rqstp = Some pg ∧
                        has_bytes (s_mem s') pg pages).
(** The server answers the request with [reply] and is then in [s']. *)
Definition answers (proc : Z) (rqstp : svc_rqst) s s' (reply : list byte) : Prop :=
  ∃ pc rq', offers VSNFS_PROGRAM VSNFS_VERSION proc rqstp pc ∧
    vsnfsd_dispatch pc rqstp rpc_success s = Done ((1, rq', rpc_success), s') ∧
    reply_bytes rqstp rq' s' reply.

Lemma reply_bytes_det rqstp rq' s' r1 r2 :
  reply_bytes rqstp rq' s' r1 → reply_bytes rqstp rq' s' r2 → r1 = r2.
Proof.
  intros (h1 & p1 & -> & B1 & L1 & Z1 & C1) (h2 & p2 & -> & B2 & L2 & Z2 & C2).
  assert (h1 = h2) as <- by (eapply has_bytes_inj; [lia|exact B1|exact B2]). f_equal.
  assert (zlen p1 = zlen p2) as Hz by lia.
  destruct C1 as [->|(pg & E1 & C1)]; [by destruct p2; [|unfold zlen in Hz; simpl in Hz; lia]|].
  destruct C2 as [->|(pg' & E2 & C2)]; [by destruct p1; [|unfold zlen in Hz; simpl in Hz; lia]|].
  simplify_eq. by eapply has_bytes_inj.
Qed.
(** There is one answer. *)
Lemma answers_det proc rqstp s s1 s2 r1 r2 :
  answers proc rqstp s s1 r1 → answers proc rqstp s s2 r2 → s1 = s2 ∧ r1 = r2.
Proof.
  intros (pc & rq & E1 & D1 & R1) (pc' & rq' & E2 & D2 & R2).
  rewrite <-(offers_det _ _ _ _ _ _ E1 E2) in D2. rewrite D1 in D2. injection D2 as <- <-.
  split; [done|]. by eapply reply_bytes_det.
Qed.

(** A request with the arguments [w]. *)
Record requested (rqstp : svc_rqst) s (w : list byte) : Prop := Requested {
  rq_args : args_are s rqstp w;
  rq_room : room_for_reply s rqstp;
  rq_pages : rq_page_len rqstp = 0;
}.

Lemma handle_answered rqstp rq' s' fh :
  has_bytes (s_mem s') (reply_at rqstp) (wire_reply 0 (wire_fh fh)) → fh_wf fh →
  iov_len (rq_res_head rq') = iov_len (rq_res_head rqstp) + 16 → rq_page_len rq' = 0 →
  reply_bytes rqstp rq' s' (wire_reply 0 (wire_fh fh)).
Proof.
  intros Hb Hf Hl Hp. exists (wire_reply 0 (wire_fh fh)), []. rewrite app_nil_r.
  split_and!; [done|done| |done|by left]. unfold wire_reply.
  rewrite zlen_app, zlen_be32, zlen_wire_fh by done. lia.
Qed.

(** The handle the server makes for an inode. *)
Definition served_fh (i : inode_info) : vsnfs_fh := reply_fh fh_zero i.
Lemma served_fh_wf i : fh_wf (served_fh i).
Proof. apply reply_fh_wf, fh_zero_wf. Qed.
Lemma served_fh_type i :
  S_ISREG (i_mode i) = true ∨ S_ISDIR (i_mode i) = true →
  fh_type (served_fh i) = if S_ISREG (i_mode i) then VSNFS_REG else VSNFS_DIR.
Proof. simpl. intros [-> | H]; [done|]. by rewrite H; destruct (S_ISREG (i_mode i)). Qed.
Lemma served_fh_parses (A' : Arch) i :
  0 ≤ i_ino i < 10 ^ 7 → fh_strtoul (A := A') (served_fh i) = Done (i_ino i).
Proof. intros Hi. by apply handle_reads_back. Qed.

Lemma lookup_answers s g rqstp fh name ino dir i :
  (∀ b, kmalloc_ok b = true) → server_rel s (Some g) → requested rqstp s (wire_lookup fh name) →
  fh_wf fh → filename_ok name → fh_strtoul fh = Done ino → g !! ino = Some dir → dir ++ name ≠ [] →
  zlen (entry_path i (dir ++ name)) ≤ VSNFS_MAXPATHLEN → path_lookup (dir ++ name) = (0, Some i) →
  ∃ s', answers VSNFSPROC_LOOKUP rqstp s s' (wire_reply 0 (wire_fh (served_fh i))) ∧
    server_rel s' (Some (remember g i (dir ++ name))) ∧
    clean_but [p_blk (reply_at rqstp)] s s'.
Proof.
  intros Hok Hr [Ha Hroom Hpl] Hf Hn Hino Hg Hne Hz Hp.
  destruct (lookup_dispatch s g rqstp rpc_success fh name ino dir i)
    as (s' & rq' & E & H1 & H2 & H3 & H4 & H5); try done.
  exists s'. split_and!; [|done|done]. exists svc_lookup, rq'. split_and!; [by apply offers_known|exact E|].
  apply handle_answered; [done|apply served_fh_wf|done|congruence].
Qed.

(** Dispatched without success, there is no answer. *)
Lemma answers_dispatch proc rqstp s s' reply pc :
  proc < VSNFS_NRPROCS → svc_proc proc = Some pc → answers proc rqstp s s' reply →
  ∃ rq', vsnfsd_dispatch pc rqstp rpc_success s = Done ((1, rq', rpc_success), s').
Proof.
  intros Hn Hp (pc' & rq' & Ho & D & _). exists rq'.
  by rewrite (offers_det _ _ _ _ _ _ (offers_known proc rqstp pc Hn Hp) Ho).
Qed.

(** All the answers there are to a LOOKUP in a directory of the table. *)
Lemma lookup_answer_inv s s' g rqstp fh name ino dir reply :
  (∀ b, kmalloc_ok b = true) → server_rel s (Some g) → s_drefs s = [] →
  requested rqstp s (wire_lookup fh name) → fh_wf fh → zlen name < 2 ^ 32 →
  fh_strtoul fh = Done ino → g !! ino = Some dir → dir ++ name ≠ [] →
  answers VSNFSPROC_LOOKUP rqstp s s' reply →
  ∃ i, path_lookup (dir ++ name) = (0, Some i) ∧ reply = wire_reply 0 (wire_fh (served_fh i)) ∧
    server_rel s' (Some (remember g i (dir ++ name))) ∧ s_drefs s' = [].
Proof.
  intros Hok Hr Hd Hreq Hf Hz Hino Hg Hne Ha. pose proof Hreq as [[Hb Hl] Hroom Hpl].
  destruct (answers_dispatch VSNFSPROC_LOOKUP _ _ _ _ svc_lookup eq_refl eq_refl Ha) as [rq' D].
  destruct (decide (filename_ok name)) as [Hn|Hn].
  2:{ exfalso. destruct (decode_lookupargs_reject (s_mem s) rqstp _ (pc_args0 svc_lookup) fh name Hf Hz Hb Hn)
        as [a E].
      rewrite (dispatch_garbage svc_lookup rqstp rpc_success s a rqstp) in D;
        [injection D as _ D _; by apply garbage_not_success in D|].
      simpl. unfold same_rqst. by mstep E. }
  destruct (path_lookup (dir ++ name)) as [ret [i|]] eqn:Ep;
    [destruct (decide (ret = 0)) as [->|Hret];
       [destruct (decide (zlen (entry_path i (dir ++ name)) ≤ VSNFS_MAXPATHLEN)) as [Hfit|Hfit]|]|].
  { destruct (lookup_answers s g rqstp fh name ino dir i) as (s1 & Ha1 & Hr1 & Hc1); try done.
    destruct (answers_det _ _ _ _ _ _ _ Ha Ha1) as [-> ->]. exists i. split_and!; try done.
    rewrite <-Hd. apply Hc1. }
  all: exfalso; assert (∃ e, vsnfsd_dispatch svc_lookup rqstp rpc_success s = Oops e) as [e E];
    [|by rewrite E in D].
  all: eapply lookup_unanswered; try done; rewrite Ep; intros i' [=]; subst; first [lia|done].
Qed.

Lemma getroot_answers s T rqstp path i :
  (∀ b, kmalloc_ok b = true) → server_rel s T → requested rqstp s (wire_getroot path) →
  pathname_ok path → path ≠ [] → path_lookup (with_slash path) = (0, Some i) →
  S_ISREG (i_mode i) = false →
  ∃ s', answers VSNFSPROC_GETROOT rqstp s s' (wire_reply 0 (wire_fh (served_fh i))) ∧
    server_rel s' (Some {[i_ino i := with_slash path]}) ∧
    clean_but [p_blk (reply_at rqstp)] s s'.
Proof.
  intros Hok Hr [Ha Hroom Hpl] Hp Hne Hl Hreg.
  destruct (getroot_dispatch s T rqstp rpc_success path i)
    as (s' & rq' & E & H1 & H2 & H3 & H4 & H5); try done.
  exists s'. split_and!; [|done|done]. exists svc_getroot, rq'. split_and!; [by apply offers_known|exact E|].
  apply handle_answered; [done|apply served_fh_wf|done|congruence].
Qed.


(** The page of a listing. *)
Record listing_page (rqstp : svc_rqst) s (pg : ptr) : Prop := ListingPage {
  lp_next : rq_respages rqstp !! rq_resused rqstp = Some pg;
  lp_start : p_off pg = 0;
  lp_whole : in_bounds (s_mem s) pg PAGE_SIZE;
  lp_table : p_blk pg ∉ table_blocks s;
  lp_head : p_blk pg ≠ p_blk (reply_at rqstp);
}.

Lemma readdir_answers s g rqstp fh count pg ino path f :
  let sent := walk (room_of (Z.min count PAGE_SIZE)) (dir_entries f).*2 in
  (∀ b, kmalloc_ok b = true) → server_rel s (Some g) → requested rqstp s (wire_readdir fh count) →
  listing_page rqstp s pg → fh_wf fh → is_u32 count →
  fh_strtoul fh = Done ino → ino ≠ 0 → g !! ino = Some path → zlen path < VSNFS_MAXPATHLEN →
  filp_open path O_RDONLY = inr f → names_in pg (s_mem s) (dir_entries f) →
  0 ≤ readdir_result f (stop_ret sent.2) →
  zlen (listing_bytes sent) ≤ Z.max 8 (Z.min count PAGE_SIZE) ∧
  ∃ s', answers VSNFSPROC_READDIR rqstp s s' (wire_reply 0 (listing_bytes sent)) ∧
    server_rel s' (Some g) ∧ s_drefs s' = s_drefs s.
Proof.
  intros sent Hok Hr [Ha Hroom Hpl] [P1 P2 P3 P4 P5] Hf Hc Hino H0 Hg Hz Ho Hn Hres.
  destruct (readdir_dispatch s g rqstp rpc_success fh count pg ino path f)
    as (s' & rq' & E & H1 & Hcl & H3 & H4 & H5 & H6 & H7); try done.
  split; [done|]. exists s'. split; [|split; [done|apply Hcl]]. exists svc_readdir, rq'. split_and!; [by apply offers_known|exact E|].
  exists (be32 0), (listing_bytes sent). split_and!; try done. right. by exists pg.
Qed.

(** The entries of a listing are such that the client can take them. *)
Lemma walk_bounds room es l st :
  walk room es = (l, st) → Forall (λ d, d_ino d ≤ u32 (-1) ∧ d_offset d ≤ u32 (-1)) l.
Proof.
  revert room l. induction es as [|d es IH]; intros room l; simpl; [by intros [= <- <-]|].
  case_decide; [by intros [= <- <-]|]. case_decide; [by intros [= <- <-]|].
  case_decide; [by intros [= <- <-]|]. destruct (walk _ es) as [l1 st1] eqn:E. intros [= <- <-].
  constructor; [lia|]. by eapply IH.
Qed.
Lemma link_entries_ok l last :
  Forall (λ d, is_u32 (d_ino d) ∧ is_u32 (d_offset d)) l → is_u32 last →
  Forall entry_ok (link l last).
Proof.
  intros Hl Hlast. induction Hl as [|d l [Hi _] Hl IH]; [constructor|]. simpl. constructor; [|done].
  split_and!; [|unfold zlen; simpl; rewrite length_take; unfold VSNFS_MAXNAMLEN; lia|done|].
  - apply (entry_of_wf (stack_junk (d_ino d))), stack_junk_len.
  - simpl. destruct Hl as [|d' l' [_ Ho] _]; done.
Qed.
Lemma walk_ok room es l st :
  Forall (λ d, 0 ≤ d_ino d ∧ 0 ≤ d_offset d) es → walk room es = (l, st) →
  Forall (λ d, is_u32 (d_ino d) ∧ is_u32 (d_offset d)) l ∧ is_u32 (next_offset st).
Proof.
  change (u32 (-1)) with (2 ^ 32 - 1). intros Hes. unfold is_u32.
  revert room l. induction Hes as [|d es [Hi Ho] _ IH]; intros room l; simpl; [by intros [= <- <-]|].
  change (u32 (-1)) with (2 ^ 32 - 1).
  case_decide; [by intros [= <- <-]|]. case_decide; [intros [= <- <-]; split; [done|simpl; lia]|].
  case_decide; [intros [= <- <-]; split; [done|simpl; lia]|].
  destruct (walk _ es) as [l1 st1] eqn:E. intros [= <- <-]. destruct (IH _ _ E) as [? ?].
  split; [|done]. constructor; [lia|done].
Qed.
(** ... and they have the names and numbers of the directory's. *)
Lemma link_entries l last :
  Forall (λ d, zlen (d_name d) ≤ VSNFS_MAXNAMLEN) l →
  (λ e, (we_name e, we_ino e)) <$> link l last = (λ d, (d_name d, d_ino d)) <$> l.
Proof.
  intros Hl. induction Hl as [|d l Hd Hl IH]; [done|]. simpl. f_equal; [|done]. f_equal.
  apply take_ge. unfold zlen in Hd. lia.
Qed.

(** A listing that fails is answered with a status. *)
Lemma readdir_refused_answers s g rqstp fh count pg ino path :
  (∀ b, kmalloc_ok b = true) → server_rel s (Some g) →
  requested rqstp s (wire_readdir fh count) → listing_page rqstp s pg → fh_wf fh → is_u32 count →
  fh_strtoul fh = Done ino →
  ino = 0 ∨ ino ≠ 0 ∧ g !! ino = Some path ∧ zlen path < VSNFS_MAXPATHLEN ∧
    match filp_open path O_RDONLY with
    | inl _ => True
    | inr f => names_in pg (s_mem s) (dir_entries f) ∧
        readdir_result f (stop_ret (walk (room_of (Z.min count PAGE_SIZE)) (dir_entries f).*2).2) < 0
    end →
  ∃ st s', st ≠ VSNFS_OK ∧ answers VSNFSPROC_READDIR rqstp s s' (be32 (stat_code st)) ∧
    server_rel s' (Some g) ∧ s_drefs s' = s_drefs s.
Proof.
  intros Hok Hr [Hargs Hroom Hpl] [P1 P2 P3 P4 P5] Hf Hc Hino Hcase.
  destruct (readdir_refused s g rqstp rpc_success fh count pg ino path)
    as (st & s1 & rq1 & Hst & D & H1 & H2 & H3 & H4 & H5); try done.
  exists st, s1. split_and!; try done. exists svc_readdir, rq1. split_and!; [by apply offers_known|exact D|].
  exists (be32 (stat_code st)), []. rewrite app_nil_r. split_and!; try done; [|by left]. by rewrite H5.
Qed.

(** What a READDIR of a directory of the table is answered with: a listing,
    whole or cut, or a status. *)
Definition readdir_answer (count : Z) (reply : list byte) : Prop :=
  (∃ es eof, reply = wire_reply 0 (wire_listing es eof) ∧ Forall entry_ok es ∧
     zlen (wire_listing es eof) ≤ Z.max 8 count) ∨
  ∃ st, st ≠ VSNFS_OK ∧ reply = be32 (stat_code st).

(** All the answers there are. *)
Lemma readdir_answer_inv s s' g rqstp fh count pg ino path reply :
  (∀ b, kmalloc_ok b = true) → server_rel s (Some g) →
  requested rqstp s (wire_readdir fh count) → listing_page rqstp s pg → fh_wf fh → is_u32 count →
  fh_strtoul fh = Done ino → g !! ino = Some path →
  (∀ f, filp_open path O_RDONLY = inr f → names_in pg (s_mem s) (dir_entries f) ∧
     Forall (λ d, 0 ≤ d_ino d ∧ 0 ≤ d_offset d) (dir_entries f).*2) →
  answers VSNFSPROC_READDIR rqstp s s' reply →
  server_rel s' (Some g) ∧ s_drefs s' = s_drefs s ∧ readdir_answer count reply.
Proof.
  intros Hok Hr Hreq Hpage Hf Hc Hino Hg Hdir Ha.
  assert ((∃ st s1, st ≠ VSNFS_OK ∧ answers VSNFSPROC_READDIR rqstp s s1 (be32 (stat_code st)) ∧
      server_rel s1 (Some g) ∧ s_drefs s1 = s_drefs s) →
    server_rel s' (Some g) ∧ s_drefs s' = s_drefs s ∧ readdir_answer count reply) as Hstatus.
  { intros (st & s1 & Hst & Ha1 & H1 & H2). destruct (answers_det _ _ _ _ _ _ _ Ha Ha1) as [-> ->].
    split_and!; [done|done|right; by exists st]. }
  destruct (decide (ino = 0)) as [H0|H0];
    [eapply Hstatus, (readdir_refused_answers s g rqstp fh count pg ino path); try done; by left|].
  destruct (decide (zlen path < VSNFS_MAXPATHLEN)) as [Hz|Hz].
  2:{ exfalso. destruct (answers_dispatch VSNFSPROC_READDIR _ _ _ _ svc_readdir eq_refl eq_refl Ha) as [rq' D].
      rewrite (readdir_unanswered s g rqstp rpc_success fh count pg ino path) in D; try done;
        [apply Hreq|apply Hpage|lia]. }
  destruct (filp_open path O_RDONLY) as [e|f] eqn:Ho.
  { eapply Hstatus, readdir_refused_answers; try done. right. rewrite Ho. by split_and!. }
  destruct (Hdir f eq_refl) as [Hn Hnn].
  set (sent := walk (room_of (Z.min count PAGE_SIZE)) (dir_entries f).*2) in *.
  destruct (decide (readdir_result f (stop_ret sent.2) < 0)) as [Hneg|Hneg].
  { eapply Hstatus, readdir_refused_answers; try done. right. rewrite Ho. by split_and!. }
  destruct (readdir_answers s g rqstp fh count pg ino path f)
    as (Hfit & s1 & Ha1 & Hr1 & Hd1); try done; [fold sent; lia|]. fold sent in Hfit, Ha1.
  destruct (answers_det _ _ _ _ _ _ _ Ha Ha1) as [-> ->]. split_and!; [done|done|left].
  exists (link sent.1 (next_offset sent.2)), (bool_decide (sent.2 = Complete)).
  destruct (walk_ok _ _ sent.1 sent.2 Hnn (surjective_pairing _)) as [Hl Hlast].
  split_and!; [done|by apply link_entries_ok|]. unfold listing_bytes in Hfit. lia.
Qed.
End server_side.

(** ** The client's side *)
Section client_side.
Context `{A : Arch} `{Km : Kmem} `{X : SunrpcXdr} `{XL : !SunrpcXdrLaws X}.
Context `{R : RpcClient} `{RL : !RpcClientLaws R} `{V : ClientVfs} `{VL : !ClientVfsLaws V}.
Context (parse : vsnfs_fh → outcome Z).
Implicit Types (c : cstate) (fh : vsnfs_fh) (sb : super_block) (g : table).

(** The handle an inode keeps. *)
Definition handle_of c (i : cinode) fh : Prop :=
  fh_wf fh ∧ ∃ p, ci_private i = Some p ∧ has_bytes (c_mem c) p (fh_bytes fh).

(** The server, which reads handles with [parse], has a path for every inode of
    the client. *)
Definition knows g c : Prop :=
  ∀ h i, c_icache c !! h = Some i →
    ∃ fh, handle_of c i fh ∧ fh_strtoul fh = Done h ∧ parse fh = Done h ∧ is_Some (g !! h).

Lemma handle_of_unique c i fh fh' : handle_of c i fh → handle_of c i fh' → fh = fh'.
Proof.
  intros (H1 & p & Hp & Hb) (H1' & p' & Hp' & Hb'). simplify_eq.
  apply load_fh_spec in Hb; [|done]. apply load_fh_spec in Hb'; [|done]. congruence.
Qed.
Lemma handle_of_scratch B c c' i fh :
  scratch B (c_mem c) (c_mem c') → handle_of c i fh → handle_of c' i fh.
Proof.
  intros Hs (Hf & p & Hp & Hb). split; [done|]. exists p. split; [done|]. by eapply scratch_has_bytes.
Qed.
Lemma handle_of_dir sb clnt c i fh :
  client_ok sb clnt c → handle_of c i fh → dir_of sb i clnt fh c.
Proof. intros [Hs Hm Hk Hr _] (Hf & p & Hp & Hb). split; try done. by exists p. Qed.

Lemma knows_put g g' c c' B h i fh :
  knows g c → scratch B (c_mem c) (c_mem c') → c_icache c' = <[h := i]> (c_icache c) →
  (∀ k, is_Some (g !! k) → is_Some (g' !! k)) → is_Some (g' !! h) →
  handle_of c' i fh → fh_strtoul fh = Done h → parse fh = Done h → knows g' c'.
Proof.
  intros Hk Hs Hc Hg Hh Hi H1 H2 h' i' Hi'. rewrite Hc in Hi'.
  apply lookup_insert_Some in Hi' as [[<- <-]|[Hne Hi']]; [by exists fh|].
  destruct (Hk h' i' Hi') as (fh' & Hf & ? & ? & ?). exists fh'. split_and!; try done; [|by apply Hg].
  by eapply handle_of_scratch.
Qed.

Lemma lookup_received sb clnt c dir dirfh d name g g' fh h :
  (∀ b, kmalloc_ok b = true) → (∀ c, inode_memory c = true) →
  client_ok sb clnt c → knows g c → handle_of c dir dirfh →
  has_bytes (c_mem c) (d_nm d) name → d_len d = zlen name → zlen name ≤ VSNFS_MAXNAMLEN →
  exchange clnt VSNFSPROC_LOOKUP (wire_lookup dirfh name) = inr (wire_reply 0 (wire_fh fh)) →
  fh_wf fh → reg_or_dir fh → fh_strtoul fh = Done h → parse fh = Done h →
  (∀ k, is_Some (g !! k) → is_Some (g' !! k)) → is_Some (g' !! h) →
  ∃ r c' i, vsnfs_lookup sb dir d c =
      Done ((r, set_d_op d (Some vsnfs_dentry_operations)), c') ∧
    bound_to c' h r ∧
    client_ok sb clnt c' ∧ knows g' c' ∧ c_icache c' = <[h := i]> (c_icache c) ∧
    match c_icache c !! h with
    | Some i0 => i = set_count i0 (ci_count i0 + 1)
    | None => inode_attrs (fh_type fh) i ∧ ci_count i = 1
    end.
Proof.
  intros Hkm Him Hc Hk Hdir Hnm Hlen Hl Hx Hf Ht Hh Hp Hg Hgh.
  pose proof (handle_of_dir _ _ _ _ _ Hc Hdir) as Hd.
  destruct (lookup_found_run sb dir clnt dirfh c d name fh h) as
    (r & c' & i & E & Hr & Hs & Hkm' & Hic & Hok & Hi); try done; [apply Hc|].
  assert (client_ok sb clnt c') as Hc'.
  { destruct Hc as [H1 H2 H3 H4 _]. split; try done; [apply Hs|]. intros b Hb. rewrite Hkm' in Hb.
    apply (scratch_live _ _ _ _ Hs). auto. }
  exists r, c', i. destruct (c_icache c !! h) as [i0|] eqn:Ei.
  - subst i. split_and!; try done. destruct (Hk h i0 Ei) as (fh0 & Hf0 & ? & ? & ?).
    eapply knows_put; [exact Hk|exact Hs|exact Hic|done|done| |done|done].
    by eapply (handle_of_scratch _ _ _ _ _ Hs).
  - destruct Hi as [-> Hb].
    destruct (made_ok (c_mem c') h fh (newfh_of c)) as [_ Hcnt]; [done..|].
    split_and!; try done; [|by apply made_attrs].
    eapply knows_put; [exact Hk|exact Hs|exact Hic|done|done| |done|done].
    split; [done|]. eexists. split; [apply made_private|done].
Qed.
End client_side.

(** ** Both *)
Section system.
Context (Ac As : Arch) (Kc Ks : Kmem) (Xc Xs : SunrpcXdr).
Context {Lc : SunrpcXdrLaws (H := Ac) Xc} {Ls : SunrpcXdrLaws (H := As) Xs}.
Context (R : RpcClient) {RL : RpcClientLaws (X := Xc) R} (V : ClientVfs) {VL : ClientVfsLaws V}.
Context (K : ServerKernel) {KL : ServerKernelLaws K}.
Implicit Types (c : cstate) (s : sstate) (g : table) (sb : super_block) (fh : vsnfs_fh).

(** The transport takes the request [w] to the server, where it becomes
    [rqstp], and what the server answers back. *)
Definition delivered (clnt proc : Z) (w : list byte) (rqstp : svc_rqst) s : Prop :=
  requested (A := As) rqstp s w ∧
  ∀ s' reply, answers (A := As) (Km := Ks) (K := K) (X := Xs) proc rqstp s s' reply →
    exchange clnt proc w = inr reply.

Lemma delivered_of clnt proc w rqstp s s1 reply :
  requested (A := As) rqstp s w →
  answers (A := As) (Km := Ks) (K := K) (X := Xs) proc rqstp s s1 reply →
  exchange clnt proc w = inr reply → delivered clnt proc w rqstp s.
Proof.
  intros Hr Ha Hx. split; [done|]. intros s' r Ha'.
  by destruct (answers_det (A := As) _ _ _ _ _ _ _ Ha Ha') as [_ <-].
Qed.

(** The server has answered the request, and is then in [s']. *)
Definition answered (proc : Z) (rqstp : svc_rqst) s s' : Prop :=
  ∃ reply, answers (A := As) (Km := Ks) (K := K) (X := Xs) proc rqstp s s' reply.

(** Every path of the table resolves to the inode it is kept for. *)
Definition table_true g : Prop :=
  map_Forall (λ ino path, ∃ i, path_lookup path = (0, Some i) ∧ i_ino i = ino) g.
(** A directory is the same with a slash at its end. *)
Definition slashes_same : Prop :=
  ∀ path i, path_lookup path = (0, Some i) → S_ISDIR (i_mode i) = true →
    path_lookup (with_slash path) = (0, Some i).

Record system_ok sb (clnt : Z) c s g : Prop := SystemOk {
  sy_client : client_ok (A := Ac) (X := Xc) (R := R) sb clnt c;
  sy_server : server_rel s (Some g);
  sy_known : knows (A := Ac) (fh_strtoul (A := As)) g c;
  sy_true : table_true g;
}.

(** C24: The two tables agree: every procedure in the client's table is there
    under its own number, and is a procedure the server's program offers under
    the program and version the client connects with; and the server offers no
    others. *)
Theorem procedures_agree (n : nat) rqstp :
  (∃ Args Res (info : rpc_procinfo Args Res),
     vsnfs_procedures (A := Ac) (X := Xc) !! n = Some (Some (AnyProc _ _ info)) ∧
     p_proc info = Z.of_nat n) ↔
  (∃ pc, offers (A := As) (Km := Ks) (K := K) (X := Xs) (vsnfs_program (A := Ac) (X := Xc)).1
     (op_version (vsnfs_clientops (A := Ac) (X := Xc) (R := R))) (Z.of_nat n) rqstp pc).
Proof.
  split.
  - intros (Args & Res & info & Hp & _). do 9 (destruct n as [|n]; [try done; eexists; by apply offers_known|]). done.
  - intros (pc & _ & _ & (v & Hv & _ & Hn & Hp) & _). injection Hv as <-. simpl in Hn, Hp.
    do 10 (destruct n as [|n]; [try done; by eexists _, _, _|]). unfold VSNFS_NRPROCS in Hn. lia.
Qed.

Lemma remember_keeps g i p k : is_Some (g !! k) → is_Some (remember g i p !! k).
Proof.
  intros Hk. unfold remember. destruct (g !! i_ino i) eqn:E; [done|].
  rewrite lookup_insert. by case_decide.
Qed.
Lemma remember_has g i p : is_Some (remember g i p !! i_ino i).
Proof.
  unfold remember. destruct (g !! i_ino i) eqn:E; [by rewrite E|]. rewrite lookup_insert_eq. by eexists.
Qed.

Lemma remember_true g i p :
  slashes_same → table_true g → path_lookup p = (0, Some i) → table_true (remember g i p).
Proof.
  intros Hsl Hg Hp. unfold remember. destruct (g !! i_ino i) eqn:E; [done|].
  apply map_Forall_insert_2; [|done]. exists i. split; [|done]. unfold entry_path.
  destruct (S_ISREG (i_mode i)); [done|]. destruct (S_ISDIR (i_mode i)) eqn:Ed; [by apply Hsl|done].
Qed.

Lemma lookup_step sb clnt c s g h dir dirfh dirpath d name rqstp i :
  (∀ b, kmalloc_ok (Kmem := Kc) b = true) → (∀ b, kmalloc_ok (Kmem := Ks) b = true) →
  (∀ c, inode_memory c = true) → slashes_same →
  system_ok sb clnt c s g → c_icache c !! h = Some dir → handle_of (A := Ac) c dir dirfh →
  g !! h = Some dirpath →
  has_bytes (c_mem c) (d_nm d) name → d_len d = zlen name → filename_ok name →
  dirpath ++ name ≠ [] → zlen dirpath + zlen name + 2 ≤ VSNFS_MAXPATHLEN + 1 →
  path_lookup (dirpath ++ name) = (0, Some i) →
  S_ISREG (i_mode i) = true ∨ S_ISDIR (i_mode i) = true → 0 ≤ i_ino i < 10 ^ 7 →
  delivered clnt VSNFSPROC_LOOKUP (wire_lookup dirfh name) rqstp s →
  ∃ r c' s' ic,
    vsnfs_lookup (A := Ac) (Km := Kc) (V := V) sb dir d c =
      Done ((r, set_d_op d (Some vsnfs_dentry_operations)), c') ∧
    bound_to (V := V) c' (i_ino i) r ∧
    answered VSNFSPROC_LOOKUP rqstp s s' ∧
    system_ok sb clnt c' s' (remember g i (dirpath ++ name)) ∧
    c_icache c' = <[i_ino i := ic]> (c_icache c) ∧
    match c_icache c !! i_ino i with
    | Some i0 => ic = set_count i0 (ci_count i0 + 1)
    | None => inode_attrs (if S_ISREG (i_mode i) then VSNFS_REG else VSNFS_DIR) ic ∧ ci_count ic = 1
    end.
Proof using Lc Ls RL VL KL.
  intros Hkc Hks Him Hsl [Hc Hsr Hk Htt] Hdir Hdf Hg Hnm Hlen Hfn Hne Hz Hpl Hty Hi [Hreq Htr].
  destruct (Hk h dir Hdir) as (fh0 & Hf0 & _ & Hpar & _).
  rewrite (handle_of_unique (A := Ac) _ _ _ _ Hf0 Hdf) in Hpar.
  destruct (lookup_answers (A := As) (Km := Ks) (X := Xs) s g rqstp dirfh name h dirpath i)
    as (s' & Hans & Hsr' & _); try done; [apply Hdf|by apply entry_path_fits|].
  pose proof (Htr _ _ Hans) as Hx. pose proof (served_fh_type (A := As) i Hty) as Hft.
  destruct (lookup_received (A := Ac) (Km := Kc) (X := Xc) (fh_strtoul (A := As)) sb clnt c dir dirfh
    d name g (remember g i (dirpath ++ name)) (served_fh (A := As) i) (i_ino i))
    as (r & c' & ic & E & Hr & Hc' & Hk' & Hic & Hm); try done;
    [apply Hfn|apply served_fh_wf| |by apply served_fh_parses|by apply served_fh_parses
    |apply remember_keeps|apply remember_has|].
  { unfold reg_or_dir. rewrite Hft. destruct (S_ISREG (i_mode i)); auto. }
  exists r, c', s', ic. split_and!; try done; [by eexists| |by rewrite Hft in Hm].
  split; try done. by apply remember_true.
Qed.

(** C1: A lookup on the client, all the way to the server's file system and
    back.  If the server's table has [dirpath] for the directory's inode and
    [dirpath/name] resolves to a file or directory there, with a number below
    10,000,000, then the result is what the kernel makes of binding the dentry to
    the inode of that number (that inode, or the error with which it refuses),
    which has the type of what was found
    when it is new to the client, and afterwards the server again has a path
    for every inode the client knows, one that resolves to that inode. *)
Theorem lookup_end_to_end sb clnt c s g h dir dirfh dirpath d name rqstp i :
  (∀ b, kmalloc_ok (Kmem := Kc) b = true) → (∀ b, kmalloc_ok (Kmem := Ks) b = true) →
  (∀ c, inode_memory c = true) → slashes_same →
  system_ok sb clnt c s g → c_icache c !! h = Some dir → handle_of (A := Ac) c dir dirfh →
  g !! h = Some dirpath →
  has_bytes (c_mem c) (d_nm d) name → d_len d = zlen name → filename_ok name →
  dirpath ++ name ≠ [] → zlen dirpath + zlen name + 2 ≤ VSNFS_MAXPATHLEN + 1 →
  path_lookup (dirpath ++ name) = (0, Some i) →
  S_ISREG (i_mode i) = true ∨ S_ISDIR (i_mode i) = true → 0 ≤ i_ino i < 10 ^ 7 →
  delivered clnt VSNFSPROC_LOOKUP (wire_lookup dirfh name) rqstp s →
  ∃ r c' s' ic,
    vsnfs_lookup (A := Ac) (Km := Kc) (V := V) sb dir d c =
      Done ((r, set_d_op d (Some vsnfs_dentry_operations)), c') ∧
    bound_to (V := V) c' (i_ino i) r ∧
    answered VSNFSPROC_LOOKUP rqstp s s' ∧
    system_ok sb clnt c' s' (remember g i (dirpath ++ name)) ∧
    c_icache c' = <[i_ino i := ic]> (c_icache c) ∧
    match c_icache c !! i_ino i with
    | Some i0 => ic = set_count i0 (ci_count i0 + 1)
    | None => inode_attrs (if S_ISREG (i_mode i) then VSNFS_REG else VSNFS_DIR) ic ∧ ci_count ic = 1
    end.
Proof using Lc Ls RL VL KL. apply lookup_step. Qed.

(** C2: A mount, with the server's part in it.  If the path, with a slash at its
    end, resolves to a directory of the server with a number below 10,000,000,
    the mount ends with the inode of that number as its root, and client and
    server agree: the server's table is new and has the path of the root,
    which is the only inode the client knows. *)
Theorem mount_end_to_end (P : MountApi) {PL : MountApiLaws P} (S : SuperApi) {SL : SuperApiLaws S}
    c s T dev raw host path os clnt rqstp i :
  (∀ b, kmalloc_ok (Kmem := Ks) b = true) →
  net_ready (A := Ac) (Km := Kc) (R := R) host os clnt → super_ready (S := S) →
  root_ready (V := V) (S := S) (i_ino i) →
  mem_wf (c_mem c) → (∀ b, b ∈ c_kmaps c → live (c_mem c) b) → c_icache c = ∅ →
  mount_data (c_mem c) dev raw host path os → server_rel s T →
  path ≠ [] → path_lookup (with_slash path) = (0, Some i) → S_ISDIR (i_mode i) = true →
  0 ≤ i_ino i < 10 ^ 7 →
  delivered clnt VSNFSPROC_GETROOT (wire_getroot path) rqstp s →
  ∃ sb c' s' ic,
    vsnfs_get_sb (A := Ac) (Km := Kc) (X := Xc) (R := R) (V := V) (P := P) (S := S) dev raw c =
      Done ((0, Some (sb, RootDentry (i_ino i) (Some vsnfs_dentry_operations))), c') ∧
    answered VSNFSPROC_GETROOT rqstp s s' ∧
    system_ok sb clnt c' s' {[i_ino i := with_slash path]} ∧
    s_root sb = Some (i_ino i) ∧ c_icache c' = {[i_ino i := ic]}.
Proof using Lc Ls RL VL KL.
  intros Hks Hn Hsu Hro Hwf Hkm Hi Hmd Hsr Hne Hpl Hdir Hino [Hreq Htr].
  assert (S_ISREG (i_mode i) = false) as Hreg.
  { unfold S_ISREG, S_ISDIR in *. apply bool_decide_eq_true in Hdir. rewrite Hdir. done. }
  destruct (getroot_answers (A := As) (Km := Ks) (X := Xs) s T rqstp path i)
    as (s' & Hans & Hsr' & _); try done.
  { split; [apply Hmd|]. pose proof (md_plain _ _ _ _ _ _ Hmd) as [_ ?]%not_elem_of_app. done. }
  pose proof (served_fh_type (A := As) i ltac:(auto)) as Hft. rewrite Hreg in Hft.
  destruct (mount_run (A := Ac) (Km := Kc) (X := Xc) (R := R) (V := V) c dev raw host path os clnt
    (served_fh (A := As) i) (i_ino i)) as
    (sb & c' & ic & mr & E & Hroot & _ & _ & _ & Hic & _ & Hd & Hok & _); try done;
    [by apply Htr in Hans|apply served_fh_wf|by right|by apply served_fh_parses|].
  exists sb, c', s', ic. split_and!; [done|by eexists| |done|done]. split; [|done| |].
  - destruct Hd as [H1 H2 H3 H4 H5 H6]. by split.
  - intros h' i' Hi'. rewrite Hic in Hi'. apply lookup_singleton_Some in Hi' as [<- <-].
    exists (served_fh (A := As) i). split_and!; [|by apply served_fh_parses|by apply served_fh_parses|].
    + split; [apply served_fh_wf|]. apply (do_private _ _ _ _ _ Hd).
    + rewrite lookup_singleton_eq. by eexists.
  - apply map_Forall_singleton. by exists i.
Qed.



Lemma readdir_step {U} (filldir_fn : filldir (cstate * U))
    (deliver : U → list byte * Z * Z * Z → Z * U) {FL : FilldirLaws filldir_fn deliver}
    sb clnt c s g h dir dirfh path junk u rqstp pg f :
  let entries := (dir_entries f).*2 in
  let es := link (A := As) (K := K) entries (u32 (-1)) in
  let psize := PAGE_SIZE (H := Ac) in
  (∀ b, kmalloc_ok (Kmem := Kc) b = true) → (∀ b, kmalloc_ok (Kmem := Ks) b = true) →
  system_ok sb clnt c s g → c_icache c !! h = Some dir → handle_of (A := Ac) c dir dirfh →
  h ≠ 0 → g !! h = Some path → zlen path < VSNFS_MAXPATHLEN →
  filp_open path O_RDONLY = inr f → names_in pg (s_mem s) (dir_entries f) →
  Forall (λ d, zlen (d_name d) ≤ VSNFS_MAXNAMLEN ∧ 0 ≤ d_ino d ∧ 0 ≤ d_offset d) entries →
  walk (room_of (Z.min psize (PAGE_SIZE (H := As)))) entries = (entries, Complete) →
  0 ≤ readdir_result f 0 → entries ≠ [] → accepts deliver u es →
  listing_page (A := As) rqstp s pg →
  delivered clnt VSNFSPROC_READDIR (wire_readdir dirfh psize) rqstp s →
  ∃ c' s',
    vsnfs_readdir (A := Ac) (Km := Kc) filldir_fn sb (CFile 0 dir) junk (c, u) =
      Done ((0, CFile 4096 dir), (c', deliver_all deliver u es)) ∧
    (λ e, (we_name e, we_ino e)) <$> es = (λ d, (d_name d, d_ino d)) <$> entries ∧
    page_freed c c' ∧ answered VSNFSPROC_READDIR rqstp s s' ∧ system_ok sb clnt c' s' g.
Proof using Lc Ls RL KL.
  intros entries es psize Hkc Hks [Hc Hsr Hk Htt] Hdir Hdf H0 Hg Hz Ho Hn Hall Hw Hres Hne Hacc Hpg [Hreq Htr].
  destruct (Hk h dir Hdir) as (fh0 & Hf0 & _ & Hpar & _).
  rewrite (handle_of_unique (A := Ac) _ _ _ _ Hf0 Hdf) in Hpar.
  pose proof (PAGE_SIZE_range (H := Ac)) as HP1. pose proof (PAGE_SIZE_range (H := As)) as HP2.
  destruct (readdir_answers (A := As) (Km := Ks) (X := Xs) s g rqstp dirfh psize pg h path f)
    as (Hfit & s' & Hans & Hsr' & _); try done; [apply Hdf|unfold psize; split; lia|fold entries; by rewrite Hw|].
  fold entries in Hfit, Hans. rewrite Hw in Hfit, Hans. unfold listing_bytes in Hfit, Hans.
  cbn [fst snd next_offset] in Hfit, Hans. rewrite bool_decide_eq_true_2 in Hfit, Hans by done. fold es in Hfit, Hans.
  assert (Forall entry_ok es) as Hes.
  { apply link_entries_ok; [|done]. pose proof (walk_bounds _ _ _ _ Hw) as Hb.
    eapply Forall_impl; [apply Forall_and; exact (conj Hall Hb)|].
    intros d [(_ & H1 & H2) [H3 H4]]. change (u32 (-1)) with (2 ^ 32 - 1) in *. by repeat split; lia. }
  destruct (fill_run_all deliver u es Hacc) as (r & Hr & Erun).
  { unfold es. by destruct entries. }
  pose proof (client_readdir_run (A := Ac) (Km := Kc) (X := Xc) filldir_fn deliver sb (CFile 0 dir) clnt
    dirfh c u Hkc (handle_of_dir (A := Ac) _ _ _ _ _ Hc Hdf) es true junk eq_refl (Htr _ _ Hans)
    ltac:(fold psize; lia) Hes) as Hrun.
  rewrite Erun in Hrun. destruct Hrun as (c' & E & Hfreed).
  exists c', s'. split_and!; [|apply link_entries|done|by eexists|].
  - rewrite E. case_decide; repeat f_equal; lia.
  - eapply Forall_impl; [exact Hall|]. by intros d [? _].
  - destruct Hfreed as (Hsc & Hkm & Hic). split; [|done| |done].
    + eapply client_ok_mem; [exact Hc|exact Hsc|done|]. rewrite Hkm. auto.
    + intros h' i' Hi'. rewrite Hic in Hi'. destruct (Hk h' i' Hi') as (fh & Hf & Hrest).
      exists fh. split; [|done]. by eapply handle_of_scratch.
Qed.

(** C3: Reading a directory on the client, with the server's part in it.  When
    the whole directory fits into a page of both machines, the caller is given
    every entry of the server's directory, each once and in its order, with its
    name and its inode number; the file is marked as read, and client and
    server have given back what they used and still agree. *)
Theorem readdir_end_to_end {U} (filldir_fn : filldir (cstate * U))
    (deliver : U → list byte * Z * Z * Z → Z * U) {FL : FilldirLaws filldir_fn deliver}
    sb clnt c s g h dir dirfh path junk u rqstp pg f :
  let entries := (dir_entries f).*2 in
  let es := link (A := As) (K := K) entries (u32 (-1)) in
  let psize := PAGE_SIZE (H := Ac) in
  (∀ b, kmalloc_ok (Kmem := Kc) b = true) → (∀ b, kmalloc_ok (Kmem := Ks) b = true) →
  system_ok sb clnt c s g → c_icache c !! h = Some dir → handle_of (A := Ac) c dir dirfh →
  h ≠ 0 → g !! h = Some path → zlen path < VSNFS_MAXPATHLEN →
  filp_open path O_RDONLY = inr f → names_in pg (s_mem s) (dir_entries f) →
  Forall (λ d, zlen (d_name d) ≤ VSNFS_MAXNAMLEN ∧ 0 ≤ d_ino d ∧ 0 ≤ d_offset d) entries →
  walk (room_of (Z.min psize (PAGE_SIZE (H := As)))) entries = (entries, Complete) →
  0 ≤ readdir_result f 0 → entries ≠ [] → accepts deliver u es →
  listing_page (A := As) rqstp s pg →
  delivered clnt VSNFSPROC_READDIR (wire_readdir dirfh psize) rqstp s →
  ∃ c' s',
    vsnfs_readdir (A := Ac) (Km := Kc) filldir_fn sb (CFile 0 dir) junk (c, u) =
      Done ((0, CFile 4096 dir), (c', deliver_all deliver u es)) ∧
    (λ e, (we_name e, we_ino e)) <$> es = (λ d, (d_name d, d_ino d)) <$> entries ∧
    page_freed c c' ∧ answered VSNFSPROC_READDIR rqstp s s' ∧ system_ok sb clnt c' s' g.
Proof using Lc Ls RL KL. apply (readdir_step filldir_fn deliver). Qed.

Lemma answered_det proc rqstp s s1 s2 :
  answered proc rqstp s s1 → answered proc rqstp s s2 → s1 = s2.
Proof using. intros [r1 H1] [r2 H2]. by destruct (answers_det (A := As) _ _ _ _ _ _ _ H1 H2). Qed.

Lemma drop_knows g c c' h i :
  knows (A := Ac) (fh_strtoul (A := As)) g c → c_icache c !! h = Some i → 1 ≤ ci_count i →
  iput h c = Done (tt, c') → knows (A := Ac) (fh_strtoul (A := As)) g c'.
Proof using VL.
  intros Hk Hi Hn E.
  assert (c_mem c' = c_mem c ∧ ∀ h' i', c_icache c' !! h' = Some i' →
    ∃ i0, c_icache c !! h' = Some i0 ∧ ci_private i' = ci_private i0) as [Hm Hc].
  { assert (∀ n h' i', <[h := set_count i n]> (c_icache c) !! h' = Some i' →
      ∃ i0, c_icache c !! h' = Some i0 ∧ ci_private i' = ci_private i0) as Hput.
    { intros n h' i' [[<- <-]|[_ Hi']]%lookup_insert_Some; eauto. }
    destruct (decide (1 < ci_count i)) as [Hlt|Hlt].
    - rewrite (iput_dec c h i Hi Hlt) in E. injection E as <-. split; [done|]. apply Hput.
    - destruct (iput_last c h i Hi ltac:(lia)) as [E'|E']; rewrite E' in E; injection E as <-;
        (split; [done|]); [|apply Hput].
      intros h' i' Hi'. simpl in Hi'. apply lookup_delete_Some in Hi' as [_ Hi']. eauto. }
  intros h' i' Hi'. destruct (Hc h' i' Hi') as (i0 & Hi0 & Hp).
  destruct (Hk h' i0 Hi0) as (fh & (Hf & q & Hq & Hb) & Hrest). exists fh. split; [|done].
  split; [done|]. exists q. by rewrite Hp, Hm.
Qed.

End system.

(** ** Examples: a little-endian client of 64 bits, a big-endian server of 32 *)
Definition ex_peer : RpcClient := rpc_ref (H := x86_64) (λ _ proc _,
  inr (wire_reply 0
    (if decide (proc = VSNFSPROC_GETROOT) then wire_fh ex_rootfh
     else if decide (proc = VSNFSPROC_LOOKUP) then wire_fh (ex_found VSNFS_REG)
     else listing_bytes (A := ppc_32) (K := ex_dir_kernel) (ex_entries.*2, Complete)))).
Lemma ex_peer_laws : RpcClientLaws (X := sunrpc_ref (H := x86_64)) ex_peer.
Proof. by apply (rpc_ref_laws (A := x86_64)). Qed.

Definition ex_peer_fs : super_block :=
  bare_super (Some (VsnfsServer (Some 1)
    (vsnfs_clientops (A := x86_64) (X := sunrpc_ref (H := x86_64)) (R := ex_peer))
    (SockaddrIn 0 0 []) 0 0 0 [] 0 None (Ptr 10 0) (Ptr 10 0))).
Definition ex_peer_cl : cstate :=
  CState (mem_of [(10%positive, fh_bytes (A := x86_64) ex_pdirfh); (11%positive, ex_filename)]) []
    {[ 2 := ex_pdir ]} [].

Lemma ex_peer_handle : handle_of (A := x86_64) ex_peer_cl ex_pdir ex_pdirfh.
Proof. split; [by_eval|]. exists (Ptr 10 0). split; [done|by_eval]. Qed.
Lemma ex_system K s :
  path_lookup (ServerKernel := K) ex_dirpath = (0, Some (InodeInfo 2 S_IFDIR)) →
  server_rel s (Some ex_table) →
  system_ok x86_64 ppc_32 (sunrpc_ref (H := x86_64)) ex_peer K ex_peer_fs 1 ex_peer_cl s ex_table.
Proof.
  intros Hp Hs. split; [split| | |].
  - by eexists.
  - apply mem_of_wf. repeat constructor.
  - by intros b Hb; inversion Hb.
  - done.
  - apply map_Forall_singleton. split; try done. exists (Ptr 10 0), VSNFS_DIR. split_and!; [done| |].
    + exists ex_pdirfh. split_and!; [by_eval|by_eval|done|done].
    + by right.
  - done.
  - intros h i Hi. simpl in Hi. apply lookup_singleton_Some in Hi as [<- <-]. exists ex_pdirfh.
    split_and!; [exact ex_peer_handle|done|done|by eexists].
  - apply map_Forall_singleton. by eexists.
Qed.
Lemma ex_slashes : slashes_same ex_kernel.
Proof.
  intros path i Hp Hd. cbn [path_lookup ex_kernel kernel_ref find kf_path] in Hp.
  repeat case_bool_decide; simplify_eq/=; done.
Qed.

Lemma ex_lookup_delivered :
  delivered ppc_32 (kmem_ref []) (sunrpc_ref (H := ppc_32)) ex_peer ex_kernel
    1 VSNFSPROC_LOOKUP ex_lookup_wire (ex_rqst ex_lookup_wire) (ex_wire_server ex_lookup_wire).
Proof.
  assert (requested (A := ppc_32) (ex_rqst ex_lookup_wire) (ex_wire_server ex_lookup_wire) ex_lookup_wire)
    as Hreq by (split; [split; by_eval|apply ex_wire_room|done]).
  destruct (lookup_answers (A := ppc_32) (Km := kmem_ref []) (K := ex_kernel)
    (X := sunrpc_ref (H := ppc_32)) (ex_wire_server ex_lookup_wire) ex_table (ex_rqst ex_lookup_wire)
    ex_pdirfh ex_filename 2 ex_dirpath (InodeInfo 7 S_IFREG)) as (s' & Ha & _); try done;
    try apply ex_wire_server_rel; try by_eval.
  by eapply delivered_of.
Qed.

Lemma lookup_end_to_end_witness :
  ∃ r c' s' ic,
    vsnfs_lookup (A := x86_64) (Km := kmem_ref []) (V := vfs_ref) ex_peer_fs ex_pdir ex_dentry ex_peer_cl =
      Done ((r, set_d_op ex_dentry (Some vsnfs_dentry_operations)), c') ∧
    bound_to (V := vfs_ref) c' 7 r ∧
    answered ppc_32 (kmem_ref []) (sunrpc_ref (H := ppc_32)) ex_kernel VSNFSPROC_LOOKUP
      (ex_rqst ex_lookup_wire) (ex_wire_server ex_lookup_wire) s' ∧
    system_ok x86_64 ppc_32 (sunrpc_ref (H := x86_64)) ex_peer ex_kernel ex_peer_fs 1 c' s'
      (<[7 := ex_dirpath ++ ex_filename]> ex_table) ∧
    c_icache c' = <[7 := ic]> (c_icache ex_peer_cl) ∧ inode_attrs VSNFS_REG ic ∧ ci_count ic = 1.
Proof.
  exact (lookup_end_to_end x86_64 ppc_32 (kmem_ref []) (kmem_ref []) (sunrpc_ref (H := x86_64))
    (sunrpc_ref (H := ppc_32)) ex_peer (RL := ex_peer_laws) vfs_ref ex_kernel
    ex_peer_fs 1 ex_peer_cl (ex_wire_server ex_lookup_wire) ex_table 2 ex_pdir ex_pdirfh ex_dirpath
    ex_dentry ex_filename (ex_rqst ex_lookup_wire) (InodeInfo 7 S_IFREG)
    ltac:(done) ltac:(done) ltac:(done) ex_slashes (ex_system ex_kernel _ ltac:(done) (ex_wire_server_rel _)) ltac:(done)
    ex_peer_handle ltac:(done) ltac:(by_eval) ltac:(done) ltac:(by_eval) ltac:(done) ltac:(by_eval)
    ltac:(done) ltac:(by left) ltac:(by vm_compute) ex_lookup_delivered).
Defined.

Definition ex_getroot_wire : list byte := wire_getroot ex_srvpath.
Definition ex_srv_kernel : ServerKernel :=
  kernel_ref [KFile (with_slash ex_srvpath) (InodeInfo 2 S_IFDIR)] (λ _, []) (λ _, []).
Lemma ex_getroot_delivered :
  delivered ppc_32 (kmem_ref []) (sunrpc_ref (H := ppc_32)) ex_peer ex_srv_kernel
    1 VSNFSPROC_GETROOT ex_getroot_wire (ex_rqst ex_getroot_wire) (ex_wire_server ex_getroot_wire).
Proof.
  assert (requested (A := ppc_32) (ex_rqst ex_getroot_wire) (ex_wire_server ex_getroot_wire)
    ex_getroot_wire) as Hreq by (split; [split; by_eval|apply ex_wire_room|done]).
  destruct (getroot_answers (A := ppc_32) (Km := kmem_ref []) (K := ex_srv_kernel)
    (X := sunrpc_ref (H := ppc_32)) (ex_wire_server ex_getroot_wire) (Some ex_table)
    (ex_rqst ex_getroot_wire) ex_srvpath (InodeInfo 2 S_IFDIR)) as (s' & Ha & _); try done;
    try apply ex_wire_server_rel; try by_eval.
  by eapply delivered_of.
Qed.

Lemma mount_end_to_end_witness :
  ∃ sb c' s' ic,
    vsnfs_get_sb (A := x86_64) (Km := kmem_ref []) (X := sunrpc_ref (H := x86_64)) (R := ex_peer)
      (V := vfs_ref) (P := mount_ref) (S := super_ref (inr 1)) (Ptr 11 0) (Some (Ptr 12 0)) ex_fresh =
      Done ((0, Some (sb, RootDentry 2 (Some vsnfs_dentry_operations))), c') ∧
    answered ppc_32 (kmem_ref []) (sunrpc_ref (H := ppc_32)) ex_srv_kernel VSNFSPROC_GETROOT
      (ex_rqst ex_getroot_wire) (ex_wire_server ex_getroot_wire) s' ∧
    system_ok x86_64 ppc_32 (sunrpc_ref (H := x86_64)) ex_peer ex_srv_kernel sb 1 c' s'
      {[2 := [x2f; x73; x72; x76; x2f]]} ∧
    s_root sb = Some 2 ∧ c_icache c' = {[2 := ic]}.
Proof.
  exact (mount_end_to_end x86_64 ppc_32 (kmem_ref []) (kmem_ref []) (sunrpc_ref (H := x86_64))
    (sunrpc_ref (H := ppc_32)) ex_peer (RL := ex_peer_laws) vfs_ref ex_srv_kernel
    mount_ref (super_ref (inr 1)) ex_fresh (ex_wire_server ex_getroot_wire) (Some ex_table)
    (Ptr 11 0) (Some (Ptr 12 0)) localhost ex_srvpath ex_options 1 (ex_rqst ex_getroot_wire)
    (InodeInfo 2 S_IFDIR) ltac:(done) ltac:(by split) ex_super_ready ex_root_ready ex_mount_wf
    (λ b Hb, False_ind _ (not_elem_of_nil b Hb)) ltac:(done) ex_mount_data (ex_wire_server_rel _)
    ltac:(done) ltac:(done) ltac:(done) ltac:(by vm_compute) ex_getroot_delivered).
Defined.

(** The example directory, asked for a page. *)
Definition ex_page_wire : list byte := wire_readdir ex_pdirfh 4096.
Definition ex_page_server : sstate :=
  SState (mem_of [(10%positive, zeros 32); (11%positive, ex_dirpath ++ [NUL]);
                  (20%positive, ex_page_wire); (21%positive, zeros 64);
                  (22%positive, zeros 4096); (30%positive, [x62]); (31%positive, [x63; x63])])
    (Some [ex_node]) [] [] USER_DS 0.
Lemma ex_page_server_rel : server_rel ex_page_server (Some ex_table).
Proof. apply ex_rel_of; [apply mem_of_wf; repeat constructor|split_and!; by_eval]. Qed.
Lemma ex_listing_page : listing_page (A := ppc_32) ex_readdir_rqst ex_page_server (Ptr 22 0).
Proof. split; [done|done|by_eval|by_eval|done]. Qed.
Lemma ex_names : names_in (Ptr 22 0) (s_mem ex_page_server) ex_entries.
Proof. repeat constructor; by_eval. Qed.
Lemma ex_readdir_delivered :
  delivered ppc_32 (kmem_ref []) (sunrpc_ref (H := ppc_32)) ex_peer ex_dir_kernel
    1 VSNFSPROC_READDIR ex_page_wire ex_readdir_rqst ex_page_server.
Proof.
  assert (requested (A := ppc_32) ex_readdir_rqst ex_page_server ex_page_wire) as Hreq
    by (split; [split; by_eval|split; by_eval|done]).
  destruct (readdir_answers (A := ppc_32) (Km := kmem_ref []) (K := ex_dir_kernel)
    (X := sunrpc_ref (H := ppc_32)) ex_page_server ex_table ex_readdir_rqst ex_pdirfh 4096 (Ptr 22 0)
    2 ex_dirpath 2) as (_ & s' & Ha & _); try done;
    try apply ex_page_server_rel; try apply ex_listing_page; try apply ex_names; try by_eval.
  by eapply delivered_of.
Qed.

Lemma readdir_end_to_end_witness :
  let es := link (A := ppc_32) (K := ex_dir_kernel) (ex_entries.*2) (u32 (-1)) in
  ∃ c' s',
    vsnfs_readdir (A := x86_64) (Km := kmem_ref []) (filldir_ref 10) ex_peer_fs (CFile 0 ex_pdir) ex_junk
        (ex_peer_cl, []) =
      Done ((0, CFile 4096 ex_pdir), (c', deliver_all (deliver_ref 10) [] es)) ∧
    (λ e, (we_name e, we_ino e)) <$> es = [([x62], 7); ([x63; x63], 9)] ∧
    page_freed ex_peer_cl c' ∧
    answered ppc_32 (kmem_ref []) (sunrpc_ref (H := ppc_32)) ex_dir_kernel VSNFSPROC_READDIR
      ex_readdir_rqst ex_page_server s' ∧
    system_ok x86_64 ppc_32 (sunrpc_ref (H := x86_64)) ex_peer ex_dir_kernel ex_peer_fs 1 c' s' ex_table.
Proof.
  exact (readdir_end_to_end x86_64 ppc_32 (kmem_ref []) (kmem_ref []) (sunrpc_ref (H := x86_64))
    (sunrpc_ref (H := ppc_32)) ex_peer (RL := ex_peer_laws) ex_dir_kernel
    (filldir_ref 10) (deliver_ref 10) ex_peer_fs 1 ex_peer_cl ex_page_server ex_table 2 ex_pdir ex_pdirfh
    ex_dirpath ex_junk [] ex_readdir_rqst (Ptr 22 0) 2
    ltac:(done) ltac:(done) (ex_system ex_dir_kernel _ ltac:(done) ex_page_server_rel) ltac:(done) ex_peer_handle ltac:(done)
    ltac:(done) ltac:(by_eval) ltac:(done) ex_names ltac:(repeat constructor; by_eval)
    ltac:(by vm_compute) ltac:(by vm_compute) ltac:(done) ltac:(by vm_compute) ex_listing_page
    ex_readdir_delivered).
Defined.


