(* ===== verification/Agreement.v ===== *)
(** * Agreement: client and server, operation after operation

    A [world] is a mounted client, the server and the file system the server
    exports.  In one step the kernel makes any call of the client, and what
    happens to the request the call sends is [carried]: it is lost, or the
    server answers it and the answer is lost, or the answer arrives; or the file
    system changes.  [agreement] is the invariant across the two machines. *)
From Stdlib Require Import Strings.Byte.
From S2P Require Import Prelude Mem Frame CString Protocol Sunrpc Wire Handle Status VfsApi.
From S2P Require Import ServerXdr ServerState ServerProc ServerTable ServerSpec ServerSvc Dispatch.
From S2P Require Import Listing ReaddirSpec.
From S2P Require Import ClientXdr RpcApi ClientProc ClientState ClientInode ClientInodeSpec.
From S2P Require Import ClientDir ClientDirSpec ClientMount ClientMountSpec ClientSuper ClientSuperSpec.
From S2P Require Import ClientOps ClientRun System.

Section agreement.
Context (Ac As : Arch) (Kc Ks : Kmem) (Xc Xs : SunrpcXdr).
Context {Lc : SunrpcXdrLaws (H := Ac) Xc} {Ls : SunrpcXdrLaws (H := As) Xs}.
Context (V : ClientVfs) {VL : ClientVfsLaws V} (S : SuperApi) {SL : SuperApiLaws S}.
Context (G : GenericVfs) {GL : GenericVfsLaws G}.
Context {U : Type} (filldir_fn : filldir (cstate * U)).
Context (deliver : U → list byte * Z * Z * Z → Z * U) {FL : FilldirLaws filldir_fn deliver}.
Implicit Types (c : cstate) (s : sstate) (g : table) (sb : super_block) (fh : vsnfs_fh).
Implicit Types (R : RpcClient) (K : ServerKernel) (u : U).

Record world : Type := World {
  w_kernel : ServerKernel;
  w_server : sstate;
  w_client : cstate;
  w_user : U;
}.
Implicit Types (w : world).

(** ** The invariant *)
(** A file system whose inodes the protocol can name: regular files and
    directories, with numbers that fit into a handle. *)
Record served_fs K : Prop := ServedFs {
  sf_laws : ServerKernelLaws K;
  sf_slashes : slashes_same K;
  sf_inodes p i : path_lookup p = (0, Some i) →
    (S_ISREG (i_mode i) = true ∨ S_ISDIR (i_mode i) = true) ∧ 0 ≤ i_ino i < 10 ^ 7;
  sf_entries p f : filp_open p O_RDONLY = inr f →
    Forall (λ d, 0 ≤ d_ino d ∧ 0 ≤ d_offset d) (dir_entries f).*2;
}.

Definition paths_kept g : Prop := ∀ h path, g !! h = Some path → path ≠ [].

(** The client is well formed, the server's table is [g], and [g] has, for
    every inode of the client, a path that resolves to it. *)
Record agreement g w : Prop := Agreement {
  ag_fs : served_fs (w_kernel w);
  ag_mem : mem_wf (c_mem (w_client w));
  ag_kmaps b : b ∈ c_kmaps (w_client w) → live (c_mem (w_client w)) b;
  ag_icache : icache_ok (A := Ac) (w_client w);
  ag_server : server_rel (w_server w) (Some g);
  ag_drefs : s_drefs (w_server w) = [];
  ag_known : knows (A := Ac) (fh_strtoul (A := As)) g (w_client w);
  ag_true : table_true (w_kernel w) g;
  ag_paths : paths_kept g;
}.

(** ** The steps *)
(** The transport of a call, and the super block, whose operations use it. *)
Record mounted R sb (clnt : Z) : Prop := Mounted {
  mo_laws : RpcClientLaws (X := Xc) R;
  mo_server : ∃ server, s_fs_info sb = Some server ∧ cl_rpcclient server = Some clnt ∧
                        cl_rpc_ops server = vsnfs_clientops (A := Ac) (X := Xc) (R := R);
  mo_ready m : rpc_ready clnt m = true;
}.

(** What becomes of a request, and of the server. *)
Inductive carried R K (clnt proc : Z) (request : list byte) (rqstp : svc_rqst) s : sstate → Prop :=
  | request_lost e : exchange clnt proc request = inl e → carried R K clnt proc request rqstp s s
  | reply_lost e s' reply :
      answers (A := As) (Km := Ks) (K := K) (X := Xs) proc rqstp s s' reply →
      exchange clnt proc request = inl e → carried R K clnt proc request rqstp s s'
  | reply_arrives s' reply :
      answers (A := As) (Km := Ks) (K := K) (X := Xs) proc rqstp s s' reply →
      exchange clnt proc request = inr reply → carried R K clnt proc request rqstp s s'.

(** The names of a directory are in the server's memory while it is read. *)
Definition names_at K (h : Z) (pg : ptr) s : Prop :=
  ∀ g path f, server_rel s (Some g) → g !! h = Some path → filp_open path O_RDONLY = inr f →
    names_in pg (s_mem s) (dir_entries f).

(** The calls the kernel can make of the client, with the state the server is
    in afterwards. *)
Inductive world_call w : M (cstate * U) unit → sstate → Prop :=
  | wc_local R sb clnt prog :
      mounted R sb clnt →
      local_call (A := Ac) (Km := Kc) (V := V) (S := S) (G := G) sb (w_client w) prog →
      world_call w prog (w_server w)
  | wc_long R sb clnt h i f d :
      mounted R sb clnt → c_icache (w_client w) !! h = Some i →
      io_lookup (inode_table (A := Ac) (Km := Kc) (V := V) (ci_op i)) = Some f →
      VSNFS_MAXNAMLEN < d_len d →
      world_call w (in_client (f sb i d);; mret tt) (w_server w)
  | wc_lookup R sb clnt h i fh f d name rqstp s' :
      mounted R sb clnt → c_icache (w_client w) !! h = Some i →
      io_lookup (inode_table (A := Ac) (Km := Kc) (V := V) (ci_op i)) = Some f →
      handle_of (A := Ac) (w_client w) i fh →
      has_bytes (c_mem (w_client w)) (d_nm d) name → d_len d = zlen name →
      zlen name ≤ VSNFS_MAXNAMLEN →
      requested (A := As) rqstp (w_server w) (wire_lookup fh name) →
      carried R (w_kernel w) clnt VSNFSPROC_LOOKUP (wire_lookup fh name) rqstp (w_server w) s' →
      world_call w (in_client (f sb i d);; mret tt) s'
  | wc_read_on R sb clnt h i f pos junk :
      mounted R sb clnt → c_icache (w_client w) !! h = Some i →
      fo_readdir (file_table (A := Ac) (Km := Kc) (G := G) (ci_fop i)) = Some f → pos ≠ 0 →
      world_call w (f U filldir_fn sb (CFile pos i) junk;; mret tt) (w_server w)
  | wc_readdir R sb clnt h i fh f junk rqstp pg s' :
      mounted R sb clnt → c_icache (w_client w) !! h = Some i →
      fo_readdir (file_table (A := Ac) (Km := Kc) (G := G) (ci_fop i)) = Some f →
      handle_of (A := Ac) (w_client w) i fh →
      requested (A := As) rqstp (w_server w) (wire_readdir fh (PAGE_SIZE (H := Ac))) →
      listing_page (A := As) rqstp (w_server w) pg → names_at (w_kernel w) h pg (w_server w) →
      carried R (w_kernel w) clnt VSNFSPROC_READDIR (wire_readdir fh (PAGE_SIZE (H := Ac))) rqstp
        (w_server w) s' →
      world_call w (f U filldir_fn sb (CFile 0 i) junk;; mret tt) s'.

(** A call; a change of the file system that leaves the paths the server keeps
    to the inodes they are kept for; or anything the kernels do with the memory
    that is not the table's, or not that of a handle or a mapped page: requests
    and names come into it and go. *)
Inductive world_step : world → world → Prop :=
  | ws_call w prog s' c' u' :
      world_call w prog s' → prog (w_client w, w_user w) = Done (tt, (c', u')) →
      world_step w (World (w_kernel w) s' c' u')
  | ws_files w K' :
      served_fs K' → (∀ g, server_rel (w_server w) (Some g) → table_true K' g) →
      world_step w (World K' (w_server w) (w_client w) (w_user w))
  | ws_server_memory w D m :
      mem_wf m → agree D (s_mem (w_server w)) m → (∀ b, b ∈ table_blocks (w_server w) → b ∉ D) →
      world_step w (World (w_kernel w) (set_mem m (w_server w)) (w_client w) (w_user w))
  | ws_client_memory w D m :
      mem_wf m → agree D (c_mem (w_client w)) m → (∀ b, b ∈ c_kmaps (w_client w) → live m b) →
      (∀ h i p, c_icache (w_client w) !! h = Some i → ci_private i = Some p → p_blk p ∉ D) →
      world_step w (World (w_kernel w) (w_server w) (set_cmem m (w_client w)) (w_user w)).

(** ** What a step preserves *)
Lemma agreement_client g w R sb clnt :
  agreement g w → mounted R sb clnt →
  client_ok (A := Ac) (X := Xc) (R := R) sb clnt (w_client w).
Proof using. intros [] []. by split. Qed.

(** The invariant after a call, from what holds of each side. *)
Lemma agreement_after g g' w s' c' u' R sb clnt :
  agreement g w → client_ok (A := Ac) (X := Xc) (R := R) sb clnt c' →
  server_rel s' (Some g') → s_drefs s' = [] →
  knows (A := Ac) (fh_strtoul (A := As)) g' c' → table_true (w_kernel w) g' →
  paths_kept g' → agreement g' (World (w_kernel w) s' c' u').
Proof using. intros [Hf _ _ _ _ _ _ _ _] [_ Hm Hk _ Hi] Hs Hd Hkn Ht Hp. by split. Qed.

Lemma knows_kept g g' c c' :
  knows (A := Ac) (fh_strtoul (A := As)) g c → inodes_kept c c' →
  (∀ k, is_Some (g !! k) → is_Some (g' !! k)) →
  knows (A := Ac) (fh_strtoul (A := As)) g' c'.
Proof using.
  intros Hk [Hic [B Hs]] Hg h i Hi. rewrite Hic in Hi.
  destruct (Hk h i Hi) as (fh & Hf & ? & ? & ?). exists fh. split_and!; try done; [|by apply Hg].
  by eapply handle_of_scratch.
Qed.

Lemma remember_paths g i p : p ≠ [] → paths_kept g → paths_kept (remember g i p).
Proof using.
  intros Hp Hg. unfold remember. destruct (g !! i_ino i); [done|].
  intros h path [[_ <-]|[_ Hh]]%lookup_insert_Some; [|by eapply Hg].
  unfold entry_path, with_slash. repeat case_match; try done; by destruct p.
Qed.

Section carry.
Hypothesis Hkc : ∀ b, kmalloc_ok (Kmem := Kc) b = true.
Hypothesis Hks : ∀ b, kmalloc_ok (Kmem := Ks) b = true.
Hypothesis Him : ∀ c, inode_memory c = true.

(** A LOOKUP, carried: the server's table has grown or is as it was, and what
    the client receives is a handle the table has, or an error. *)
Lemma lookup_carried g w R clnt h dir fh name rqstp s' :
  agreement g w → g !! h = Some dir → fh_strtoul (A := As) fh = Done h → fh_wf fh →
  zlen name ≤ VSNFS_MAXNAMLEN → requested (A := As) rqstp (w_server w) (wire_lookup fh name) →
  carried R (w_kernel w) clnt VSNFSPROC_LOOKUP (wire_lookup fh name) rqstp (w_server w) s' →
  ∃ g', server_rel s' (Some g') ∧ s_drefs s' = [] ∧ table_true (w_kernel w) g' ∧
    paths_kept g' ∧ (∀ k, is_Some (g !! k) → is_Some (g' !! k)) ∧
    ((∃ e, exchange clnt VSNFSPROC_LOOKUP (wire_lookup fh name) = inl e) ∨
     ∃ i, exchange clnt VSNFSPROC_LOOKUP (wire_lookup fh name) =
            inr (wire_reply 0 (wire_fh (served_fh (A := As) i))) ∧
       is_Some (g' !! i_ino i) ∧ 0 ≤ i_ino i < 10 ^ 7 ∧
       (S_ISREG (i_mode i) = true ∨ S_ISDIR (i_mode i) = true)).
Proof using Ls Hks.
  intros [[Hkl Hsl Hin _] _ _ _ Hsr Hd Hk Ht Hp] Hg Hpar Hf Hl Hreq Hc.
  assert (∀ s1 reply, answers (A := As) (Km := Ks) (K := w_kernel w) (X := Xs) VSNFSPROC_LOOKUP rqstp
      (w_server w) s1 reply →
    ∃ i, path_lookup (ServerKernel := w_kernel w) (dir ++ name) = (0, Some i) ∧
      reply = wire_reply 0 (wire_fh (served_fh (A := As) i)) ∧
      server_rel s1 (Some (remember g i (dir ++ name))) ∧ s_drefs s1 = []) as Hans.
  { intros s1 reply Ha. pose proof (Hp h dir Hg) as Hne.
    eapply (lookup_answer_inv (A := As)); try done; [unfold VSNFS_MAXNAMLEN in Hl; lia|by destruct dir]. }
  assert (∀ i, path_lookup (ServerKernel := w_kernel w) (dir ++ name) = (0, Some i) →
    table_true (w_kernel w) (remember g i (dir ++ name)) ∧
    paths_kept (remember g i (dir ++ name))) as Hrem.
  { intros i Hi. split; [by apply remember_true|]. apply remember_paths; [|done].
    pose proof (Hp h dir Hg) as Hne. by destruct dir. }
  destruct Hc as [e He|e s' reply Ha He|s' reply Ha He].
  - exists g. split_and!; try done. left. by eexists.
  - destruct (Hans _ _ Ha) as (i & Hi & _ & Hs & Hd'). destruct (Hrem i Hi) as [? ?].
    eexists. split_and!; [exact Hs|done|done|done|apply remember_keeps|left; by eexists].
  - destruct (Hans _ _ Ha) as (i & Hi & -> & Hs & Hd'). destruct (Hrem i Hi) as [? ?].
    destruct (Hin _ _ Hi) as [Hty Hn].
    eexists. split_and!; [exact Hs|done|done|done|apply remember_keeps|].
    right. exists i. split_and!; try done; [apply remember_has|lia|lia].
Qed.

(** A READDIR, carried: the table is as it was, and the client receives what
    the protocol says. *)
Lemma readdir_carried g w R clnt h path fh rqstp pg s' :
  agreement g w → g !! h = Some path → fh_strtoul (A := As) fh = Done h → fh_wf fh →
  requested (A := As) rqstp (w_server w) (wire_readdir fh (PAGE_SIZE (H := Ac))) →
  listing_page (A := As) rqstp (w_server w) pg → names_at (w_kernel w) h pg (w_server w) →
  carried R (w_kernel w) clnt VSNFSPROC_READDIR (wire_readdir fh (PAGE_SIZE (H := Ac))) rqstp
    (w_server w) s' →
  server_rel s' (Some g) ∧ s_drefs s' = [] ∧
  readdir_reply (A := Ac) (exchange clnt VSNFSPROC_READDIR (wire_readdir fh (PAGE_SIZE (H := Ac)))).
Proof using Ls Hks.
  intros [[Hkl _ _ Hes] _ _ _ Hsr Hd _ _ _] Hg Hpar Hf Hreq Hpg Hn Hc.
  pose proof (PAGE_SIZE_range (H := Ac)) as HP.
  assert (∀ s1 reply, answers (A := As) (Km := Ks) (K := w_kernel w) (X := Xs) VSNFSPROC_READDIR rqstp
      (w_server w) s1 reply →
    server_rel s1 (Some g) ∧ s_drefs s1 = [] ∧ readdir_reply (A := Ac) (inr reply)) as Hans.
  { intros s1 reply Ha. rewrite <-Hd.
    destruct (readdir_answer_inv (A := As) (Km := Ks) (K := w_kernel w) (X := Xs) (w_server w) s1 g rqstp fh
      (PAGE_SIZE (H := Ac)) pg h path reply) as (Hs & Hd' & Hreply); try done; [split; lia|naive_solver|].
    split_and!; [done|done|].
    destruct Hreply as [(es & eof & -> & Hok & Hlen)|(st & Hst & ->)].
    - apply readdir_entries; [lia|done].
    - destruct (status_is_error st Hst) as (H0 & e & He & Hneg). by apply (readdir_status _ e). }
  destruct Hc as [e He|e s' reply Ha He|s' reply Ha He]; rewrite He.
  - split_and!; [done|done|constructor].
  - destruct (Hans _ _ Ha) as (? & ? & _). split_and!; [done|done|constructor].
  - by apply Hans.
Qed.

(** Changes of memory that is not the module's. *)
Lemma server_memory g s D m :
  server_rel s (Some g) → mem_wf m → agree D (s_mem s) m →
  (∀ b, b ∈ table_blocks s → b ∉ D) → server_rel (set_mem m s) (Some g).
Proof using.
  intros [_ Hs] Hm Ha Hd. split; [done|]. unfold table_blocks in Hd. simpl.
  destruct (s_tab s) as [l|]; [|done]. by eapply table_rel_agree.
Qed.
Lemma client_memory g w D m :
  agreement g w → mem_wf m → agree D (c_mem (w_client w)) m →
  (∀ b, b ∈ c_kmaps (w_client w) → live m b) →
  (∀ h i p, c_icache (w_client w) !! h = Some i → ci_private i = Some p → p_blk p ∉ D) →
  agreement g (World (w_kernel w) (w_server w) (set_cmem m (w_client w)) (w_user w)).
Proof using.
  intros [Hf _ _ Hi Hs Hd Hk Ht Hp] Hm Ha Hkm Hh. split; try done.
  - intros h i E. destruct (Hi h i E) as [? ? ? ? (p & t & Hpr & (fh & H1 & H2 & H3 & H4) & Hat)].
    split; try done. exists p, t. split_and!; try done. exists fh. split_and!; try done.
    simpl. eapply agree_has_bytes; [exact Ha| |done]. by eapply Hh.
  - intros h i E. destruct (Hk h i E) as (fh & (H1 & p & Hpr & Hb) & Hrest). exists fh. split; [|done].
    split; [done|]. exists p. split; [done|]. simpl.
    eapply agree_has_bytes; [exact Ha| |done]. by eapply Hh.
Qed.

(** What a call leaves behind. *)
Definition call_ok w (prog : M (cstate * U) unit) s' : Prop :=
  ∃ c' u' g', prog (w_client w, w_user w) = Done (tt, (c', u')) ∧
    agreement g' (World (w_kernel w) s' c' u').

Lemma call_kept g g' w s' {T} (f : M cstate T) r c' R sb clnt :
  agreement g w → f (w_client w) = Done (r, c') →
  client_ok (A := Ac) (X := Xc) (R := R) sb clnt c' → inodes_kept (w_client w) c' →
  server_rel s' (Some g') → s_drefs s' = [] → table_true (w_kernel w) g' → paths_kept g' →
  (∀ k, is_Some (g !! k) → is_Some (g' !! k)) →
  call_ok w (in_client f;; mret tt) s'.
Proof using.
  intros Ha E Hc Hk Hs Hd Ht Hp Hg. exists c', (w_user w), g'. split.
  - by mstep in_client_Done; [exact E|].
  - eapply agreement_after; try done. by eapply knows_kept; [apply Ha| |].
Qed.

Lemma local_call_ok g w R sb clnt prog :
  agreement g w → mounted R sb clnt →
  local_call (A := Ac) (Km := Kc) (V := V) (S := S) (G := G) sb (w_client w) prog →
  call_ok w prog (w_server w).
Proof using Lc VL SL GL.
  intros Ha Hm Hl. pose proof (agreement_client _ _ _ _ _ Ha Hm) as Hc. pose proof (mo_laws _ _ _ Hm) as RL.
  destruct (local_call_returns (A := Ac) (X := Xc) (R := R) sb clnt (w_client w) (w_user w) prog Hc Hl)
    as (c' & u' & E & Hc' & He).
  exists c', u', g. split; [exact E|]. eapply agreement_after; try done; try apply Ha.
  destruct He as [->|(h & i & Hi & Hn & Ei)]; [apply Ha|].
  eapply (drop_knows Ac As V); [apply Ha|exact Hi|done|exact Ei].
Qed.

Lemma lookup_call_ok g w R sb clnt h i fh d name rqstp s' :
  agreement g w → mounted R sb clnt → c_icache (w_client w) !! h = Some i →
  handle_of (A := Ac) (w_client w) i fh →
  has_bytes (c_mem (w_client w)) (d_nm d) name → d_len d = zlen name →
  zlen name ≤ VSNFS_MAXNAMLEN →
  requested (A := As) rqstp (w_server w) (wire_lookup fh name) →
  carried R (w_kernel w) clnt VSNFSPROC_LOOKUP (wire_lookup fh name) rqstp (w_server w) s' →
  call_ok w (in_client (vsnfs_lookup (A := Ac) (Km := Kc) (V := V) sb i d);; mret tt) s'.
Proof using Lc Ls VL Hkc Hks Him.
  intros Ha Hm Hi Hh Hnm Hlen Hl Hreq Hcar. pose proof (mo_laws _ _ _ Hm) as RL.
  pose proof (agreement_client _ _ _ _ _ Ha Hm) as Hc.
  destruct (ag_known _ _ Ha h i Hi) as (fh0 & Hf0 & Hown & Hpar & [dir Hg]).
  rewrite (handle_of_unique (A := Ac) _ _ _ _ Hf0 Hh) in Hown, Hpar.
  destruct (lookup_carried g w R clnt h dir fh name rqstp s')
    as (g' & Hs & Hd & Ht & Hp & Hgg & Hx); try done; [apply Hh|].
  destruct Hx as [[e He]|(i' & He & Hgi & Hn & Hty)].
  - destruct (lookup_refused_call (A := Ac) (Km := Kc) (X := Xc) sb clnt Hkc (w_client w) i fh d name)
      as (r & c' & E & Hc' & Hk); try done; [by eapply handle_of_dir|..].
    { rewrite He. constructor. apply exchange_err in He. lia. }
    by eapply call_kept.
  - pose proof (served_fh_type (A := As) i' Hty) as Hft.
    destruct (lookup_received (A := Ac) (Km := Kc) (X := Xc) (fh_strtoul (A := As)) sb clnt (w_client w) i fh
      d name g g' (served_fh (A := As) i') (i_ino i'))
      as (r & c' & ic & E & _ & Hc' & Hk' & _); try done;
      [apply Ha|apply served_fh_wf| |by apply served_fh_parses|by apply served_fh_parses|].
    { unfold reg_or_dir. rewrite Hft. destruct (S_ISREG (i_mode i')); auto. }
    exists c', (w_user w), g'. split; [by mstep in_client_Done; [exact E|]|]. by eapply agreement_after.
Qed.

Lemma readdir_call_ok g w R sb clnt h i fh junk rqstp pg s' :
  agreement g w → mounted R sb clnt → c_icache (w_client w) !! h = Some i →
  handle_of (A := Ac) (w_client w) i fh →
  requested (A := As) rqstp (w_server w) (wire_readdir fh (PAGE_SIZE (H := Ac))) →
  listing_page (A := As) rqstp (w_server w) pg → names_at (w_kernel w) h pg (w_server w) →
  carried R (w_kernel w) clnt VSNFSPROC_READDIR (wire_readdir fh (PAGE_SIZE (H := Ac))) rqstp
    (w_server w) s' →
  call_ok w (vsnfs_readdir (A := Ac) (Km := Kc) filldir_fn sb (CFile 0 i) junk;; mret tt) s'.
Proof using Lc Ls FL Hkc Hks.
  intros Ha Hm Hi Hh Hreq Hpg Hn Hcar. pose proof (mo_laws _ _ _ Hm) as RL.
  pose proof (agreement_client _ _ _ _ _ Ha Hm) as Hc.
  destruct (ag_known _ _ Ha h i Hi) as (fh0 & Hf0 & _ & Hpar & [path Hg]).
  rewrite (handle_of_unique (A := Ac) _ _ _ _ Hf0 Hh) in Hpar.
  destruct (readdir_carried g w R clnt h path fh rqstp pg s') as (Hs & Hd & Hx); try done; [apply Hh|].
  destruct (readdir_received (A := Ac) (Km := Kc) (X := Xc) filldir_fn deliver sb clnt Hkc (w_client w)
    (w_user w) i fh junk) as (r & c' & u' & E & Hc' & Hk); try done; [by eapply handle_of_dir|].
  exists c', u', g. split; [by mstep E|]. eapply agreement_after; try done; try apply Ha.
  by eapply knows_kept; [apply Ha| |].
Qed.

Lemma world_call_ok g w prog s' : agreement g w → world_call w prog s' → call_ok w prog s'.
Proof using Lc Ls VL SL GL FL Hkc Hks Him.
  intros Ha Hw. destruct Hw as [R sb clnt prog Hm Hl|R sb clnt h i f d Hm Hi Hf Hl
    |R sb clnt h i fh f d name rqstp s' Hm Hi Hf Hh Hnm Hlen Hl Hreq Hc
    |R sb clnt h i f pos junk Hm Hi Hf Hp|R sb clnt h i fh f junk rqstp pg s' Hm Hi Hf Hh Hreq Hpg Hn Hc].
  - by eapply local_call_ok.
  - destruct (ci_op i); try discriminate Hf. injection Hf as <-. pose proof (mo_laws _ _ _ Hm) as RL.
    destruct (lookup_long_call (A := Ac) (Km := Kc) (X := Xc) sb clnt Hkc (w_client w) i d)
      as (r & c' & E & Hc' & Hk); [by eapply agreement_client|done|].
    eapply call_kept; try done; apply Ha.
  - destruct (ci_op i); try discriminate Hf. injection Hf as <-. by eapply lookup_call_ok.
  - destruct (ci_fop i); try discriminate Hf. injection Hf as <-. exists (w_client w), (w_user w), g.
    split; [by mstep (readdir_done_call (A := Ac) (Km := Kc) filldir_fn sb (w_client w) (w_user w) i pos junk Hp)|].
    destruct Ha. by split.
  - destruct (ci_fop i); try discriminate Hf. injection Hf as <-. by eapply readdir_call_ok.
Qed.

Lemma world_step_ok w w' : (∃ g, agreement g w) → world_step w w' → ∃ g, agreement g w'.
Proof using Lc Ls VL SL GL FL Hkc Hks Him.
  intros [g Ha] Hst. destruct Hst as [w prog s' c' u' Hw E|w K' Hf Ht|w D m Hm Hag Hd|w D m Hm Hag Hkm Hh].
  - destruct (world_call_ok g w prog s' Ha Hw) as (c1 & u1 & g' & E1 & Ha').
    rewrite E1 in E. injection E as <- <-. by exists g'.
  - exists g. destruct Ha. split; try done. by apply Ht.
  - exists g. destruct Ha. split; try done. by eapply server_memory.
  - exists g. by eapply client_memory.
Qed.
End carry.

(** Where a mount ends, client and server agree. *)
Lemma agreement_of R K sb clnt c s g u :
  served_fs K → s_drefs s = [] → paths_kept g →
  system_ok Ac As Xc R K sb clnt c s g → agreement g (World K s c u).
Proof using. intros Hf Hd Hp [[_ H1 H2 _ H3] H4 H5 H6]. by split. Qed.

(** C4: Client and server stay in agreement, call after call, over a file system
    that changes and a network that loses requests and answers.  From a world
    in agreement (as a mount leaves it), after any sequence of steps, each of
    them any call the kernel can make of the client, whatever of its request
    and its answer arrives, a change of the file system that leaves the paths
    in the server's table to the inodes they are kept for, or a change of
    memory that is not the modules': every inode the
    client knows is one the server has a path for, and that path resolves, on
    the server, to the inode with the number the client knows it by.  Moreover
    every call the kernel can make next returns, and leaves the two in
    agreement.  The file system exports regular files and directories with
    numbers below 10,000,000 only (larger ones break the agreement), memory is to
    be had, and a request on which the server faults is one that is lost. *)
Theorem system_agrees w w' :
  (∀ b, kmalloc_ok (Kmem := Kc) b = true) → (∀ b, kmalloc_ok (Kmem := Ks) b = true) →
  (∀ c, inode_memory c = true) →
  (∃ g, agreement g w) → rtc world_step w w' →
  (∃ g, server_rel (w_server w') (Some g) ∧
     ∀ h i, c_icache (w_client w') !! h = Some i →
       ∃ path info, g !! h = Some path ∧
         path_lookup (ServerKernel := w_kernel w') path = (0, Some info) ∧ i_ino info = h) ∧
  ∀ prog s', world_call w' prog s' →
    ∃ c' u' g', prog (w_client w', w_user w') = Done (tt, (c', u')) ∧
      agreement g' (World (w_kernel w') s' c' u').
Proof using Lc Ls VL SL GL FL.
  intros Hkc Hks Him Hw Hr.
  assert (∃ g, agreement g w') as [g Ha].
  { induction Hr as [|w w1 w' Hst _ IH]; [done|]. apply IH. by eapply world_step_ok. }
  split; [|intros prog s' Hc; by eapply world_call_ok].
  exists g. split; [apply Ha|]. intros h i Hi.
  destruct (ag_known _ _ Ha h i Hi) as (_ & _ & _ & _ & [path Hp]).
  destruct (ag_true _ _ Ha h path Hp) as (info & Hl & Hn). by exists path, info.
Qed.
End agreement.

(** ** Example: a lookup whose answer arrives *)
Lemma ex_served_fs : served_fs ex_kernel.
Proof.
  split.
  - apply kernel_ref_laws.
  - apply ex_slashes.
  - intros p i Hp. cbn [path_lookup ex_kernel kernel_ref find kf_path] in Hp.
    repeat case_bool_decide; simplify_eq/=; (split; [by (left + right)|lia]).
  - intros p f _. constructor.
Qed.
Lemma ex_mounted : mounted x86_64 (sunrpc_ref (H := x86_64)) ex_peer ex_peer_fs 1.
Proof. split; [apply ex_peer_laws|by eexists|done]. Qed.
Definition ex_world : world := World ex_kernel (ex_wire_server ex_lookup_wire) ex_peer_cl ([] : list (list byte * Z * Z * Z)).
Lemma ex_agreement : agreement x86_64 ppc_32 ex_table ex_world.
Proof.
  apply (agreement_of x86_64 ppc_32 (sunrpc_ref (H := x86_64)) ex_peer ex_kernel ex_peer_fs 1).
  - apply ex_served_fs.
  - done.
  - intros h p Hp. unfold ex_table in Hp. by apply lookup_singleton_Some in Hp as [_ <-].
  - apply ex_system; [done|apply ex_wire_server_rel].
Qed.

Definition ex_step : world → world → Prop :=
  world_step x86_64 ppc_32 (kmem_ref []) (kmem_ref []) (sunrpc_ref (H := x86_64))
    (sunrpc_ref (H := ppc_32)) vfs_ref (super_ref (inr 1)) generic_ref (filldir_ref 10).
Lemma ex_lookup_step :
  ∃ c s i, ex_step ex_world (World ex_kernel s c []) ∧ c_icache c !! 7 = Some i.
Proof.
  destruct (lookup_step x86_64 ppc_32 (kmem_ref []) (kmem_ref []) (sunrpc_ref (H := x86_64))
    (sunrpc_ref (H := ppc_32)) ex_peer (RL := ex_peer_laws) vfs_ref ex_kernel
    ex_peer_fs 1 ex_peer_cl (ex_wire_server ex_lookup_wire) ex_table 2 ex_pdir ex_pdirfh ex_dirpath
    ex_dentry ex_filename (ex_rqst ex_lookup_wire) (InodeInfo 7 S_IFREG)
    ltac:(done) ltac:(done) ltac:(done) ex_slashes
    (ex_system ex_kernel (ex_wire_server ex_lookup_wire) eq_refl (ex_wire_server_rel _)) ltac:(done)
    ex_peer_handle ltac:(done) ltac:(by_eval) ltac:(done) ltac:(by_eval) ltac:(done) ltac:(by_eval)
    ltac:(done) ltac:(by left) ltac:(by vm_compute) ex_lookup_delivered)
    as (r & c & s & i & E & _ & [reply Ha] & _ & Hic & _).
  exists c, s, i. split; [|rewrite Hic; apply lookup_insert_eq].
  refine (ws_call _ _ _ _ _ _ _ _ _ _ ex_world _ s c [] _ _).
  - eapply (wc_lookup _ _ _ _ _ _ _ _ _ _ ex_world ex_peer ex_peer_fs 1 2 ex_pdir ex_pdirfh _ ex_dentry
      ex_filename (ex_rqst ex_lookup_wire) s).
    + exact ex_mounted.
    + done.
    + reflexivity.
    + exact ex_peer_handle.
    + by_eval.
    + done.
    + simpl. unfold VSNFS_MAXNAMLEN. by vm_compute.
    + apply ex_lookup_delivered.
    + eapply reply_arrives; [exact Ha|]. by eapply ex_lookup_delivered.
  - simpl. by mstep in_client_Done; [exact E|].
Qed.

(** After a lookup the client knows inode 7, and the server has a path for it. *)
Lemma system_agrees_witness :
  ∃ c s i, ex_step ex_world (World ex_kernel s c []) ∧ c_icache c !! 7 = Some i ∧
    ∃ g, server_rel s (Some g) ∧ ∃ path info, g !! 7 = Some path ∧
      path_lookup (ServerKernel := ex_kernel) path = (0, Some info) ∧ i_ino info = 7.
Proof.
  destruct ex_lookup_step as (c & s & i & Hst & Hi). exists c, s, i. split; [exact Hst|]. split; [exact Hi|].
  destruct (system_agrees x86_64 ppc_32 (kmem_ref []) (kmem_ref []) (sunrpc_ref (H := x86_64))
    (sunrpc_ref (H := ppc_32)) vfs_ref (super_ref (inr 1)) generic_ref (filldir_ref 10) (deliver_ref 10)
    ex_world (World ex_kernel s c [])) as [(g & Hg & Hk) _].
  - done.
  - done.
  - done.
  - exists ex_table. exact ex_agreement.
  - apply rtc_once. exact Hst.
  - exists g. split; [exact Hg|]. exact (Hk 7 i Hi).
Defined.
